(* ===== verification/_CoqProject ===== *)
-Q . S2P
Prelude.v
Fmt.v
MemMap.v
FrameAlloc.v
FramePool.v
FrameNew.v
FrameSpec.v
FrameTest.v
Heap.v
HeapTiles.v
HeapFacts.v
HeapFrame.v
HeapSpec.v
Vec.v
VecFacts.v
HeapTest.v
Machine.v
Descriptors.v
DescriptorFacts.v
Pic.v
Interrupts.v
InterruptFacts.v
FrameSource.v
Paging.v
PagingFacts.v
Ring.v
Sync.v
Input.v
Keyboard.v
KeyboardFacts.v
Task.v
TaskFacts.v
SwitchFacts.v
Ata.v
AtaFacts.v
GoatFs.v
GoatFsFacts.v
GoatFsSpec.v
Vga.v
VgaFacts.v
Shell.v
ShellFacts.v
Layout.v
Serial.v
Pit.v
Graphics.v
Boot.v
BootMachine.v
BootMemory.v
BootFacts.v
Deliver.v
System.v
SystemProgress.v
Session.v
HandlerFacts.v
Booting.v
BootingFacts.v
SystemFacts.v
SessionFacts.v
Trigger.v
TriggerFacts.v
