(* ===== verification/Prelude.v ===== *)
(** * GOATos: a verification library for the kernel

    GOATos is a 32-bit x86 kernel in Rust ([kernel/src]) started by a
    hand-written boot sector ([boot/boot.asm]). This library translates it,
    component by component, into executable definitions and proves what makes
    each component correct. Names follow the source; the first comment of each
    file says which source file it translates.

    ** The program and the files

    Boot. The boot sector collects the BIOS memory map and jumps to
    [kernel_main] ([main.rs]), which starts every component in turn and becomes
    task 0, the shell.
    - [MemMap]: [memory/map.rs] ([Map.load]) and the boot sector's
      [detect_memory], which writes the block it reads.
    - [Boot]: [kernel_main] stage by stage ([start_display] ... [start_tasks],
      composed in [start_core] and [start_services]) over the record [Kernel] of
      all components' statics, the locks of the two print writers among them.
      [BootMachine]: a device that is interrupt
      controller, timer, keyboard and drive at once. [BootMemory]: what the boot
      stages do to memory, one after the other. [BootFacts]: that the whole
      sequence succeeds. [Booting], [BootingFacts]: the same with interrupts
      between the stages, once they are enabled.
    - [System]: the kernel after boot as a step relation: the bodies of
      [shell_task] and of the two demo tasks statement by statement, the switch
      between them, interrupts between any two statements.
      [SystemProgress]: what is left to do before the machine is idle.
      [HandlerFacts]: what the controllers can raise, and that it is handled.
      [SystemFacts]: the invariant and what follows from it. [Session]: what
      the user of a terminal sees, with none of that; [SessionFacts]: that
      every run of [System] is such a session.

    Memory. Frames come from the map, paging and the heap take frames, [Vec]
    and task stacks take heap blocks.
    - [FrameAlloc]: [memory/frame.rs], with its free list threaded through the
      free frames. [FramePool]: the abstract pool and the simulation;
      [FrameNew]: which frames [new] puts in it; [FrameSpec]: the guarantees;
      [FrameTest]: the boot self-test.
    - [FrameSource]: what paging needs of an allocator, as the class
      [FrameSourceLaws]; the frame allocator is an instance.
    - [Paging], [PagingFacts]: [memory/paging.rs], the tables it builds and the
      MMU's walk over them ([Mmu.translate]), through which [is_present] reads
      the tables back once paging is on.
    - [Heap]: [memory/heap.rs], first fit with an address-ordered coalescing
      free list threaded through the blocks. [HeapTiles]: the abstract row of
      blocks; [HeapFacts], [HeapFrame], [HeapSpec]: simulation, what is left
      alone, guarantees.
    - [Vec], [VecFacts], [HeapTest]: byte vectors as the heap's self-test uses
      them, and the self-test.
    - [Layout]: [memory/layout.rs], which the crate does not include.

    Processor and interrupts.
    - [Machine]: registers and ports. [Descriptors], [DescriptorFacts]:
      [gdt.rs], [tss.rs], [idt.rs] and how the processor decodes the tables.
    - [Interrupts], [InterruptFacts]: [exceptions.rs], [interrupts.rs].
      [Deliver]: from a vector through the IDT to the handler, on the whole
      kernel state, and back; through a task gate by a task switch that decodes
      the descriptors of both TSSes, saves the old state and loads the new one.
      [Trigger], [TriggerFacts]: the debug triggers of
      both files, compiled in by feature flags.
    - [Pic]: [pic.rs] with the 8259A pair; [Pit]: [pit.rs] with the 8254.
    - [Sync]: [sync.rs], the interrupt-masking mutex.

    Devices and users.
    - [Ring], [Input]: [input.rs]; [Keyboard], [KeyboardFacts]: [keyboard.rs].
    - [Task]: [task/mod.rs] and [task/switch.s]; [TaskFacts]: the ready ring;
      [SwitchFacts]: registers and stack words.
    - [Ata], [AtaFacts]: [ata.rs]; [GoatFs], [GoatFsFacts], [GoatFsSpec]:
      [fs.rs] and the packing tool [build-goatfs.py].
    - [Vga], [VgaFacts]: [vga.rs]; [Serial]: [serial.rs]; [Graphics]:
      [framebuffer.rs], [graphics.rs].
    - [Shell], [ShellFacts]: [shell.rs]. [Fmt]: the part of [core::fmt] used.

    This file holds what all share: [outcome], fixed-width arithmetic, memory,
    bounded loops, slices, tactics and the hint database.

    ** How code is modelled

    A component's statics are a record, an operation is a function from that
    record (and memory, device, CPU) to its new value. [outcome] is what
    running code produces: [Done], [Panicked] (the development profile's
    overflow checks, indexing, [expect], [debug_assert]) or [Spinning] (a loop
    did not end within its fuel). Theorems say [Done] where the code returns;
    none is only about runs that happen to return. A [u32], [usize] or address
    is a [Z] in range, its additions and subtractions checked as in the source
    ([add_u32], [wrapping_add_u32], [saturating_add_u32]). Memory maps an
    address to the 32-bit word stored there; structures threaded through memory
    (free list, heap headers, page tables, stacks) live in it.

    Devices are type parameters with [PortIO] or [WordIO]; what a component
    relies on is a class of laws stating the device's documented behaviour
    ([PicDevice], [PitDevice], [KeyboardDevice], [AtaDevice], [UartLaws]), each
    with a concrete instance. Link-time addresses ([Image], [Entries],
    [Program]) and the BIOS are parameters too.

    ** What the theorems show

    - Frames: where the usable entries of the memory map are disjoint ([map_ok];
      the code does not check it, [overlapping_map_double_hand_out]), every
      frame is held by at most one client and never reserved
      ([exclusive_ownership]); allocate, free and allocate_contiguous refine the
      abstract pool, with all three errors of free; [new] pools exactly the
      frames it should.
    - Heap: allocated blocks never overlap each other or the bookkeeping, and
      client writes keep it so ([heap_isolation]); first fit, coalescing, full
      recovery, round trip, initialisation and self-test.
    - Paging: after [init] every mapped address translates to itself and the
      guard page does not translate, with nothing written outside the frames it
      took; running out of frames leaves paging off; a page directory above the
      mapped end makes [init] fault ([unmapped_directory_stops_init]).
    - Tasks: no task is lost or duplicated, round robin is fair, a yield
      resumes exactly the registers the next task parked, a spawned task
      starts at its entry.
    - Disk: [read_lba] delivers the sectors of any drive obeying the laws and
      returns on any device; what the packing tool wrote is what [read_file]
      and [cat] give; a corrupt image is contained.
    - Input: what is typed on a US keyboard arrives in order, is shown on the
      console and is what the shell runs; the console shows the last lines.
    - Interrupts: every vector has its handler, descriptors decode to what they
      were built from, remapping, masking and acknowledging are exact, the
      timer runs at its frequency, critical sections nest.
    - [boot.asm] to [map.rs]: what the BIOS reports is what [load] returns.
    - Boot: on a machine with enough memory, mapped as [memory_ok] says, a
      zeroed [.bss] ([loaded]), a drive and the shipped image, [kernel_main]
      reaches the shell with every component in the state the theorems above
      start from, and with a line in the log for each pattern that
      [scripts/ci-test.sh] requires ([kernel_boots]). The scheduler's statics do
      depend on [.bss]: [dirty_scheduler_no_boot].
    - The terminal: whatever the interleaving, what the kernel has printed
      since its first prompt is the reply to each key in turn, with status lines
      between them, and the keys are those the keyboard's bytes decode to
      ([kernel_is_a_terminal]). It takes in the keyboard, the queue, the line
      editor, the commands, file system and drive.
    - The running system: no interleaving of boot stages, tasks and interrupts
      makes it panic, halt or go astray ([kernel_runs]); left alone it halts
      within 144 statements, with every waiting key through the line editor
      ([kernel_goes_idle]); with a trigger compiled in, the exception or
      interrupt it raises is reported by the handler meant for it, also while
      the print writers' locks are held ([triggers_report]).

    ** Bounds and fuel

    The source's bounded loops ([SPIN_LIMIT] polls, the self-tests, fixed
    tables) keep their bounds. Unbounded loops get fuel that is proved enough:
    [loop_fuel] counts frames and regions left before the cursor, [walk_fuel]
    the blocks a heap can hold, [send_fuel] the polls until a UART that becomes
    ready does, [drain_input] one more than the queue's capacity, [blow_stack]
    the bytes below the stack pointer, which every call lowers.

    ** What is simplified

    Everything the kernel touches after paging is on lies in memory that is
    mapped to itself ([up_memory] says so of heap and image), so its loads and
    stores are not translated, except where the mapping is the point: the reads
    of [is_present], the writes of [blow_stack]. A print is a critical section
    on its writer's lock. Handlers and triggers, which can find that lock taken,
    run it as one ([Boot.prints]); the boot stages and tasks, which hold no
    lock, add what they print to the log directly, which is the same
    ([Boot.prints_done]).

    ** Not modelled

    Interrupts in the middle of a stage of [kernel_main] or of a statement of a
    task: they come between them (critical sections inside one run masked).
    What the panic handlers print: a panic is an outcome of its own, after which
    nothing runs, as [hlt_loop] has it. Of the machine code only
    [task/switch.s] and the instructions of the triggers; the boot sector apart
    from [detect_memory] (firmware calls and mode switches); build scripts and
    the web pages. *)

From stdpp Require Export prelude gmap list list_numbers strings.
From Stdlib Require Export ZArith Lia.

#[global] Open Scope Z_scope.

Declare Scope goat_scope.
Delimit Scope goat_scope with goat.
#[global] Open Scope goat_scope.

(** ** Outcomes

    What running a piece of kernel code produces: a value, a Rust panic
    (overflow checks, failed assertions, out-of-range indexing), or no answer
    within the fuel the model gave a loop. Theorems that an operation returns
    are theorems that its outcome is [Done]. *)

Inductive outcome (A : Type) : Type :=
| Done (a : A)
| Panicked
| Spinning.
Arguments Done {A} a.
Arguments Panicked {A}.
Arguments Spinning {A}.

#[export] Instance outcome_ret : MRet outcome := fun A a => Done a.
#[export] Instance outcome_bind : MBind outcome := fun A B f o =>
  match o with
  | Done a => f a
  | Panicked => Panicked
  | Spinning => Spinning
  end.

Definition outcome_of_option {A} (o : option A) : outcome A :=
  match o with Some a => Done a | None => Panicked end.

(** A [while] loop: the body either continues with a new state or leaves the
    loop with a result. *)
Fixpoint run_loop {S R : Type} (fuel : nat) (body : S -> S + R) (s : S) : outcome R :=
  match fuel with
  | O => Spinning
  | Datatypes.S fuel =>
      match body s with
      | inl s' => run_loop fuel body s'
      | inr r => Done r
      end
  end.

(** A bounded [for _ in 0..n] loop whose body may leave early. *)
Fixpoint for_loop {S R : Type} (n : nat) (body : S -> S + R) (s : S) : S + R :=
  match n with
  | O => inl s
  | Datatypes.S n =>
      match body s with
      | inl s' => for_loop n body s'
      | inr r => inr r
      end
  end.

(** [for x in l]: the body may panic. *)
Fixpoint for_each {A S : Type} (l : list A) (body : A -> S -> outcome S) (s : S) : outcome S :=
  match l with
  | [] => Done s
  | x :: l => s ← body x s; for_each l body s
  end.

(** ** Machine integers *)

Definition U8_MAX : Z := 2 ^ 8 - 1.
Definition U32_MAX : Z := 2 ^ 32 - 1.
Definition U64_MAX : Z := 2 ^ 64 - 1.

(** [x as u8], [x as u16], [x as u32]: truncation. *)
Definition as_u8 (z : Z) : Z := z mod 2 ^ 8.
Definition as_u16 (z : Z) : Z := z mod 2 ^ 16.
Definition as_u32 (z : Z) : Z := z mod 2 ^ 32.

Definition saturating_add_u32 (a b : Z) : Z := Z.min (a + b) U32_MAX.
Definition saturating_add_u64 (a b : Z) : Z := Z.min (a + b) U64_MAX.
Definition saturating_sub (a b : Z) : Z := Z.max (a - b) 0.
Definition wrapping_add_u32 (a b : Z) : Z := as_u32 (a + b).
(** [usize] is 32 bits wide on this target. *)
Definition checked_add_usize (a b : Z) : option Z :=
  if a + b <=? U32_MAX then Some (a + b) else None.
(** [a + b] and [a - b] on [u32]/[usize] with overflow checks on, which is how
    the default [dev] profile builds the kernel. *)
Definition add_u32 (a b : Z) : outcome Z :=
  if a + b <=? U32_MAX then Done (a + b) else Panicked.
Definition sub_u32 (a b : Z) : outcome Z :=
  if b <=? a then Done (a - b) else Panicked.

Definition mul_u32 (a b : Z) : outcome Z :=
  if a * b <=? U32_MAX then Done (a * b) else Panicked.

Definition is_u8 (z : Z) : Prop := 0 <= z < 2 ^ 8.
Definition is_u16 (z : Z) : Prop := 0 <= z < 2 ^ 16.
Definition is_u32 (z : Z) : Prop := 0 <= z < 2 ^ 32.
Definition is_u64 (z : Z) : Prop := 0 <= z < 2 ^ 64.

(** [x & BIT != 0]. *)
Definition has_bits (x mask : Z) : bool := negb (Z.land x mask =? 0).

(** ** Physical memory

    Memory is the map from 4-byte aligned addresses to the 32-bit word stored
    there; a word the map does not mention holds 0. Every finite contents of
    RAM is such a map, so a theorem about all maps covers uninitialised RAM. *)

Abbreviation mem := (gmap Z Z).

Definition load (m : mem) (a : Z) : Z := default 0 (m !! a).
Definition store (m : mem) (a v : Z) : mem := <[a := v]> m.
(** A little-endian 64-bit load. *)
Definition load_u64 (m : mem) (a : Z) : Z := load m a + 2 ^ 32 * load m (a + 4).

(** Two memories agree on a set of addresses. *)
Definition agree_on (P : Z -> Prop) (m m' : mem) : Prop :=
  forall a, P a -> load m' a = load m a.

(** ** Ranges and arrays *)

(** [start..start + n] as a list. *)
Fixpoint zrange (start : Z) (n : nat) : list Z :=
  match n with
  | O => []
  | S n => start :: zrange (start + 1) n
  end.

(** [start..end] as a list; empty when [end <= start]. *)
Definition range_list (lo hi : Z) : list Z := zrange lo (Z.to_nat (hi - lo)).

(** [slice.iter().position(p)] *)
Fixpoint position {A} (p : A -> bool) (l : list A) : option nat :=
  match l with
  | [] => None
  | x :: l => if p x then Some 0%nat else S <$> position p l
  end.

(** [a[i]] and [a[i] = x]: indexing past the end panics. *)
Definition index_get {A} (l : list A) (i : nat) : outcome A := outcome_of_option (l !! i).
Definition index_set {A} (l : list A) (i : nat) (x : A) : outcome (list A) :=
  if (i <? length l)%nat then Done (<[i := x]> l) else Panicked.

(** [a[start..start + n]] and [a[start..start + len(x)].copy_from_slice(x)]. *)
Definition slice_get {A} (l : list A) (start n : nat) : outcome (list A) :=
  if (start + n <=? length l)%nat then Done (take n (drop start l)) else Panicked.
Definition slice_set {A} (l : list A) (start : nat) (x : list A) : outcome (list A) :=
  if (start + length x <=? length l)%nat then Done (take start l ++ x ++ drop (start + length x) l) else Panicked.

Notation "m .[ a ]" := (load m a)
  (at level 1, left associativity, a at level 200, format "m .[ a ]") : goat_scope.
Notation "m .[ a <- v ]" := (store m a v)
  (at level 1, left associativity, a at level 200, v at level 200, format "m .[ a  <-  v ]") : goat_scope.

(** ** Lemmas: outcomes and loops *)

Lemma done_inj {A} (x y : A) : Done x = Done y -> x = y.
Proof. congruence. Qed.

Section loops.
Context {S R : Type} (body : S -> S + R).

(** Total correctness of a loop: an invariant the body keeps, a measure it
    decreases, and what the invariant gives when the loop is left. *)
Lemma run_loop_total (I : S -> Prop) (Q : R -> Prop) (mu : S -> nat) :
  (forall s s', I s -> body s = inl s' -> I s' /\ (mu s' < mu s)%nat) ->
  (forall s r, I s -> body s = inr r -> Q r) ->
  forall fuel s, I s -> (mu s < fuel)%nat ->
  exists r, run_loop fuel body s = Done r /\ Q r.
Proof.
  intros Hstep Hexit fuel. induction fuel as [|fuel IH]; intros s HI Hmu; [lia|].
  simpl. destruct (body s) as [s'|r] eqn:Hb.
  - destruct (Hstep _ _ HI Hb) as [HI' Hlt]. apply IH; [done|lia].
  - eauto.
Qed.

(** More fuel never changes an answer. *)
Lemma run_loop_mono fuel fuel' s r :
  run_loop fuel body s = Done r -> (fuel <= fuel')%nat ->
  run_loop fuel' body s = Done r.
Proof.
  revert fuel' s. induction fuel as [|fuel IH]; intros fuel' s Hr Hle; [done|].
  destruct fuel' as [|fuel']; [lia|]. simpl in *.
  destruct (body s); [|done]. apply IH; [done|lia].
Qed.

Lemma for_loop_inv (I : nat -> S -> Prop) (Q : R -> Prop) :
  (forall k s s', I k s -> body s = inl s' -> I (Datatypes.S k) s') ->
  (forall k s r, I k s -> body s = inr r -> Q r) ->
  forall n k s, I k s ->
  match for_loop n body s with
  | inl s' => I (k + n)%nat s'
  | inr r => Q r
  end.
Proof.
  intros Hstep Hexit n. induction n as [|n IH]; intros k s HI; simpl.
  - by rewrite Nat.add_0_r.
  - destruct (body s) as [s'|r] eqn:Hb; [|eauto].
    replace (k + Datatypes.S n)%nat with (Datatypes.S k + n)%nat by lia.
    apply IH. by eapply Hstep.
Qed.
End loops.

(** A loop whose every step succeeds: [I] relates the elements done to the
    state. *)
Lemma for_each_inv {A S} (body : A -> S -> outcome S) (I : list A -> S -> Prop) l :
  (forall done x rest s, l = done ++ x :: rest -> I done s ->
     exists s', body x s = Done s' /\ I (done ++ [x]) s') ->
  forall s, I [] s -> exists s', for_each l body s = Done s' /\ I l s'.
Proof.
  intros Hstep. assert (forall rest dn s, l = dn ++ rest -> I dn s ->
    exists s', for_each rest body s = Done s' /\ I l s') as Hall.
  { induction rest as [|x rest IH]; intros dn s Hl Hs.
    - exists s. rewrite app_nil_r in Hl. by subst.
    - destruct (Hstep dn x rest s Hl Hs) as (s' & Hb & Hs'). cbn [for_each]. rewrite Hb.
      apply (IH (dn ++ [x])); [by rewrite <-app_assoc|done]. }
  intros s Hs. by apply (Hall l [] s).
Qed.

(** ** Lemmas: arrays *)

Lemma index_get_Done {A} (l : list A) i x : l !! i = Some x -> index_get l i = Done x.
Proof. intros Hx. unfold index_get. by rewrite Hx. Qed.

Lemma index_get_total {A} `{Inhabited A} (l : list A) i :
  (i < length l)%nat -> index_get l i = Done (l !!! i).
Proof. intros Hi. by apply index_get_Done, list_lookup_lookup_total_lt. Qed.

Lemma index_set_Done {A} (l : list A) i x :
  (i < length l)%nat -> index_set l i x = Done (<[i := x]> l).
Proof. intros Hi. unfold index_set. by apply Nat.ltb_lt in Hi as ->. Qed.

Lemma slice_get_Done {A} (l : list A) s n :
  (s + n <= length l)%nat -> slice_get l s n = Done (take n (drop s l)).
Proof. intros Hs. unfold slice_get. by apply Nat.leb_le in Hs as ->. Qed.

Lemma slice_set_Done {A} (l : list A) s x :
  (s + length x <= length l)%nat -> slice_set l s x = Done (take s l ++ x ++ drop (s + length x) l).
Proof. intros Hs. unfold slice_set. by apply Nat.leb_le in Hs as ->. Qed.

(** ** Lemmas: bits *)

Lemma as_u32_id z : 0 <= z < 2 ^ 32 -> as_u32 z = z.
Proof. apply Z.mod_small. Qed.

(** Clearing the low [k] bits of a 32-bit value rounds it down. *)
Lemma land_high x k :
  0 <= x < 2 ^ 32 -> 0 <= k <= 32 ->
  Z.land x (Z.ldiff (Z.ones 32) (Z.ones k)) = x / 2 ^ k * 2 ^ k.
Proof.
  intros Hx Hk. apply Z.bits_inj'. intros i Hi.
  rewrite Z.land_spec, Z.ldiff_spec, !Z.testbit_ones by lia.
  rewrite <-Z.shiftr_div_pow2, <-Z.shiftl_mul_pow2, Z.shiftl_spec by lia.
  destruct (Z.leb_spec 0 i); [|lia]. simpl. destruct (Z.ltb_spec i k).
  - rewrite (Z.testbit_neg_r _ (i - k)) by lia. by rewrite !andb_false_r.
  - rewrite Z.shiftr_spec by lia. replace (i - k + k) with i by lia. simpl.
    rewrite andb_true_r. destruct (Z.ltb_spec i 32); [by rewrite andb_true_r|].
    destruct (decide (x = 0)) as [->|]; [by rewrite Z.bits_0|].
    rewrite (Z.bits_above_log2 x i); [done|lia|].
    apply Z.log2_lt_pow2; [lia|]. apply Z.lt_le_trans with (2 ^ 32); [lia|].
    apply Z.pow_le_mono_r; lia.
Qed.

(** Setting low bits of a multiple of a larger power of two adds them. *)
Lemma lor_low a b k : 0 <= k -> 0 <= b < 2 ^ k -> a mod 2 ^ k = 0 -> Z.lor a b = a + b.
Proof.
  intros Hk Hb Ha. pose proof (Z.add_lor_land a b) as Hadd.
  assert (Z.land a b = 0) as Hz; [|lia].
  rewrite <-(Z.mod_small b (2 ^ k)), <-Z.land_ones, (Z.land_comm b), Z.land_assoc by lia.
  rewrite Z.land_ones, Ha by lia. apply Z.land_0_l.
Qed.

(** ** Lemmas: memory *)

Lemma load_store_eq m a v : (m.[a <- v]).[a] = v.
Proof. unfold load, store. by rewrite lookup_insert_eq. Qed.

Lemma load_store_ne m a b v : a <> b -> (m.[a <- v]).[b] = m.[b].
Proof. intros. unfold load, store. by rewrite lookup_insert_ne. Qed.

Lemma load_store m a b v :
  (m.[a <- v]).[b] = if decide (a = b) then v else m.[b].
Proof.
  case_decide; subst; [apply load_store_eq|by apply load_store_ne].
Qed.

Lemma agree_on_refl P m : agree_on P m m.
Proof. done. Qed.

Lemma agree_on_trans P m1 m2 m3 :
  agree_on P m1 m2 -> agree_on P m2 m3 -> agree_on P m1 m3.
Proof. intros H1 H2 a Ha. rewrite H2, H1; done. Qed.

Lemma agree_on_weaken (P Q : Z -> Prop) m m' :
  agree_on P m m' -> (forall a, Q a -> P a) -> agree_on Q m m'.
Proof. intros H HQ a Ha. apply H; auto. Qed.

Lemma agree_on_store (P : Z -> Prop) m a v :
  ~ P a -> agree_on P m (m.[a <- v]).
Proof. intros Ha b Hb. apply load_store_ne. by intros ->. Qed.

(** ** Lemmas: ranges *)

Lemma elem_of_zrange start n x :
  x ∈ zrange start n <-> start <= x < start + Z.of_nat n.
Proof.
  revert start. induction n as [|n IH]; intros start; simpl.
  - rewrite elem_of_nil. lia.
  - rewrite elem_of_cons, IH. lia.
Qed.

Lemma sublist_full {A} (l1 l2 : list A) : l1 `sublist_of` l2 -> (length l2 <= length l1)%nat -> l1 = l2.
Proof.
  induction 1 as [|x l1 l2 _ IH|x l1 l2 Hs IH]; cbn [length]; intros Hl; [done|f_equal; apply IH; lia|].
  apply sublist_length in Hs. lia.
Qed.

Lemma length_zrange start n : length (zrange start n) = n.
Proof. revert start. induction n; intros; simpl; auto. Qed.

Lemma NoDup_zrange start n : NoDup (zrange start n).
Proof.
  revert start. induction n as [|n IH]; intros start; simpl; constructor; [|auto].
  rewrite elem_of_zrange. lia.
Qed.

Lemma zrange_app start n k :
  zrange start (n + k) = zrange start n ++ zrange (start + Z.of_nat n) k.
Proof.
  revert start. induction n as [|n IH]; intros start; simpl.
  - by rewrite Z.add_0_r.
  - rewrite IH. do 3 f_equal. lia.
Qed.

Lemma lookup_zrange start n i :
  (i < n)%nat -> zrange start n !! i = Some (start + Z.of_nat i).
Proof.
  revert start i. induction n as [|n IH]; intros start i Hi; [lia|].
  destruct i as [|i]; simpl; [f_equal; lia|]. rewrite IH by lia. f_equal. lia.
Qed.

Lemma elem_of_range_list lo hi x : x ∈ range_list lo hi <-> lo <= x < hi.
Proof. unfold range_list. rewrite elem_of_zrange. lia. Qed.

Lemma range_list_nil lo hi : hi <= lo -> range_list lo hi = [].
Proof. intros. unfold range_list. by replace (Z.to_nat (hi - lo)) with 0%nat by lia. Qed.

Lemma range_list_cons lo hi :
  lo < hi -> range_list lo hi = lo :: range_list (lo + 1) hi.
Proof.
  intros. unfold range_list.
  by replace (Z.to_nat (hi - lo)) with (S (Z.to_nat (hi - (lo + 1)))) by lia.
Qed.

Lemma range_list_app lo mid hi :
  lo <= mid <= hi -> range_list lo hi = range_list lo mid ++ range_list mid hi.
Proof.
  intros. unfold range_list.
  replace (Z.to_nat (hi - lo)) with (Z.to_nat (mid - lo) + Z.to_nat (hi - mid))%nat by lia.
  rewrite zrange_app. do 2 f_equal. lia.
Qed.

Lemma NoDup_range_list lo hi : NoDup (range_list lo hi).
Proof. apply NoDup_zrange. Qed.

(** ** Lemmas: [position] and list prefixes *)

Lemma position_Some {A} (p : A -> bool) l i :
  position p l = Some i <->
  (exists x, l !! i = Some x /\ p x = true) /\
  (forall j y, (j < i)%nat -> l !! j = Some y -> p y = false).
Proof.
  revert i. induction l as [|x l IH]; intros i; simpl.
  { split; [done|]. intros [(y & Hy & _) _]. by rewrite lookup_nil in Hy. }
  destruct (p x) eqn:Hp.
  - split.
    + intros [= <-]. split; [by exists x|]. intros; lia.
    + intros [_ Hlt]. destruct i as [|i]; [done|].
      specialize (Hlt 0%nat x ltac:(lia) eq_refl). congruence.
  - rewrite fmap_Some. split.
    + intros (j & Hj & ->). apply IH in Hj as [(y & Hy & Hpy) Hlt].
      split; [by exists y|]. intros [|k] z Hk Hz; simpl in Hz; [congruence|].
      eapply Hlt; [|done]. lia.
    + intros [(y & Hy & Hpy) Hlt]. destruct i as [|i]; simpl in Hy; [congruence|].
      exists i. split; [|done]. apply IH. split; [by exists y|].
      intros j z Hj Hz. apply (Hlt (S j) z); [lia|done].
Qed.

Lemma position_None {A} (p : A -> bool) l :
  position p l = None <-> forall x, x ∈ l -> p x = false.
Proof.
  induction l as [|x l IH]; simpl.
  { split; [|done]. intros _ x Hx. by apply elem_of_nil in Hx. }
  destruct (p x) eqn:Hp.
  - split; [done|]. intros H. rewrite H in Hp; [done|]. apply list_elem_of_here.
  - rewrite fmap_None, IH. split.
    + intros H y [->|Hy]%elem_of_cons; auto.
    + intros H y Hy. apply H. by apply list_elem_of_further.
Qed.

Lemma sum_list_app (l k : list nat) : sum_list (l ++ k) = (sum_list l + sum_list k)%nat.
Proof. induction l; simpl; lia. Qed.

Lemma filter_id {A} (P : A -> Prop) `{!forall x, Decision (P x)} (l : list A) :
  Forall P l -> filter P l = l.
Proof.
  induction 1 as [|x l Hx _ IH]; [done|]. by rewrite filter_cons_True, IH.
Qed.

Lemma filter_ext_in {A} (P Q : A -> Prop) `{!forall x, Decision (P x), !forall x, Decision (Q x)}
    (l : list A) :
  (forall x, x ∈ l -> P x <-> Q x) -> filter P l = filter Q l.
Proof.
  induction l as [|x l IH]; intros Hpq; [done|].
  rewrite !filter_cons, IH by (intros y Hy; apply Hpq; by apply list_elem_of_further).
  apply decide_ext, Hpq, list_elem_of_here.
Qed.

Lemma elem_of_cons_decide {A B} `{EqDecision A} (i j : A) (l : list A) (x y : B) :
  (if decide (i ∈ j :: l) then x else y) =
  (if decide (i = j) then x else if decide (i ∈ l) then x else y).
Proof.
  destruct (decide (i = j)) as [->|Hne].
  - rewrite decide_True; [done|apply list_elem_of_here].
  - apply decide_ext. rewrite elem_of_cons. tauto.
Qed.

(** ** Automation *)

Create HintDb goat.
#[export] Hint Rewrite @length_zrange @length_insert @length_app @length_replicate : goat.
#[export] Hint Resolve agree_on_refl NoDup_zrange NoDup_range_list : goat.

(** Rewrites loads of just-stored words, deciding address equality with [lia]. *)
Ltac mem_simpl :=
  repeat first [rewrite load_store_eq | rewrite load_store_ne by (solve [lia | congruence])];
  try reflexivity.

(** Opens the Rust-style [if]s of a hypothesis or goal, keeping the tests. *)
Ltac case_if :=
  match goal with
  | |- context [if ?b then _ else _] => let E := fresh "E" in destruct b eqn:E
  | H : context [if ?b then _ else _] |- _ => let E := fresh "E" in destruct b eqn:E
  end.
