(* ===== verification/Fmt.v ===== *)
(** * Text formatting

    The part of [core::fmt] the kernel's [Display] implementations and banners
    use: decimal and lower-case hexadecimal numbers, the [{:#0Nx}] zero-padded
    alternate form and the [{:>N}] right-aligned form; and the byte sequence a
    string is ([str::as_bytes]). *)

From S2P Require Import Prelude.
From Stdlib Require Import Ascii.
#[local] Open Scope Z_scope.

Module Fmt.

Definition digit (d : Z) : ascii :=
  ascii_of_nat (Z.to_nat (if d <? 10 then 48 + d else 87 + d)).

(** Digits of [z] in [base], most significant first, in front of [acc]. *)
Fixpoint digits_acc (fuel : nat) (base z : Z) (acc : string) : string :=
  match fuel with
  | O => acc
  | S fuel =>
      let acc := String (digit (z mod base)) acc in
      if z / base =? 0 then acc else digits_acc fuel base (z / base) acc
  end.

(** 64-bit values have at most 20 decimal and 16 hexadecimal digits. *)
Definition dec (z : Z) : string := digits_acc 20 10 z "".
Definition hex_digits (z : Z) : string := digits_acc 16 16 z "".

Fixpoint repeat_char (n : nat) (c : ascii) : string :=
  match n with O => "" | S n => String c (repeat_char n c) end.

Definition pad_left (width : nat) (c : ascii) (s : string) : string :=
  (repeat_char (width - String.length s) c +:+ s)%string.

(** [{:#0Nx}] *)
Definition hex (width : nat) (z : Z) : string :=
  ("0x" +:+ pad_left (width - 2) "0" (hex_digits z))%string.

(** [{:0Nx}] *)
Definition hex_plain (width : nat) (z : Z) : string := pad_left width "0" (hex_digits z).

(** [{:>N}] *)
Definition right (width : nat) (s : string) : string := pad_left width " " s.

(** [str::as_bytes] *)
Fixpoint bytes (s : string) : list Z :=
  match s with
  | EmptyString => []
  | String c s => Z.of_nat (nat_of_ascii c) :: bytes s
  end.

Definition newline : string := String (ascii_of_nat 10) "".

Lemma length_bytes s : length (bytes s) = String.length s.
Proof. induction s; simpl; auto. Qed.

Lemma bytes_app s t : bytes (s +:+ t)%string = bytes s ++ bytes t.
Proof. induction s; simpl; f_equal; auto. Qed.

Lemma bytes_u8 s : Forall is_u8 (bytes s).
Proof.
  induction s as [|c s IH]; simpl; constructor; [|done].
  unfold is_u8. pose proof (nat_ascii_bounded c). lia.
Qed.

Lemma bytes_inj s t : bytes s = bytes t -> s = t.
Proof.
  revert t. induction s as [|c s IH]; intros [|d t] H; simpl in H; try done.
  injection H as Hc Ht. apply Nat2Z.inj in Hc. f_equal; [|by apply IH].
  rewrite <-(ascii_nat_embedding c), <-(ascii_nat_embedding d). by f_equal.
Qed.

Example hex_frame : hex 10 1048576 = "0x00100000"%string.
Proof. reflexivity. Qed.
Example dec_number : dec 32768 = "32768"%string.
Proof. reflexivity. Qed.

End Fmt.
