(* ===== verification/MemMap.v ===== *)
(** * The E820 memory map ([memory/map.rs]) and its producer ([boot/boot.asm])

    [Boot.detect_memory] is the boot sector's walk of [INT 15h, EAX=E820h],
    with the BIOS as a parameter; [Map.load] is the kernel's reader of the
    handoff block it leaves at [HANDOFF_ADDR]. *)

From S2P Require Import Prelude.
From S2P Require Import Fmt.
#[local] Open Scope Z_scope.

Module Map.

Definition HANDOFF_ADDR : Z := 0x500.
Definition SIGNATURE : Z := 0x54414f47.
Definition MAX_ENTRIES : nat := 32.
Definition ENTRIES_OFFSET : Z := 8.
Definition ENTRY_SIZE : Z := 24.

Inductive RegionKind : Type :=
| Usable
| Reserved
| AcpiReclaimable
| AcpiNvs
| BadMemory
| Unknown (raw : Z).

#[export] Instance RegionKind_eq_dec : EqDecision RegionKind.
Proof. solve_decision. Defined.

Definition from_raw (raw : Z) : RegionKind :=
  match raw with
  | 1 => Usable
  | 2 => Reserved
  | 3 => AcpiReclaimable
  | 4 => AcpiNvs
  | 5 => BadMemory
  | other => Unknown other
  end.

Definition RegionKind_fmt (k : RegionKind) : string :=
  match k with
  | Usable => "usable"
  | Reserved => "reserved"
  | AcpiReclaimable => "ACPI reclaimable"
  | AcpiNvs => "ACPI NVS"
  | BadMemory => "bad memory"
  | Unknown raw => "unknown (type " +:+ Fmt.dec raw +:+ ")"
  end.

Record Region := mkRegion { base : Z; length_ : Z; kind : RegionKind }.

(** [Region::end] *)
Definition end_ (r : Region) : Z := saturating_add_u64 (base r) (length_ r).
Definition is_usable (r : Region) : bool := bool_decide (kind r = Usable).

Record MemoryMap := mkMemoryMap {
  regions_buf : list Region;
  len : nat;
  reported : Z;
  available : bool
}.

Definition empty : MemoryMap :=
  {| regions_buf := replicate MAX_ENTRIES (mkRegion 0 0 Reserved);
     len := 0; reported := 0; available := false |}.

Definition truncated (map : MemoryMap) : bool := Z.of_nat MAX_ENTRIES <? reported map.
Definition regions (map : MemoryMap) : list Region := take (len map) (regions_buf map).

Definition total_usable (map : MemoryMap) : Z :=
  fold_left (fun total r => saturating_add_u64 total (length_ r))
            (List.filter is_usable (regions map)) 0.

Definition highest_address (map : MemoryMap) : Z :=
  fold_left Z.max (end_ <$> regions map) 0.

Definition MemoryMap_fmt (map : MemoryMap) : string :=
  if negb (available map)
  then "Memory: MEMORY MAP UNAVAILABLE (no E820 handoff from the boot sector)"
  else
    "Memory: " +:+ Fmt.dec (Z.of_nat (length (regions map))) +:+ " E820 regions, "
      +:+ Fmt.dec (total_usable map / (1024 * 1024)) +:+ " MiB usable, top "
      +:+ Fmt.hex 12 (highest_address map)
      +:+ (if truncated map
           then " (TRUNCATED at " +:+ Fmt.dec (Z.of_nat MAX_ENTRIES) +:+ " of "
                  +:+ Fmt.dec (reported map) +:+ ")"
           else "").

(** One iteration of the loop in [load]. *)
Definition load_entry (m : mem) (map : MemoryMap) (index : Z) : MemoryMap :=
  let entry := HANDOFF_ADDR + ENTRIES_OFFSET + index * ENTRY_SIZE in
  let base := load_u64 m entry in
  let length := load_u64 m (entry + 8) in
  let kind := m.[entry + 16] in
  let attributes := m.[entry + 20] in
  if (length =? 0) || (Z.land attributes 1 =? 0) then map
  else {| map with
          regions_buf := <[len map := mkRegion base length (from_raw kind)]> (regions_buf map);
          len := S (len map) |}.

Definition load (m : mem) : MemoryMap :=
  let signature := m.[HANDOFF_ADDR] in
  if negb (signature =? SIGNATURE) then empty
  else
    let reported := m.[HANDOFF_ADDR + 4] in
    fold_left (load_entry m)
      (zrange 0 (Nat.min (Z.to_nat reported) MAX_ENTRIES))
      {| empty with available := true; reported := reported |}.

End Map.

(** The boot sector's side. The BIOS is a parameter: given the continuation
    value in [EBX] it reports failure (carry set, or ['SMAP'] not echoed) or
    an entry and the next continuation value; [attributes] is [None] when the
    BIOS only writes the older 20 bytes. *)
Module Boot.

Record E820Entry := mkE820 {
  e_base : Z; e_length : Z; e_type : Z; e_attributes : option Z
}.

Definition MEMMAP_MAX_ENTRIES : Z := 32.

Definition store_u64 (m : mem) (a v : Z) : mem :=
  m.[a <- v mod 2 ^ 32].[a + 4 <- v / 2 ^ 32].

(** What [INT 15h] writes at [ES:DI]. *)
Definition bios_write (m : mem) (di : Z) (e : E820Entry) : mem :=
  let m := store_u64 m di (e_base e) in
  let m := store_u64 m (di + 8) (e_length e) in
  let m := m.[di + 16 <- e_type e] in
  match e_attributes e with
  | Some a => m.[di + 20 <- a]
  | None => m
  end.

Section bios.
Context (bios : Z -> option (E820Entry * Z)).

(** The [.next_entry] loop, on (memory, [DI], [EBX], [EBP]); it leaves with
    the memory and the final [EBP]. *)
Definition next_entry (s : mem * Z * Z * Z) : mem * Z * Z * Z + mem * Z :=
  let '(m, di, ebx, ebp) := s in
  let m := m.[di + 20 <- 1] in
  match bios ebx with
  | None => inr (m, ebp)
  | Some (e, ebx') =>
      let m := bios_write m di e in
      let ebp := ebp + 1 in
      let di := di + Map.ENTRY_SIZE in
      if ebx' =? 0 then inr (m, ebp)
      else if ebp <? MEMMAP_MAX_ENTRIES then inl (m, di, ebx', ebp)
      else inr (m, ebp)
  end.

Definition detect_memory (m : mem) : outcome mem :=
  let m := m.[Map.HANDOFF_ADDR <- Map.SIGNATURE] in
  '(m, ebp) ← run_loop 33 next_entry (m, Map.HANDOFF_ADDR + 8, 0, 0);
  Done (m.[Map.HANDOFF_ADDR + 4 <- ebp]).

(** The entries the BIOS would report from continuation value [ebx], at most
    [n] of them. *)
Fixpoint bios_entries (n : nat) (ebx : Z) : list E820Entry :=
  match n with
  | O => []
  | S n =>
      match bios ebx with
      | None => []
      | Some (e, ebx') => e :: (if ebx' =? 0 then [] else bios_entries n ebx')
      end
  end.
End bios.

(** The region an entry stands for, if the kernel keeps it. *)
Definition entry_region (e : E820Entry) : option Map.Region :=
  if (e_length e =? 0) || (Z.land (default 1 (e_attributes e)) 1 =? 0) then None
  else Some (Map.mkRegion (e_base e) (e_length e) (Map.from_raw (e_type e))).

End Boot.

(** ** The kernel's reader *)
Module MapFacts.
Import Map.

(** The entry the kernel reads at [index], if it keeps it. *)
Definition parse_entry (m : mem) (index : Z) : option Region :=
  let entry := HANDOFF_ADDR + ENTRIES_OFFSET + index * ENTRY_SIZE in
  if (load_u64 m (entry + 8) =? 0) || (Z.land (m.[entry + 20]) 1 =? 0) then None
  else Some (mkRegion (load_u64 m entry) (load_u64 m (entry + 8)) (from_raw (m.[entry + 16]))).

Lemma parse_entry_none m i :
  let entry := HANDOFF_ADDR + ENTRIES_OFFSET + i * ENTRY_SIZE in
  parse_entry m i = None <-> load_u64 m (entry + 8) = 0 \/ Z.land (m.[entry + 20]) 1 = 0.
Proof.
  intros entry. unfold parse_entry. fold entry. case_match eqn:E.
  - apply orb_true_iff in E. rewrite !Z.eqb_eq in E. by split.
  - apply orb_false_iff in E. rewrite !Z.eqb_neq in E. split; [done|]. tauto.
Qed.

Lemma parse_entry_some m i r :
  let entry := HANDOFF_ADDR + ENTRIES_OFFSET + i * ENTRY_SIZE in
  parse_entry m i = Some r ->
  r = mkRegion (load_u64 m entry) (load_u64 m (entry + 8)) (from_raw (m.[entry + 16])) /\
  length_ r <> 0 /\ Z.land (m.[entry + 20]) 1 <> 0.
Proof.
  intros entry. unfold parse_entry. fold entry. case_match eqn:E; [done|]. intros [= <-].
  apply orb_false_iff in E. rewrite !Z.eqb_neq in E. by destruct E.
Qed.

Definition well_sized (map : MemoryMap) : Prop :=
  length (regions_buf map) = MAX_ENTRIES /\ (len map <= MAX_ENTRIES)%nat.

Lemma load_entry_spec m map i :
  length (regions_buf map) = MAX_ENTRIES -> (len map < MAX_ENTRIES)%nat ->
  regions (load_entry m map i) = regions map ++ option_list (parse_entry m i) /\
  length (regions_buf (load_entry m map i)) = MAX_ENTRIES /\
  len (load_entry m map i) = (len map + length (option_list (parse_entry m i)))%nat /\
  reported (load_entry m map i) = reported map /\
  available (load_entry m map i) = available map.
Proof.
  intros Hbuf Hlen. unfold load_entry, parse_entry, regions. case_if; simpl.
  - rewrite app_nil_r. repeat split; auto with lia.
  - rewrite length_insert. repeat split; auto with lia.
    erewrite take_S_r; [|apply list_lookup_insert_eq; lia].
    by rewrite take_insert_ge.
Qed.

Lemma load_fold m idx map :
  length (regions_buf map) = MAX_ENTRIES -> (len map + length idx <= MAX_ENTRIES)%nat ->
  let map' := fold_left (load_entry m) idx map in
  regions map' = regions map ++ omap (parse_entry m) idx /\ well_sized map' /\
  reported map' = reported map /\ available map' = available map.
Proof.
  revert map. induction idx as [|i idx IH]; intros map Hbuf Hlen; simpl in *.
  - rewrite app_nil_r. unfold well_sized. auto with lia.
  - destruct (load_entry_spec m map i) as (Hr & Hb & Hl & Hrep & Hav); [done|lia|].
    destruct (IH (load_entry m map i)) as (Hr' & Hw & Hrep' & Hav').
    + done.
    + rewrite Hl. destruct (parse_entry m i); simpl; lia.
    + rewrite Hr', Hr, Hrep', Hav', <-app_assoc.
      destruct (parse_entry m i); simpl; auto.
Qed.

Lemma load_regions m :
  m.[HANDOFF_ADDR] = SIGNATURE ->
  regions (load m) =
    omap (parse_entry m) (zrange 0 (Nat.min (Z.to_nat (m.[HANDOFF_ADDR + 4])) MAX_ENTRIES)) /\
  well_sized (load m) /\ reported (load m) = m.[HANDOFF_ADDR + 4] /\ available (load m) = true.
Proof.
  intros Hsig. unfold load. rewrite Hsig, Z.eqb_refl. simpl negb. cbv iota.
  apply (load_fold m); [done|]. simpl. rewrite length_zrange. lia.
Qed.

Lemma load_unsigned m : m.[HANDOFF_ADDR] <> SIGNATURE -> load m = empty.
Proof. intros H. unfold load. by apply Z.eqb_neq in H as ->. Qed.

End MapFacts.

(** ** The handoff: what the boot sector stores is what the kernel reads *)
Module HandoffFacts.
Import Map MapFacts Boot.

Definition entry_addr (i : Z) : Z := HANDOFF_ADDR + ENTRIES_OFFSET + i * ENTRY_SIZE.

(** The block holds entry [e] at index [i]. *)
Definition entry_at (m : mem) (i : Z) (e : E820Entry) : Prop :=
  load_u64 m (entry_addr i) = e_base e /\
  load_u64 m (entry_addr i + 8) = e_length e /\
  m.[entry_addr i + 16] = e_type e /\
  m.[entry_addr i + 20] = default 1 (e_attributes e).

Definition entries_at (m : mem) (es : list E820Entry) : Prop :=
  forall i e, es !! i = Some e -> entry_at m (Z.of_nat i) e.

Ltac addr := unfold load_u64, entry_addr, HANDOFF_ADDR, ENTRIES_OFFSET, ENTRY_SIZE in *.

Lemma entry_at_agree m m' i e :
  agree_on (fun a => entry_addr i <= a < entry_addr i + 24) m m' ->
  entry_at m i e -> entry_at m' i e.
Proof. intros Hag. unfold entry_at. addr. by rewrite !Hag by lia. Qed.

Lemma parse_entry_at m i e : entry_at m i e -> parse_entry m i = entry_region e.
Proof.
  intros (Hb & Hl & Ht & Ha). unfold parse_entry, entry_region, entry_addr in *.
  by rewrite Hb, Hl, Ht, Ha.
Qed.

Lemma parse_entries_at m es :
  entries_at m es ->
  omap (parse_entry m) (zrange 0 (length es)) = omap entry_region es.
Proof.
  intros Hes.
  assert (forall k l, drop k es = l ->
    omap (parse_entry m) (zrange (Z.of_nat k) (length l)) = omap entry_region l) as H.
  { intros k l. revert k. induction l as [|e l IH]; intros k Hk; simpl; [done|].
    assert (es !! k = Some e) as He.
    { rewrite <-(Nat.add_0_r k), <-lookup_drop, Hk. done. }
    rewrite (parse_entry_at _ _ _ (Hes _ _ He)).
    replace (Z.of_nat k + 1) with (Z.of_nat (S k)) by lia.
    rewrite IH; [done|]. by rewrite <-Nat.add_1_r, <-drop_drop, Hk. }
  by apply (H 0%nat).
Qed.

Lemma store_u64_load m a v : load_u64 (store_u64 m a v) a = v.
Proof.
  unfold load_u64, store_u64. rewrite load_store_ne, !load_store_eq by lia.
  pose proof (Z.div_mod v (2 ^ 32)). lia.
Qed.

Lemma bios_write_entry m i e :
  m.[entry_addr i + 20] = 1 -> entry_at (bios_write m (entry_addr i) e) i e.
Proof.
  intros H20. unfold entry_at, bios_write, store_u64, load_u64. generalize (entry_addr i) H20.
  intros d Hd. pose proof (Z.div_mod (e_base e) (2 ^ 32)) as Hb.
  pose proof (Z.div_mod (e_length e) (2 ^ 32)) as Hl.
  destruct (e_attributes e) as [a|]; mem_simpl; split_and!; try done; lia.
Qed.

Lemma bios_write_other m d e :
  agree_on (fun a => ~ (d <= a < d + 24)) m (bios_write m d e).
Proof.
  intros a Ha. unfold bios_write, store_u64.
  destruct (e_attributes e); mem_simpl.
Qed.

Section bios.
Context (bios : Z -> option (E820Entry * Z)).

(** The loop invariant: the entries stored so far, and what is still to come. *)
Definition walk_inv (s : mem * Z * Z * Z) : Prop :=
  let '(m, di, ebx, ebp) := s in
  exists done,
    ebp = Z.of_nat (length done) /\ di = entry_addr ebp /\ ebp < 32 /\
    m.[HANDOFF_ADDR] = SIGNATURE /\ entries_at m done /\
    bios_entries bios 32 0 = done ++ bios_entries bios (32 - length done) ebx.

Definition walk_done (r : mem * Z) : Prop :=
  let '(m, ebp) := r in
  ebp = Z.of_nat (length (bios_entries bios 32 0)) /\
  m.[HANDOFF_ADDR] = SIGNATURE /\ entries_at m (bios_entries bios 32 0).

(** Storing the next entry keeps the earlier ones and the signature. *)
Lemma walk_store m done e :
  m.[HANDOFF_ADDR] = SIGNATURE -> entries_at m done ->
  let d := entry_addr (Z.of_nat (length done)) in
  let m' := bios_write (m.[d + 20 <- 1]) d e in
  m'.[HANDOFF_ADDR] = SIGNATURE /\ entries_at m' (done ++ [e]).
Proof.
  intros Hsig Hes d m'.
  assert (agree_on (fun a => ~ (d <= a < d + 24)) m m') as Hag.
  { eapply agree_on_trans; [|apply bios_write_other]. apply agree_on_store. lia. }
  split; [rewrite Hag; [done|]; unfold d; addr; lia|].
  intros i e' Hi. apply lookup_app_Some in Hi as [Hi|[Hge Hi]].
  - eapply entry_at_agree, Hes, Hi. eapply agree_on_weaken; [apply Hag|].
    apply lookup_lt_Some in Hi. intros a. unfold d. addr. lia.
  - apply list_lookup_singleton_Some in Hi as [Hi <-].
    replace i with (length done) by lia. apply bios_write_entry. apply load_store_eq.
Qed.

Lemma bios_entries_length n ebx : (length (bios_entries bios n ebx) <= n)%nat.
Proof.
  revert ebx. induction n as [|n IH]; intros ebx; simpl; [lia|].
  destruct (bios ebx) as [[e ebx']|]; simpl; [|lia].
  case_if; simpl; [lia|]. specialize (IH ebx'). lia.
Qed.

Lemma bios_entries_S n ebx :
  bios_entries bios (S n) ebx =
  match bios ebx with
  | None => []
  | Some (e, ebx') => e :: (if ebx' =? 0 then [] else bios_entries bios n ebx')
  end.
Proof. done. Qed.

Lemma walk_step s s' :
  walk_inv s -> next_entry bios s = inl s' ->
  walk_inv s' /\ (Z.to_nat (32 - s'.2) < Z.to_nat (32 - s.2))%nat.
Proof.
  destruct s as [[[m di] ebx] ebp]. intros (done & -> & -> & Hlt & Hsig & Hes & Hb) Hs.
  unfold next_entry in Hs. destruct (bios ebx) as [[e ebx']|] eqn:Hbios; [|done].
  repeat case_if; try done. injection Hs as <-. unfold MEMMAP_MAX_ENTRIES in *.
  split; [|simpl; lia]. exists (done ++ [e]).
  destruct (walk_store m done e Hsig Hes) as [Hsig' Hes'].
  rewrite length_app. simpl length.
  split; [lia|]. split; [addr; lia|]. split; [lia|].
  split; [apply Hsig'|]. split; [apply Hes'|].
  rewrite Hb, <-app_assoc. f_equal.
  replace (32 - length done)%nat with (S (32 - (length done + 1)))%nat by lia.
  by rewrite bios_entries_S, Hbios, E.
Qed.

Lemma walk_exit s r : walk_inv s -> next_entry bios s = inr r -> walk_done r.
Proof.
  destruct s as [[[m di] ebx] ebp]. intros (done & -> & -> & Hlt & Hsig & Hes & Hb) Hs.
  unfold next_entry in Hs. unfold walk_done.
  replace (32 - length done)%nat with (S (32 - (length done + 1)))%nat in Hb by lia.
  rewrite (bios_entries_S (32 - (length done + 1))) in Hb. destruct (bios ebx) as [[e ebx']|] eqn:Hbios.
  - destruct (walk_store m done e Hsig Hes) as [Hsig' Hes'].
    assert (r = (bios_write (m.[entry_addr (Z.of_nat (length done)) + 20 <- 1])
              (entry_addr (Z.of_nat (length done))) e, Z.of_nat (length done) + 1) /\
            bios_entries bios 32 0 = done ++ [e]) as [-> ->].
    { destruct (ebx' =? 0); [by injection Hs as <-|].
      case_if; [done|]. injection Hs as <-. split; [done|]. unfold MEMMAP_MAX_ENTRIES in *.
      by replace (32 - (length done + 1))%nat with 0%nat in Hb by lia. }
    rewrite length_app. simpl. split; [lia|]. done.
  - injection Hs as <-. rewrite Hb, app_nil_r. split; [done|].
    assert (agree_on (fun a => a <> entry_addr (Z.of_nat (length done)) + 20) m
      (m.[entry_addr (Z.of_nat (length done)) + 20 <- 1])) as Hag.
    { apply agree_on_store. intros H. by apply H. }
    split; [rewrite Hag; [done|]; addr; lia|].
    intros i e Hi. eapply entry_at_agree, Hes, Hi.
    eapply agree_on_weaken; [apply Hag|]. apply lookup_lt_Some in Hi. intros a. addr. lia.
Qed.

Lemma detect_memory_spec m :
  exists m', detect_memory bios m = Done m' /\
    m'.[HANDOFF_ADDR] = SIGNATURE /\
    m'.[HANDOFF_ADDR + 4] = Z.of_nat (length (bios_entries bios 32 0)) /\
    entries_at m' (bios_entries bios 32 0).
Proof.
  destruct (run_loop_total (next_entry bios) walk_inv walk_done
    (fun s => Z.to_nat (32 - s.2))) with (fuel := 33%nat)
    (s := (m.[HANDOFF_ADDR <- SIGNATURE], HANDOFF_ADDR + 8, 0, 0)) as ([m' ebp] & Hr & Hd).
  - exact walk_step.
  - exact walk_exit.
  - exists []. simpl. split_and!; try done. apply load_store_eq.
  - simpl. lia.
  - destruct Hd as (-> & Hsig & Hes). unfold detect_memory. rewrite Hr. simpl.
    eexists; split; [done|]. rewrite load_store_eq, load_store_ne by (addr; lia).
    split_and!; try done. intros i e Hi. eapply entry_at_agree, Hes, Hi.
    apply agree_on_store. addr. lia.
Qed.
End bios.

(** C30: The boot sector's E820 walk always ends, and the kernel reads back from
    the handoff block exactly the entries the BIOS reported - at most 32 of
    them, in order, with empty and ignorable ones dropped - whether or not
    the BIOS wrote the ACPI 3.0 attributes. *)
Theorem handoff_roundtrip (bios : Z -> option (E820Entry * Z)) (m : mem) :
  exists m', detect_memory bios m = Done m' /\
    available (load m') = true /\
    regions (load m') = omap entry_region (bios_entries bios 32 0).
Proof.
  destruct (detect_memory_spec bios m) as (m' & Hd & Hsig & Hcnt & Hes).
  exists m'. split; [done|].
  destruct (load_regions m' Hsig) as (Hr & _ & _ & Hav). split; [done|].
  rewrite Hr, Hcnt, Nat2Z.id, Nat.min_l by apply bios_entries_length.
  by apply parse_entries_at.
Qed.

(** The boot sector stops counting at 32 entries, so the kernel's
    "TRUNCATED" report is unreachable: [truncated] is false for every map the
    boot sector can hand over, also when the BIOS had more entries to give. *)
Theorem truncation_never_reported (bios : Z -> option (E820Entry * Z)) (m : mem) :
  exists m', detect_memory bios m = Done m' /\ truncated (load m') = false.
Proof.
  destruct (detect_memory_spec bios m) as (m' & Hd & Hsig & Hcnt & Hes).
  exists m'. split; [done|].
  destruct (load_regions m' Hsig) as (_ & _ & Hrep & _).
  unfold truncated. rewrite Hrep, Hcnt. apply Z.ltb_ge, Nat2Z.inj_le.
  apply bios_entries_length.
Qed.

(** C40: Whatever words are in low memory, the map the kernel loads is well
    formed. Without the boot sector's signature it is empty and marked
    unavailable. With it, [reported] is the block's count, and the regions are
    those of the block's first entries - as many as the count says, at most
    32 - each once and in the order of the block, less exactly the entries of
    length zero and those whose attributes say they are to be ignored. *)
Theorem load_well_formed (m : mem) :
  (length (regions (load m)) <= MAX_ENTRIES)%nat /\
  Forall (fun r => length_ r <> 0) (regions (load m)) /\
  (available (load m) = true <-> m.[HANDOFF_ADDR] = SIGNATURE) /\
  (available (load m) = false -> regions (load m) = []) /\
  (forall r, r ∈ regions (load m) -> exists i, 0 <= i < 32 /\ parse_entry m i = Some r) /\
  (available (load m) = true ->
    reported (load m) = m.[HANDOFF_ADDR + 4] /\
    regions (load m) =
      omap (parse_entry m) (zrange 0 (Nat.min (Z.to_nat (reported (load m))) MAX_ENTRIES))) /\
  (forall i, let entry := HANDOFF_ADDR + ENTRIES_OFFSET + i * ENTRY_SIZE in
    (parse_entry m i = None <->
       load_u64 m (entry + 8) = 0 \/ Z.land (m.[entry + 20]) 1 = 0) /\
    (forall r, parse_entry m i = Some r ->
       r = mkRegion (load_u64 m entry) (load_u64 m (entry + 8)) (from_raw (m.[entry + 16])))).
Proof.
  assert (forall i r, parse_entry m i = Some r -> length_ r <> 0) as Hlen.
  { intros i r Hp. apply parse_entry_some in Hp as (-> & Hl & _). exact Hl. }
  destruct (decide (m.[HANDOFF_ADDR] = SIGNATURE)) as [Hsig|Hsig].
  - destruct (load_regions m Hsig) as (Hr & [Hb Hl] & Hrep & Hav).
    assert (forall r, r ∈ regions (load m) -> exists i, 0 <= i < 32 /\ parse_entry m i = Some r) as Hin.
    { intros r. rewrite Hr, list_elem_of_omap. intros (i & Hi & Hp).
      apply elem_of_zrange in Hi. exists i. unfold MAX_ENTRIES in *. split; [lia|done]. }
    split_and!; try done; [| |congruence|by rewrite Hrep|].
    + unfold regions. rewrite length_take. lia.
    + apply Forall_forall. intros r (i & _ & Hp)%Hin. by eapply Hlen.
    + intros i entry. split; [apply parse_entry_none|by intros r (-> & _)%parse_entry_some].
  - rewrite (load_unsigned m Hsig). split_and!; simpl; try done; [lia| |].
    + intros r Hr. by apply elem_of_nil in Hr.
    + intros i. split; [apply parse_entry_none|by intros r (-> & _)%parse_entry_some].
Qed.

End HandoffFacts.
