(* ===== verification/FrameAlloc.v ===== *)
(** * The physical frame allocator ([memory/frame.rs])

    [Frame] holds the data and operations, state-passing over the allocator
    record and physical memory (the free list is intrusive: a free frame's
    first word is the index of the next free frame). [FrameFacts] relates a
    concrete allocator to an abstract pool of frames. *)

From S2P Require Import Prelude.
From S2P Require Import Fmt.
From S2P Require Import MemMap.
#[local] Open Scope Z_scope.

Module Frame.

Definition FRAME_SIZE : Z := 4096.
Definition FRAME_SHIFT : Z := 12.
Definition MAX_FRAME_INDEX : Z := Z.shiftl 1 (32 - FRAME_SHIFT).
Definition NO_FRAME : Z := U32_MAX.
Definition MAX_REGIONS : nat := Map.MAX_ENTRIES.
Definition MAX_RESERVATIONS : nat := 4.
Definition BIOS_LOW_MEMORY_END : Z := 0x1000.
Definition BOOT_SECTOR_PAGE : Z := 0x7000.
Definition LEGACY_ROM_START : Z := 0xa0000.
Definition LEGACY_ROM_END : Z := 0x100000.

Record Frame := from_index { index : Z }.

#[export] Instance Frame_eq_dec : EqDecision Frame.
Proof. solve_decision. Defined.

Definition containing_address (address : Z) : Frame := from_index (Z.shiftr address FRAME_SHIFT).
Definition start_address (f : Frame) : Z := as_u32 (Z.shiftl (index f) FRAME_SHIFT).
Definition Frame_fmt (f : Frame) : string := Fmt.hex 10 (start_address f).

(** ** Ranges of frames *)

Record FrameRange := mkRange { start : Z; end_ : Z }.

#[export] Instance FrameRange_inhabited : Inhabited FrameRange := populate (mkRange 0 0).

Definition range_EMPTY : FrameRange := mkRange 0 0.

Definition index_floor (address : Z) : Z :=
  Z.min (Z.shiftr address FRAME_SHIFT) MAX_FRAME_INDEX.
Definition index_ceil (address : Z) : Z :=
  index_floor (saturating_add_u64 address (FRAME_SIZE - 1)).

Definition inside (lo hi : Z) : FrameRange :=
  let lo := index_ceil lo in
  let hi := index_floor hi in
  mkRange lo (Z.max hi lo).

Definition covering (lo hi : Z) : FrameRange := mkRange (index_floor lo) (index_ceil hi).

Definition contains (r : FrameRange) (i : Z) : bool := (start r <=? i) && (i <? end_ r).
Definition range_len (r : FrameRange) : nat := Z.to_nat (end_ r - start r).
Definition is_empty (r : FrameRange) : bool := end_ r <=? start r.

(** ** Reservations *)

Record Reservation := mkReservation { range : FrameRange; reason : string }.

Definition reservation_start (r : Reservation) : Z := Z.shiftl (start (range r)) FRAME_SHIFT.
Definition reservation_end (r : Reservation) : Z := Z.shiftl (end_ (range r)) FRAME_SHIFT.
Definition reservation_frames (r : Reservation) : nat := range_len (range r).
Definition Reservation_fmt (r : Reservation) : string :=
  Fmt.hex 10 (reservation_start r) +:+ "-" +:+ Fmt.hex 10 (reservation_end r) +:+ " "
    +:+ Fmt.right 5 (Fmt.dec (Z.of_nat (reservation_frames r))) +:+ " frames  " +:+ reason r.

Inductive FreeError := NotManaged | NeverAllocated | AlreadyFree.

#[export] Instance FreeError_eq_dec : EqDecision FreeError.
Proof. solve_decision. Defined.

Definition FreeError_fmt (e : FreeError) : string :=
  match e with
  | NotManaged => "frame is not managed by the allocator"
  | NeverAllocated => "frame was never allocated"
  | AlreadyFree => "frame is already free (double free)"
  end.

(** ** The allocator *)

Record FrameAllocator := mkAllocator {
  regions : list FrameRange;
  region_count : nat;
  reservations : list Reservation;
  reservation_count : nat;
  cursor_region : nat;
  cursor_frame : Z;
  free_list : Z;
  free_count : nat;
  total : nat;
  in_use : nat
}.

Definition empty : FrameAllocator := {|
  regions := replicate MAX_REGIONS range_EMPTY;
  region_count := 0;
  reservations := replicate MAX_RESERVATIONS (mkReservation range_EMPTY "");
  reservation_count := 0;
  cursor_region := 0;
  cursor_frame := 0;
  free_list := NO_FRAME;
  free_count := 0;
  total := 0;
  in_use := 0
|}.

Definition reserve (a : FrameAllocator) (lo hi : Z) (why : string) : FrameAllocator :=
  if Nat.eqb (reservation_count a) MAX_RESERVATIONS then a
  else {| a with
          reservations :=
            <[reservation_count a := mkReservation (covering lo hi) why]> (reservations a);
          reservation_count := S (reservation_count a) |}.

(** [self.regions[..self.region_count]], [self.reservations[..self.reservation_count]] *)
Definition live_regions (a : FrameAllocator) : list FrameRange :=
  take (region_count a) (regions a).
Definition live_reservations (a : FrameAllocator) : list Reservation :=
  take (reservation_count a) (reservations a).

Definition is_reserved (a : FrameAllocator) (i : Z) : bool :=
  existsb (fun r => contains (range r) i) (live_reservations a).

Definition region_of (a : FrameAllocator) (i : Z) : option nat :=
  position (fun r => contains r i) (live_regions a).

Definition count_allocatable (a : FrameAllocator) : nat :=
  fold_left (fun count region =>
    fold_left (fun count i => if negb (is_reserved a i) then S count else count)
              (range_list (start region) (end_ region)) count)
    (live_regions a) 0%nat.

Definition handed_out (a : FrameAllocator) (i : Z) : bool :=
  match region_of a i with
  | Some region =>
      match Nat.compare region (cursor_region a) with
      | Lt => true
      | Eq => i <? cursor_frame a
      | Gt => false
      end
  | None => false
  end.

(** Physical extent of the kernel image: the linker symbols' addresses. *)
Definition new_reservations (a : FrameAllocator) (kernel_image : Z * Z) : FrameAllocator :=
  let a := reserve a 0 BIOS_LOW_MEMORY_END "IVT, BIOS data area, E820 handoff block" in
  let a := reserve a BOOT_SECTOR_PAGE (BOOT_SECTOR_PAGE + FRAME_SIZE)
             "boot sector image and real-mode stack" in
  let a := reserve a (fst kernel_image) (snd kernel_image) "kernel image, .bss and stack" in
  reserve a LEGACY_ROM_START LEGACY_ROM_END "legacy video memory and BIOS ROM".

(** The loop over the map's usable regions; [break] when the table is full. *)
Fixpoint add_regions (a : FrameAllocator) (rs : list Map.Region) : FrameAllocator :=
  match rs with
  | [] => a
  | r :: rs =>
      if Nat.eqb (region_count a) MAX_REGIONS then a
      else
        let range := inside (Map.base r) (Map.end_ r) in
        if is_empty range then add_regions a rs
        else add_regions {| a with
                            regions := <[region_count a := range]> (regions a);
                            region_count := S (region_count a) |} rs
  end.

Definition new (kernel_image : Z * Z) (map : Map.MemoryMap) : FrameAllocator :=
  let a := new_reservations empty kernel_image in
  let a := add_regions a (List.filter Map.is_usable (Map.regions map)) in
  let a := if Nat.ltb 0 (region_count a)
           then {| a with cursor_frame := start (regions a !!! 0%nat) |} else a in
  {| a with total := count_allocatable a |}.

(** [self.cursor_region += 1] and, if there is such a region, its start. *)
Definition next_region (a : FrameAllocator) : FrameAllocator :=
  let a := {| a with cursor_region := S (cursor_region a) |} in
  if Nat.ltb (cursor_region a) (region_count a)
  then {| a with cursor_frame := start (regions a !!! cursor_region a) |} else a.

(** Address of a frame's first word, where the free list keeps its link. *)
Definition link_of (i : Z) : Z := as_u32 (Z.shiftl i FRAME_SHIFT).

Definition pop_free (a : FrameAllocator) (m : mem) : option (Frame * FrameAllocator) :=
  if free_list a =? NO_FRAME then None
  else
    let i := free_list a in
    Some (from_index i,
          {| a with free_list := m.[link_of i]; free_count := pred (free_count a) |}).

Definition push_free (a : FrameAllocator) (m : mem) (i : Z) : FrameAllocator * mem :=
  ({| a with free_list := i; free_count := S (free_count a) |},
   m.[link_of i <- free_list a]).

(** The body of the [while] loop in [allocate]. *)
Definition bump_step (a : FrameAllocator) : FrameAllocator + FrameAllocator * option Frame :=
  if Nat.ltb (cursor_region a) (region_count a) then
    let region := regions a !!! cursor_region a in
    if end_ region <=? cursor_frame a then inl (next_region a)
    else
      let i := cursor_frame a in
      let a := {| a with cursor_frame := cursor_frame a + 1 |} in
      if is_reserved a i then inl a
      else inr ({| a with in_use := S (in_use a) |}, Some (from_index i))
  else inr (a, None).

(** Iterations that certainly suffice: one per frame and one per region. *)
Definition region_steps (r : FrameRange) : nat := S (range_len r).
Definition loop_fuel (a : FrameAllocator) : nat := S (sum_list (region_steps <$> live_regions a)).

Definition allocate (a : FrameAllocator) (m : mem) : outcome (FrameAllocator * option Frame) :=
  match pop_free a m with
  | Some (frame, a) => Done ({| a with in_use := S (in_use a) |}, Some frame)
  | None => run_loop (loop_fuel a) bump_step a
  end.

(** The body of the [while] loop in [allocate_contiguous]. *)
Definition contiguous_step (count : nat) (a : FrameAllocator)
  : FrameAllocator + FrameAllocator * option Frame :=
  if Nat.ltb (cursor_region a) (region_count a) then
    let region := regions a !!! cursor_region a in
    if end_ region <=? cursor_frame a then inl (next_region a)
    else if is_reserved a (cursor_frame a) then inl {| a with cursor_frame := cursor_frame a + 1 |}
    else
      let first := cursor_frame a in
      if end_ region <? saturating_add_u32 first (Z.of_nat count) then inl (next_region a)
      else
        match List.find (is_reserved a) (range_list first (first + Z.of_nat count)) with
        | Some reserved => inl {| a with cursor_frame := reserved + 1 |}
        | None =>
            inr ({| a with cursor_frame := first + Z.of_nat count;
                           in_use := (in_use a + count)%nat |},
                 Some (from_index first))
        end
  else inr (a, None).

Definition allocate_contiguous (a : FrameAllocator) (count : nat)
  : outcome (FrameAllocator * option Frame) :=
  if Nat.eqb count 0 then Done (a, None)
  else run_loop (loop_fuel a) (contiguous_step count) a.

(** Walks the free list, at most [fuel] (= [free_count]) links. *)
Fixpoint on_free_list_walk (fuel : nat) (m : mem) (current i : Z) : bool :=
  match fuel with
  | O => false
  | S fuel =>
      if current =? NO_FRAME then false
      else if current =? i then true
      else on_free_list_walk fuel m (m.[link_of current]) i
  end.

Definition on_free_list (a : FrameAllocator) (m : mem) (i : Z) : bool :=
  on_free_list_walk (free_count a) m (free_list a) i.

Definition free (a : FrameAllocator) (m : mem) (frame : Frame)
  : FrameAllocator * mem * (unit + FreeError) :=
  let i := index frame in
  if bool_decide (region_of a i = None) || is_reserved a i then (a, m, inr NotManaged)
  else if negb (handed_out a i) then (a, m, inr NeverAllocated)
  else if on_free_list a m i then (a, m, inr AlreadyFree)
  else
    let '(a, m) := push_free a m i in
    ({| a with in_use := pred (in_use a) |}, m, inl tt).

(** ** Reports *)

Record Report := mkReport {
  r_total : nat;
  r_in_use : nat;
  r_regions : nat;
  r_reservations_buf : list Reservation;
  r_reservation_count : nat
}.

Definition report (a : FrameAllocator) : Report :=
  mkReport (total a) (in_use a) (region_count a) (reservations a) (reservation_count a).

Definition total_bytes (r : Report) : Z := Z.of_nat (r_total r) * FRAME_SIZE.
Definition r_reservations (r : Report) : list Reservation :=
  take (r_reservation_count r) (r_reservations_buf r).

Definition Report_fmt (r : Report) : string :=
  if Nat.eqb (r_total r) 0
  then "Frames: NO ALLOCATABLE MEMORY (no usable region survived the reservations)"
  else "Frames: " +:+ Fmt.dec (Z.of_nat (r_total r)) +:+ " x 4 KiB allocatable ("
         +:+ Fmt.dec (total_bytes r / (1024 * 1024)) +:+ " MiB) over "
         +:+ Fmt.dec (Z.of_nat (r_regions r)) +:+ " regions, "
         +:+ Fmt.dec (Z.of_nat (r_in_use r)) +:+ " in use".

(** [frame::init]: the static allocator is replaced wholesale. *)
Definition init (kernel_image : Z * Z) (map : Map.MemoryMap) : FrameAllocator * Report :=
  let a := new kernel_image map in (a, report a).

End Frame.
