(* ===== verification/FramePool.v ===== *)
(** * The frame allocator implements a pool of frames

    [FramePool] states what the allocator promises: a pool with a stack of
    freed frames and a queue of frames never handed out. [FrameFacts] proves
    that the concrete allocator ([FrameAlloc]) simulates it. *)

From S2P Require Import Prelude.
From S2P Require Import MemMap.
From S2P Require Import FrameAlloc.
#[local] Open Scope Z_scope.

(** ** The abstract pool *)
Module Pool.
Import Frame.

Record pool := mkPool {
  p_all : list Z;     (** every frame the pool manages *)
  p_stack : list Z;   (** frames given back, most recent first *)
  p_fresh : list Z    (** frames never handed out, in the order they will be *)
}.

Definition pool_alloc (p : pool) : option Z * pool :=
  match p_stack p, p_fresh p with
  | i :: s, _ => (Some i, mkPool (p_all p) s (p_fresh p))
  | [], i :: f => (Some i, mkPool (p_all p) [] f)
  | [], [] => (None, p)
  end.

Definition pool_free (p : pool) (i : Z) : pool * (unit + FreeError) :=
  if decide (i ∉ p_all p) then (p, inr NotManaged)
  else if decide (i ∈ p_fresh p) then (p, inr NeverAllocated)
  else if decide (i ∈ p_stack p) then (p, inr AlreadyFree)
  else (mkPool (p_all p) (i :: p_stack p) (p_fresh p), inl tt).

End Pool.

Module FrameFacts.
Import Frame Pool.

(** ** Representation *)

Definition frames_of (r : FrameRange) : list Z := range_list (start r) (end_ r).

(** Frames the bump cursor has not passed yet, reserved ones included. *)
Definition remaining (a : FrameAllocator) : list Z :=
  match drop (cursor_region a) (live_regions a) with
  | [] => []
  | r :: rs => range_list (cursor_frame a) (end_ r) ++ mjoin (frames_of <$> rs)
  end.

Definition unreserved (a : FrameAllocator) (i : Z) : Prop := is_reserved a i = false.
#[export] Instance unreserved_dec a i : Decision (unreserved a i).
Proof. unfold unreserved. apply _. Defined.

Definition fresh (a : FrameAllocator) : list Z := filter (unreserved a) (remaining a).
Definition managed (a : FrameAllocator) : list Z :=
  filter (unreserved a) (mjoin (frames_of <$> live_regions a)).

(** The intrusive free list starting at [head] holds exactly [l]. *)
Fixpoint chain (m : mem) (head : Z) (l : list Z) : Prop :=
  match l with
  | [] => head = NO_FRAME
  | i :: l => head = i /\ 0 <= i < MAX_FRAME_INDEX /\ chain m (m.[link_of i]) l
  end.

Definition region_ok (r : FrameRange) : Prop := 0 <= start r <= end_ r /\ end_ r <= MAX_FRAME_INDEX.

(** No frame lies in two regions. *)
Definition disjoint_regions (rs : list FrameRange) : Prop :=
  forall j k r s i, rs !! j = Some r -> rs !! k = Some s ->
    contains r i = true -> contains s i = true -> j = k.

Record wf (a : FrameAllocator) : Prop := {
  wf_count : (region_count a <= length (regions a))%nat;
  wf_regions : Forall region_ok (live_regions a);
  wf_disjoint : disjoint_regions (live_regions a);
  wf_cursor_le : (cursor_region a <= region_count a)%nat;
  wf_cursor : forall r, live_regions a !! cursor_region a = Some r ->
    start r <= cursor_frame a <= end_ r
}.

(** The simulation relation between an allocator (with memory) and a pool. *)
Record represents (a : FrameAllocator) (m : mem) (p : pool) : Prop := {
  rp_wf : wf a;
  rp_all : p_all p = managed a;
  rp_fresh : p_fresh p = fresh a;
  rp_chain : chain m (free_list a) (p_stack p);
  rp_count : free_count a = length (p_stack p);
  rp_nodup : NoDup (p_stack p);
  rp_stack : forall i, i ∈ p_stack p -> i ∈ managed a /\ i ∉ remaining a
}.

(** Two allocators with the same regions and reservations. *)
Definition same_layout (a b : FrameAllocator) : Prop :=
  regions b = regions a /\ region_count b = region_count a /\
  reservations b = reservations a /\ reservation_count b = reservation_count a /\
  total b = total a.

(** The bump cursor moved from [a] to [b]; the free list is untouched. *)
Definition bumped (a b : FrameAllocator) : Prop :=
  wf b /\ same_layout a b /\ free_list b = free_list a /\ free_count b = free_count a.

(** ** Ranges and layout *)

Lemma contains_spec r i : contains r i = true <-> start r <= i < end_ r.
Proof. unfold contains. rewrite andb_true_iff, Z.leb_le, Z.ltb_lt. done. Qed.

Lemma elem_of_frames_of r i : i ∈ frames_of r <-> contains r i = true.
Proof. unfold frames_of. by rewrite elem_of_range_list, contains_spec. Qed.

Lemma same_layout_refl a : same_layout a a.
Proof. done. Qed.

Lemma same_layout_trans a b c : same_layout a b -> same_layout b c -> same_layout a c.
Proof. unfold same_layout. intuition congruence. Qed.

Lemma same_layout_live a b : same_layout a b -> live_regions b = live_regions a.
Proof. intros (H1 & H2 & _). unfold live_regions. by rewrite H1, H2. Qed.

Lemma same_layout_reserved a b i : same_layout a b -> is_reserved b i = is_reserved a i.
Proof.
  intros (_ & _ & H3 & H4 & _). unfold is_reserved, live_reservations. by rewrite H3, H4.
Qed.

Lemma same_layout_filter a b (l : list Z) :
  same_layout a b -> filter (unreserved b) l = filter (unreserved a) l.
Proof.
  intros H. apply list_filter_iff. intros i. unfold unreserved.
  by rewrite (same_layout_reserved a b i H).
Qed.

Lemma same_layout_managed a b : same_layout a b -> managed b = managed a.
Proof.
  intros H. unfold managed. by rewrite (same_layout_filter _ _ _ H), (same_layout_live _ _ H).
Qed.

Lemma live_lookup a i :
  (region_count a <= length (regions a))%nat -> (i < region_count a)%nat ->
  live_regions a !! i = Some (regions a !!! i).
Proof.
  intros Hc Hi. unfold live_regions. rewrite lookup_take_lt by lia.
  apply list_lookup_lookup_total_lt. lia.
Qed.

Lemma live_length a :
  (region_count a <= length (regions a))%nat -> length (live_regions a) = region_count a.
Proof. intros. unfold live_regions. rewrite length_take. lia. Qed.

Lemma region_of_Some a i k :
  region_of a i = Some k -> exists r, live_regions a !! k = Some r /\ contains r i = true.
Proof. intros [H _]%position_Some. done. Qed.

Lemma region_of_None a i :
  region_of a i = None <-> forall r, r ∈ live_regions a -> contains r i = false.
Proof. apply position_None. Qed.

Lemma region_of_unique a i k r :
  disjoint_regions (live_regions a) ->
  live_regions a !! k = Some r -> contains r i = true -> region_of a i = Some k.
Proof.
  intros Hd Hk Hr. unfold region_of. apply position_Some. split; [eauto|].
  intros j s Hj Hs. destruct (contains s i) eqn:E; [|done].
  specialize (Hd _ _ _ _ _ Hk Hs Hr E). lia.
Qed.

Lemma elem_of_managed a i :
  i ∈ managed a <-> region_of a i <> None /\ is_reserved a i = false.
Proof.
  unfold managed. rewrite list_elem_of_filter, list_elem_of_join. unfold unreserved.
  assert ((exists l, i ∈ l /\ l ∈ frames_of <$> live_regions a) <-> region_of a i <> None) as ->.
  { split.
    - intros (l & Hi & Hl). apply list_elem_of_fmap in Hl as (r & -> & Hr).
      rewrite region_of_None. intros H. apply elem_of_frames_of in Hi.
      specialize (H _ Hr). congruence.
    - destruct (region_of a i) as [k|] eqn:Hk; [|done]. intros _.
      apply region_of_Some in Hk as (r & Hr & Hc). exists (frames_of r).
      split; [by apply elem_of_frames_of|].
      apply list_elem_of_fmap. exists r. split; [done|]. by eapply list_elem_of_lookup_2. }
  tauto.
Qed.

(** ** The bump cursor *)

Lemma cursor_view a :
  wf a -> (cursor_region a < region_count a)%nat ->
  let r := regions a !!! cursor_region a in
  live_regions a !! cursor_region a = Some r /\
  drop (cursor_region a) (live_regions a) = r :: drop (S (cursor_region a)) (live_regions a) /\
  start r <= cursor_frame a <= end_ r /\ region_ok r.
Proof.
  intros Hwf Hlt r. pose proof (live_lookup a _ (wf_count _ Hwf) Hlt) as Hl.
  split; [done|]. split; [by apply drop_S|]. split; [by apply (wf_cursor _ Hwf)|].
  eapply Forall_lookup_1; [apply (wf_regions _ Hwf)|done].
Qed.

Lemma elem_of_later_regions (rs : list FrameRange) n i :
  i ∈ mjoin (frames_of <$> drop n rs) <->
  exists k r, rs !! k = Some r /\ contains r i = true /\ (n <= k)%nat.
Proof.
  rewrite list_elem_of_join. split.
  - intros (l & Hi & (r & -> & Hr)%list_elem_of_fmap).
    apply list_elem_of_lookup in Hr as [k Hk]. rewrite lookup_drop in Hk.
    exists (n + k)%nat, r. split_and!; [done|by apply elem_of_frames_of|lia].
  - intros (k & r & Hk & Hc & Hle). exists (frames_of r).
    split; [by apply elem_of_frames_of|]. apply list_elem_of_fmap. exists r. split; [done|].
    apply list_elem_of_lookup. exists (k - n)%nat. rewrite lookup_drop.
    by replace (n + (k - n))%nat with k by lia.
Qed.

Lemma elem_of_remaining a i :
  wf a ->
  i ∈ remaining a <->
  exists k r, live_regions a !! k = Some r /\ contains r i = true /\
    ((cursor_region a < k)%nat \/ (k = cursor_region a /\ cursor_frame a <= i)).
Proof.
  intros Hwf. destruct (decide (cursor_region a < region_count a)%nat) as [Hlt|Hge].
  - destruct (cursor_view a Hwf Hlt) as (Hl & Hd & Hcur & Hok). unfold remaining.
    rewrite Hd, elem_of_app, elem_of_range_list, elem_of_later_regions. split.
    + intros [Hi|(k & r & Hk & Hc & Hle)].
      * exists (cursor_region a), (regions a !!! cursor_region a).
        rewrite contains_spec. split_and!; [done|lia|lia|lia].
      * exists k, r. split_and!; [done|done|lia].
    + intros (k & r & Hk & Hc & [Hlt'|[-> Hle]]); [right; eauto 6 with lia|left].
      rewrite Hl in Hk. injection Hk as <-. apply contains_spec in Hc. lia.
  - unfold remaining. rewrite drop_ge by (rewrite (live_length a (wf_count _ Hwf)); lia).
    split; [by intros ?%elem_of_nil|]. intros (k & r & Hk & _ & Hor).
    apply lookup_lt_Some in Hk. rewrite (live_length a (wf_count _ Hwf)) in Hk.
    pose proof (wf_cursor_le _ Hwf). lia.
Qed.

(** "The cursor has passed this frame" is exactly "it is not ahead of it". *)
Lemma handed_out_spec a i :
  wf a -> region_of a i <> None -> handed_out a i = true <-> i ∉ remaining a.
Proof.
  intros Hwf Hi. unfold handed_out. rewrite (elem_of_remaining a i Hwf).
  destruct (region_of a i) as [k|] eqn:Hk; [|done].
  pose proof (region_of_Some _ _ _ Hk) as (r & Hr & Hc).
  assert (forall k' r', live_regions a !! k' = Some r' -> contains r' i = true -> k' = k) as Hu.
  { intros k' r' Hr' Hc'. exact (wf_disjoint _ Hwf _ _ _ _ _ Hr' Hr Hc' Hc). }
  destruct (Nat.compare_spec k (cursor_region a)) as [->|Hlt|Hgt].
  - rewrite Z.ltb_lt. split.
    + intros Hlt (k' & r' & Hr' & Hc' & Hor). rewrite (Hu _ _ Hr' Hc') in Hor. lia.
    + intros Hn. apply Z.lt_nge. intros Hge. apply Hn. eauto 7.
  - split; [|done]. intros _ (k' & r' & Hr' & Hc' & Hor). rewrite (Hu _ _ Hr' Hc') in Hor. lia.
  - split; [done|]. intros Hn. exfalso. apply Hn. eauto 7.
Qed.

(** Steps the cursor can still make. *)
Definition bump_measure (a : FrameAllocator) : nat :=
  match drop (cursor_region a) (live_regions a) with
  | [] => 0
  | r :: rs => S (Z.to_nat (end_ r - cursor_frame a)) + sum_list (region_steps <$> rs)
  end.

Lemma next_region_spec a :
  wf a -> (cursor_region a < region_count a)%nat ->
  bumped a (next_region a) /\ in_use (next_region a) = in_use a /\
  (bump_measure (next_region a) < bump_measure a)%nat /\
  remaining (next_region a) = mjoin (frames_of <$> drop (S (cursor_region a)) (live_regions a)).
Proof.
  intros Hwf Hlt. destruct (cursor_view a Hwf Hlt) as (Hl & Hd & Hcur & Hok).
  destruct Hwf as [Hc Hr Hdis Hle Hcu].
  unfold next_region, bumped, same_layout, bump_measure, remaining; simpl.
  destruct (Nat.ltb_spec (S (cursor_region a)) (region_count a)) as [Hs|Hs]; simpl.
  - assert (live_regions a !! S (cursor_region a) =
            Some (regions a !!! S (cursor_region a))) as Hl' by (apply live_lookup; lia).
    pose proof (drop_S _ _ _ Hl') as Hd'.
    change (live_regions {| a with cursor_region := S (cursor_region a);
              cursor_frame := start (regions a !!! S (cursor_region a)) |}) with (live_regions a).
    rewrite Hd, Hd'. csimpl. split_and!; try done.
    + split; simpl; try done. intros r Hr'. change (live_regions a !! S (cursor_region a) = Some r) in Hr'.
      rewrite Hl' in Hr'. injection Hr' as <-. pose proof (Forall_lookup_1 _ _ _ _ Hr Hl') as Hok'.
      unfold region_ok in Hok'. lia.
    + unfold region_steps, range_len. lia.
  - change (live_regions {| a with cursor_region := S (cursor_region a) |}) with (live_regions a).
    assert (length (live_regions a) = region_count a) as Hlen by by apply live_length.
    rewrite Hd, (drop_ge (live_regions a) (S (cursor_region a))) by lia. simpl.
    split_and!; try done; [|lia]. split; simpl; try done.
    intros r Hr'. change (live_regions a !! S (cursor_region a) = Some r) in Hr'.
    apply lookup_lt_Some in Hr'. lia.
Qed.

Lemma advance_spec a n :
  wf a -> (cursor_region a < region_count a)%nat ->
  cursor_frame a <= n <= end_ (regions a !!! cursor_region a) ->
  let b := {| a with cursor_frame := n |} in
  bumped a b /\ remaining a = range_list (cursor_frame a) n ++ remaining b /\
  (cursor_frame a < n -> (bump_measure b < bump_measure a)%nat).
Proof.
  intros Hwf Hlt Hn b. destruct (cursor_view a Hwf Hlt) as (Hl & Hd & Hcur & Hok).
  change (live_regions b) with (live_regions a) in *.
  unfold remaining, bump_measure. change (live_regions b) with (live_regions a).
  change (cursor_region b) with (cursor_region a). rewrite Hd. simpl.
  split_and!; [|by rewrite app_assoc, <-range_list_app by lia|lia].
  destruct Hwf as [Hc Hr Hdis Hle Hcu]. split; [split; try done|done].
  intros r Hr'. change (live_regions a !! cursor_region a = Some r) in Hr'.
  rewrite Hl in Hr'. injection Hr' as <-. simpl. lia.
Qed.

Lemma bumped_refl a : wf a -> bumped a a.
Proof. done. Qed.

Lemma bumped_trans a b c : bumped a b -> bumped b c -> bumped a c.
Proof.
  intros (_ & Hl & Hf & Hc) (Hw & Hl' & Hf' & Hc').
  split_and!; [done|by eapply same_layout_trans|congruence|congruence].
Qed.

Lemma bump_measure_fuel a : wf a -> (bump_measure a < loop_fuel a)%nat.
Proof.
  intros Hwf. unfold bump_measure, loop_fuel.
  rewrite <-(take_drop (cursor_region a) (live_regions a)) at 2.
  rewrite fmap_app, sum_list_app.
  destruct (decide (cursor_region a < region_count a)%nat) as [Hlt|Hge].
  - destruct (cursor_view a Hwf Hlt) as (_ & -> & Hcur & _). csimpl.
    unfold region_steps, range_len. lia.
  - rewrite drop_ge by (rewrite (live_length a (wf_count _ Hwf)); lia). lia.
Qed.

(** *** [allocate]'s loop *)

(** What the bump loop returns from [a]: the first fresh frame, if any. *)
Definition bump_result (a : FrameAllocator) (r : FrameAllocator * option Frame) : Prop :=
  let '(b, f) := r in
  bumped a b /\ (exists pre, remaining a = pre ++ remaining b) /\
  match fresh a with
  | [] => f = None /\ fresh b = [] /\ in_use b = in_use a
  | i :: l => f = Some (from_index i) /\ fresh b = l /\ in_use b = S (in_use a)
  end.

Definition bump_inv (a b : FrameAllocator) : Prop :=
  bumped a b /\ (exists pre, remaining a = pre ++ remaining b) /\
  fresh b = fresh a /\ in_use b = in_use a.

Lemma fresh_advance a b pre :
  same_layout a b -> remaining a = pre ++ remaining b ->
  fresh a = filter (unreserved a) pre ++ fresh b.
Proof.
  intros Hl Hrem. unfold fresh. rewrite Hrem, filter_app. f_equal.
  by rewrite (same_layout_filter a b).
Qed.

Lemma next_region_exhausted a :
  wf a -> (cursor_region a < region_count a)%nat ->
  end_ (regions a !!! cursor_region a) <= cursor_frame a ->
  remaining (next_region a) = remaining a.
Proof.
  intros Hwf Hlt Hend. destruct (next_region_spec a Hwf Hlt) as (_ & _ & _ & ->).
  destruct (cursor_view a Hwf Hlt) as (_ & Hd & _). unfold remaining at 1.
  by rewrite Hd, range_list_nil.
Qed.

Lemma bump_step_continue a b c :
  bump_inv a b -> bump_step b = inl c -> bump_inv a c /\ (bump_measure c < bump_measure b)%nat.
Proof.
  intros (Hb & [pre Hpre] & Hf & Hu) Hs. pose proof (proj1 Hb) as Hwf.
  unfold bump_step in Hs.
  destruct (Nat.ltb_spec (cursor_region b) (region_count b)) as [Hlt|]; [|done].
  destruct (Z.leb_spec (end_ (regions b !!! cursor_region b)) (cursor_frame b)) as [Hend|Hend].
  - injection Hs as <-. destruct (next_region_spec b Hwf Hlt) as (Hb' & Hu' & Hm & _).
    pose proof (next_region_exhausted b Hwf Hlt Hend) as Hrem.
    split; [|done]. split_and!; [by eapply bumped_trans|exists pre; by rewrite Hrem| |congruence].
    rewrite <-Hf. unfold fresh. rewrite Hrem. apply same_layout_filter. apply Hb'.
  - destruct (cursor_view b Hwf Hlt) as (_ & _ & Hcur & _).
    destruct (advance_spec b (cursor_frame b + 1) Hwf Hlt) as (Hb' & Hrem & Hm); [lia|].
    cbv zeta in Hs, Hb', Hrem, Hm.
    set (b1 := {| b with cursor_frame := cursor_frame b + 1 |}) in *.
    destruct (is_reserved b1 (cursor_frame b)) eqn:Hr; [|done]. injection Hs as <-.
    split; [|apply Hm; lia]. split_and!; [by eapply bumped_trans| | |done].
    + exists (pre ++ range_list (cursor_frame b) (cursor_frame b + 1)).
      by rewrite <-app_assoc, <-Hrem.
    + rewrite <-Hf, (fresh_advance b b1 _ (proj1 (proj2 Hb')) Hrem).
      rewrite range_list_cons, range_list_nil by lia.
      rewrite filter_cons_False; [by rewrite filter_nil|].
      unfold unreserved. change (is_reserved b1 (cursor_frame b) <> false). by rewrite Hr.
Qed.

Lemma bump_step_exit a b r : bump_inv a b -> bump_step b = inr r -> bump_result a r.
Proof.
  intros (Hb & [pre Hpre] & Hf & Hu) Hs. pose proof (proj1 Hb) as Hwf.
  unfold bump_step in Hs. unfold bump_result.
  destruct (Nat.ltb_spec (cursor_region b) (region_count b)) as [Hlt|Hge].
  - destruct (Z.leb_spec (end_ (regions b !!! cursor_region b)) (cursor_frame b)) as [|Hend]; [done|].
    destruct (cursor_view b Hwf Hlt) as (_ & _ & Hcur & _).
    destruct (advance_spec b (cursor_frame b + 1) Hwf Hlt) as (Hb' & Hrem & _); [lia|].
    cbv zeta in Hs, Hb', Hrem.
    set (b1 := {| b with cursor_frame := cursor_frame b + 1 |}) in *.
    destruct (is_reserved b1 (cursor_frame b)) eqn:Hr; [done|]. injection Hs as <-.
    assert (bumped b {| b1 with in_use := S (in_use b1) |}) as Hb2.
    { destruct Hb' as ([] & Hl & ? & ?). split; [by split|done]. }
    rewrite <-Hf, (fresh_advance b b1 _ (proj1 (proj2 Hb')) Hrem).
    rewrite range_list_cons, range_list_nil by lia. rewrite filter_cons_True by done.
    rewrite filter_nil. simpl. split_and!; [by eapply bumped_trans| |done|done|by rewrite <-Hu].
    exists (pre ++ range_list (cursor_frame b) (cursor_frame b + 1)).
    rewrite <-app_assoc, Hpre. by rewrite Hrem.
  - injection Hs as <-. split_and!; [done|by exists pre|].
    assert (remaining b = []) as Hnil.
    { unfold remaining. rewrite drop_ge; [done|]. rewrite (live_length b (wf_count _ Hwf)). lia. }
    rewrite <-Hf. unfold fresh. by rewrite Hnil.
Qed.

Lemma bump_loop_spec a :
  wf a -> exists r, run_loop (loop_fuel a) bump_step a = Done r /\ bump_result a r.
Proof.
  intros Hwf. eapply (run_loop_total bump_step (bump_inv a) (bump_result a) bump_measure).
  - intros b c. apply bump_step_continue.
  - intros b r. apply bump_step_exit.
  - split_and!; [by apply bumped_refl|by exists []|done|done].
  - by apply bump_measure_fuel.
Qed.

(** *** [allocate_contiguous]'s loop *)

(** A run of [count] unreserved frames inside one region, ahead of the cursor. *)
Definition candidate (count : nat) (a : FrameAllocator) (x : Z) : Prop :=
  (forall i, x <= i < x + Z.of_nat count -> is_reserved a i = false) /\
  exists k r, live_regions a !! k = Some r /\ start r <= x /\ x + Z.of_nat count <= end_ r /\
    ((cursor_region a < k)%nat \/ (k = cursor_region a /\ cursor_frame a <= x)).

Definition contiguous_result (count : nat) (a : FrameAllocator)
    (r : FrameAllocator * option Frame) : Prop :=
  let '(b, f) := r in
  bumped a b /\
  match f with
  | Some f =>
      candidate count a (index f) /\ in_use b = (in_use a + count)%nat /\
      exists pre, remaining a = pre ++ zrange (index f) count ++ remaining b
  | None => remaining b = [] /\ in_use b = in_use a /\ forall x, ~ candidate count a x
  end.

Definition contiguous_inv (count : nat) (a b : FrameAllocator) : Prop :=
  bumped a b /\ in_use b = in_use a /\ (exists pre, remaining a = pre ++ remaining b) /\
  (forall x, candidate count a x <-> candidate count b x).

Lemma remaining_next a :
  wf a -> (cursor_region a < region_count a)%nat ->
  remaining a = range_list (cursor_frame a) (end_ (regions a !!! cursor_region a))
                ++ remaining (next_region a).
Proof.
  intros Hwf Hlt. destruct (next_region_spec a Hwf Hlt) as (_ & _ & _ & ->).
  destruct (cursor_view a Hwf Hlt) as (_ & Hd & _). unfold remaining. by rewrite Hd.
Qed.

Lemma candidate_next count a x :
  (0 < count)%nat -> wf a -> (cursor_region a < region_count a)%nat ->
  end_ (regions a !!! cursor_region a) < cursor_frame a + Z.of_nat count ->
  candidate count a x <-> candidate count (next_region a) x.
Proof.
  intros Hc Hwf Hlt Hend. destruct (cursor_view a Hwf Hlt) as (Hl & _ & Hcur & _).
  destruct (next_region_spec a Hwf Hlt) as ((Hwf' & Hlay & _) & _).
  assert (forall i, is_reserved (next_region a) i = is_reserved a i) as Hr.
  { intros i. by apply same_layout_reserved. }
  unfold candidate. rewrite (same_layout_live _ _ Hlay). setoid_rewrite Hr.
  assert (cursor_region (next_region a) = S (cursor_region a)) as Hcr.
  { unfold next_region. simpl. by case_if. }
  split; intros [Hres (k & r & Hk & Hs & He & Hor)];
    (split; [exact Hres|]);
    exists k, r; split_and!; try done.
  - destruct Hor as [Hor|[-> Hor]].
    + destruct (decide (k = S (cursor_region a))) as [->|]; [|left; lia]. right.
      split; [lia|].
      unfold next_region. simpl. destruct (Nat.ltb_spec (S (cursor_region a)) (region_count a)) as [Hs'|Hs'].
      * simpl. rewrite (live_lookup a _ (wf_count _ Hwf) Hs') in Hk. injection Hk as ->. lia.
      * apply lookup_lt_Some in Hk. rewrite (live_length a (wf_count _ Hwf)) in Hk. lia.
    + rewrite Hl in Hk. injection Hk as <-. lia.
  - left. lia.
Qed.

Lemma candidate_advance count a n x :
  (0 < count)%nat -> wf a -> (cursor_region a < region_count a)%nat ->
  cursor_frame a < n <= cursor_frame a + Z.of_nat count ->
  is_reserved a (n - 1) = true ->
  candidate count a x <-> candidate count {| a with cursor_frame := n |} x.
Proof.
  intros Hc Hwf Hlt Hn Hres. unfold candidate.
  split; intros [Hr (k & r & Hk & Hs & He & Hor)]; (split; [exact Hr|]);
    exists k, r; split_and!; try done; simpl in *; [|lia].
  destruct Hor as [|[-> Hle]]; [by left|right]. split; [done|].
  destruct (decide (n <= x)); [done|]. rewrite Hr in Hres by lia. done.
Qed.

Lemma saturating_end r first count :
  region_ok r ->
  (end_ r <? saturating_add_u32 first (Z.of_nat count)) = (end_ r <? first + Z.of_nat count).
Proof.
  intros [_ He]. change MAX_FRAME_INDEX with 1048576 in He.
  unfold saturating_add_u32. change U32_MAX with 4294967295. lia.
Qed.

Lemma contiguous_step_continue count a b c :
  (0 < count)%nat ->
  contiguous_inv count a b -> contiguous_step count b = inl c ->
  contiguous_inv count a c /\ (bump_measure c < bump_measure b)%nat.
Proof.
  intros Hc (Hb & Hu & [pre Hpre] & Hcand) Hs. pose proof (proj1 Hb) as Hwf.
  unfold contiguous_step in Hs.
  destruct (Nat.ltb_spec (cursor_region b) (region_count b)) as [Hlt|]; [|done].
  destruct (cursor_view b Hwf Hlt) as (Hl & _ & Hcur & Hok).
  rewrite (saturating_end _ _ _ Hok) in Hs.
  assert (forall n, cursor_frame b < n <= cursor_frame b + Z.of_nat count ->
    n <= end_ (regions b !!! cursor_region b) -> is_reserved b (n - 1) = true ->
    let c := {| b with cursor_frame := n |} in
    contiguous_inv count a c /\ (bump_measure c < bump_measure b)%nat) as Hadv.
  { intros n Hn He Hr. destruct (advance_spec b n Hwf Hlt) as (Hb' & Hrem & Hm); [lia|].
    split; [|apply Hm; lia]. split_and!; [by eapply bumped_trans|done| |].
    - exists (pre ++ range_list (cursor_frame b) n). by rewrite <-app_assoc, <-Hrem.
    - intros x. rewrite Hcand. by apply candidate_advance. }
  assert (end_ (regions b !!! cursor_region b) < cursor_frame b + Z.of_nat count ->
    contiguous_inv count a (next_region b) /\
    (bump_measure (next_region b) < bump_measure b)%nat) as Hnext.
  { intros He. destruct (next_region_spec b Hwf Hlt) as (Hb' & Hu' & Hm & _).
    split; [|done]. split_and!; [by eapply bumped_trans|congruence| |].
    - exists (pre ++ range_list (cursor_frame b) (end_ (regions b !!! cursor_region b))).
      by rewrite <-app_assoc, <-remaining_next.
    - intros x. rewrite Hcand. by apply candidate_next. }
  destruct (Z.leb_spec (end_ (regions b !!! cursor_region b)) (cursor_frame b)).
  { injection Hs as <-. apply Hnext. lia. }
  destruct (is_reserved b (cursor_frame b)) eqn:Hr.
  { injection Hs as <-. apply Hadv; [lia|lia|]. by replace (cursor_frame b + 1 - 1) with (cursor_frame b) by lia. }
  destruct (Z.ltb_spec (end_ (regions b !!! cursor_region b)) (cursor_frame b + Z.of_nat count)).
  { injection Hs as <-. by apply Hnext. }
  destruct (List.find _ _) as [i|] eqn:Hfind; [|done]. injection Hs as <-.
  apply List.find_some in Hfind as [Hin Hi]. apply list_elem_of_In, elem_of_range_list in Hin.
  apply Hadv; [lia|lia|]. by replace (i + 1 - 1) with i by lia.
Qed.

Lemma contiguous_step_exit count a b r :
  (0 < count)%nat ->
  contiguous_inv count a b -> contiguous_step count b = inr r -> contiguous_result count a r.
Proof.
  intros Hc (Hb & Hu & [pre Hpre] & Hcand) Hs. pose proof (proj1 Hb) as Hwf.
  unfold contiguous_step in Hs. unfold contiguous_result.
  destruct (Nat.ltb_spec (cursor_region b) (region_count b)) as [Hlt|Hge].
  - destruct (cursor_view b Hwf Hlt) as (Hl & _ & Hcur & Hok).
    rewrite (saturating_end _ _ _ Hok) in Hs.
    destruct (Z.leb_spec (end_ (regions b !!! cursor_region b)) (cursor_frame b)); [done|].
    destruct (is_reserved b (cursor_frame b)) eqn:Hr; [done|].
    destruct (Z.ltb_spec (end_ (regions b !!! cursor_region b)) (cursor_frame b + Z.of_nat count)); [done|].
    destruct (List.find _ _) as [i|] eqn:Hfind; [done|]. injection Hs as <-. simpl.
    pose proof (List.find_none _ _ Hfind) as Hnone.
    destruct (advance_spec b (cursor_frame b + Z.of_nat count) Hwf Hlt) as (Hb' & Hrem & _); [lia|].
    split_and!.
    + destruct Hb' as ([] & Hlay & ? & ?). eapply bumped_trans; [exact Hb|].
      split; [by split|done].
    + apply Hcand. split.
      * intros i Hi. apply Hnone, list_elem_of_In, elem_of_range_list. done.
      * exists (cursor_region b), (regions b !!! cursor_region b). split_and!; try done; try lia.
    + lia.
    + exists pre. rewrite Hpre, Hrem. unfold range_list.
      by replace (Z.to_nat (cursor_frame b + Z.of_nat count - cursor_frame b)) with count by lia.
  - injection Hs as <-. pose proof (live_length b (wf_count _ Hwf)) as Hlen. split_and!; [done| |done|].
    + unfold remaining. rewrite drop_ge; [done|lia].
    + intros x [_ (k & r & Hk & _ & _ & Hor)]%Hcand. apply lookup_lt_Some in Hk.
      pose proof (wf_cursor_le _ Hwf). lia.
Qed.

Lemma contiguous_loop_spec count a :
  (0 < count)%nat -> wf a ->
  exists r, run_loop (loop_fuel a) (contiguous_step count) a = Done r /\ contiguous_result count a r.
Proof.
  intros Hc Hwf.
  eapply (run_loop_total _ (contiguous_inv count a) (contiguous_result count a) bump_measure).
  - intros b c. by apply contiguous_step_continue.
  - intros b r. by apply contiguous_step_exit.
  - split_and!; [by apply bumped_refl|done|by exists []|done].
  - by apply bump_measure_fuel.
Qed.

(** ** No frame occurs twice *)

Lemma elem_of_fresh a i : i ∈ fresh a <-> is_reserved a i = false /\ i ∈ remaining a.
Proof. unfold fresh. by rewrite list_elem_of_filter. Qed.

Lemma disjoint_regions_tail r rs : disjoint_regions (r :: rs) -> disjoint_regions rs.
Proof.
  intros Hd j k x y i Hx Hy Hcx Hcy.
  specialize (Hd (S j) (S k) x y i Hx Hy Hcx Hcy). lia.
Qed.

Lemma NoDup_frames rs : disjoint_regions rs -> NoDup (mjoin (frames_of <$> rs)).
Proof.
  induction rs as [|r rs IH]; intros Hd; csimpl; [constructor|].
  apply NoDup_app. split_and!; [apply NoDup_range_list| |by eapply IH, disjoint_regions_tail].
  intros i Hi Hin. apply elem_of_frames_of in Hi.
  apply (elem_of_later_regions rs 0) in Hin as (k & s & Hk & Hc & _).
  specialize (Hd 0%nat (S k) r s i eq_refl Hk Hi Hc). lia.
Qed.

Lemma NoDup_managed a : wf a -> NoDup (managed a).
Proof. intros Hwf. apply NoDup_filter, NoDup_frames, (wf_disjoint _ Hwf). Qed.

(** The cursor's frames are a tail of all frames of the regions. *)
Lemma remaining_suffix a :
  wf a -> exists pre, mjoin (frames_of <$> live_regions a) = pre ++ remaining a.
Proof.
  intros Hwf. rewrite <-(take_drop (cursor_region a) (live_regions a)), fmap_app, join_app.
  destruct (decide (cursor_region a < region_count a)%nat) as [Hlt|Hge].
  - destruct (cursor_view a Hwf Hlt) as (_ & Hd & Hcur & _). unfold remaining. rewrite Hd. csimpl.
    unfold frames_of at 2. rewrite (range_list_app _ (cursor_frame a)) by lia.
    exists (mjoin (frames_of <$> take (cursor_region a) (live_regions a)) ++
            range_list (start (regions a !!! cursor_region a)) (cursor_frame a)).
    by rewrite <-!app_assoc.
  - assert (remaining a = [] /\ drop (cursor_region a) (live_regions a) = []) as [-> ->].
    { unfold remaining. rewrite drop_ge; [done|]. rewrite (live_length a (wf_count _ Hwf)). lia. }
    exists (mjoin (frames_of <$> take (cursor_region a) (live_regions a))). done.
Qed.

Lemma NoDup_remaining a : wf a -> NoDup (remaining a).
Proof.
  intros Hwf. destruct (remaining_suffix a Hwf) as [pre Hpre].
  pose proof (NoDup_frames _ (wf_disjoint _ Hwf)) as Hn. rewrite Hpre in Hn.
  by apply NoDup_app in Hn as (_ & _ & ?).
Qed.

Lemma NoDup_fresh a : wf a -> NoDup (fresh a).
Proof. intros Hwf. by apply NoDup_filter, NoDup_remaining. Qed.

Lemma fresh_managed a i : wf a -> i ∈ fresh a -> i ∈ managed a.
Proof.
  intros Hwf [Hr Hi]%elem_of_fresh. destruct (remaining_suffix a Hwf) as [pre Hpre].
  unfold managed. apply list_elem_of_filter. split; [done|].
  rewrite Hpre. apply elem_of_app. by right.
Qed.

(** ** The intrusive free list *)

Lemma link_of_eq i : 0 <= i < MAX_FRAME_INDEX -> link_of i = i * 4096.
Proof.
  change MAX_FRAME_INDEX with 1048576. intros Hi. unfold link_of, as_u32, FRAME_SHIFT.
  rewrite Z.shiftl_mul_pow2 by lia. change (2 ^ 12) with 4096. change (2 ^ 32) with 4294967296.
  apply Z.mod_small. lia.
Qed.

Lemma chain_bounds m h l i : chain m h l -> i ∈ l -> 0 <= i < MAX_FRAME_INDEX.
Proof.
  revert h. induction l as [|j l IH]; intros h Hc Hi; [by apply elem_of_nil in Hi|].
  destruct Hc as (_ & Hj & Hc). apply elem_of_cons in Hi as [->|Hi]; eauto.
Qed.

Lemma chain_agree m m' h l :
  (forall i, i ∈ l -> m'.[link_of i] = m.[link_of i]) -> chain m h l -> chain m' h l.
Proof.
  revert h. induction l as [|j l IH]; intros h Hag Hc; [done|].
  destruct Hc as (-> & Hj & Hc). simpl. split_and!; [done|lia|lia|].
  rewrite Hag by apply list_elem_of_here. apply IH; [|done].
  intros i Hi. apply Hag. by apply list_elem_of_further.
Qed.

Lemma chain_store m h l i v :
  0 <= i < MAX_FRAME_INDEX -> i ∉ l -> chain m h l -> chain (m.[link_of i <- v]) h l.
Proof.
  intros Hi Hni Hc. apply chain_agree with m; [|done]. intros j Hj.
  pose proof (chain_bounds _ _ _ _ Hc Hj). apply load_store_ne.
  rewrite !link_of_eq by done. intros Heq. apply Hni. by replace i with j by lia.
Qed.

Lemma on_free_list_walk_spec m h l i :
  chain m h l -> on_free_list_walk (length l) m h i = bool_decide (i ∈ l).
Proof.
  revert h. induction l as [|j l IH]; intros h Hc; simpl; [done|].
  destruct Hc as (-> & Hj & Hc). change MAX_FRAME_INDEX with 1048576 in Hj.
  change NO_FRAME with 4294967295. destruct (Z.eqb_spec j 4294967295) as [|_]; [lia|].
  destruct (Z.eqb_spec j i) as [->|Hne].
  - symmetry. apply bool_decide_eq_true. apply list_elem_of_here.
  - rewrite (IH _ Hc). apply bool_decide_ext. rewrite elem_of_cons. intuition congruence.
Qed.

Lemma chain_head_nil m h l : chain m h l -> (h =? NO_FRAME) = bool_decide (l = []).
Proof.
  destruct l as [|i l]; simpl; [by intros ->|]. intros (-> & Hi & _).
  change MAX_FRAME_INDEX with 1048576 in Hi.
  apply Z.eqb_neq. change NO_FRAME with 4294967295. lia.
Qed.

(** ** Simulation *)

Lemma managed_bounds a i : wf a -> i ∈ managed a -> 0 <= i < MAX_FRAME_INDEX.
Proof.
  intros Hwf [Hr _]%elem_of_managed. destruct (region_of a i) as [k|] eqn:Hk; [|done].
  apply region_of_Some in Hk as (r & Hl & Hc). apply contains_spec in Hc.
  pose proof (Forall_lookup_1 _ _ _ _ (wf_regions _ Hwf) Hl) as Hok. unfold region_ok in Hok. lia.
Qed.

(** Moving the bump cursor keeps the representation of the free list. *)
Lemma represents_bumped a b m p f :
  represents a m p -> bumped a b -> (exists pre, remaining a = pre ++ remaining b) ->
  fresh b = f -> represents b m (mkPool (p_all p) (p_stack p) f).
Proof.
  intros [Hwf Hall Hfr Hch Hcnt Hnd Hst] (Hwf' & Hlay & Hfl & Hfc) [pre Hpre] <-.
  split; simpl; try done.
  - by rewrite Hall, (same_layout_managed _ _ Hlay).
  - by rewrite Hfl.
  - by rewrite Hfc.
  - intros i Hi. rewrite (same_layout_managed _ _ Hlay). destruct (Hst i Hi) as [Hm Hr].
    split; [done|]. intros Hin. apply Hr. rewrite Hpre. apply elem_of_app. by right.
Qed.

Lemma allocate_sim a m p :
  represents a m p ->
  exists b, allocate a m = Done (b, from_index <$> (pool_alloc p).1) /\
    represents b m (pool_alloc p).2 /\ same_layout a b /\
    in_use b = (if (pool_alloc p).1 then S (in_use a) else in_use a).
Proof.
  intros Hrep. pose proof Hrep as [Hwf Hall Hfr Hch Hcnt Hnd Hst].
  unfold allocate, pop_free. rewrite (chain_head_nil _ _ _ Hch).
  destruct (p_stack p) as [|i s] eqn:Hs.
  - rewrite bool_decide_true by done.
    destruct (bump_loop_spec a Hwf) as ([b f] & Hrun & Hb & Hpre & Hf). rewrite Hrun.
    unfold pool_alloc. rewrite Hs, Hfr. exists b.
    destruct (fresh a) as [|i l] eqn:Hfresh; destruct Hf as (-> & Hfb & Hu); simpl.
    + split_and!; try done; [|by apply Hb].
      pose proof (represents_bumped _ _ _ _ _ Hrep Hb Hpre Hfb) as H.
      destruct p; simpl in *. by subst.
    + split_and!; try done; [|by apply Hb].
      rewrite <-Hs. by apply (represents_bumped a).
  - rewrite bool_decide_false by done. unfold pool_alloc. rewrite Hs. simpl.
    destruct Hch as (Heq & Hi & Hch).
    eexists; split; [by rewrite Heq|]. split_and!; try done.
    apply NoDup_cons in Hnd as [Hni Hnd].
    destruct Hwf. split; simpl; try done; [by rewrite Hcnt|].
    intros j Hj. apply Hst. by apply list_elem_of_further.
Qed.

Lemma free_sim a m p i :
  represents a m p ->
  let '(b, m', r) := free a m (from_index i) in
  r = (pool_free p i).2 /\ represents b m' (pool_free p i).1 /\ same_layout a b /\
  in_use b = (if (pool_free p i).2 then pred (in_use a) else in_use a) /\
  (forall x, (i ∈ managed a -> x <> link_of i) -> m'.[x] = m.[x]).
Proof.
  intros Hrep. pose proof Hrep as [Hwf Hall Hfr Hch Hcnt Hnd Hst].
  unfold free, pool_free. rewrite Hall, Hfr. cbn [index].
  assert ((bool_decide (region_of a i = None) || is_reserved a i) =
          bool_decide (i ∉ managed a)) as Hman.
  { apply eq_true_iff_eq. rewrite orb_true_iff, !bool_decide_eq_true, elem_of_managed.
    destruct (is_reserved a i), (region_of a i); intuition congruence. }
  rewrite Hman. destruct (bool_decide_reflect (i ∉ managed a)) as [Hm|Hm].
  { rewrite decide_True by done. split_and!; done. }
  rewrite decide_False by done. apply dec_stable in Hm.
  pose proof (proj1 (elem_of_managed a i) Hm) as [Hreg Hres].
  assert (handed_out a i = negb (bool_decide (i ∈ fresh a))) as ->.
  { apply eq_true_iff_eq. rewrite (handed_out_spec a i Hwf Hreg), negb_true_iff,
      bool_decide_eq_false, elem_of_fresh. tauto. }
  rewrite negb_involutive. destruct (bool_decide_reflect (i ∈ fresh a)) as [Hf|Hf].
  { rewrite decide_True by done. split_and!; done. }
  rewrite decide_False by done. unfold on_free_list.
  rewrite Hcnt, (on_free_list_walk_spec _ _ _ _ Hch).
  destruct (bool_decide_reflect (i ∈ p_stack p)) as [Hin|Hin].
  { rewrite decide_True by done. split_and!; done. }
  rewrite decide_False by done. simpl. pose proof (managed_bounds a i Hwf Hm) as Hb.
  split_and!; try done.
  - destruct Hwf. split; simpl; try done.
    + split_and!; [done|lia|lia|]. rewrite load_store_eq. by apply chain_store.
    + by rewrite Hcnt.
    + by apply NoDup_cons.
    + intros j [->|Hj]%elem_of_cons; [|by apply Hst]. split; [done|].
      intros Hr. apply Hf, elem_of_fresh. done.
  - intros x Hx. apply load_store_ne. intros Heq. by apply (Hx Hm).
Qed.

(** ** Frames that can be handed out *)

Definition avail (p : pool) : list Z := p_stack p ++ p_fresh p.

(** At most [n] frames were taken off the untouched ones, in order. *)
Definition spent (n : nat) (p p' : pool) : Prop :=
  exists tk, p_fresh p = tk ++ p_fresh p' /\ (length tk <= n)%nat.

Lemma spent_refl n p : spent n p p.
Proof. exists []. split; [done|]. simpl. lia. Qed.

Lemma spent_trans n k p p' p'' : spent n p p' -> spent k p' p'' -> spent (n + k) p p''.
Proof.
  intros (t1 & H1 & Hn) (t2 & H2 & Hk). exists (t1 ++ t2). rewrite H1, H2, length_app, app_assoc. split; [done|lia].
Qed.

Lemma pool_alloc_spent p : spent 1 p (pool_alloc p).2.
Proof.
  unfold pool_alloc. destruct (p_stack p) as [|i s] eqn:Hs; [destruct (p_fresh p) as [|i f] eqn:Hf|].
  - apply spent_refl.
  - exists [i]. rewrite Hf. simpl. split; [done|lia].
  - exists []. simpl. split; [done|lia].
Qed.

Lemma NoDup_avail a m p : represents a m p -> NoDup (avail p).
Proof.
  intros Hrep. apply NoDup_app. split_and!; [apply (rp_nodup _ _ _ Hrep)| |].
  - intros i Hi. rewrite (rp_fresh _ _ _ Hrep). intros [_ Hr]%elem_of_fresh.
    by apply (rp_stack _ _ _ Hrep) in Hi as [_ ?].
  - rewrite (rp_fresh _ _ _ Hrep). apply NoDup_fresh, (rp_wf _ _ _ Hrep).
Qed.

Lemma avail_managed a m p i : represents a m p -> i ∈ avail p -> i ∈ p_all p.
Proof.
  intros Hrep [Hi|Hi]%elem_of_app; rewrite (rp_all _ _ _ Hrep).
  - by apply (rp_stack _ _ _ Hrep).
  - apply fresh_managed; [apply (rp_wf _ _ _ Hrep)|]. by rewrite <-(rp_fresh _ _ _ Hrep).
Qed.

Lemma pool_alloc_cons p i l :
  avail p = i :: l ->
  exists p', pool_alloc p = (Some i, p') /\ avail p' = l /\ p_all p' = p_all p.
Proof.
  unfold avail, pool_alloc. destruct (p_stack p) as [|j s]; simpl.
  - destruct (p_fresh p) as [|j f]; [done|]. intros [= -> ->]. eexists. done.
  - intros [= -> <-]. eexists. done.
Qed.

Lemma pool_alloc_nil p : avail p = [] -> pool_alloc p = (None, p).
Proof. unfold avail, pool_alloc. by destruct (p_stack p), (p_fresh p). Qed.

Lemma pool_free_ok p i :
  i ∈ p_all p -> i ∉ avail p ->
  exists p', pool_free p i = (p', inl tt) /\ avail p' = i :: avail p /\ p_all p' = p_all p /\
    p_stack p' = i :: p_stack p /\ p_fresh p' = p_fresh p.
Proof.
  unfold avail, pool_free. rewrite elem_of_app. intros Hi Hn.
  rewrite !decide_False by tauto. by eexists.
Qed.

Lemma pool_free_double p i :
  i ∈ p_all p -> i ∈ p_stack p -> i ∉ p_fresh p -> pool_free p i = (p, inr AlreadyFree).
Proof.
  intros Hi Hs Hf. unfold pool_free.
  rewrite (decide_False (P := i ∉ p_all p)) by tauto. by rewrite decide_False, decide_True.
Qed.

(** The free list survives writes that miss the links of free frames. *)
Lemma represents_agree a m m' p :
  represents a m p -> (forall i, i ∈ p_stack p -> m'.[link_of i] = m.[link_of i]) -> represents a m' p.
Proof. intros [H1 H2 H3 H4 H5 H6 H7] Hm. split; try done. by apply chain_agree with m. Qed.

Lemma represents_store a m p x v :
  represents a m p -> (forall i, i ∈ p_stack p -> x <> link_of i) ->
  represents a (m.[x <- v]) p.
Proof.
  intros Hrep Hx. apply (represents_agree a m _ p Hrep). intros i Hi. by apply load_store_ne, Hx.
Qed.

Lemma contiguous_sim a m p count f b :
  represents a m p -> allocate_contiguous a count = Done (b, Some f) ->
  candidate count a (index f) /\ in_use b = (in_use a + count)%nat /\ same_layout a b /\
  exists skipped, p_fresh p = skipped ++ zrange (index f) count ++ fresh b /\
    represents b m (mkPool (p_all p) (p_stack p) (fresh b)).
Proof.
  intros Hrep Hal. pose proof (rp_wf _ _ _ Hrep) as Hwf. unfold allocate_contiguous in Hal.
  destruct (Nat.eqb_spec count 0) as [|Hc]; [done|].
  destruct (contiguous_loop_spec count a ltac:(lia) Hwf) as ([b' f'] & Hrun & Hb & Hres).
  rewrite Hal in Hrun. injection Hrun as <- <-.
  destruct Hres as (Hcand & Hu & pre & Hrem). split_and!; [done|done|apply Hb|].
  exists (filter (unreserved a) pre). split.
  - rewrite (rp_fresh _ _ _ Hrep), (fresh_advance a b (pre ++ zrange (index f) count)).
    + rewrite filter_app, <-app_assoc. do 2 f_equal. apply filter_id, Forall_forall.
      intros i Hi%elem_of_zrange. by apply Hcand.
    + apply Hb.
    + by rewrite <-app_assoc.
  - eapply represents_bumped; eauto. exists (pre ++ zrange (index f) count). by rewrite <-app_assoc.
Qed.

Lemma contiguous_sim_none a m p count b :
  represents a m p -> allocate_contiguous a count = Done (b, None) ->
  same_layout a b /\ in_use b = in_use a /\
  (count <> 0%nat -> forall x, ~ candidate count a x) /\
  exists f, represents b m (mkPool (p_all p) (p_stack p) f) /\ (forall i, i ∈ f -> i ∈ p_fresh p) /\
    (count <> 0%nat -> f = []).
Proof.
  intros Hrep Hal. pose proof (rp_wf _ _ _ Hrep) as Hwf. unfold allocate_contiguous in Hal.
  destruct (Nat.eqb_spec count 0) as [->|Hc].
  - injection Hal as <-. split_and!; try done. exists (p_fresh p). by destruct p.
  - destruct (contiguous_loop_spec count a ltac:(lia) Hwf) as ([b' f'] & Hrun & Hb & Hres).
    rewrite Hal in Hrun. injection Hrun as <- <-.
    destruct Hres as (Hrem & Hu & Hnone). split_and!; [apply Hb|done|done|].
    exists []. split_and!; [|by intros i ?%elem_of_nil|done].
    eapply represents_bumped; eauto; [exists (remaining a); by rewrite Hrem, app_nil_r|].
    unfold fresh. by rewrite Hrem.
Qed.

Lemma contiguous_returns a count :
  wf a -> exists b r, allocate_contiguous a count = Done (b, r).
Proof.
  intros Hwf. unfold allocate_contiguous. destruct (Nat.eqb_spec count 0) as [|Hc]; [by eexists _, _|].
  destruct (contiguous_loop_spec count a ltac:(lia) Hwf) as ([b f] & Hrun & _). eauto.
Qed.

End FrameFacts.
