(* ===== verification/FrameNew.v ===== *)
(** * Building the frame pool ([FrameAllocator::new])

    Which frames end up in the pool: exactly those lying wholly inside a usable
    E820 region, below 4 GiB, and touching none of the ranges the kernel has
    already put something in. *)

From S2P Require Import Prelude.
From S2P Require Import MemMap.
From S2P Require Import FrameAlloc.
From S2P Require Import FramePool.
#[local] Open Scope Z_scope.

Module NewFacts.
Import Frame Pool FrameFacts.

(** ** Bytes and frames *)

(** The bytes of frame [i] lie inside / touch the byte range [lo, hi). *)
Definition frame_inside (i lo hi : Z) : Prop := lo <= i * 4096 /\ (i + 1) * 4096 <= hi.
Definition frame_touches (i lo hi : Z) : Prop := exists b, lo <= b < hi /\ i * 4096 <= b < (i + 1) * 4096.

Ltac frame_consts :=
  unfold index_ceil, index_floor, saturating_add_u64 in *;
  change MAX_FRAME_INDEX with 1048576 in *; change FRAME_SHIFT with 12 in *;
  change FRAME_SIZE with 4096 in *; change U64_MAX with 18446744073709551615 in *;
  rewrite ?Z.shiftr_div_pow2 in * by lia; change (2 ^ 12) with 4096 in *.

Lemma inside_spec lo hi i :
  is_u64 lo -> is_u64 hi ->
  contains (inside lo hi) i = true <-> frame_inside i lo hi /\ 0 <= i < MAX_FRAME_INDEX.
Proof.
  unfold is_u64. change (2 ^ 64) with 18446744073709551616. intros Hlo Hhi.
  rewrite contains_spec. unfold inside, frame_inside. simpl. frame_consts.
  Z.div_mod_to_equations. lia.
Qed.

Lemma inside_ok lo hi : is_u64 lo -> is_u64 hi -> region_ok (inside lo hi).
Proof.
  unfold is_u64. change (2 ^ 64) with 18446744073709551616. intros Hlo Hhi.
  unfold region_ok, inside. simpl. frame_consts. Z.div_mod_to_equations. lia.
Qed.

Lemma covering_spec lo hi i :
  0 <= lo -> lo < hi <= 2 ^ 32 ->
  contains (covering lo hi) i = true <-> frame_touches i lo hi.
Proof.
  change (2 ^ 32) with 4294967296. intros Hlo Hhi.
  rewrite contains_spec. unfold covering, frame_touches. simpl. frame_consts. split.
  - intros Hi. exists (Z.max lo (i * 4096)). Z.div_mod_to_equations. lia.
  - intros (b & Hb & Hi). Z.div_mod_to_equations. lia.
Qed.

(** ** Reservations *)

(** The byte ranges the kernel keeps out of the pool. *)
Definition reserved_ranges (kernel_image : Z * Z) : list (Z * Z) :=
  [(0, BIOS_LOW_MEMORY_END); (BOOT_SECTOR_PAGE, BOOT_SECTOR_PAGE + FRAME_SIZE);
   kernel_image; (LEGACY_ROM_START, LEGACY_ROM_END)].

Lemma new_reservations_ranges ki :
  range <$> live_reservations (new_reservations empty ki) =
  (fun r => covering r.1 r.2) <$> reserved_ranges ki.
Proof. done. Qed.

Lemma is_reserved_ranges a rs i :
  range <$> live_reservations a = (fun r => covering r.1 r.2) <$> rs ->
  is_reserved a i = existsb (fun r => contains (covering r.1 r.2) i) rs.
Proof.
  unfold is_reserved. generalize (live_reservations a). intros l. revert rs.
  induction l as [|x l IH]; intros [|y rs] H; csimpl in H; try done.
  injection H as Hx H. simpl. by rewrite Hx, (IH _ H).
Qed.

(** ** Regions *)

Lemma add_regions_fields a rs :
  reservations (add_regions a rs) = reservations a /\
  reservation_count (add_regions a rs) = reservation_count a /\
  cursor_region (add_regions a rs) = cursor_region a /\
  free_list (add_regions a rs) = free_list a /\
  free_count (add_regions a rs) = free_count a /\ in_use (add_regions a rs) = in_use a.
Proof.
  revert a. induction rs as [|r rs IH]; intros a; simpl; [done|].
  repeat case_if; try done.
  all: match goal with |- context [add_regions ?b _] => exact (IH b) end.
Qed.

Definition nonempty (r : FrameRange) : Prop := is_empty r = false.
#[export] Instance nonempty_dec r : Decision (nonempty r).
Proof. unfold nonempty. apply _. Defined.

Definition map_ranges (rs : list Map.Region) : list FrameRange :=
  filter nonempty ((fun r => inside (Map.base r) (Map.end_ r)) <$> rs).

Lemma add_regions_live a rs :
  length (regions a) = MAX_REGIONS -> (region_count a + length rs <= MAX_REGIONS)%nat ->
  length (regions (add_regions a rs)) = MAX_REGIONS /\
  (region_count (add_regions a rs) <= MAX_REGIONS)%nat /\
  live_regions (add_regions a rs) = live_regions a ++ map_ranges rs.
Proof.
  revert a. induction rs as [|r rs IH]; intros a Hlen Hle; simpl in *.
  { rewrite app_nil_r. split_and!; try done. lia. }
  destruct (Nat.eqb_spec (region_count a) MAX_REGIONS) as [|_]; [lia|].
  unfold map_ranges. csimpl.
  destruct (is_empty (inside (Map.base r) (Map.end_ r))) eqn:He.
  - rewrite filter_cons_False by (unfold nonempty; by rewrite He). apply IH; [done|lia].
  - rewrite filter_cons_True by done.
    set (b := {| a with regions := _; region_count := _ |}).
    destruct (IH b) as (H1 & H2 & H3); [by unfold b; simpl; rewrite length_insert|simpl; lia|].
    split_and!; [done|done|]. rewrite H3. unfold live_regions, b. simpl.
    erewrite take_S_r; [|apply list_lookup_insert_eq; lia].
    rewrite take_insert_ge by lia. by rewrite <-app_assoc.
Qed.

(** Usable regions of the map, and that no two of them share a byte. *)
Definition usable (map : Map.MemoryMap) : list Map.Region :=
  List.filter Map.is_usable (Map.regions map).

Definition region_u64 (r : Map.Region) : Prop := is_u64 (Map.base r) /\ is_u64 (Map.length_ r).

Definition disjoint_map (rs : list Map.Region) : Prop :=
  forall j k r s b, rs !! j = Some r -> rs !! k = Some s ->
    Map.base r <= b < Map.end_ r -> Map.base s <= b < Map.end_ s -> j = k.

Lemma region_end_u64 r : region_u64 r -> is_u64 (Map.end_ r).
Proof.
  unfold region_u64, is_u64, Map.end_, saturating_add_u64.
  change U64_MAX with 18446744073709551615. change (2 ^ 64) with 18446744073709551616. lia.
Qed.

Lemma filter_lookup_inj {A} (P : A -> Prop) `{!forall x, Decision (P x)} (l : list A) :
  exists f : nat -> nat, (forall i x, filter P l !! i = Some x -> l !! f i = Some x) /\
    (forall i j, f i = f j -> i = j).
Proof.
  induction l as [|x l (f & Hf & Hinj)].
  { exists id. split; [done|done]. }
  destruct (decide (P x)) as [HP|HP].
  - rewrite filter_cons_True by done. exists (fun i => match i with O => O | S i => S (f i) end).
    split.
    + intros [|i] y Hy; simpl in *; [done|by apply Hf].
    + intros [|i] [|j] Heq; simpl in *; try done. injection Heq as Heq. f_equal. by apply Hinj.
  - rewrite filter_cons_False by done. exists (fun i => S (f i)). split.
    + intros i y Hy. simpl. by apply Hf.
    + intros i j [= Heq]. by apply Hinj.
Qed.

Lemma map_ranges_disjoint rs :
  Forall region_u64 rs -> disjoint_map rs -> disjoint_regions (map_ranges rs).
Proof.
  intros Hu Hd j k r s i Hr Hs Hcr Hcs. unfold map_ranges in *.
  destruct (filter_lookup_inj nonempty
    ((fun r => inside (Map.base r) (Map.end_ r)) <$> rs)) as (f & Hf & Hinj).
  apply Hf in Hr, Hs. rewrite list_lookup_fmap in Hr, Hs.
  destruct (rs !! f j) as [r'|] eqn:Hr'; [|done]. destruct (rs !! f k) as [s'|] eqn:Hs'; [|done].
  injection Hr as <-. injection Hs as <-. apply Hinj.
  pose proof (Forall_lookup_1 _ _ _ _ Hu Hr') as Hur. pose proof (Forall_lookup_1 _ _ _ _ Hu Hs') as Hus.
  apply inside_spec in Hcr as [[H1 H2] _]; [|apply Hur|by apply region_end_u64].
  apply inside_spec in Hcs as [[H3 H4] _]; [|apply Hus|by apply region_end_u64].
  apply (Hd _ _ _ _ (i * 4096) Hr' Hs'); lia.
Qed.

Lemma map_ranges_ok rs : Forall region_u64 rs -> Forall region_ok (map_ranges rs).
Proof.
  intros Hu. apply Forall_forall. intros x Hx. unfold map_ranges in Hx.
  apply list_elem_of_filter in Hx as [_ (r & -> & Hr)%list_elem_of_fmap].
  rewrite Forall_forall in Hu. specialize (Hu r Hr).
  apply inside_ok; [apply Hu|by apply region_end_u64].
Qed.

(** ** The pool [new] builds *)

Lemma count_frames a (l : list Z) n :
  fold_left (fun count i => if negb (is_reserved a i) then S count else count) l n =
  (n + length (filter (unreserved a) l))%nat.
Proof.
  revert n. induction l as [|i l IH]; intros n; simpl; [lia|].
  rewrite IH. destruct (is_reserved a i) eqn:Hr; simpl.
  - by rewrite filter_cons_False by (unfold unreserved; by rewrite Hr).
  - rewrite filter_cons_True by done. simpl. lia.
Qed.

Lemma count_allocatable_spec a : count_allocatable a = length (managed a).
Proof.
  unfold count_allocatable, managed. generalize (live_regions a) as rs.
  assert (forall rs n, fold_left (fun count region =>
      fold_left (fun count i => if negb (is_reserved a i) then S count else count)
        (range_list (start region) (end_ region)) count) rs n =
      (n + length (filter (unreserved a) (mjoin (frames_of <$> rs))))%nat) as H.
  { induction rs as [|r rs IH]; intros n; csimpl; [lia|].
    rewrite IH, count_frames, filter_app, length_app. unfold frames_of. lia. }
  intros rs. by rewrite H.
Qed.

(** A map the allocator can be built from: as [Map.load] makes them, with
    usable regions that do not overlap. *)
Record map_ok (map : Map.MemoryMap) : Prop := {
  mo_len : (length (Map.regions map) <= Map.MAX_ENTRIES)%nat;
  mo_u64 : Forall region_u64 (usable map);
  mo_disjoint : disjoint_map (usable map)
}.

Lemma usable_length map : (length (usable map) <= length (Map.regions map))%nat.
Proof. apply List.filter_length_le. Qed.

Lemma new_layout ki map :
  (length (Map.regions map) <= Map.MAX_ENTRIES)%nat ->
  let a := new ki map in
  (region_count a <= length (regions a))%nat /\
  live_regions a = map_ranges (usable map) /\
  range <$> live_reservations a = (fun r => covering r.1 r.2) <$> reserved_ranges ki /\
  cursor_region a = 0%nat /\
  (forall r rs, live_regions a = r :: rs -> cursor_frame a = start r) /\
  free_list a = NO_FRAME /\ free_count a = 0%nat /\ in_use a = 0%nat /\
  total a = length (managed a).
Proof.
  intros Hlen. unfold new. fold (usable map).
  set (a1 := new_reservations empty ki).
  pose proof (usable_length map) as Hul.
  destruct (add_regions_live a1 (usable map)) as (H1 & H2 & H3);
    [done|unfold MAX_REGIONS in *; simpl; lia|].
  destruct (add_regions_fields a1 (usable map)) as (Hr1 & Hr2 & Hc & Hf & Hfc & Hu).
  set (a2 := add_regions a1 (usable map)) in *. clearbody a2.
  assert (live_regions a2 = map_ranges (usable map)) as H3' by done. clear H3.
  assert (range <$> live_reservations a2 =
    (fun r => covering r.1 r.2) <$> reserved_ranges ki) as Hres.
  { unfold live_reservations. rewrite Hr1, Hr2. done. }
  cbv zeta. destruct (Nat.ltb_spec 0 (region_count a2)) as [Hlt|Hge].
  - split_and!; try done; [simpl; lia| |].
    + intros r rs Hrs. change (live_regions a2 = r :: rs) in Hrs. simpl.
      pose proof (live_lookup a2 0 ltac:(lia) Hlt) as Hl0. rewrite Hrs in Hl0.
      by injection Hl0 as ->.
    + simpl. by rewrite count_allocatable_spec.
  - split_and!; try done; [simpl; lia| |].
    + intros r rs Hrs. change (live_regions a2 = r :: rs) in Hrs.
      unfold live_regions in Hrs. by replace (region_count a2) with 0%nat in Hrs by lia.
    + simpl. by rewrite count_allocatable_spec.
Qed.

(** What [new] keeps back. *)
Lemma new_reserved ki map : live_reservations (new ki map) =
  [mkReservation (covering 0 BIOS_LOW_MEMORY_END) "IVT, BIOS data area, E820 handoff block";
   mkReservation (covering BOOT_SECTOR_PAGE (BOOT_SECTOR_PAGE + FRAME_SIZE)) "boot sector image and real-mode stack";
   mkReservation (covering ki.1 ki.2) "kernel image, .bss and stack";
   mkReservation (covering LEGACY_ROM_START LEGACY_ROM_END) "legacy video memory and BIOS ROM"].
Proof.
  unfold new. set (a1 := new_reservations empty ki).
  destruct (add_regions_fields a1 (usable map)) as (Hr1 & Hr2 & _). fold (usable map).
  set (a2 := add_regions a1 (usable map)) in *. clearbody a2. cbv zeta. unfold live_reservations.
  destruct (Nat.ltb 0 (region_count a2)); cbn [reservations reservation_count]; by rewrite Hr1, Hr2.
Qed.

Lemma new_wf ki map : map_ok map -> wf (new ki map).
Proof.
  intros [Hlen Hu Hd]. destruct (new_layout ki map Hlen) as (H1 & H2 & _ & H4 & H5 & _).
  split; [done| | |rewrite H4; lia|].
  - rewrite H2. by apply map_ranges_ok.
  - rewrite H2. by apply map_ranges_disjoint.
  - rewrite H4. intros r Hr. destruct (live_regions (new ki map)) as [|r0 rs] eqn:Hl; [done|].
    injection Hr as ->. rewrite (H5 _ _ eq_refl). pose proof (map_ranges_ok _ Hu) as Hok.
    rewrite <-H2 in Hok. apply Forall_inv in Hok. unfold region_ok in Hok. lia.
Qed.

Lemma new_remaining ki map :
  map_ok map -> remaining (new ki map) = mjoin (frames_of <$> live_regions (new ki map)).
Proof.
  intros [Hlen Hu Hd]. destruct (new_layout ki map Hlen) as (H1 & H2 & _ & H4 & H5 & _).
  set (a := new ki map) in *. clearbody a. unfold remaining. rewrite H4, drop_0.
  destruct (live_regions a) as [|r rs] eqn:Hl; [done|]. csimpl. by rewrite (H5 _ _ eq_refl).
Qed.

Lemma new_represents ki map m :
  map_ok map ->
  let a := new ki map in
  represents a m (mkPool (managed a) [] (managed a)) /\
  total a = length (managed a) /\ in_use a = 0%nat.
Proof.
  intros Hok a. pose proof Hok as [Hlen Hu Hd].
  destruct (new_layout ki map Hlen) as (_ & _ & _ & _ & _ & Hfl & Hfc & Hiu & Htot).
  split_and!; try done. split; simpl; try done.
  - by apply new_wf.
  - unfold a, fresh. by rewrite (new_remaining ki map Hok).
  - constructor.
  - intros i Hi. by apply elem_of_nil in Hi.
Qed.

Lemma new_managed ki map i :
  map_ok map -> 0 <= ki.1 < ki.2 -> ki.2 <= 2 ^ 32 ->
  i ∈ managed (new ki map) <->
  (exists r, r ∈ usable map /\ frame_inside i (Map.base r) (Map.end_ r)) /\
  0 <= i < MAX_FRAME_INDEX /\
  Forall (fun rng => ~ frame_touches i rng.1 rng.2) (reserved_ranges ki).
Proof.
  intros Hok Hki1 Hki2. pose proof Hok as [Hlen Hu Hd].
  destruct (new_layout ki map Hlen) as (_ & Hl & Hres & _).
  unfold managed. rewrite list_elem_of_filter, Hl. unfold unreserved.
  rewrite (is_reserved_ranges _ _ _ Hres).
  assert (existsb (fun r => contains (covering r.1 r.2) i) (reserved_ranges ki) = false <->
    Forall (fun rng => ~ frame_touches i rng.1 rng.2) (reserved_ranges ki)) as ->.
  { rewrite <-not_true_iff_false, existsb_exists. split.
    - intros Hn. apply Forall_forall. intros x Hx Ht. apply Hn. exists x. split; [by apply list_elem_of_In|].
      apply covering_spec; [| |done]; clear Hn Ht;
      repeat (apply elem_of_cons in Hx as [->|Hx]; [simpl; try lia; try done|]);
      by apply elem_of_nil in Hx.
    - intros Hf (x & Hx%list_elem_of_In & Hc). rewrite Forall_forall in Hf. apply (Hf x Hx).
      apply covering_spec in Hc; [done| |]; clear Hf Hc;
      repeat (apply elem_of_cons in Hx as [->|Hx]; [simpl; try lia; try done|]);
      by apply elem_of_nil in Hx. }
  assert (i ∈ mjoin (frames_of <$> map_ranges (usable map)) <->
    (exists r, r ∈ usable map /\ frame_inside i (Map.base r) (Map.end_ r)) /\
    0 <= i < MAX_FRAME_INDEX) as ->; [|tauto].
  rewrite list_elem_of_join. rewrite Forall_forall in Hu. split.
  - intros (l & Hi & (x & -> & Hx)%list_elem_of_fmap). apply elem_of_frames_of in Hi.
    apply list_elem_of_filter in Hx as [_ (r & -> & Hr)%list_elem_of_fmap].
    apply inside_spec in Hi as [Hin Hb]; [|apply (Hu r Hr)|by apply region_end_u64, Hu].
    split; [by exists r|done].
  - intros [(r & Hr & Hin) Hb].
    assert (contains (inside (Map.base r) (Map.end_ r)) i = true) as Hc.
    { apply inside_spec; [apply (Hu r Hr)|by apply region_end_u64, Hu|done]. }
    exists (frames_of (inside (Map.base r) (Map.end_ r))). split; [by apply elem_of_frames_of|].
    apply list_elem_of_fmap. eexists; split; [done|]. apply list_elem_of_filter. split.
    + unfold nonempty, is_empty. apply contains_spec in Hc. lia.
    + apply list_elem_of_fmap. by exists r.
Qed.

End NewFacts.
