(* ===== verification/FrameSpec.v ===== *)
(** * What the frame allocator guarantees

    The allocator's properties, for the allocator [FrameAllocator::new] builds
    and for every state its clients can drive it to. *)

From S2P Require Import Prelude.
From S2P Require Import MemMap.
From S2P Require Import FrameAlloc.
From S2P Require Import FramePool.
From S2P Require Import FrameNew.
#[local] Open Scope Z_scope.

Module FrameSpec.
Import Frame Pool FrameFacts NewFacts.

(** ** A small machine to run the allocator on

    Two usable regions of 16 and 14 frames with the kernel image loaded at
    0x10000, as concrete input for the examples below. *)
Definition demo_map : Map.MemoryMap := {|
  Map.regions_buf :=
    [Map.mkRegion 0x8000 0x10000 Map.Usable; Map.mkRegion 0x20000 0x8000 Map.Reserved;
     Map.mkRegion 0x100000 0xe000 Map.Usable];
  Map.len := 3; Map.reported := 3; Map.available := true |}.

Definition demo_image : Z * Z := (0x10000, 0x14000).
Definition demo : FrameAllocator := new demo_image demo_map.
Definition demo_pool : pool := mkPool (managed demo) [] (managed demo).

Lemma demo_map_ok : map_ok demo_map.
Proof.
  split.
  - vm_compute. lia.
  - repeat constructor; vm_compute; done.
  - intros j k r s b Hr Hs Hbr Hbs.
    change (usable demo_map) with
      [Map.mkRegion 0x8000 0x10000 Map.Usable; Map.mkRegion 0x100000 0xe000 Map.Usable] in *.
    destruct j as [|[|j]], k as [|[|k]]; simplify_eq/=; try done;
      unfold Map.end_, saturating_add_u64 in *; simpl in *;
      change U64_MAX with 18446744073709551615 in *; lia.
Qed.

Lemma demo_represents m : represents demo m demo_pool.
Proof. apply (new_represents demo_image demo_map m demo_map_ok). Qed.

(** ** Refinement of the abstract pool *)

(** C11: [allocate] implements the pool: it always returns, hands out the most
    recently freed frame if there is one, else the next never-used frame, and
    [None] exactly when the pool is empty; the result again represents the
    pool's next state, and the in-use count moves by one. *)
Theorem allocate_refines_pool (a : FrameAllocator) (m : mem) (p : pool) :
  represents a m p ->
  exists b, allocate a m = Done (b, from_index <$> (pool_alloc p).1) /\
    represents b m (pool_alloc p).2 /\
    in_use b = (if (pool_alloc p).1 then S (in_use a) else in_use a).
Proof. intros H. destruct (allocate_sim a m p H) as (b & ? & ? & _ & ?). eauto. Qed.

Lemma allocate_refines_pool_witness :
  exists b, allocate demo ∅ = Done (b, Some (from_index 8)) /\ in_use b = 1%nat.
Proof.
  destruct (allocate_refines_pool demo ∅ demo_pool (demo_represents ∅)) as (b & Hb & _ & Hu).
  exists b. split; [rewrite Hb; vm_compute; reflexivity|rewrite Hu; vm_compute; reflexivity].
Defined.

(** C12: [free] implements the pool on every branch: a frame outside the pool is
    [NotManaged], one the cursor has not reached is [NeverAllocated], one on
    the free list is [AlreadyFree] and nothing changes in these cases; any
    other frame is pushed on the free list, and only that frame's first word
    is written. *)
Theorem free_refines_pool (a : FrameAllocator) (m : mem) (p : pool) (i : Z) :
  represents a m p ->
  exists b m', free a m (from_index i) = (b, m', (pool_free p i).2) /\
    represents b m' (pool_free p i).1 /\
    in_use b = (if (pool_free p i).2 then pred (in_use a) else in_use a) /\
    (forall x, x <> link_of i -> m'.[x] = m.[x]).
Proof.
  intros H. pose proof (free_sim a m p i H) as Hs.
  destruct (free a m (from_index i)) as [[b m'] r]. destruct Hs as (-> & Hr & _ & Hu & Hm).
  exists b, m'. split_and!; auto.
Qed.

Lemma free_refines_pool_witness :
  exists b m', free demo ∅ (from_index 8) = (b, m', inr NeverAllocated).
Proof.
  destruct (free_refines_pool demo ∅ demo_pool 8 (demo_represents ∅)) as (b & m' & Hf & _).
  exists b, m'. rewrite Hf. reflexivity.
Defined.

(** C17: [allocate_contiguous] always returns. A frame it returns starts a run of
    [count] unreserved frames inside one region that were all still unused, and
    the cursor ends right behind the run; it returns [None] only when no such
    run is left ahead of the cursor. The free list is not touched. All for a
    [count] above 0; for 0 the code returns [None] at once. *)
Theorem allocate_contiguous_correct (a : FrameAllocator) (m : mem) (p : pool) (count : nat) :
  represents a m p -> (0 < count)%nat ->
  exists b r, allocate_contiguous a count = Done (b, r) /\
    match r with
    | Some f =>
        candidate count a (index f) /\ in_use b = (in_use a + count)%nat /\
        exists skipped, p_fresh p = skipped ++ zrange (index f) count ++ fresh b /\
          represents b m (mkPool (p_all p) (p_stack p) (fresh b))
    | None => (forall x, ~ candidate count a x) /\ in_use b = in_use a /\
        represents b m (mkPool (p_all p) (p_stack p) [])
    end.
Proof.
  intros Hrep Hc. destruct (contiguous_returns a count (rp_wf _ _ _ Hrep)) as (b & [f|] & Hal);
    exists b; eexists; (split; [exact Hal|]).
  - destruct (contiguous_sim _ _ _ _ _ _ Hrep Hal) as (? & ? & _ & ?). done.
  - destruct (contiguous_sim_none _ _ _ _ _ Hrep Hal) as (_ & Hu & Hn & f & Hr & _ & Hf).
    rewrite Hf in Hr by lia. split_and!; [apply Hn; lia|done|done].
Qed.

Lemma allocate_contiguous_correct_witness :
  exists b r, allocate_contiguous demo 12 = Done (b, r) /\ index <$> r = Some 0x100 /\ in_use b = 12%nat.
Proof.
  destruct (allocate_contiguous_correct demo ∅ demo_pool 12 (demo_represents ∅)
    ltac:(lia)) as (b & r & Hr & _).
  exists b, r. split; [exact Hr|]. vm_compute in Hr. injection Hr as <- <-. split; reflexivity.
Defined.

(** ** The pool [new] builds *)

(** C16: For a memory map whose usable E820 entries do not overlap (of at most
    32 entries of 64-bit addresses, [map_ok]; overlapping entries are accepted
    by the code and break this, see [overlapping_map_double_hand_out]),
    [FrameAllocator::new] puts a frame in the pool exactly when it lies wholly
    inside a usable E820 region and below 4 GiB and touches none of the
    reserved ranges - low BIOS memory, the boot sector page, the kernel image
    and the legacy video/ROM window; [total] counts those frames, none is in
    use, and each of them occurs once. *)
Theorem new_pool_exact (map : Map.MemoryMap) (kernel_image : Z * Z) (m : mem) :
  map_ok map -> 0 <= kernel_image.1 < kernel_image.2 -> kernel_image.2 <= 2 ^ 32 ->
  let a := new kernel_image map in
  exists p, represents a m p /\ p_stack p = [] /\ NoDup (p_fresh p) /\
    total a = length (p_fresh p) /\ in_use a = 0%nat /\
    forall i, i ∈ p_fresh p <->
      (exists r, r ∈ usable map /\ frame_inside i (Map.base r) (Map.end_ r)) /\
      0 <= i < MAX_FRAME_INDEX /\
      Forall (fun rng => ~ frame_touches i rng.1 rng.2) (reserved_ranges kernel_image).
Proof.
  intros Hok H1 H2 a. destruct (new_represents kernel_image map m Hok) as (Hrep & Htot & Hu).
  exists (mkPool (managed a) [] (managed a)). simpl.
  split_and!; try done; [apply NoDup_managed, new_wf, Hok|]. intros i. by apply new_managed.
Qed.

Lemma new_pool_exact_witness :
  exists p, represents demo ∅ p /\ length (p_fresh p) = total demo /\ total demo = 26%nat.
Proof.
  destruct (new_pool_exact demo_map demo_image ∅ demo_map_ok ltac:(vm_compute; done)
    ltac:(vm_compute; done)) as (p & Hp & _ & _ & Ht & _ & _).
  exists p. split; [exact Hp|]. split; [symmetry; exact Ht|vm_compute; reflexivity].
Defined.

(** ** The allocator and its clients

    A step of the system is an allocation, a contiguous allocation, a client
    giving back a frame it holds, or a client writing to a frame it holds. *)

Record system := mkSystem { sys_alloc : FrameAllocator; sys_mem : mem; sys_owned : gset Z }.

Definition run_set (f : Frame) (count : nat) : gset Z := list_to_set (zrange (index f) count).

Inductive sys_step : system -> system -> Prop :=
| step_allocate s b f :
    allocate (sys_alloc s) (sys_mem s) = Done (b, Some f) ->
    sys_step s (mkSystem b (sys_mem s) ({[index f]} ∪ sys_owned s))
| step_exhausted s b :
    allocate (sys_alloc s) (sys_mem s) = Done (b, None) ->
    sys_step s (mkSystem b (sys_mem s) (sys_owned s))
| step_contiguous s b f count :
    allocate_contiguous (sys_alloc s) count = Done (b, Some f) ->
    sys_step s (mkSystem b (sys_mem s) (run_set f count ∪ sys_owned s))
| step_no_run s b count :
    allocate_contiguous (sys_alloc s) count = Done (b, None) ->
    sys_step s (mkSystem b (sys_mem s) (sys_owned s))
| step_free s b m' r i :
    i ∈ sys_owned s -> free (sys_alloc s) (sys_mem s) (from_index i) = (b, m', r) ->
    sys_step s (mkSystem b m' (if r then sys_owned s ∖ {[i]} else sys_owned s))
| step_write s i x v :
    i ∈ sys_owned s -> link_of i <= x < link_of i + FRAME_SIZE ->
    sys_step s (mkSystem (sys_alloc s) ((sys_mem s).[x <- v]) (sys_owned s)).

(** Owned frames belong to the pool and are not available in it. *)
Definition sys_inv (s : system) : Prop :=
  exists p, represents (sys_alloc s) (sys_mem s) p /\
    forall i, i ∈ sys_owned s -> i ∈ p_all p /\ i ∉ avail p.

Lemma sys_inv_allocate s b f :
  sys_inv s -> allocate (sys_alloc s) (sys_mem s) = Done (b, Some f) ->
  index f ∈ managed (sys_alloc s) /\ index f ∉ sys_owned s /\
  sys_inv (mkSystem b (sys_mem s) ({[index f]} ∪ sys_owned s)).
Proof.
  intros (p & Hrep & Hown) Hal.
  destruct (allocate_sim _ _ _ Hrep) as (b' & Hal' & Hrep' & Hlay & _). rewrite Hal in Hal'.
  pose proof (NoDup_avail _ _ _ Hrep) as Hnd.
  destruct (avail p) as [|i l] eqn:Hav; [by rewrite (pool_alloc_nil p Hav) in Hal'|].
  destruct (pool_alloc_cons p i l Hav) as (p' & Hp & Hav' & Hall). rewrite Hp in *.
  injection Hal' as <- ->. simpl in *. apply NoDup_cons in Hnd as [Hni _].
  assert (i ∈ p_all p) as Hi.
  { eapply avail_managed; [done|]. rewrite Hav. apply list_elem_of_here. }
  split_and!.
  - by rewrite <-(rp_all _ _ _ Hrep).
  - intros Ho. destruct (Hown i Ho) as [_ Hn]. apply Hn, list_elem_of_here.
  - exists p'. split; [done|]. simpl. rewrite Hall, Hav'.
    intros j [->%elem_of_singleton|Hj]%elem_of_union; [done|].
    destruct (Hown j Hj) as [? Hn]. split; [done|]. intros ?. by apply Hn, list_elem_of_further.
Qed.

Lemma sys_inv_contiguous s b f count :
  sys_inv s -> allocate_contiguous (sys_alloc s) count = Done (b, Some f) ->
  sys_owned s ## run_set f count /\
  sys_inv (mkSystem b (sys_mem s) (run_set f count ∪ sys_owned s)).
Proof.
  intros (p & Hrep & Hown) Hal. pose proof (NoDup_avail _ _ _ Hrep) as Hnd.
  destruct (contiguous_sim _ _ _ _ _ _ Hrep Hal) as (_ & _ & Hlay & sk & Hf & Hrep').
  unfold run_set. split.
  - intros i Ho Hi%elem_of_list_to_set. destruct (Hown i Ho) as [_ Hn]. apply Hn.
    unfold avail. rewrite Hf, !elem_of_app. tauto.
  - eexists. split; [exact Hrep'|]. simpl. intros i [Hi%elem_of_list_to_set|Ho]%elem_of_union.
    + split.
      * eapply avail_managed; [exact Hrep|]. unfold avail. rewrite Hf, !elem_of_app. tauto.
      * unfold avail in *. simpl. rewrite Hf in Hnd. rewrite elem_of_app.
        apply NoDup_app in Hnd as (_ & Hd & Hnd). apply NoDup_app in Hnd as (_ & _ & Hnd).
        apply NoDup_app in Hnd as (_ & Hd' & _). intros [His|Hif]; [|by apply (Hd' i)].
        apply (Hd i His). rewrite !elem_of_app. tauto.
    + destruct (Hown i Ho) as [? Hn]. split; [done|]. unfold avail in *. simpl.
      rewrite Hf, !elem_of_app in Hn. rewrite elem_of_app. tauto.
Qed.

Lemma sys_inv_free s b m' r i :
  sys_inv s -> i ∈ sys_owned s -> free (sys_alloc s) (sys_mem s) (from_index i) = (b, m', r) ->
  r = inl tt /\ sys_inv (mkSystem b m' (sys_owned s ∖ {[i]})).
Proof.
  intros (p & Hrep & Hown) Hi Hf. pose proof (free_sim _ _ _ i Hrep) as Hs. rewrite Hf in Hs.
  destruct (Hown i Hi) as [Hall Hn].
  destruct (pool_free_ok p i Hall Hn) as (p' & Hp & Hav & Hall' & _). rewrite Hp in Hs.
  destruct Hs as (-> & Hrep' & _). split; [done|]. exists p'. split; [done|]. simpl.
  intros j [Hj Hne]%elem_of_difference. destruct (Hown j Hj) as [? Hnj].
  rewrite Hall', Hav, elem_of_cons. rewrite elem_of_singleton in Hne. tauto.
Qed.

Lemma sys_inv_write s i x v :
  sys_inv s -> i ∈ sys_owned s -> link_of i <= x < link_of i + FRAME_SIZE ->
  sys_inv (mkSystem (sys_alloc s) ((sys_mem s).[x <- v]) (sys_owned s)).
Proof.
  intros (p & Hrep & Hown) Hi Hx. exists p. split; [|done]. simpl.
  apply represents_store; [done|]. intros j Hj ->.
  destruct (Hown i Hi) as [Hall Hn]. rewrite (rp_all _ _ _ Hrep) in Hall.
  pose proof (managed_bounds _ _ (rp_wf _ _ _ Hrep) Hall) as Hbi.
  pose proof (chain_bounds _ _ _ _ (rp_chain _ _ _ Hrep) Hj) as Hbj.
  rewrite !link_of_eq in Hx by done. unfold FRAME_SIZE in Hx. apply Hn.
  unfold avail. rewrite elem_of_app. left. by replace i with j by lia.
Qed.

Lemma sys_inv_step s s' : sys_inv s -> sys_step s s' -> sys_inv s'.
Proof.
  intros Hinv Hs. destruct Hs as [s b f Hal|s b Hal|s b f c Hal|s b c Hal|s b m' r i Hi Hf|s i x v Hi Hx].
  - by apply sys_inv_allocate.
  - destruct Hinv as (p & Hrep & Hown).
    destruct (allocate_sim _ _ _ Hrep) as (b' & Hal' & Hrep' & _). rewrite Hal in Hal'.
    destruct (pool_alloc p) as [[i|] p'] eqn:Hp; [done|]. injection Hal' as <-.
    unfold pool_alloc in Hp. exists p'. split; [done|].
    destruct (p_stack p) eqn:E1, (p_fresh p) eqn:E2; simplify_eq. done.
  - by apply sys_inv_contiguous.
  - destruct Hinv as (p & Hrep & Hown).
    destruct (contiguous_sim_none _ _ _ _ _ Hrep Hal) as (_ & _ & _ & f & Hrep' & Hsub & _).
    eexists. split; [exact Hrep'|]. simpl. intros i Hi. destruct (Hown i Hi) as [? Hn].
    split; [done|]. unfold avail in *. simpl. rewrite elem_of_app in *.
    intros [?|?%Hsub]; tauto.
  - destruct (sys_inv_free _ _ _ _ _ Hinv Hi Hf) as [-> ?]. done.
  - by eapply sys_inv_write.
Qed.

Definition boot_system (kernel_image : Z * Z) (map : Map.MemoryMap) (m : mem) : system :=
  mkSystem (new kernel_image map) m ∅.

Lemma sys_inv_reachable ki map m s :
  map_ok map -> rtc sys_step (boot_system ki map m) s -> sys_inv s.
Proof.
  intros Hok Hr. assert (sys_inv (boot_system ki map m)) as H0.
  { eexists. split; [apply (new_represents ki map m Hok)|]. simpl. set_solver. }
  revert H0. induction Hr as [|x y z Hxy _ IH]; [done|]. intros Hx. by eapply IH, sys_inv_step.
Qed.

(** C1: Exclusive ownership, on a machine whose usable E820 entries do not
    overlap ([map_ok]; the code does not check for overlap, and with
    overlapping entries a frame is handed out twice, see
    [overlapping_map_double_hand_out]). In every state the kernel can reach
    from boot by allocating, freeing frames it holds and writing to frames it
    holds, [allocate] returns, and the frame it hands out belongs to the pool,
    is not reserved, and is held by nobody; a contiguous run it hands out is
    disjoint from every held frame; and giving back a held frame always
    succeeds. *)
Theorem exclusive_ownership (map : Map.MemoryMap) (kernel_image : Z * Z) (m : mem) (s : system) :
  map_ok map -> rtc sys_step (boot_system kernel_image map m) s ->
  (exists b r, allocate (sys_alloc s) (sys_mem s) = Done (b, r) /\
     forall f, r = Some f -> index f ∉ sys_owned s /\ is_reserved (sys_alloc s) (index f) = false /\
       region_of (sys_alloc s) (index f) <> None) /\
  (forall count, exists b r, allocate_contiguous (sys_alloc s) count = Done (b, r) /\
     forall f, r = Some f -> sys_owned s ## run_set f count) /\
  (forall i, i ∈ sys_owned s -> exists b m', free (sys_alloc s) (sys_mem s) (from_index i) = (b, m', inl tt)).
Proof.
  intros Hok Hr. pose proof (sys_inv_reachable _ _ _ _ Hok Hr) as Hinv.
  pose proof Hinv as (p & Hrep & _). split_and!.
  - destruct (allocate_sim _ _ _ Hrep) as (b & Hal & _). eexists _, _. split; [exact Hal|].
    intros f Hf. rewrite Hf in Hal. destruct (sys_inv_allocate _ _ _ Hinv Hal) as (Hm & Hn & _).
    apply elem_of_managed in Hm as [? ?]. done.
  - intros count. destruct (contiguous_returns _ count (rp_wf _ _ _ Hrep)) as (b & r & Hal).
    exists b, r. split; [done|]. intros f ->. by apply (sys_inv_contiguous _ _ _ _ Hinv Hal).
  - intros i Hi. destruct (free (sys_alloc s) (sys_mem s) (from_index i)) as [[b m'] r] eqn:Hf.
    destruct (sys_inv_free _ _ _ _ _ Hinv Hi Hf) as [-> _]. eauto.
Qed.

Lemma exclusive_ownership_witness :
  exists b r, allocate demo ∅ = Done (b, r) /\ r = Some (from_index 8).
Proof.
  destruct (exclusive_ownership demo_map demo_image ∅ (boot_system demo_image demo_map ∅)
    demo_map_ok (rtc_refl _ _)) as ((b & r & Hal & _) & _ & _).
  exists b, r. split; [exact Hal|]. vm_compute in Hal. injection Hal as _ <-. reflexivity.
Defined.

(** ** Frames a contiguous allocation skips *)

(** The frames [allocate_contiguous] passes over on its way to a run are
    lost to [allocate], but [free] takes them: it accepts every frame behind
    the cursor that is not on the free list, although nobody was ever given
    it, and lowers the in-use count that never counted it. *)
Theorem skipped_frame_can_be_freed (a : FrameAllocator) (m : mem) (p : pool)
    (count : nat) (b : FrameAllocator) (f : Frame) (i : Z) :
  represents a m p -> allocate_contiguous a count = Done (b, Some f) ->
  i ∈ p_fresh p -> i ∉ zrange (index f) count -> i ∉ fresh b ->
  exists c m', free b m (from_index i) = (c, m', inl tt) /\ in_use c = pred (in_use b).
Proof.
  intros Hrep Hal Hi Hrun Hnf.
  destruct (contiguous_sim _ _ _ _ _ _ Hrep Hal) as (_ & _ & _ & sk & Hf & Hrep').
  pose proof (free_sim b m _ i Hrep') as Hs.
  destruct (pool_free_ok (mkPool (p_all p) (p_stack p) (fresh b)) i) as (p' & Hp & _).
  - apply (avail_managed a m p i Hrep), elem_of_app. by right.
  - pose proof (NoDup_avail _ _ _ Hrep) as (_ & Hd & _)%NoDup_app.
    intros [Hin|?]%elem_of_app; [|done]. by apply (Hd i Hin).
  - rewrite Hp in Hs. destruct (free b m (from_index i)) as [[c m'] r].
    destruct Hs as (-> & _ & _ & Hu & _). exists c, m'. done.
Qed.

(** The small machine after a run of 12 frames was taken. *)
Definition demo_after : FrameAllocator :=
  match allocate_contiguous demo 12 with Done (b, _) => b | _ => demo end.

Lemma skipped_frame_can_be_freed_witness :
  exists c m', allocate_contiguous demo 12 = Done (demo_after, Some (from_index 0x100)) /\
    free demo_after ∅ (from_index 8) = (c, m', inl tt) /\ in_use c = 11%nat.
Proof.
  destruct (skipped_frame_can_be_freed demo ∅ demo_pool 12 demo_after (from_index 0x100) 8
    (demo_represents ∅) ltac:(vm_compute; reflexivity)
    ltac:(apply (bool_decide_unpack _); vm_compute; exact I)
    ltac:(apply (bool_decide_unpack _); vm_compute; exact I)
    ltac:(apply (bool_decide_unpack _); vm_compute; exact I)) as (c & m' & Hf & Hu).
  exists c, m'. split; [vm_compute; reflexivity|]. split; [exact Hf|]. rewrite Hu. reflexivity.
Defined.

(** The disjointness in [map_ok] is needed: E820 does not promise it, [new]
    does not check it, and two usable entries that overlap put the shared
    frames into the pool twice. *)
Definition overlapping_map : Map.MemoryMap := {|
  Map.regions_buf :=
    [Map.mkRegion 0x100000 0x2000 Map.Usable; Map.mkRegion 0x101000 0x2000 Map.Usable];
  Map.len := 2; Map.reported := 2; Map.available := true |}.

Definition take_three (a : FrameAllocator) (m : mem) : outcome (list (option Frame)) :=
  '(a, x) ← allocate a m; '(a, y) ← allocate a m; '(a, z) ← allocate a m; Done [x; y; z].

(** On a memory map whose usable entries overlap, three allocations in a
    row hand out the shared frame twice without any free in between. *)
Theorem overlapping_map_double_hand_out :
  take_three (new demo_image overlapping_map) ∅ =
    Done [Some (from_index 0x100); Some (from_index 0x101); Some (from_index 0x101)].
Proof. vm_compute. reflexivity. Qed.

End FrameSpec.
