(* ===== verification/FrameTest.v ===== *)
(** * The frame allocator's boot-time self-test ([frame::self_test])

    The routine itself, statement by statement, and what it reports: on any
    pool with enough frames it passes and leaves the pool as it found it. *)

From S2P Require Import Prelude.
From S2P Require Import Fmt.
From S2P Require Import MemMap.
From S2P Require Import FrameAlloc.
From S2P Require Import FramePool.
From S2P Require Import FrameNew.
From S2P Require Import FrameSpec.
#[local] Open Scope Z_scope.

Module FrameTest.
Import Frame.

Definition SELF_TEST_FRAMES : nat := 8.

#[export] Instance Frame_inhabited : Inhabited Frame := populate (from_index 0).

Record SelfTest := mkSelfTest {
  frames_buf : list Frame;
  count : nat;
  freed_buf : list Frame;
  freed_count : nat;
  reused : option Frame;
  failure : option string
}.

Definition SelfTest_new : SelfTest := {|
  frames_buf := replicate SELF_TEST_FRAMES (from_index 0);
  count := 0;
  freed_buf := replicate 2 (from_index 0);
  freed_count := 0;
  reused := None;
  failure := None
|}.

(** Only the first failure is kept. *)
Definition fail (t : SelfTest) (why : string) : SelfTest :=
  match failure t with
  | None => {| t with failure := Some why |}
  | Some _ => t
  end.

Definition frames (t : SelfTest) : list Frame := take (count t) (frames_buf t).
Definition freed (t : SelfTest) : list Frame := take (freed_count t) (freed_buf t).

Definition SelfTest_fmt (t : SelfTest) : string :=
  match failure t with
  | Some why => "Frames: SELF-TEST FAILED - " +:+ why
  | None => "Frames: self-test ok - " +:+ Fmt.dec (Z.of_nat (count t))
              +:+ " distinct, LIFO reuse, double free refused"
  end.

(** [for _ in 0..n { match allocate() ... }]; [inr] is the early return. *)
Fixpoint take_frames (n : nat) (a : FrameAllocator) (m : mem) (t : SelfTest)
  : outcome (FrameAllocator * (SelfTest + SelfTest)) :=
  match n with
  | O => Done (a, inl t)
  | S n =>
      '(a, r) ← allocate a m;
      match r with
      | Some frame =>
          take_frames n a m {| t with frames_buf := <[count t := frame]> (frames_buf t);
                                      count := S (count t) |}
      | None => Done (a, inr (fail t "allocator ran out of frames"))
      end
  end.

(** The checks on one frame, [earlier] being the frames before it. *)
Definition check_frame (a : FrameAllocator) (earlier : list Frame) (t : SelfTest) (frame : Frame)
  : SelfTest :=
  let t := if bool_decide (region_of a (index frame) = None)
           then fail t "handed out a frame outside usable RAM" else t in
  let t := if is_reserved a (index frame) then fail t "handed out a reserved frame" else t in
  if bool_decide (frame ∈ earlier) then fail t "handed out the same frame twice" else t.

Fixpoint check_frames (a : FrameAllocator) (earlier later : list Frame) (t : SelfTest) : SelfTest :=
  match later with
  | [] => t
  | f :: later => check_frames a (earlier ++ [f]) later (check_frame a earlier t f)
  end.

(** [for offset in offsets]: gives back [frames[count - offset]]. *)
Fixpoint free_last (fs : list Frame) (offsets : list nat) (a : FrameAllocator) (m : mem) (t : SelfTest)
  : FrameAllocator * mem * (SelfTest + SelfTest) :=
  match offsets with
  | [] => (a, m, inl t)
  | offset :: offsets =>
      let frame := fs !!! (count t - offset)%nat in
      match free a m frame with
      | (a, m, inr _) => (a, m, inr (fail t "refused to take back a frame it had handed out"))
      | (a, m, inl _) =>
          free_last fs offsets a m {| t with freed_buf := <[freed_count t := frame]> (freed_buf t);
                                             freed_count := S (freed_count t) |}
      end
  end.

(** The loop that gives everything but [still_free] back. *)
Fixpoint return_frames (fs : list Frame) (still_free : Frame) (a : FrameAllocator) (m : mem) (t : SelfTest)
  : FrameAllocator * mem * SelfTest :=
  match fs with
  | [] => (a, m, t)
  | frame :: fs =>
      if bool_decide (frame = still_free) then return_frames fs still_free a m t
      else
        let '(a, m, r) := free a m frame in
        let t := match r with
                 | inr _ => fail t "refused to take back a frame it had handed out"
                 | inl _ => t
                 end in
        return_frames fs still_free a m t
  end.

(** From the allocation that should reuse a freed frame to the end. *)
Definition self_test_reuse (in_use_before : nat) (fs : list Frame) (a : FrameAllocator) (m : mem)
    (t : SelfTest) : outcome (FrameAllocator * mem * SelfTest) :=
  let last_freed := freed_buf t !!! (freed_count t - 1)%nat in
  let still_free := freed_buf t !!! 0%nat in
  '(a, r) ← allocate a m;
  let t := match r with
           | Some frame =>
               let t := {| t with reused := Some frame |} in
               if bool_decide (frame <> last_freed)
               then fail t "did not reuse the most recently freed frame" else t
           | None => fail t "had nothing to allocate after two frames were freed"
           end in
  let '(a, m, again) := free a m still_free in
  let t := if bool_decide (again <> inr AlreadyFree) then fail t "accepted a double free" else t in
  let '(a, m, t) := return_frames (take (count t) fs) still_free a m t in
  let t := if bool_decide (in_use a <> in_use_before)
           then fail t "frames went missing: the in-use count did not return to where it started"
           else t in
  Done (a, m, t).

Definition self_test (a : FrameAllocator) (m : mem) : outcome (FrameAllocator * mem * SelfTest) :=
  let in_use_before := r_in_use (report a) in
  '(a, r) ← take_frames SELF_TEST_FRAMES a m SelfTest_new;
  match r with
  | inr t => Done (a, m, t)
  | inl t =>
      let fs := frames_buf t in
      let t := check_frames a [] (take (count t) fs) t in
      match free_last fs [1; 2]%nat a m t with
      | (a, m, inr t) => Done (a, m, t)
      | (a, m, inl t) => self_test_reuse in_use_before fs a m t
      end
  end.

End FrameTest.

Module FrameTestFacts.
Import Frame Pool FrameFacts FrameTest.

Lemma from_index_inj : Inj (=) (=) from_index.
Proof. by intros x y [= ->]. Qed.
#[export] Existing Instance from_index_inj.

(** One allocation from a pool whose next frame is [i]. *)
Lemma allocate_avail a m p i l :
  represents a m p -> avail p = i :: l ->
  exists b p', allocate a m = Done (b, Some (from_index i)) /\ represents b m p' /\
    avail p' = l /\ p_all p' = p_all p /\ same_layout a b /\ in_use b = S (in_use a) /\ spent 1 p p'.
Proof.
  intros Hrep Hav. destruct (allocate_sim a m p Hrep) as (b & Hal & Hrep' & Hlay & Hu).
  pose proof (pool_alloc_spent p) as Hsp.
  destruct (pool_alloc_cons p i l Hav) as (p' & Hp & Hav' & Hall). rewrite Hp in *.
  exists b, p'. done.
Qed.

(** Giving back a frame of the pool that is not available. *)
Lemma free_avail a m p i :
  represents a m p -> i ∈ p_all p -> i ∉ avail p ->
  exists b m' p', free a m (from_index i) = (b, m', inl tt) /\ represents b m' p' /\
    avail p' = i :: avail p /\ p_all p' = p_all p /\ p_stack p' = i :: p_stack p /\
    p_fresh p' = p_fresh p /\ in_use b = pred (in_use a) /\ same_layout a b.
Proof.
  intros Hrep Hi Hn. destruct (pool_free_ok p i Hi Hn) as (p' & Hp & H1 & H2 & H3 & H4).
  pose proof (free_sim a m p i Hrep) as Hs. rewrite Hp in Hs.
  destruct (free a m (from_index i)) as [[b m'] r]. destruct Hs as (-> & Hr & Hl & Hu & _).
  by exists b, m', p'.
Qed.

Lemma take_frames_ok n a m t p l1 l2 :
  represents a m p -> avail p = l1 ++ l2 -> length l1 = n ->
  (count t + n <= length (frames_buf t))%nat ->
  exists b p', take_frames n a m t =
      Done (b, inl {| t with
        frames_buf := take (count t) (frames_buf t) ++ (from_index <$> l1) ++
                      drop (count t + n) (frames_buf t);
        count := (count t + n)%nat |}) /\
    represents b m p' /\ avail p' = l2 /\ p_all p' = p_all p /\ same_layout a b /\
    in_use b = (in_use a + n)%nat /\ spent n p p'.
Proof.
  revert a t p l1. induction n as [|n IH]; intros a t p l1 Hrep Hav Hlen Hle; simpl.
  - destruct l1; [|done]. exists a, p. simpl. split_and!; try done; [|apply spent_refl].
    rewrite Nat.add_0_r, take_drop. by destruct t.
  - destruct l1 as [|i l1]; [done|].
    destruct (allocate_avail a m p i (l1 ++ l2) Hrep Hav) as (b & p' & -> & Hr & Hav' & Hall & Hlay & Hu & Hsp).
    simpl. edestruct (IH b {| t with frames_buf := <[count t := from_index i]> (frames_buf t);
                                     count := S (count t) |} p' l1)
      as (c & p'' & -> & Hr' & Hav'' & Hall' & Hlay' & Hu' & Hsp'); try done.
    { simpl in *. lia. }
    { simpl. rewrite length_insert. lia. }
    exists c, p''. split_and!; try done; [|congruence|by eapply same_layout_trans|lia|by apply (spent_trans 1 n p p')].
    simpl. do 3 f_equal. simpl in Hle. f_equal; [|lia].
    rewrite drop_insert_lt by lia. rewrite (take_S_r _ _ (from_index i)).
    + rewrite take_insert_ge by lia. rewrite <-app_assoc. csimpl. do 3 f_equal. f_equal. lia.
    + rewrite list_lookup_insert_eq; [done|]. lia.
Qed.

Lemma take_frames_short n a m t p :
  represents a m p -> (length (avail p) < n)%nat ->
  exists b p' t', take_frames n a m t = Done (b, inr t') /\
    failure t' = failure (fail t "allocator ran out of frames") /\
    represents b m p' /\ avail p' = [] /\ in_use b = (in_use a + length (avail p))%nat.
Proof.
  revert a t p. induction n as [|n IH]; intros a t p Hrep Hlen; [lia|]. simpl.
  destruct (avail p) as [|i l] eqn:Hav.
  - destruct (allocate_sim a m p Hrep) as (b & Hal & Hr & _ & Hu).
    rewrite (pool_alloc_nil p Hav) in *. simpl in Hal. rewrite Hal. simpl.
    exists b, p. eexists. split_and!; try done. simpl in *. lia.
  - destruct (allocate_avail a m p i l Hrep Hav) as (b & p' & -> & Hr & Hav' & Hall & Hlay & Hu & _).
    simpl. edestruct (IH b {| t with frames_buf := <[count t := from_index i]> (frames_buf t);
                                     count := S (count t) |} p')
      as (c & p'' & t' & -> & Ht & Hr' & Hav'' & Hu'); [done|rewrite Hav'; simpl in Hlen; lia|].
    exists c, p'', t'. split_and!; try done.
    + rewrite Ht. unfold fail; simpl. destruct (failure t) eqn:E; simpl; congruence.
    + rewrite Hu', Hav'. simpl. lia.
Qed.

Lemma check_frames_ok a earlier later t :
  (forall i, from_index i ∈ later -> i ∈ managed a) ->
  NoDup (earlier ++ later) -> check_frames a earlier later t = t.
Proof.
  revert earlier t. induction later as [|[i] later IH]; intros earlier t Hm Hnd; simpl; [done|].
  assert (check_frame a earlier t (from_index i) = t) as ->.
  { unfold check_frame. simpl.
    pose proof (proj1 (elem_of_managed a i) (Hm i (list_elem_of_here _ _))) as [H1 ->].
    rewrite (bool_decide_false _ H1). apply NoDup_app in Hnd as (_ & Hd & _).
    rewrite bool_decide_false; [done|]. intros H. apply (Hd _ H), list_elem_of_here. }
  apply IH; [|by rewrite <-app_assoc].
  intros j Hj. apply Hm. by apply list_elem_of_further.
Qed.

Lemma return_frames_ok (l : list Z) still a m t p :
  represents a m p -> NoDup l ->
  (forall i, i ∈ l -> i <> still -> i ∈ p_all p /\ i ∉ avail p) ->
  (length (filter (.≠ still) l) <= in_use a)%nat ->
  exists b m' p', return_frames (from_index <$> l) (from_index still) a m t = (b, m', t) /\
    represents b m' p' /\ p_all p' = p_all p /\
    avail p' = reverse (filter (.≠ still) l) ++ avail p /\ p_fresh p' = p_fresh p /\
    in_use b = (in_use a - length (filter (.≠ still) l))%nat /\ same_layout a b.
Proof.
  revert a m p. induction l as [|i l IH]; intros a m p Hrep Hnd Hl Hle; simpl.
  - exists a, m, p. split_and!; try done. simpl in *. lia.
  - apply NoDup_cons in Hnd as [Hni Hnd]. destruct (decide (i = still)) as [->|Hne].
    + rewrite bool_decide_true by done. rewrite filter_cons_False in * by tauto.
      apply IH; try done. intros j Hj. apply Hl. by apply list_elem_of_further.
    + rewrite bool_decide_false by congruence. rewrite filter_cons_True in * by done.
      destruct (Hl i (list_elem_of_here _ _) Hne) as [Hi Hav]. simpl in Hle.
      destruct (free_avail a m p i Hrep Hi Hav) as (b & m' & p' & -> & Hr & Hav' & Hall & _ & Hfr & Hu & Hlay). csimpl.
      edestruct (IH b m' p') as (c & m'' & p'' & -> & Hr' & Hall' & Hav'' & Hfr' & Hu' & Hlay'); try done.
      { intros j Hj Hjn. rewrite Hall, Hav', elem_of_cons.
        destruct (Hl j (list_elem_of_further _ _ _ Hj) Hjn). split; [done|].
        intros [->|?]; tauto. }
      { lia. }
      exists c, m'', p''. split_and!; try done; [congruence| |congruence| |by eapply same_layout_trans].
      * rewrite Hav'', Hav', reverse_cons, <-app_assoc. done.
      * rewrite Hu', Hu. simpl. lia.
Qed.

(** The state of the report after the eight frames [l] have been checked. *)
Definition taken (l : list Z) : SelfTest := {| SelfTest_new with
  frames_buf := from_index <$> l; count := SELF_TEST_FRAMES |}.

Lemma free_last_ok a m p l x y :
  represents a m p -> length l = 6%nat -> x <> y ->
  x ∈ p_all p -> y ∈ p_all p -> x ∉ avail p -> y ∉ avail p ->
  exists b m' p', free_last (from_index <$> l ++ [x; y]) [1; 2]%nat a m (taken (l ++ [x; y])) =
      (b, m', inl {| (taken (l ++ [x; y])) with
                     freed_buf := [from_index y; from_index x]; freed_count := 2 |}) /\
    represents b m' p' /\ p_all p' = p_all p /\ p_stack p' = x :: y :: p_stack p /\
    p_fresh p' = p_fresh p /\ in_use b = pred (pred (in_use a)) /\ same_layout a b.
Proof.
  intros Hrep Hl Hxy Hx Hy Hxn Hyn. do 6 (destruct l as [|? l]; [done|]). destruct l; [|done].
  csimpl. unfold taken. csimpl.
  destruct (free_avail a m p y Hrep Hy Hyn) as (b & m' & p' & Hf & Hr & Hav & Hall & Hs & Hfr & Hu & Hlay).
  change (([?f0; ?f1; ?f2; ?f3; ?f4; ?f5; ?f6; ?f7] !!! (8 - 1)%nat)) with f7.
  rewrite Hf.
  destruct (free_avail b m' p' x Hr) as (c & m'' & p'' & Hf' & Hr' & Hav' & Hall' & Hs' & Hfr' & Hu' & Hlay').
  { by rewrite Hall. }
  { rewrite Hav, elem_of_cons. tauto. }
  csimpl. change (([?f0; ?f1; ?f2; ?f3; ?f4; ?f5; ?f6; ?f7] !!! (8 - 2)%nat)) with f6. rewrite Hf'.
  exists c, m'', p''. split_and!; try done; [congruence..|by eapply same_layout_trans].
Qed.

(** Before the reuse: [x] and [y] are back on the free list, [x] on top. *)
Definition returned (l : list Z) (x y : Z) : SelfTest := {| (taken (l ++ [x; y])) with
  freed_buf := [from_index y; from_index x]; freed_count := 2 |}.

Lemma self_test_reuse_ok n a m p l x y :
  represents a m p -> p_stack p = x :: y :: drop 2 (p_stack p) -> length l = 6%nat ->
  NoDup (l ++ [x; y]) -> (forall i, i ∈ l -> i ∈ p_all p /\ i ∉ avail p) ->
  in_use a = (n + 6)%nat ->
  exists b m' p', self_test_reuse n (from_index <$> l ++ [x; y]) a m (returned l x y) =
      Done (b, m', {| (returned l x y) with reused := Some (from_index x) |}) /\
    represents b m' p' /\ avail p' ≡ₚ l ++ avail p /\ in_use b = n /\ p_fresh p' = p_fresh p /\
    same_layout a b.
Proof.
  intros Hrep Hs Hlen Hnd Hl Hu. set (s := drop 2 (p_stack p)) in Hs.
  assert (avail p = x :: y :: s ++ p_fresh p) as Hav by (unfold avail; by rewrite Hs).
  pose proof (NoDup_avail _ _ _ Hrep) as Hndv. rewrite Hav in Hndv.
  apply NoDup_cons in Hndv as [Hxn Hndv]. pose proof Hndv as Hndy. apply NoDup_cons in Hndv as [Hyn _].
  assert (x ∈ p_all p /\ y ∈ p_all p) as [Hx Hy].
  { split; eapply avail_managed; try done; rewrite Hav, !elem_of_cons; tauto. }
  unfold self_test_reuse. unfold returned at 1 2 3 4. cbn [freed_buf freed_count taken SelfTest_new].
  change ([from_index y; from_index x] !!! (2 - 1)%nat) with (from_index x).
  change ([from_index y; from_index x] !!! 0%nat) with (from_index y).
  destruct (allocate_sim a m p Hrep) as (b & -> & Hr & Hlb & Hub).
  unfold pool_alloc in *. rewrite Hs in *. csimpl in *. rewrite bool_decide_false by tauto.
  set (q := mkPool (p_all p) (y :: s) (p_fresh p)) in *.
  pose proof (free_sim b m q y Hr) as Hd.
  rewrite (pool_free_double q y) in Hd; try done; [|by apply list_elem_of_here|]; last first.
  { intros H. apply Hyn, elem_of_app. by right. }
  destruct (free b m (from_index y)) as [[c m'] r]. destruct Hd as (-> & Hr' & Hlc & Huc & _).
  rewrite bool_decide_false by tauto. cbn [count].
  rewrite (take_ge (from_index <$> l ++ [x; y])) by (rewrite length_fmap, length_app, Hlen; done).
  assert (filter (.≠ y) (l ++ [x; y]) = l ++ [x]) as Hfil.
  { apply NoDup_app in Hnd as (_ & Hd & Hxy). rewrite filter_app. f_equal.
    - apply filter_id, Forall_forall. intros i Hi ->. apply (Hd y Hi).
      apply list_elem_of_further, list_elem_of_here.
    - apply NoDup_cons in Hxy as [Hxy _]. rewrite list_elem_of_singleton in Hxy.
      rewrite filter_cons_True, filter_cons_False by tauto. done. }
  edestruct (return_frames_ok (l ++ [x; y]) y c m') as (d & m'' & p'' & -> & Hr'' & _ & Hav' & Hfr & Hud & Hld);
    [exact Hr'|exact Hnd| | |].
  { intros i [Hi|Hi]%elem_of_app Hne.
    - destruct (Hl i Hi) as [? Hni]. split; [done|]. rewrite Hav in Hni.
      intros Hin. by apply Hni, list_elem_of_further.
    - apply elem_of_cons in Hi as [->|Hi%list_elem_of_singleton]; [|done].
      split; [done|]. intros [->|Hin]%elem_of_cons; [done|]. apply Hxn.
      by apply list_elem_of_further. }
  { rewrite Hfil, length_app, Hlen, Huc, Hub. simpl. lia. }
  rewrite Hfil, length_app, Hlen, Huc, Hub, Hu in Hud. cbn [length] in Hud.
  assert (in_use d = n) as Hn by (rewrite Hud; simpl; lia).
  rewrite bool_decide_false by tauto. exists d, m'', p''. split_and!; try done.
  - rewrite Hav', Hfil, Hav, reverse_Permutation, <-app_assoc. done.
  - exact (same_layout_trans _ _ _ Hlb (same_layout_trans _ _ _ Hlc Hld)).
Qed.

(** Everything [self_test] does when eight frames are available. *)
Lemma self_test_ok a m p :
  represents a m p -> (SELF_TEST_FRAMES <= length (avail p))%nat ->
  exists b m' p' t, self_test a m = Done (b, m', t) /\ represents b m' p' /\
    avail p' ≡ₚ avail p /\ in_use b = in_use a /\ failure t = None /\
    frames t = from_index <$> take SELF_TEST_FRAMES (avail p) /\
    reused t = last (freed t) /\ count t = SELF_TEST_FRAMES /\ spent 8 p p' /\ same_layout a b.
Proof.
  intros Hrep Hlen. unfold SELF_TEST_FRAMES in *.
  rewrite <-(take_drop 8 (avail p)). set (l2 := drop 8 (avail p)).
  assert (exists l x y, take 8 (avail p) = l ++ [x; y] /\ length l = 6%nat) as (l & x & y & Htk & Hl).
  { destruct (avail p) as [|? [|? [|? [|? [|? [|? [|x [|y ?]]]]]]]]; simpl in Hlen; try lia.
    eexists [_; _; _; _; _; _], x, y. done. }
  assert (avail p = (l ++ [x; y]) ++ l2) as Hav by (rewrite <-Htk; symmetry; apply take_drop).
  rewrite Htk. pose proof (NoDup_avail _ _ _ Hrep) as Hnd. rewrite Hav in Hnd.
  apply NoDup_app in Hnd as (Hnd & Hdis & Hnd2).
  assert (forall i, i ∈ l ++ [x; y] -> i ∈ p_all p) as Hman.
  { intros i Hi. eapply avail_managed; [done|]. rewrite Hav. apply elem_of_app. by left. }
  destruct (take_frames_ok 8 a m SelfTest_new p (l ++ [x; y]) l2) as
    (b & p' & Htake & Hr & Hav' & Hall & Hlay & Hu & Hsp); try done; [by rewrite length_app, Hl|].
  unfold self_test, SELF_TEST_FRAMES. rewrite Htake. cbn [mbind outcome_bind].
  cbn [count frames_buf SelfTest_new]. rewrite app_nil_r, app_nil_l, Nat.add_0_l.
  rewrite (take_ge (from_index <$> l ++ [x; y])) by (rewrite length_fmap, length_app, Hl; done).
  fold SELF_TEST_FRAMES (taken (l ++ [x; y])). rewrite check_frames_ok;
    [| |apply (NoDup_fmap_2 from_index), Hnd]; last first.
  { intros i Hi. apply list_elem_of_fmap in Hi as (j & [= ->] & Hj).
    rewrite (same_layout_managed _ _ Hlay), <-(rp_all _ _ _ Hrep). auto. }
  pose proof Hnd as Hxy. apply NoDup_app in Hxy as (_ & Hdl & [Hxy _]%NoDup_cons).
  rewrite list_elem_of_singleton in Hxy.
  assert (forall i, i ∈ l ++ [x; y] -> i ∈ p_all p' /\ i ∉ avail p') as Hout.
  { intros i Hi. rewrite Hall, Hav'. auto. }
  assert (x ∈ l ++ [x; y] /\ y ∈ l ++ [x; y]) as [Hxl Hyl] by (rewrite !elem_of_app, !elem_of_cons; tauto).
  destruct (Hout x Hxl) as [Hx1 Hx2], (Hout y Hyl) as [Hy1 Hy2].
  edestruct (free_last_ok b m p' l x y) as (c & m' & p'' & -> & Hr' & Hall' & Hs & Hf & Hu' & Hlay'); try done.
  fold (returned l x y).
  edestruct (self_test_reuse_ok (in_use a) c m' p'' l x y) as (d & m'' & p3 & Hrun & Hr3 & Hp3 & Hu3 & Hf3 & Hlay3);
    try done.
  { rewrite Hs. simpl. by rewrite drop_0. }
  { intros i Hi. rewrite Hall'. assert (i ∈ l ++ [x; y]) as Hil by (apply elem_of_app; by left).
    destruct (Hout i Hil) as [? Hn]. split; [done|].
    unfold avail. rewrite Hs, Hf. specialize (Hdl i Hi). rewrite !elem_of_cons in Hdl.
    intros [->|[->|Hin]%elem_of_cons]%elem_of_cons; tauto. }
  { rewrite Hu', Hu. lia. }
  exists d, m'', p3. eexists. split; [exact Hrun|]. split_and!; try done.
  - rewrite Hp3. unfold avail at 1. rewrite Hs, Hf. change (p_stack p' ++ p_fresh p') with (avail p').
    simpl. fold (avail p'). rewrite Hav', <-app_assoc. done.
  - unfold frames. cbn [count frames_buf returned taken]. fold SELF_TEST_FRAMES.
    rewrite take_app_length' by (rewrite length_app, Hl; done).
    apply take_ge. by rewrite length_fmap, length_app, Hl.
  - destruct Hsp as (tk & Htk' & Hn). exists tk. by rewrite Hf3, Hf.
  - exact (same_layout_trans _ _ _ Hlay (same_layout_trans _ _ _ Hlay' Hlay3)).
Qed.

(** ** What the self-test reports *)

(** On every allocator that represents a pool with at least eight frames
    available, [self_test] returns and reports success: the frames it was
    handed are the pool's next eight, the reused frame is the one freed last,
    every frame is given back (the available frames are the same up to order)
    and the in-use count is restored. *)
Theorem self_test_passes (a : FrameAllocator) (m : mem) (p : pool) :
  represents a m p -> (SELF_TEST_FRAMES <= length (avail p))%nat ->
  exists b m' p' t, self_test a m = Done (b, m', t) /\ represents b m' p' /\
    avail p' ≡ₚ avail p /\ in_use b = in_use a /\
    SelfTest_fmt t = "Frames: self-test ok - 8 distinct, LIFO reuse, double free refused" /\
    frames t = from_index <$> take SELF_TEST_FRAMES (avail p) /\ reused t = last (freed t).
Proof.
  intros Hrep Hlen. destruct (self_test_ok a m p Hrep Hlen) as (b & m' & p' & t & Hrun & Hr & Hp & Hu & Hf & Hfr & Hre & Hc & _).
  exists b, m', p', t. split_and!; try done. unfold SelfTest_fmt. by rewrite Hf, Hc.
Qed.

Lemma self_test_passes_witness :
  exists b m' t, self_test FrameSpec.demo ∅ = Done (b, m', t) /\ in_use b = 0%nat /\
    reused t = Some (from_index 0xe).
Proof.
  destruct (self_test_passes FrameSpec.demo ∅ FrameSpec.demo_pool (FrameSpec.demo_represents ∅)
    ltac:(vm_compute; lia)) as (b & m' & p' & t & Hrun & _ & _ & Hu & _).
  exists b, m', t. split; [exact Hrun|]. split; [exact Hu|].
  vm_compute in Hrun. injection Hrun as _ _ <-. reflexivity.
Defined.

(** With fewer than eight frames available the self-test returns at its
    first failed allocation with the report "allocator ran out of frames", and
    the frames it had taken by then stay allocated: the pool is empty and the
    in-use count has grown by the number of frames that were available. *)
Theorem self_test_short_pool (a : FrameAllocator) (m : mem) (p : pool) :
  represents a m p -> (length (avail p) < SELF_TEST_FRAMES)%nat ->
  exists b p' t, self_test a m = Done (b, m, t) /\
    failure t = Some "allocator ran out of frames" /\
    represents b m p' /\ avail p' = [] /\ in_use b = (in_use a + length (avail p))%nat.
Proof.
  intros Hrep Hlen. unfold self_test.
  destruct (take_frames_short _ a m SelfTest_new p Hrep Hlen) as (b & p' & t & -> & Ht & H).
  exists b, p', t. done.
Qed.

Definition small_map : Map.MemoryMap := {|
  Map.regions_buf := [Map.mkRegion 0x100000 0x3000 Map.Usable];
  Map.len := 1; Map.reported := 1; Map.available := true |}.

Lemma small_map_ok : NewFacts.map_ok small_map.
Proof.
  split; [vm_compute; lia|repeat constructor; vm_compute; done|].
  intros [|j] [|k] r s b Hr Hs _ _; simplify_eq/=; done.
Qed.

Lemma self_test_short_pool_witness :
  exists b t, self_test (new (0x10000, 0x14000) small_map) ∅ = Done (b, ∅, t) /\ in_use b = 3%nat.
Proof.
  destruct (self_test_short_pool _ ∅ _
    (proj1 (NewFacts.new_represents (0x10000, 0x14000) small_map ∅ small_map_ok))
    ltac:(vm_compute; lia)) as (b & p' & t & Hrun & _ & _ & _ & Hu).
  exists b, t. split; [exact Hrun|]. rewrite Hu. vm_compute. reflexivity.
Defined.

End FrameTestFacts.
