(* ===== verification/Heap.v ===== *)
(** * The kernel heap ([memory/heap.rs])

    [Heap] is the first-fit allocator with its intrusive, address-ordered,
    coalescing free list, state-passing over the [Heap] record and memory: a
    block's first word is its size, its second the next free block. Addresses
    are [usize], 32 bits here; additions and subtractions the source leaves
    unchecked panic on overflow in the kernel's profile and do so here. *)

From S2P Require Import Prelude.
From S2P Require Import Fmt.
From S2P Require Import FrameAlloc.
#[local] Open Scope Z_scope.

Module Heap.

Definition HEAP_SIZE : Z := 1024 * 1024.
Definition HEAP_FRAMES : Z := HEAP_SIZE / Frame.FRAME_SIZE.
Definition ALIGN : Z := 8.
(** [size_of::<FreeBlock>()]: two 32-bit fields, [size] and [next]. *)
Definition HEADER_SIZE : Z := 8.

(** The fields of the [FreeBlock] at an address. *)
Definition size_at (b : Z) : Z := b.
Definition next_at (b : Z) : Z := b + 4.

Record Heap := mkHeap {
  heap_start : Z;
  heap_end : Z;
  free_list : Z;
  used : Z;
  allocations : Z
}.

Record Layout := mkLayout { l_size : Z; l_align : Z }.

Definition empty : Heap := mkHeap 1 1 0 0 0.
Definition is_ready (h : Heap) : bool := heap_start h <? heap_end h.

Definition is_multiple_of (a b : Z) : bool := a mod b =? 0.

Definition heap_init (h : Heap) (m : mem) (start size : Z) : outcome (Heap * mem) :=
  if negb ((HEADER_SIZE <=? size) && is_multiple_of start ALIGN && is_multiple_of size ALIGN)
  then Panicked
  else
    let m := m.[size_at start <- size] in
    let m := m.[next_at start <- 0] in
    heap_end ← add_u32 start size;
    Done (mkHeap start heap_end start 0 0, m).

Definition align_up (value align : Z) : option Z :=
  let mask := align - 1 in
  v ← checked_add_usize value mask;
  Some (Z.land v (Z.ldiff U32_MAX mask)).

Definition aligned_block_size (payload : Z) : option Z :=
  without_header ← align_up payload ALIGN;
  n ← checked_add_usize without_header HEADER_SIZE;
  align_up n ALIGN.

Definition unlink (h : Heap) (m : mem) (prev new_next : Z) : Heap * mem :=
  if prev =? 0 then ({| h with free_list := new_next |}, m)
  else (h, m.[next_at prev <- new_next]).

(** The branch of [allocate] that found a block: [current] with [prev] before
    it on the list and [next] after it. *)
Definition take_block (h : Heap) (m : mem) (needed prev current next : Z)
  : outcome (Heap * mem * Z) :=
  let remaining := m.[size_at current] - needed in
  '(h, m) ← (if HEADER_SIZE <=? remaining then
      split ← add_u32 current needed;
      let m := m.[size_at split <- remaining] in
      let m := m.[next_at split <- next] in
      Done (unlink h m prev split)
    else Done (unlink h m prev next));
  let m := m.[size_at current <- if HEADER_SIZE <=? remaining then needed else needed + remaining] in
  let m := m.[next_at current <- 0] in
  let total := m.[size_at current] in
  used ← add_u32 (used h) total;
  allocations ← add_u32 (allocations h) 1;
  ptr ← add_u32 current HEADER_SIZE;
  Done ({| h with used := used; allocations := allocations |}, m, ptr).

(** The body of the first-fit [while] loop, on [(prev, current)]. *)
Definition alloc_step (h : Heap) (m : mem) (needed : Z) (s : Z * Z)
  : Z * Z + outcome (Heap * mem * Z) :=
  let '(prev, current) := s in
  if current =? 0 then inr (Done (h, m, 0))
  else
    let next := m.[next_at current] in
    if needed <=? m.[size_at current] then inr (take_block h m needed prev current next)
    else inl (current, next).

(** A heap has room for one block per header, so a list walk that ends takes at
    most one step more than that. *)
Definition walk_fuel (h : Heap) : nat :=
  S (S (Z.to_nat ((heap_end h - heap_start h) / HEADER_SIZE))).

(** 0 is the null pointer. *)
Definition allocate (h : Heap) (m : mem) (layout : Layout) : outcome (Heap * mem * Z) :=
  if negb (is_ready h) || (l_size layout =? 0) then Done (h, m, 0)
  else if ALIGN <? l_align layout then Done (h, m, 0)
  else
    match aligned_block_size (l_size layout) with
    | None => Done (h, m, 0)
    | Some needed => r ← run_loop (walk_fuel h) (alloc_step h m needed) (0, free_list h); r
    end.

(** The [while] loop of [insert_free]: where [block] belongs on the list. *)
Definition insert_step (m : mem) (block : Z) (s : Z * Z) : Z * Z + Z * Z :=
  let '(prev, current) := s in
  if negb (current =? 0) && (current <? block) then inl (current, m.[next_at current])
  else inr (prev, current).

(** Merge with the following block when they touch. *)
Definition merge_next (m : mem) (block current : Z) : outcome mem :=
  if current =? 0 then Done m
  else
    fin ← add_u32 block (m.[size_at block]);
    if fin =? current then
      size ← add_u32 (m.[size_at block]) (m.[size_at current]);
      let m := m.[size_at block <- size] in
      Done (m.[next_at block <- m.[next_at current]])
    else Done m.

(** Merge with the previous block when they touch. *)
Definition merge_prev (m : mem) (prev block : Z) : outcome mem :=
  if prev =? 0 then Done m
  else
    fin ← add_u32 prev (m.[size_at prev]);
    if fin =? block then
      size ← add_u32 (m.[size_at prev]) (m.[size_at block]);
      let m := m.[size_at prev <- size] in
      Done (m.[next_at prev <- m.[next_at block]])
    else Done m.

Definition insert_free (h : Heap) (m : mem) (block size : Z) : outcome (Heap * mem) :=
  let m := m.[size_at block <- size] in
  let m := m.[next_at block <- 0] in
  '(prev, current) ← run_loop (walk_fuel h) (insert_step m block) (0, free_list h);
  let m := m.[next_at block <- current] in
  let '(h, m) := if prev =? 0 then ({| h with free_list := block |}, m)
                 else (h, m.[next_at prev <- block]) in
  m ← merge_next m block current;
  m ← merge_prev m prev block;
  Done (h, m).

Definition deallocate (h : Heap) (m : mem) (ptr : Z) : outcome (Heap * mem) :=
  if (ptr =? 0) || negb (is_ready h) then Done (h, m)
  else
    block_addr ← sub_u32 ptr HEADER_SIZE;
    if (block_addr <? heap_start h) || (heap_end h <=? block_addr) then Done (h, m)
    else
      let size := m.[size_at block_addr] in
      if size <? HEADER_SIZE then Done (h, m)
      else
        fin ← add_u32 block_addr size;
        if heap_end h <? fin then Done (h, m)
        else insert_free {| h with used := saturating_sub (used h) size |} m block_addr size.

(** ** Boot: claiming the heap's frames *)

Record Report := mkReport { r_start : Z; r_size : Z; r_ready : bool }.

Definition report_end (r : Report) : Z := saturating_add_u32 (r_start r) (r_size r).

Definition Report_fmt (r : Report) : string :=
  if negb (r_ready r) then "Heap: FAILED (could not reserve a contiguous region)"
  else "Heap: " +:+ Fmt.hex 10 (r_start r) +:+ "-" +:+ Fmt.hex 10 (report_end r) +:+ " ("
         +:+ Fmt.dec (r_size r / 1024) +:+ " KiB), free-list allocator ready".

(** [heap::init], with the two static allocators as state. *)
Definition init (fa : Frame.FrameAllocator) (h : Heap) (m : mem)
  : outcome (Frame.FrameAllocator * Heap * mem * Report) :=
  '(fa, start_frame) ← Frame.allocate_contiguous fa (Z.to_nat HEAP_FRAMES);
  match start_frame with
  | None => Done (fa, h, m, mkReport 0 0 false)
  | Some start_frame =>
      let start := Frame.start_address start_frame in
      '(h, m) ← heap_init h m start HEAP_SIZE;
      Done (fa, h, m, mkReport start HEAP_SIZE true)
  end.

End Heap.
