(* ===== verification/HeapTiles.v ===== *)
(** * What the heap promises: a row of blocks

    The abstract heap is the list of all blocks between [heap_start] and
    [heap_end], free or live, without gaps. [t_alloc] is first fit with
    splitting; [t_free] marks a block free and merges all adjacent holes. *)

From S2P Require Import Prelude.
#[local] Open Scope Z_scope.
#[local] Ltac Zify.zify_post_hook ::= Z.to_euclidean_division_equations.

Module Tiles.

Record tile := mkTile { t_addr : Z; t_size : Z; t_live : bool }.

Definition is_free (t : tile) : Prop := t_live t = false.
#[export] Instance is_free_dec t : Decision (is_free t).
Proof. unfold is_free. apply _. Defined.

(** The blocks cover [lo..hi] exactly; each can hold a header, and sizes keep
    the 8-byte alignment. *)
Fixpoint tiled (lo hi : Z) (ts : list tile) : Prop :=
  match ts with
  | [] => lo = hi
  | t :: ts => t_addr t = lo /\ 8 <= t_size t /\ t_size t mod 8 = 0 /\ tiled (lo + t_size t) hi ts
  end.

(** No two adjacent holes. *)
Fixpoint coalesced (ts : list tile) : Prop :=
  match ts with
  | t :: (u :: _) as us => (is_free t -> ~ is_free u) /\ coalesced us
  | _ => True
  end.

Definition frees (ts : list tile) : list Z := t_addr <$> filter is_free ts.

Fixpoint live_bytes (ts : list tile) : Z :=
  match ts with
  | [] => 0
  | t :: ts => (if t_live t then t_size t else 0) + live_bytes ts
  end.
Fixpoint free_bytes (ts : list tile) : Z :=
  match ts with
  | [] => 0
  | t :: ts => (if t_live t then 0 else t_size t) + free_bytes ts
  end.

(** ** Operations *)

Definition carve (needed : Z) (t : tile) : list tile :=
  if 8 <=? t_size t - needed
  then [mkTile (t_addr t) needed true; mkTile (t_addr t + needed) (t_size t - needed) false]
  else [mkTile (t_addr t) (t_size t) true].

Fixpoint t_alloc (needed : Z) (ts : list tile) : option (Z * list tile) :=
  match ts with
  | [] => None
  | t :: ts =>
      if negb (t_live t) && (needed <=? t_size t) then Some (t_addr t, carve needed t ++ ts)
      else '(b, ts) ← t_alloc needed ts; Some (b, t :: ts)
  end.

Definition join (t u : tile) : tile := mkTile (t_addr t) (t_size t + t_size u) (t_live t).

Definition cons_tile (t : tile) (ts : list tile) : list tile :=
  match ts with
  | u :: us => if negb (t_live t) && negb (t_live u) then join t u :: us else t :: ts
  | [] => [t]
  end.
Definition coalesce (ts : list tile) : list tile := foldr cons_tile [] ts.

Definition mark_free (b : Z) (t : tile) : tile :=
  if t_addr t =? b then {| t with t_live := false |} else t.

Definition t_free (b : Z) (ts : list tile) : list tile := coalesce (mark_free b <$> ts).

(** ** The row of blocks *)

Lemma tiled_app lo hi ts us :
  tiled lo hi (ts ++ us) <-> exists mid, tiled lo mid ts /\ tiled mid hi us.
Proof.
  revert lo. induction ts as [|t ts IH]; intros lo; simpl.
  - split; [intros H; by exists lo|]. by intros (mid & -> & H).
  - rewrite IH. split.
    + intros (H1 & H2 & H3 & mid & H4 & H5). eauto 8.
    + intros (mid & (H1 & H2 & H3 & H4) & H5). eauto 8.
Qed.

Lemma tiled_le lo hi ts : tiled lo hi ts -> lo <= hi.
Proof.
  revert lo. induction ts as [|t ts IH]; intros lo; simpl; [lia|].
  intros (_ & H & _ & Ht). apply IH in Ht. lia.
Qed.

Lemma tiled_elem lo hi ts t :
  tiled lo hi ts -> lo mod 8 = 0 -> t ∈ ts ->
  lo <= t_addr t /\ t_addr t + t_size t <= hi /\ 8 <= t_size t /\ t_size t mod 8 = 0 /\
  t_addr t mod 8 = 0.
Proof.
  revert lo. induction ts as [|u ts IH]; intros lo Ht Hlo Hin; [by apply elem_of_nil in Hin|].
  destruct Ht as (Ha & Hs & Hm & Ht). pose proof (tiled_le _ _ _ Ht).
  apply elem_of_cons in Hin as [->|Hin]; [lia|].
  apply (IH _ Ht) in Hin; lia.
Qed.

(** Everything before a block ends where it starts, at the latest. *)
Lemma tiled_around lo hi pre t post :
  tiled lo hi (pre ++ t :: post) -> lo mod 8 = 0 ->
  (forall y, y ∈ pre -> t_addr y + t_size y <= t_addr t /\ lo <= t_addr y /\ 8 <= t_size y /\ t_addr y mod 8 = 0) /\
  (forall y, y ∈ post -> t_addr t + t_size t <= t_addr y /\ 8 <= t_size y /\ t_addr y mod 8 = 0) /\
  t_addr t mod 8 = 0 /\ 8 <= t_size t /\ t_size t mod 8 = 0 /\
  lo <= t_addr t /\ t_addr t + t_size t <= hi.
Proof.
  intros (mid & Hp & <- & Hs & Hm & Hq)%tiled_app Hlo.
  pose proof (tiled_le _ _ _ Hp). pose proof (tiled_le _ _ _ Hq).
  assert (t_addr t mod 8 = 0) as Hma.
  { destruct (decide (pre = [])) as [->|Hne]; [simpl in Hp; lia|].
    destruct (exists_last Hne) as (pre' & y & ->).
    apply tiled_app in Hp as Hp'. destruct Hp' as (mid' & _ & Hy).
    assert (y ∈ pre' ++ [y]) as Hin by (apply elem_of_app; right; apply list_elem_of_here).
    pose proof (tiled_elem _ _ _ _ Hp Hlo Hin). simpl in Hy. lia. }
  split_and!; try done; try lia.
  - intros y Hy. pose proof (tiled_elem _ _ _ _ Hp Hlo Hy). lia.
  - intros y Hy. assert ((t_addr t + t_size t) mod 8 = 0) as Hm' by lia.
    pose proof (tiled_elem _ _ _ _ Hq Hm' Hy). lia.
Qed.

Lemma tiled_disjoint lo hi ts y z :
  tiled lo hi ts -> lo mod 8 = 0 -> y ∈ ts -> z ∈ ts ->
  y = z \/ t_addr y + t_size y <= t_addr z \/ t_addr z + t_size z <= t_addr y.
Proof.
  intros Ht Hlo Hy Hz. apply list_elem_of_split in Hy as (pre & post & ->).
  destruct (tiled_around _ _ _ _ _ Ht Hlo) as (Hpre & Hpost & _).
  apply elem_of_app in Hz as [Hz|[->|Hz]%elem_of_cons]; [|by left|].
  - specialize (Hpre z Hz). lia.
  - specialize (Hpost z Hz). lia.
Qed.

Lemma tiled_bytes lo hi ts : tiled lo hi ts -> live_bytes ts + free_bytes ts = hi - lo.
Proof.
  revert lo. induction ts as [|t ts IH]; intros lo; simpl; [lia|].
  intros (_ & _ & _ & Ht). apply IH in Ht. destruct (t_live t); lia.
Qed.

Lemma live_bytes_app ts us : live_bytes (ts ++ us) = live_bytes ts + live_bytes us.
Proof. induction ts; simpl; lia. Qed.

Lemma frees_app ts us : frees (ts ++ us) = frees ts ++ frees us.
Proof. unfold frees. by rewrite filter_app, fmap_app. Qed.

Lemma frees_cons_free t ts : is_free t -> frees (t :: ts) = t_addr t :: frees ts.
Proof. intros H. unfold frees. by rewrite filter_cons_True. Qed.

Lemma frees_cons_live t ts : t_live t = true -> frees (t :: ts) = frees ts.
Proof. intros H. unfold frees. rewrite filter_cons_False; [done|]. unfold is_free. congruence. Qed.

Lemma elem_of_frees b ts : b ∈ frees ts <-> exists t, t ∈ ts /\ is_free t /\ t_addr t = b.
Proof.
  unfold frees. rewrite list_elem_of_fmap. split.
  - intros (t & -> & [Hf Hin]%list_elem_of_filter). eauto.
  - intros (t & Hin & Hf & <-). exists t. split; [done|]. by apply list_elem_of_filter.
Qed.

(** ** First fit *)

Lemma t_alloc_None needed ts :
  t_alloc needed ts = None <-> forall t, t ∈ ts -> is_free t -> t_size t < needed.
Proof.
  induction ts as [|t ts IH]; simpl.
  - split; [|done]. intros _ t Ht. by apply elem_of_nil in Ht.
  - unfold is_free in *. destruct (t_live t) eqn:Hl; simpl.
    + destruct (t_alloc needed ts) as [[b us]|] eqn:E; simpl.
      * split; [done|]. intros H. enough (Some (b, us) = None) by done. apply IH. intros u Hu. apply H. by apply list_elem_of_further.
      * split; [|done]. intros _ u [->|Hu]%elem_of_cons Hf; [congruence|]. by apply IH.
    + destruct (Z.leb_spec needed (t_size t)).
      * split; [done|]. intros H'. specialize (H' t (list_elem_of_here _ _) Hl). lia.
      * destruct (t_alloc needed ts) as [[b us]|] eqn:E; simpl.
        -- split; [done|]. intros H'. enough (Some (b, us) = None) by done.
           apply IH. intros u Hu. apply H'. by apply list_elem_of_further.
        -- split; [|done]. intros _ u [->|Hu]%elem_of_cons Hf; [lia|]. by apply IH.
Qed.

Lemma t_alloc_split needed pre t post :
  (forall y, y ∈ pre -> is_free y -> t_size y < needed) -> is_free t -> needed <= t_size t ->
  t_alloc needed (pre ++ t :: post) = Some (t_addr t, pre ++ carve needed t ++ post).
Proof.
  intros Hpre Hf Hn. induction pre as [|y pre IH]; simpl.
  - rewrite Hf. destruct (Z.leb_spec needed (t_size t)); [done|lia].
  - rewrite IH by (intros z Hz; apply Hpre; by apply list_elem_of_further). simpl.
    destruct (t_live y) eqn:Hl; [done|].
    specialize (Hpre y (list_elem_of_here _ _) Hl).
    destruct (Z.leb_spec needed (t_size y)); [lia|done].
Qed.

Lemma t_alloc_Some needed ts b ts' :
  t_alloc needed ts = Some (b, ts') ->
  exists pre t post, ts = pre ++ t :: post /\ is_free t /\ needed <= t_size t /\ b = t_addr t /\
    ts' = pre ++ carve needed t ++ post /\ (forall y, y ∈ pre -> is_free y -> t_size y < needed).
Proof.
  revert ts'. induction ts as [|t ts IH]; intros ts'; simpl; [done|].
  destruct (negb (t_live t) && (needed <=? t_size t)) eqn:E.
  - intros [= <- <-]. apply andb_true_iff in E as [Hl%negb_true_iff Hn%Z.leb_le].
    exists [], t, ts. split_and!; try done. intros y Hy. by apply elem_of_nil in Hy.
  - destruct (t_alloc needed ts) as [[b' us]|] eqn:Ha; simpl; [|done]. intros [= -> <-].
    destruct (IH us eq_refl) as (pre & u & post & -> & Hf & Hn & -> & -> & Hp).
    exists (t :: pre), u, post. split_and!; try done.
    intros y [->|Hy]%elem_of_cons Hfy; [|auto]. unfold is_free in Hfy. rewrite Hfy in E.
    simpl in E. by apply Z.leb_gt in E.
Qed.

Lemma tiled_carve lo hi pre t post needed :
  tiled lo hi (pre ++ t :: post) -> 8 <= needed -> needed mod 8 = 0 -> needed <= t_size t ->
  tiled lo hi (pre ++ carve needed t ++ post).
Proof.
  intros (mid & Hp & <- & Hs & Hm & Hq)%tiled_app H8 Hn Hle. apply tiled_app.
  exists (t_addr t). split; [done|]. unfold carve.
  destruct (Z.leb_spec 8 (t_size t - needed)); simpl; split_and!; try done; try lia.
  by replace (t_addr t + needed + (t_size t - needed)) with (t_addr t + t_size t) by lia.
Qed.

Lemma live_bytes_carve pre t post needed :
  is_free t -> needed <= t_size t ->
  live_bytes (pre ++ carve needed t ++ post) =
  live_bytes (pre ++ t :: post) + (if 8 <=? t_size t - needed then needed else t_size t).
Proof.
  intros Hf Hn. rewrite !live_bytes_app. simpl. rewrite Hf. unfold carve.
  destruct (8 <=? t_size t - needed); simpl; lia.
Qed.

(** ** Holes never touch *)

Lemma coalesced_cons t ts :
  coalesced (t :: ts) <-> coalesced ts /\ (forall u us, ts = u :: us -> is_free t -> ~ is_free u).
Proof.
  destruct ts as [|u us]; simpl.
  - split; [|done]. intros _. split; done.
  - split.
    + intros [H1 H2]. split; [done|]. by intros ? ? [= <- <-].
    + intros [H1 H2]. eauto.
Qed.

(** Replacing a block by one of the same kind. *)
Lemma coalesced_swap pre x x' post :
  t_live x' = t_live x -> coalesced (pre ++ x :: post) -> coalesced (pre ++ x' :: post).
Proof.
  intros Hl. induction pre as [|y pre IH]; simpl app.
  - destruct post; [done|]. simpl. unfold is_free. by rewrite Hl.
  - rewrite !(coalesced_cons y). intros [Hc Hy]. split; [auto|].
    intros u us Hu Hf. destruct pre as [|z pre]; simpl in *; injection Hu as <- <-.
    + specialize (Hy x post eq_refl Hf). unfold is_free in *. congruence.
    + exact (Hy z _ eq_refl Hf).
Qed.

Lemma coalesced_app_l ts us : coalesced (ts ++ us) -> coalesced ts.
Proof.
  induction ts as [|t ts IH]; [done|]. simpl app. rewrite !coalesced_cons.
  intros [Hc Ht]. split; [auto|]. intros u vs -> Hf. exact (Ht u (vs ++ us) eq_refl Hf).
Qed.

Lemma coalesced_app_r ts us : coalesced (ts ++ us) -> coalesced us.
Proof.
  induction ts as [|t ts IH]; [done|]. simpl app. rewrite coalesced_cons. intros [Hc _]. auto.
Qed.

(** The neighbours of a block that is replaced by a live one need no care. *)
Lemma coalesced_live pre x post :
  t_live x = true -> coalesced pre -> coalesced post -> coalesced (pre ++ x :: post).
Proof.
  intros Hx Hp Hq. induction pre as [|y pre IH]; simpl app.
  - apply coalesced_cons. split; [done|]. unfold is_free. congruence.
  - apply coalesced_cons in Hp as [Hp Hy]. apply coalesced_cons. split; [auto|].
    intros u us Hu Hf. destruct pre as [|z pre]; simpl in Hu; injection Hu as <- <-.
    + unfold is_free. congruence.
    + exact (Hy z pre eq_refl Hf).
Qed.

Lemma coalesced_carve pre t post needed :
  is_free t -> coalesced (pre ++ t :: post) -> coalesced (pre ++ carve needed t ++ post).
Proof.
  intros Hf Hc. pose proof (coalesced_app_r _ _ Hc) as Hr.
  unfold carve. destruct (8 <=? t_size t - needed); simpl app.
  - apply coalesced_live; [done|by eapply coalesced_app_l|].
    by apply (coalesced_swap [] t _ post).
  - apply coalesced_live; [done|by eapply coalesced_app_l|]. by apply coalesced_cons in Hr as [? _].
Qed.

(** ** Freeing *)

Definition freed (t : tile) : tile := {| t with t_live := false |}.

Lemma coalesce_id ts : coalesced ts -> coalesce ts = ts.
Proof.
  induction ts as [|t ts IH]; [done|]. intros [Hc Ht]%coalesced_cons. simpl. rewrite IH by done.
  destruct ts as [|u us]; [done|]. specialize (Ht u us eq_refl). unfold is_free in Ht. simpl.
  destruct (t_live t), (t_live u); simpl; tauto.
Qed.

Lemma coalesced_coalesce ts : coalesced (coalesce ts).
Proof.
  induction ts as [|t ts IH]; [done|]. simpl. destruct (coalesce ts) as [|u us]; [done|]. simpl.
  destruct (t_live t) eqn:Ht, (t_live u) eqn:Hu; simpl negb; cbn [andb];
    try (apply coalesced_cons; split; [done|]; unfold is_free; intros ? ? [= <- <-]; congruence).
  apply (coalesced_swap [] u); [|done]. simpl. congruence.
Qed.

Lemma tiled_coalesce lo hi ts : tiled lo hi ts -> tiled lo hi (coalesce ts).
Proof.
  revert lo. induction ts as [|t ts IH]; intros lo; [done|]. simpl. intros (<- & Hs & Hm & Ht).
  apply IH in Ht. destruct (coalesce ts) as [|u us]; [done|]. simpl in *.
  destruct Ht as (Hu & Hus & Hum & Ht).
  destruct (negb (t_live t) && negb (t_live u)); simpl; split_and!; try done; try lia.
  by replace (t_addr t + (t_size t + t_size u)) with (t_addr t + t_size t + t_size u) by lia.
Qed.

Lemma live_bytes_coalesce ts : live_bytes (coalesce ts) = live_bytes ts.
Proof.
  induction ts as [|t ts IH]; [done|]. simpl. rewrite <-IH. destruct (coalesce ts) as [|u us]; [done|].
  simpl. destruct (t_live t) eqn:Ht, (t_live u) eqn:Hu; simpl; rewrite ?Ht, ?Hu; lia.
Qed.

(** Marking hits the one block with that address. *)
Lemma mark_split lo hi pre t post :
  tiled lo hi (pre ++ t :: post) -> lo mod 8 = 0 ->
  mark_free (t_addr t) <$> (pre ++ t :: post) = pre ++ freed t :: post.
Proof.
  intros Ht Hlo. destruct (tiled_around _ _ _ _ _ Ht Hlo) as (Hpre & Hpost & _ & Hs & _).
  assert (forall us : list tile, (forall y, y ∈ us -> t_addr y <> t_addr t) -> mark_free (t_addr t) <$> us = us) as Hid.
  { intros us Hus. induction us as [|u us IH]; [done|]. csimpl. f_equal.
    - unfold mark_free. destruct (Z.eqb_spec (t_addr u) (t_addr t)) as [He|]; [|done].
      by destruct (Hus u (list_elem_of_here _ _)).
    - apply IH. intros y Hy. apply Hus. by apply list_elem_of_further. }
  rewrite fmap_app. csimpl. rewrite (Hid pre), (Hid post).
  - unfold mark_free at 1. by rewrite Z.eqb_refl.
  - intros y Hy. specialize (Hpost y Hy). lia.
  - intros y Hy. specialize (Hpre y Hy). lia.
Qed.

Lemma foldr_cons_tile pre x x' rest :
  t_live x' = t_live x -> coalesced (pre ++ [x]) ->
  foldr cons_tile (x' :: rest) pre = pre ++ x' :: rest.
Proof.
  intros Hl. induction pre as [|y pre IH]; [done|]. simpl app. intros [Hc Hy]%coalesced_cons.
  simpl. rewrite IH by done. destruct pre as [|z pre]; simpl in *.
  - specialize (Hy x [] eq_refl). unfold is_free in Hy. rewrite Hl.
    destruct (t_live y), (t_live x); simpl; tauto.
  - specialize (Hy z _ eq_refl). unfold is_free in Hy.
    destruct (t_live y), (t_live z); simpl; tauto.
Qed.

Lemma cons_tile_head t ts : is_free t ->
  exists v rest, cons_tile t ts = v :: rest /\ is_free v /\ t_addr v = t_addr t.
Proof.
  intros Hf. destruct ts as [|u us]; simpl; [by eexists _, _|].
  destruct (negb (t_live t) && negb (t_live u)); by eexists _, _.
Qed.

(** Freeing with a live block (or none) before it. *)
Lemma t_free_after_live lo hi pre t post :
  tiled lo hi (pre ++ t :: post) -> lo mod 8 = 0 -> coalesced (pre ++ t :: post) ->
  (forall u, last pre = Some u -> t_live u = true) ->
  t_free (t_addr t) (pre ++ t :: post) = pre ++ cons_tile (freed t) post.
Proof.
  intros Ht Hlo Hc Hlast. unfold t_free. rewrite (mark_split lo hi) by done.
  unfold coalesce. rewrite foldr_app. simpl. fold (coalesce post).
  pose proof (coalesced_app_r _ _ Hc) as [Hpost _]%coalesced_cons. rewrite (coalesce_id post) by done.
  destruct (cons_tile_head (freed t) post) as (v & rest & -> & Hv & _); [done|].
  apply (foldr_cons_tile _ v); [done|]. pose proof (coalesced_app_l _ _ Hc) as Hpre.
  destruct (decide (pre = [])) as [->|Hne]; [done|].
  destruct (exists_last Hne) as (pre' & u & ->). rewrite <-app_assoc. simpl app.
  apply coalesced_live; [|by eapply coalesced_app_l|done]. apply Hlast. apply last_snoc.
Qed.

(** Freeing with a hole before it. *)
Lemma t_free_after_hole lo hi pre u t post v rest :
  tiled lo hi (pre ++ u :: t :: post) -> lo mod 8 = 0 -> coalesced (pre ++ u :: t :: post) ->
  is_free u -> cons_tile (freed t) post = v :: rest ->
  t_free (t_addr t) (pre ++ u :: t :: post) = pre ++ join u v :: rest.
Proof.
  intros Ht Hlo Hc Hu Hv. unfold t_free.
  change (pre ++ u :: t :: post) with (pre ++ [u] ++ t :: post) in *. rewrite app_assoc in *.
  rewrite (mark_split lo hi) by done. unfold coalesce. rewrite !foldr_app. simpl. fold (coalesce post).
  pose proof (coalesced_app_r _ _ Hc) as [Hpost _]%coalesced_cons.
  rewrite (coalesce_id post), Hv by done.
  destruct (cons_tile_head (freed t) post) as (v' & rest' & Hv' & Hvf & _); [done|].
  rewrite Hv in Hv'. injection Hv' as <- <-. simpl. rewrite Hu, Hvf. simpl.
  apply (foldr_cons_tile _ u); [done|]. by eapply coalesced_app_l.
Qed.

Lemma live_bytes_free lo hi pre t post :
  tiled lo hi (pre ++ t :: post) -> lo mod 8 = 0 -> t_live t = true ->
  live_bytes (t_free (t_addr t) (pre ++ t :: post)) = live_bytes (pre ++ t :: post) - t_size t.
Proof.
  intros Ht Hlo Hl. unfold t_free. rewrite (mark_split lo hi), live_bytes_coalesce by done.
  rewrite !live_bytes_app. simpl. rewrite Hl. lia.
Qed.

Lemma tiled_mark lo hi b ts : tiled lo hi ts -> tiled lo hi (mark_free b <$> ts).
Proof.
  revert lo. induction ts as [|t ts IH]; intros lo; [done|]. csimpl. intros (Ha & Hs & Hm & Ht).
  assert (t_addr (mark_free b t) = t_addr t /\ t_size (mark_free b t) = t_size t) as [-> ->].
  { unfold mark_free. by destruct (t_addr t =? b). }
  auto.
Qed.

Lemma tiled_free lo hi b ts : tiled lo hi ts -> tiled lo hi (t_free b ts).
Proof. intros H. by apply tiled_coalesce, tiled_mark. Qed.

(** Coalescing only touches holes. *)
Lemma coalesce_live_elems ts y :
  t_live y = true -> y ∈ coalesce ts <-> y ∈ ts.
Proof.
  intros Hl. induction ts as [|t ts IH]; [done|]. simpl. rewrite elem_of_cons, <-IH.
  destruct (coalesce ts) as [|u us]; simpl; [by rewrite elem_of_cons|].
  destruct (t_live t) eqn:Ht, (t_live u) eqn:Hu; simpl; rewrite !elem_of_cons; try tauto.
  split; [|intros [->|[->|?]]; [congruence|congruence|tauto]].
  intros [->|?]; [|tauto]. simpl in Hl. congruence.
Qed.

Lemma t_free_live_elems lo hi pre t post y :
  tiled lo hi (pre ++ t :: post) -> lo mod 8 = 0 ->
  y ∈ t_free (t_addr t) (pre ++ t :: post) /\ t_live y = true <-> y ∈ pre ++ post /\ t_live y = true.
Proof.
  intros Ht Hlo. split; intros [Hy Hl]; (split; [|done]); revert Hy; unfold t_free;
    rewrite coalesce_live_elems, (mark_split lo hi), !elem_of_app, elem_of_cons by done; [|tauto].
  intros [?|[->|?]]; [tauto|done|tauto].
Qed.

(** Giving back what was just taken restores the row exactly. *)
Lemma t_free_alloc lo hi ts needed b ts' :
  tiled lo hi ts -> lo mod 8 = 0 -> coalesced ts -> 8 <= needed -> needed mod 8 = 0 ->
  t_alloc needed ts = Some (b, ts') -> t_free b ts' = ts.
Proof.
  intros Ht Hlo Hc H8 Hm (pre & t & post & -> & Hf & Hn & -> & -> & _)%t_alloc_Some.
  pose proof (tiled_carve _ _ _ _ _ _ Ht H8 Hm Hn) as Ht'.
  pose proof (coalesced_carve _ _ _ needed Hf Hc) as Hc'.
  assert (forall u, last pre = Some u -> t_live u = true) as Hlast.
  { intros u Hu. apply last_Some in Hu as [pre' ->]. rewrite <-app_assoc in Hc.
    apply coalesced_app_r in Hc. simpl app in Hc. apply coalesced_cons in Hc as [_ Hc].
    specialize (Hc t post eq_refl). unfold is_free in *. destruct (t_live u); tauto. }
  destruct t as [a s l]; unfold is_free, carve in *; simpl in *. subst l.
  destruct (Z.leb_spec 8 (s - needed)); simpl in *.
  - rewrite (t_free_after_live lo hi pre (mkTile a needed true)) by done. simpl.
    unfold join; simpl. do 3 f_equal. lia.
  - rewrite (t_free_after_live lo hi pre (mkTile a s true)) by done. simpl.
    destruct post as [|u us]; [done|]. simpl.
    pose proof (coalesced_app_r _ _ Hc) as [_ Hu]%coalesced_cons. specialize (Hu u us eq_refl eq_refl).
    unfold is_free in Hu. by destruct (t_live u).
Qed.

(** With nothing live the heap is one hole. *)
Lemma all_free_one_hole lo hi ts :
  tiled lo hi ts -> coalesced ts -> lo < hi -> Forall is_free ts -> ts = [mkTile lo (hi - lo) false].
Proof.
  intros Ht Hc Hlt Hf. destruct ts as [|t [|u us]]; simpl in Ht.
  - lia.
  - destruct t as [a s l]. apply Forall_inv in Hf. unfold is_free in Hf. simpl in *. subst l.
    repeat f_equal; lia.
  - apply coalesced_cons in Hc as [_ Hc]. inversion Hf as [|? ? Hft Hf']; subst.
    inversion Hf'; subst. by destruct (Hc u us eq_refl Hft).
Qed.

End Tiles.
