(* ===== verification/HeapFacts.v ===== *)
(** * The heap implements the row of blocks

    [linked] ties memory to the abstract row: every block's size word is right
    and the free list threads exactly the holes, in address order. Each list
    surgery of [heap.rs] - unlinking, splitting, inserting, merging - is a lemma
    about [linked]; [allocate] and [deallocate] compose them. *)

From S2P Require Import Prelude.
From S2P Require Import Heap.
From S2P Require Import HeapTiles.
#[local] Open Scope Z_scope.
#[local] Ltac Zify.zify_post_hook ::= Z.to_euclidean_division_equations.

Module HeapFacts.
Import Heap Tiles.

(** ** List segments *)

(** From [h], following [next], the list runs through [l] and arrives at [e]. *)
Fixpoint seg (m : mem) (h : Z) (l : list Z) (e : Z) : Prop :=
  match l with
  | [] => h = e
  | b :: l => h = b /\ b <> 0 /\ seg m (m.[next_at b]) l e
  end.

(** The last node of a segment, null when it is empty. *)
Definition tail_of (l : list Z) : Z := default 0 (last l).
Definition head_of (l : list Z) : Z := default 0 (head l).

Lemma seg_app m h l k e :
  seg m h (l ++ k) e <-> exists mid, seg m h l mid /\ seg m mid k e.
Proof.
  revert h. induction l as [|b l IH]; intros h; simpl.
  - split; [eauto|]. by intros (mid & -> & H).
  - rewrite IH. split.
    + intros (H1 & H2 & mid & H3 & H4). eauto 6.
    + intros (mid & (H1 & H2 & H3) & H4). eauto 6.
Qed.

Lemma seg_agree m m' h l e :
  (forall b, b ∈ l -> m'.[next_at b] = m.[next_at b]) -> seg m h l e -> seg m' h l e.
Proof.
  revert h. induction l as [|b l IH]; intros h Hag; simpl; [done|].
  intros (-> & Hb & Hs). split_and!; try done. rewrite Hag by apply list_elem_of_here.
  apply IH; [|done]. intros c Hc. apply Hag. by apply list_elem_of_further.
Qed.

Lemma seg_head m h l : seg m h l 0 -> h = head_of l.
Proof. destruct l as [|b l]; [done|]. by intros (-> & _). Qed.

Lemma seg_nonzero m h l e b : seg m h l e -> b ∈ l -> b <> 0.
Proof.
  revert h. induction l as [|c l IH]; intros h Hs Hb; [by apply elem_of_nil in Hb|].
  destruct Hs as (_ & Hc & Hs). apply elem_of_cons in Hb as [->|Hb]; eauto.
Qed.

Lemma tail_of_cons b l : tail_of (b :: l) = default b (last l).
Proof. unfold tail_of. rewrite last_cons. by destruct (last l). Qed.

(** Where a list ends, the source's [unlink] makes it continue elsewhere. *)
Lemma unlink_seg h m p e n :
  seg m (free_list h) p e -> NoDup p ->
  exists fl m', unlink h m (tail_of p) n = ({| h with free_list := fl |}, m') /\
    seg m' fl p n /\ (forall a, (forall b, last p = Some b -> a <> next_at b) -> m'.[a] = m.[a]).
Proof.
  intros Hs Hnd. unfold unlink, tail_of. destruct (last p) as [b|] eqn:Hl; simpl.
  - apply last_Some in Hl as [p' ->].
    assert (b <> 0) as Hb by (eapply seg_nonzero; [exact Hs|]; apply elem_of_app; right; apply list_elem_of_here).
    destruct (Z.eqb_spec b 0); [done|].
    exists (free_list h), (m.[next_at b <- n]). split_and!.
    + by destruct h.
    + apply seg_app in Hs as (mid & Hs & Hm & _). apply seg_app. exists mid. split.
      * apply seg_agree with m; [|done]. intros c Hc. apply load_store_ne.
        apply NoDup_app in Hnd as (_ & Hd & _). intros He. apply (Hd c Hc).
        apply list_elem_of_singleton. unfold next_at in He. lia.
      * simpl. rewrite load_store_eq. done.
    + intros a Ha. apply load_store_ne. intros <-. by eapply Ha.
  - apply last_None in Hl as ->. exists n, m. split_and!; done.
Qed.

(** The two list walks of the source share this shape: move on while [go]. *)
Lemma walk_list {R} (m : mem) (go : Z -> bool) (out : Z * Z -> R) (body : Z * Z -> Z * Z + R) :
  (forall prev cur, body (prev, cur) =
     if negb (cur =? 0) && go cur then inl (cur, m.[next_at cur]) else inr (out (prev, cur))) ->
  forall fuel prev cur q, seg m cur q 0 -> (length q < fuel)%nat ->
  exists q1 q2, q = q1 ++ q2 /\ Forall (fun b => go b = true) q1 /\
    (forall b q', q2 = b :: q' -> go b = false) /\
    run_loop fuel body (prev, cur) = Done (out (default prev (last q1), head_of q2)).
Proof.
  intros Hbody fuel. induction fuel as [|fuel IH]; intros prev cur q Hs Hlen; [lia|]. simpl.
  rewrite Hbody. destruct q as [|b q]; simpl in Hs.
  - subst cur. simpl. exists [], []. split_and!; done.
  - destruct Hs as (-> & Hb & Hs). destruct (Z.eqb_spec b 0) as [|_]; [done|]. simpl.
    destruct (go b) eqn:Hgo.
    + destruct (IH b _ q Hs ltac:(simpl in Hlen; lia)) as (q1 & q2 & -> & H1 & H2 & ->).
      exists (b :: q1), q2. split_and!; try done; [by constructor|].
      rewrite last_cons. by destruct (last q1).
    + exists [], (b :: q). split_and!; try done. by intros ? ? [= <- <-].
Qed.

(** ** Memory holds a row of blocks *)

Definition sized (m : mem) (t : tile) : Prop := m.[size_at (t_addr t)] = t_size t.

Definition linked (m : mem) (fl : Z) (ts : list tile) : Prop :=
  seg m fl (frees ts) 0 /\ Forall (sized m) ts.

(** The heap represents the row [ts]. *)
Record heap_rep (h : Heap) (m : mem) (ts : list tile) : Prop := {
  hr_tiled : tiled (heap_start h) (heap_end h) ts;
  hr_coalesced : coalesced ts;
  hr_start : 0 < heap_start h;
  hr_aligned : heap_start h mod 8 = 0;
  hr_ready : heap_start h < heap_end h;
  hr_end : heap_end h <= U32_MAX;
  hr_linked : linked m (free_list h) ts;
  hr_used : used h = live_bytes ts
}.

Lemma frees_sorted lo hi ts :
  tiled lo hi ts -> NoDup (frees ts) /\ (forall b, b ∈ frees ts -> lo <= b).
Proof.
  revert lo. induction ts as [|t ts IH]; intros lo Ht; simpl.
  - split; [constructor|]. intros b Hb. by apply elem_of_nil in Hb.
  - destruct Ht as (Ha & Hs & _ & Ht). apply IH in Ht as [Hnd Hle].
    destruct (t_live t) eqn:Hl.
    + rewrite frees_cons_live by done. split; [done|]. intros b Hb. apply Hle in Hb. lia.
    + rewrite frees_cons_free by done. split.
      * apply NoDup_cons. split; [|done]. intros Hb%Hle. lia.
      * intros b [->|Hb%Hle]%elem_of_cons; lia.
Qed.

Lemma frees_length lo hi ts : tiled lo hi ts -> Z.of_nat (length (frees ts)) <= (hi - lo) / 8.
Proof.
  revert lo. induction ts as [|t ts IH]; intros lo; simpl; [unfold frees; simpl; lia|].
  intros (_ & Hs & _ & Ht). apply IH in Ht. destruct (t_live t) eqn:Hl.
  - rewrite frees_cons_live by done. lia.
  - rewrite frees_cons_free by done. simpl. lia.
Qed.

Lemma walk_fuel_enough h m ts : heap_rep h m ts -> (length (frees ts) < walk_fuel h)%nat.
Proof.
  intros Hr. pose proof (frees_length _ _ _ (hr_tiled _ _ _ Hr)). unfold walk_fuel, HEADER_SIZE. lia.
Qed.

(** Splitting the holes splits the row. *)
Lemma frees_split ts q1 q2 :
  frees ts = q1 ++ q2 ->
  exists ts1 ts2, ts = ts1 ++ ts2 /\ frees ts1 = q1 /\ frees ts2 = q2 /\
    (forall b q', q2 = b :: q' -> exists t ts3, ts2 = t :: ts3 /\ is_free t /\ t_addr t = b /\ frees ts3 = q').
Proof.
  revert q1. induction ts as [|t ts IH]; intros q1 Hq.
  - destruct q1, q2; try done. exists [], []. split_and!; done.
  - destruct (t_live t) eqn:Hl.
    + rewrite frees_cons_live in Hq by done. destruct (IH q1 Hq) as (ts1 & ts2 & -> & H1 & H2 & H3).
      exists (t :: ts1), ts2. split_and!; try done. by rewrite frees_cons_live.
    + rewrite frees_cons_free in Hq by done. destruct q1 as [|b q1]; simpl in Hq.
      * exists [], (t :: ts). split_and!; try done; [by rewrite frees_cons_free|].
        intros b q' ->. injection Hq as <- <-. by exists t, ts.
      * injection Hq as <- Hq. destruct (IH q1 Hq) as (ts1 & ts2 & -> & H1 & H2 & H3).
        exists (t :: ts1), ts2. split_and!; try done. by rewrite frees_cons_free, H1.
Qed.

Lemma in_frees_tile (ts : list tile) b : b ∈ frees ts -> exists t, t ∈ ts /\ t_addr t = b.
Proof. intros (t & ? & _ & ?)%elem_of_frees. eauto. Qed.

(** A word of a live block the client may use. *)
Definition payload (ts : list tile) (a : Z) : Prop :=
  exists y, y ∈ ts /\ t_live y = true /\ t_addr y + 8 <= a < t_addr y + t_size y.

(** Rewiring the free list around one block [t] of the row, whatever happens
    to the words inside [t] before ([m1]) and after ([m3]). *)
Lemma relink_ok lo hi h m pre t post e1 e2 n m1 :
  tiled lo hi (pre ++ t :: post) -> lo mod 8 = 0 ->
  seg m (free_list h) (frees pre) e1 -> seg m e2 (frees post) 0 ->
  Forall (sized m) pre -> Forall (sized m) post ->
  (forall a, a < t_addr t \/ t_addr t + t_size t <= a -> m1.[a] = m.[a]) ->
  exists fl m2, unlink h m1 (tail_of (frees pre)) n = ({| h with free_list := fl |}, m2) /\
    (forall a, t_addr t <= a < t_addr t + t_size t -> m2.[a] = m1.[a]) /\
    forall m3, (forall a, a < t_addr t \/ t_addr t + t_size t <= a -> m3.[a] = m2.[a]) ->
      seg m3 fl (frees pre) n /\ seg m3 e2 (frees post) 0 /\
      Forall (sized m3) pre /\ Forall (sized m3) post /\
      (forall a, payload (pre ++ post) a -> m3.[a] = m.[a]).
Proof.
  intros Ht Hlo Hs1 Hs2 Hz1 Hz2 Hm1.
  destruct (tiled_around _ _ _ _ _ Ht Hlo) as (Hpre & Hpost & Hta & Hts & _).
  assert (forall b, b ∈ frees pre -> b + 8 <= t_addr t /\ b mod 8 = 0) as Hfp.
  { intros b Hb. apply in_frees_tile in Hb as (y & Hy & <-). specialize (Hpre y Hy). lia. }
  assert (forall b, last (frees pre) = Some b -> b ∈ frees pre) as Hlast.
  { intros b [l ->]%last_Some. apply elem_of_app. right. apply list_elem_of_here. }
  destruct (unlink_seg h m1 (frees pre) e1 n) as (fl & m2 & Hun & Hseg & Hm2).
  { apply seg_agree with m; [|done]. intros b Hb. apply Hm1. unfold next_at. specialize (Hfp b Hb). lia. }
  { apply tiled_app in Ht as (mid & Ht & _). by destruct (frees_sorted _ _ _ Ht). }
  exists fl, m2. split; [done|]. unfold next_at in *.
  assert (forall a, t_addr t <= a -> m2.[a] = m1.[a]) as Hin.
  { intros a Ha. apply Hm2. intros b Hb. specialize (Hfp b (Hlast b Hb)). lia. }
  split; [intros a Ha; apply Hin; lia|]. intros m3 Hm3.
  assert (forall a, a < t_addr t -> (forall b, last (frees pre) = Some b -> a <> b + 4) ->
          m3.[a] = m.[a]) as Hbefore.
  { intros a Ha Hb. rewrite Hm3 by lia. rewrite Hm2 by done. apply Hm1. lia. }
  assert (forall y, y ∈ pre ++ post -> sized m y -> sized m3 y) as Hsz.
  { unfold sized, size_at. intros y [Hy|Hy]%elem_of_app Hsy; rewrite <-Hsy.
    - specialize (Hpre y Hy). apply Hbefore; [lia|].
      intros b Hb. specialize (Hfp b (Hlast b Hb)). lia.
    - specialize (Hpost y Hy). rewrite Hm3, Hin, Hm1 by lia. done. }
  split_and!.
  - apply seg_agree with m2; [|done]. intros b Hb. specialize (Hfp b Hb). apply Hm3. unfold next_at. lia.
  - apply seg_agree with m; [|done]. intros b (y & Hy & <-)%in_frees_tile. specialize (Hpost y Hy).
    unfold next_at. rewrite Hm3, Hin, Hm1 by lia. done.
  - apply Forall_forall. intros y Hy. apply Hsz; [apply elem_of_app; by left|].
    by eapply Forall_forall in Hz1.
  - apply Forall_forall. intros y Hy. apply Hsz; [apply elem_of_app; by right|].
    by eapply Forall_forall in Hz2.
  - intros a (y & [Hy|Hy]%elem_of_app & Hl & Ha).
    + apply Hbefore; [specialize (Hpre y Hy); lia|]. intros b Hb.
      apply Hlast, elem_of_frees in Hb as (z & Hz & Hzf & <-).
      assert (t_size z >= 8) as Hzs by (specialize (Hpre z Hz); lia).
      apply tiled_app in Ht as (mid & Ht & _).
      destruct (tiled_disjoint _ _ _ _ _ Ht Hlo Hy Hz) as [->|?]; [unfold is_free in *; congruence|lia].
    + specialize (Hpost y Hy). rewrite Hm3, Hin, Hm1 by lia. done.
Qed.

(** *** Taking a block *)

Lemma seg_at_hole m fl pre t post :
  is_free t -> seg m fl (frees (pre ++ t :: post)) 0 ->
  seg m fl (frees pre) (t_addr t) /\ t_addr t <> 0 /\
  seg m (m.[next_at (t_addr t)]) (frees post) 0.
Proof.
  intros Hf. rewrite frees_app, frees_cons_free by done.
  intros (mid & H1 & -> & H2 & H3)%seg_app. done.
Qed.

Lemma sized_split m pre t post :
  Forall (sized m) (pre ++ t :: post) <-> Forall (sized m) pre /\ sized m t /\ Forall (sized m) post.
Proof. by rewrite Forall_app, Forall_cons. Qed.

Lemma add_u32_ok a b : a + b <= U32_MAX -> add_u32 a b = Done (a + b).
Proof. intros H. unfold add_u32. by rewrite (proj2 (Z.leb_le _ _) H). Qed.

Lemma live_bytes_bounds lo hi ts : tiled lo hi ts -> 0 <= live_bytes ts <= hi - lo.
Proof.
  revert lo. induction ts as [|t ts IH]; intros lo; simpl; [lia|].
  intros (_ & Hs & _ & Ht). apply IH in Ht. destruct (t_live t); lia.
Qed.

Lemma take_block_ok h m pre t post needed :
  heap_rep h m (pre ++ t :: post) -> is_free t -> 8 <= needed <= t_size t -> needed mod 8 = 0 ->
  allocations h < U32_MAX ->
  exists h' m', take_block h m needed (tail_of (frees pre)) (t_addr t) (m.[next_at (t_addr t)]) =
      Done (h', m', t_addr t + HEADER_SIZE) /\
    heap_rep h' m' (pre ++ carve needed t ++ post) /\
    heap_start h' = heap_start h /\ heap_end h' = heap_end h /\ allocations h' = allocations h + 1 /\
    (forall a, payload (pre ++ t :: post) a -> m'.[a] = m.[a]).
Proof.
  intros Hrep Hf Hn Hnm Hal. pose proof Hrep as [Ht Hc H0 Hlo Hrdy Hhi [Hseg Hsz] Hu].
  destruct (tiled_around _ _ _ _ _ Ht Hlo) as (_ & _ & Hta & Hts & Htm & Hlt & Hle).
  pose proof (tiled_carve _ _ _ _ _ needed Ht ltac:(lia) Hnm ltac:(lia)) as Ht'.
  pose proof (live_bytes_bounds _ _ _ Ht') as Hlb. rewrite live_bytes_carve in Hlb by (done || lia).
  destruct (seg_at_hole _ _ _ _ _ Hf Hseg) as (Hs1 & _ & Hs2).
  apply sized_split in Hsz as (Hz1 & Hzt & Hz2). unfold sized in Hzt.
  set (P := t_addr t) in *. set (next := m.[next_at P]) in *.
  set (rem := t_size t - needed) in *.
  set (m1 := if 8 <=? rem then (m.[size_at (P + needed) <- rem]).[next_at (P + needed) <- next] else m).
  set (n := if 8 <=? rem then P + needed else next).
  destruct (relink_ok _ _ h m pre t post P next n m1 Ht Hlo Hs1 Hs2 Hz1 Hz2)
    as (fl & m2 & Hun & Hin & Hout).
  { intros a Ha. subst m1. destruct (Z.leb_spec 8 rem); [|done].
    unfold size_at, next_at. rewrite !load_store_ne by lia. done. }
  set (tot := if 8 <=? rem then needed else needed + rem).
  set (m3 := (m2.[size_at P <- tot]).[next_at P <- 0]).
  destruct (Hout m3) as (Hg1 & Hg2 & Hg3 & Hg4 & Hg5).
  { intros a Ha. unfold m3, size_at, next_at. rewrite !load_store_ne by lia. done. }
  exists {| h with free_list := fl; used := used h + tot; allocations := allocations h + 1 |}, m3.
  split.
  { unfold take_block. rewrite Hzt. fold rem. unfold HEADER_SIZE.
    assert ((if 8 <=? rem then split ← add_u32 P needed;
        Done (unlink h ((m.[size_at split <- rem]).[next_at split <- next]) (tail_of (frees pre)) split)
      else Done (unlink h m (tail_of (frees pre)) next)) = Done ({| h with free_list := fl |}, m2)) as ->.
    { rewrite <-Hun. subst m1 n. destruct (8 <=? rem); [|done]. rewrite add_u32_ok by lia. done. }
    cbn [mbind outcome_bind]. fold tot.
    rewrite (load_store_ne _ (next_at P) (size_at P)) by (unfold next_at, size_at; lia).
    rewrite (load_store_eq _ (size_at P)). cbn [used allocations].
    assert (tot = if 8 <=? rem then needed else t_size t) as Htot.
    { subst tot. destruct (8 <=? rem); lia. }
    rewrite (add_u32_ok (used h) tot) by lia. cbn [mbind outcome_bind].
    rewrite (add_u32_ok (allocations h) 1) by lia. cbn [mbind outcome_bind].
    rewrite (add_u32_ok P 8) by lia. done. }
  split_and!; try done.
  - split; try done; [by apply coalesced_carve| |].
    + unfold linked, carve. cbn [free_list]. fold P rem n.
      assert (m3.[size_at P] = tot) as HmP.
      { unfold m3, next_at, size_at. by rewrite load_store_ne, load_store_eq by lia. }
      subst tot n. destruct (Z.leb_spec 8 rem) as [Hr|Hr]; cbn [app].
      * assert (m3.[size_at (P + needed)] = rem /\ m3.[next_at (P + needed)] = next) as [Hsp1 Hsp2].
        { subst m1. unfold m3, next_at, size_at in *. rewrite !load_store_ne, !Hin by lia.
          by rewrite load_store_eq, load_store_ne, load_store_eq by lia. }
        split.
        -- rewrite frees_app, frees_cons_live, frees_cons_free by done. apply seg_app.
           exists (P + needed). cbn [seg t_addr]. rewrite Hsp2. split_and!; try done. lia.
        -- apply Forall_app. split; [done|]. repeat apply Forall_cons_2; done.
      * split.
        -- rewrite frees_app, frees_cons_live by done. apply seg_app. by exists next.
        -- apply Forall_app. split; [done|]. apply Forall_cons_2; [|done].
           unfold sized. simpl. fold P. rewrite HmP. lia.
    + cbn [used]. rewrite live_bytes_carve, <-Hu by (done || lia). f_equal. subst tot rem.
      destruct (8 <=? t_size t - needed); lia.
  - intros a (y & Hy & Hl & Ha). apply Hg5. exists y. split; [|done].
    rewrite elem_of_app, elem_of_cons in Hy. rewrite elem_of_app.
    destruct Hy as [?|[->|?]]; [tauto| |tauto]. unfold is_free in Hf. congruence.
Qed.

(** *** Block sizes *)

Lemma align_up_spec v : 0 <= v ->
  align_up v ALIGN = if v + 7 <=? U32_MAX then Some ((v + 7) / 8 * 8) else None.
Proof.
  intros Hv. unfold align_up, checked_add_usize, ALIGN. cbv zeta. change (8 - 1) with 7.
  destruct (Z.leb_spec (v + 7) U32_MAX) as [Hle|]; [|done]. cbn [mbind option_bind]. f_equal.
  change U32_MAX with (2 ^ 32 - 1) in Hle.
  change (Z.ldiff U32_MAX 7) with (Z.ldiff (Z.ones 32) (Z.ones 3)). apply land_high; lia.
Qed.

(** The block for a request: a header and the payload, rounded up to 8. *)
Definition block_size (payload : Z) : Z := (payload + 7) / 8 * 8 + 8.

Lemma aligned_block_size_spec n : 0 <= n ->
  aligned_block_size n = if n + 15 <=? U32_MAX then Some (block_size n) else None.
Proof.
  intros Hn. unfold aligned_block_size. rewrite align_up_spec by lia.
  unfold checked_add_usize, HEADER_SIZE, block_size. change U32_MAX with 4294967295.
  destruct (Z.leb_spec (n + 7) 4294967295); simpl.
  - destruct (Z.leb_spec ((n + 7) / 8 * 8 + 8) 4294967295); simpl.
    + rewrite align_up_spec by lia. change U32_MAX with 4294967295.
      destruct (Z.leb_spec ((n + 7) / 8 * 8 + 8 + 7) 4294967295), (Z.leb_spec (n + 15) 4294967295);
        try lia; f_equal; lia.
    + destruct (Z.leb_spec (n + 15) 4294967295); [lia|done].
  - destruct (Z.leb_spec (n + 15) 4294967295); [lia|done].
Qed.

Lemma block_size_ok n : 0 <= n -> 8 <= block_size n /\ block_size n mod 8 = 0 /\ n + 8 <= block_size n.
Proof. unfold block_size. lia. Qed.

(** *** [allocate] *)

(** What [allocate] promises on a row. *)
Definition spec_alloc (layout : Layout) (ts : list tile) : option (Z * list tile) :=
  if (l_size layout =? 0) || (8 <? l_align layout) || (U32_MAX <? l_size layout + 15) then None
  else t_alloc (block_size (l_size layout)) ts.

Lemma alloc_walk_body h m needed prev cur :
  alloc_step h m needed (prev, cur) =
  if negb (cur =? 0) && negb (needed <=? m.[size_at cur]) then inl (cur, m.[next_at cur])
  else inr ((fun '(prev, cur) => if cur =? 0 then Done (h, m, 0)
             else take_block h m needed prev cur (m.[next_at cur])) (prev, cur)).
Proof. unfold alloc_step. by destruct (cur =? 0), (needed <=? m.[size_at cur]). Qed.

Lemma frees_small m ts needed :
  Forall (sized m) ts -> Forall (fun b => negb (needed <=? m.[size_at b]) = true) (frees ts) ->
  forall y, y ∈ ts -> is_free y -> t_size y < needed.
Proof.
  intros Hs Hf y Hy Hyf. rewrite Forall_forall in Hs. rewrite Forall_forall in Hf. specialize (Hs y Hy). unfold sized in Hs.
  specialize (Hf (t_addr y)). rewrite Hs, negb_true_iff, Z.leb_gt in Hf. apply Hf.
  apply elem_of_frees. eauto.
Qed.

Lemma heap_allocate_sim h m ts layout :
  heap_rep h m ts -> 0 <= l_size layout -> allocations h < U32_MAX ->
  exists h' m' p, allocate h m layout = Done (h', m', p) /\
    match spec_alloc layout ts with
    | None => p = 0 /\ h' = h /\ m' = m
    | Some (b, ts') => p = b + HEADER_SIZE /\ heap_rep h' m' ts' /\
        heap_start h' = heap_start h /\ heap_end h' = heap_end h /\
        allocations h' = allocations h + 1 /\ (forall a, payload ts a -> m'.[a] = m.[a])
    end.
Proof.
  intros Hrep Hsz Hal. unfold allocate, spec_alloc, is_ready.
  rewrite (proj2 (Z.ltb_lt _ _) (hr_ready _ _ _ Hrep)). cbn [negb orb]. unfold ALIGN.
  destruct (l_size layout =? 0); [by eexists _, _, _|]. cbn [negb orb].
  destruct (8 <? l_align layout); [by eexists _, _, _|]. cbn [negb orb].
  rewrite aligned_block_size_spec, Z.ltb_antisym by done.
  destruct (l_size layout + 15 <=? U32_MAX); [|by eexists _, _, _]. cbn [negb orb].
  destruct (block_size_ok (l_size layout) Hsz) as (H8 & H8m & _).
  set (needed := block_size (l_size layout)) in *. pose proof Hrep as [Ht _ _ _ _ _ [Hseg Hsized] _].
  edestruct (walk_list m _ _ _ (alloc_walk_body h m needed) (walk_fuel h) 0 _ _ Hseg)
    as (q1 & q2 & Hq & Hgo & Hstop & ->); [by eapply walk_fuel_enough|].
  cbn [mbind outcome_bind]. destruct (frees_split _ _ _ Hq) as (ts1 & ts2 & -> & H1 & H2 & H3).
  pose proof Hsized as [Hsz1 Hsz2]%Forall_app. rewrite <-H1 in Hgo.
  pose proof (frees_small m ts1 needed Hsz1 Hgo) as Hsmall.
  fold (tail_of q1). destruct q2 as [|b q'].
  - assert (t_alloc needed (ts1 ++ ts2) = None) as ->; [|by eexists _, _, _].
    apply t_alloc_None. intros y [Hy|Hy]%elem_of_app Hyf; [auto|].
    assert (t_addr y ∈ frees ts2) as Hin by (apply elem_of_frees; eauto).
    rewrite H2 in Hin. by apply elem_of_nil in Hin.
  - destruct (H3 b q' eq_refl) as (t & ts3 & -> & Hf & <- & Hq').
    apply Forall_cons in Hsz2 as [Hst _]. unfold sized in Hst.
    specialize (Hstop _ _ eq_refl). simpl in Hstop. rewrite Hst, negb_false_iff, Z.leb_le in Hstop.
    rewrite t_alloc_split by done.
    change (head_of (t_addr t :: q')) with (t_addr t).
    destruct (take_block_ok h m ts1 t ts3 needed) as (h' & m' & Htake & Hrep' & Hfacts); try done.
    rewrite H1 in Htake. rewrite Hq in Hseg.
    apply seg_app in Hseg as (mid & _ & _ & Hb0 & _).
    destruct (Z.eqb_spec (t_addr t) 0); [done|]. rewrite Htake. exists h', m', (t_addr t + HEADER_SIZE). done.
Qed.

(** *** Giving a block back *)

(** Writes inside one block leave the rest of the row alone. *)
Lemma outside_ok lo hi m m' pre t post :
  tiled lo hi (pre ++ t :: post) -> lo mod 8 = 0 ->
  (forall a, a < t_addr t \/ t_addr t + t_size t <= a -> m'.[a] = m.[a]) ->
  (forall h e, seg m h (frees pre) e -> seg m' h (frees pre) e) /\
  (forall h e, seg m h (frees post) e -> seg m' h (frees post) e) /\
  (Forall (sized m) pre -> Forall (sized m') pre) /\
  (Forall (sized m) post -> Forall (sized m') post) /\
  (forall a, payload (pre ++ post) a -> m'.[a] = m.[a]).
Proof.
  intros Ht Hlo Hag. destruct (tiled_around _ _ _ _ _ Ht Hlo) as (Hpre & Hpost & _).
  assert (forall ts, (forall y, y ∈ ts -> t_addr y + 8 <= t_addr t \/ t_addr t + t_size t <= t_addr y) ->
    (forall h e, seg m h (frees ts) e -> seg m' h (frees ts) e) /\
    (Forall (sized m) ts -> Forall (sized m') ts)) as Hgen.
  { intros ts Hts. split.
    - intros h e. apply seg_agree. intros b (y & Hy & <-)%in_frees_tile. apply Hag.
      specialize (Hts y Hy). unfold next_at. lia.
    - intros Hs. rewrite Forall_forall in Hs. apply Forall_forall. intros y Hy.
      specialize (Hs y Hy). unfold sized, size_at in *. rewrite Hag; [done|].
      specialize (Hts y Hy). lia. }
  destruct (Hgen pre) as [G1 G2]; [intros y Hy; specialize (Hpre y Hy); lia|].
  destruct (Hgen post) as [G3 G4]; [intros y Hy; specialize (Hpost y Hy); lia|].
  split_and!; try done. intros a (y & [Hy|Hy]%elem_of_app & _ & Ha); apply Hag.
  - specialize (Hpre y Hy). lia.
  - specialize (Hpost y Hy). lia.
Qed.

Lemma merge_ok lo hi m fl pre t u post :
  tiled lo hi (pre ++ t :: u :: post) -> lo mod 8 = 0 -> 0 < lo -> hi <= U32_MAX ->
  is_free t -> is_free u -> linked m fl (pre ++ t :: u :: post) ->
  exists m', merge_next m (t_addr t) (t_addr u) = Done m' /\
    merge_prev m (t_addr t) (t_addr u) = Done m' /\
    linked m' fl (pre ++ join t u :: post) /\
    (forall a, payload (pre ++ post) a -> m'.[a] = m.[a]).
Proof.
  intros Ht Hlo H0 Hhi Hft Hfu [Hseg Hsz].
  destruct (tiled_around _ _ _ _ _ Ht Hlo) as (_ & Hpost & Hta & Hts & _ & Hle & Hend).
  destruct (Hpost u (list_elem_of_here _ _)) as (_ & Hus & _).
  assert (t_addr u = t_addr t + t_size t /\ t_addr u + t_size u <= hi) as [Hu Hue].
  { apply tiled_app in Ht as (mid & _ & -> & _ & _ & -> & _ & _ & Ht%tiled_le). lia. }
  destruct (seg_at_hole _ _ _ _ _ Hft Hseg) as (Hs1 & _ & Hs2).
  destruct (seg_at_hole _ _ [] _ _ Hfu Hs2) as (Hs3 & _ & Hs4). simpl in Hs3.
  apply sized_split in Hsz as (Hz1 & Hzt & [Hzu Hz2]%Forall_cons). unfold sized in Hzt, Hzu.
  set (P := t_addr t) in *. set (m1 := m.[size_at P <- t_size t + t_size u]).
  set (m' := m1.[next_at P <- m1.[next_at (t_addr u)]]).
  assert (m1.[next_at (t_addr u)] = m.[next_at (t_addr u)]) as Hnu.
  { unfold m1, next_at, size_at. apply load_store_ne. lia. }
  exists m'. split_and!.
  - unfold merge_next. rewrite Hzt, Hzu, !add_u32_ok by lia. cbn [mbind outcome_bind].
    destruct (Z.eqb_spec (t_addr u) 0); [lia|]. by rewrite <-Hu, Z.eqb_refl.
  - unfold merge_prev. rewrite Hzt, Hzu, !add_u32_ok by lia. cbn [mbind outcome_bind].
    destruct (Z.eqb_spec P 0); [lia|]. by rewrite <-Hu, Z.eqb_refl.
  - destruct (outside_ok _ _ m m' _ _ _ Ht Hlo) as (G1 & G2 & G3 & G4 & _).
    { intros a Ha. fold P in Ha. unfold m', m1, next_at, size_at. rewrite !load_store_ne by lia. done. }
    split.
    + rewrite frees_app, frees_cons_free by done. apply seg_app. exists P.
      split; [by apply G1|]. simpl. fold P. split_and!; [done|lia|].
      unfold m' at 2. rewrite load_store_eq, Hnu. rewrite frees_cons_free in G2 by done.
      assert (seg m (t_addr u) (t_addr u :: frees post) 0) as Hsu by (simpl; split_and!; [done|lia|done]).
      apply G2 in Hsu as (_ & _ & Hsu).
      assert (m'.[next_at (t_addr u)] = m.[next_at (t_addr u)]) as <-; [|done].
      unfold m', m1, next_at, size_at. rewrite !load_store_ne by lia. done.
    + apply sized_split. split_and!; [by apply G3| |by eapply Forall_cons, G4, Forall_cons].
      unfold sized, m', m1, next_at, size_at. simpl. fold P.
      rewrite load_store_ne, load_store_eq by lia. done.
  - intros a (y & Hy & Hl & Ha). destruct (outside_ok _ _ m m' _ _ _ Ht Hlo) as (_ & _ & _ & _ & G5).
    { intros b Hb. fold P in Hb. unfold m', m1, next_at, size_at. rewrite !load_store_ne by lia. done. }
    apply G5. exists y. split; [|done]. rewrite elem_of_app, elem_of_cons. rewrite elem_of_app in Hy. tauto.
Qed.

Lemma merge_next_step lo hi m fl pre t post :
  tiled lo hi (pre ++ t :: post) -> lo mod 8 = 0 -> 0 < lo -> hi <= U32_MAX ->
  is_free t -> linked m fl (pre ++ t :: post) ->
  exists m', merge_next m (t_addr t) (head_of (frees post)) = Done m' /\
    linked m' fl (pre ++ cons_tile t post) /\
    (forall a, payload (pre ++ post) a -> m'.[a] = m.[a]).
Proof.
  intros Ht Hlo H0 Hhi Hf Hl. destruct post as [|u post].
  { exists m. split_and!; done. }
  unfold cons_tile. rewrite Hf. simpl. destruct (t_live u) eqn:Hu; simpl.
  - exists m. split_and!; try done. rewrite frees_cons_live by done. unfold merge_next, head_of.
    destruct (frees post) as [|b q] eqn:Hq; simpl; [done|].
    destruct (b =? 0); [done|]. destruct Hl as [_ (_ & Hz & _)%sized_split]. unfold sized in Hz.
    destruct (tiled_around _ _ _ _ _ Ht Hlo) as (_ & Hpost & _ & _ & _ & _ & Hend).
    rewrite Hz, (add_u32_ok (t_addr t)) by lia. cbn [mbind outcome_bind].
    destruct (Z.eqb_spec (t_addr t + t_size t) b) as [<-|]; [|done]. exfalso.
    assert (t_addr t + t_size t ∈ frees post) as Hin by (rewrite Hq; apply list_elem_of_here).
    apply tiled_app in Ht as (mid & _ & Hmid & _ & _ & Hu' & Hus & _ & Ht).
    apply frees_sorted in Ht as [_ Hge]. apply Hge in Hin. lia.
  - rewrite frees_cons_free by done. change (head_of (t_addr u :: frees post)) with (t_addr u).
    destruct (merge_ok lo hi m fl pre t u post) as (m' & Hm & _ & Hl' & Hp); try done.
    exists m'. split_and!; try done. intros a (y & Hy & Hyl & Ha). apply Hp. exists y. split; [|done].
    rewrite elem_of_app, elem_of_cons in Hy. rewrite elem_of_app.
    destruct Hy as [?|[->|?]]; [tauto|congruence|tauto].
Qed.

Lemma merge_prev_skip lo hi m fl pre t post :
  tiled lo hi (pre ++ t :: post) -> lo mod 8 = 0 -> hi <= U32_MAX ->
  linked m fl (pre ++ t :: post) -> (forall u, last pre = Some u -> t_live u = true) ->
  merge_prev m (tail_of (frees pre)) (t_addr t) = Done m.
Proof.
  intros Ht Hlo Hhi [_ Hsz] Hlast. unfold merge_prev, tail_of.
  destruct (last (frees pre)) as [b|] eqn:Hb; [|done]. simpl. destruct (b =? 0); [done|].
  apply last_Some in Hb as [q Hq].
  assert (b ∈ frees pre) as (z & Hz & Hzf & <-)%elem_of_frees.
  { rewrite Hq. apply elem_of_app. right. apply list_elem_of_here. }
  destruct (tiled_around _ _ _ _ _ Ht Hlo) as (Hpre & _ & _ & Hts & _ & _ & Hend).
  pose proof (Hpre z Hz) as Hzp.
  apply sized_split in Hsz as (Hz1 & _ & _). rewrite Forall_forall in Hz1.
  specialize (Hz1 z Hz). unfold sized in Hz1. rewrite Hz1, (add_u32_ok (t_addr z)) by lia.
  cbn [mbind outcome_bind]. destruct (Z.eqb_spec (t_addr z + t_size z) (t_addr t)) as [He|]; [|done].
  exfalso. destruct (last pre) as [w|] eqn:Hw; [|by apply last_None in Hw as ->; apply elem_of_nil in Hz].
  specialize (Hlast w eq_refl). apply last_Some in Hw as [pre' ->].
  apply elem_of_app in Hz as [Hz|Hz%list_elem_of_singleton]; [|unfold is_free in Hzf; congruence].
  apply tiled_app in Ht as (mid & Ht & Hmid & _). simpl in Hmid. subst mid.
  destruct (tiled_around _ _ pre' w [] Ht Hlo) as (Hpre' & _ & _ & Hws & _ & _ & Hwe).
  specialize (Hpre' z Hz). lia.
Qed.

Lemma app_split_unique {A} (go : A -> bool) (l1 l2 q1 q2 : list A) :
  l1 ++ l2 = q1 ++ q2 -> Forall (fun x => go x = true) l1 -> (forall x, x ∈ l2 -> go x = false) ->
  Forall (fun x => go x = true) q1 -> (forall x q, q2 = x :: q -> go x = false) ->
  q1 = l1 /\ q2 = l2.
Proof.
  revert q1. induction l1 as [|x l1 IH]; intros q1 He H1 H2 H3 H4; simpl in He.
  - destruct q1 as [|y q1]; [done|]. apply Forall_cons in H3 as [Hy _]. simpl in He. subst l2.
    rewrite H2 in Hy; [done|]. apply list_elem_of_here.
  - apply Forall_cons in H1 as [Hx H1]. destruct q1 as [|y q1]; simpl in He.
    + subst q2. specialize (H4 _ _ eq_refl). congruence.
    + injection He as -> He. apply Forall_cons in H3 as [_ H3].
      destruct (IH q1 He H1 H2 H3 H4) as [-> ->]. done.
Qed.

Lemma insert_walk_body m block prev cur :
  insert_step m block (prev, cur) =
  if negb (cur =? 0) && (cur <? block) then inl (cur, m.[next_at cur]) else inr (id (prev, cur)).
Proof. done. Qed.

(** The walk of [insert_free] finds the holes around [t]. *)
Lemma insert_walk_ok lo hi m fl pre t post fuel :
  tiled lo hi (pre ++ t :: post) -> lo mod 8 = 0 ->
  seg m fl (frees pre ++ frees post) 0 -> (length (frees pre ++ frees post) < fuel)%nat ->
  run_loop fuel (insert_step m (t_addr t)) (0, fl) =
    Done (tail_of (frees pre), head_of (frees post)).
Proof.
  intros Ht Hlo Hseg Hlen. destruct (tiled_around _ _ _ _ _ Ht Hlo) as (Hpre & Hpost & _ & Hs & _).
  destruct (walk_list m _ _ _ (insert_walk_body m (t_addr t)) fuel 0 fl _ Hseg Hlen)
    as (q1 & q2 & Hq & Hgo & Hstop & ->).
  destruct (app_split_unique (fun b => b <? t_addr t) _ _ _ _ Hq) as [-> ->]; try done.
  - apply Forall_forall. intros b (y & Hy & <-)%in_frees_tile. specialize (Hpre y Hy).
    apply Z.ltb_lt. lia.
  - intros b (y & Hy & <-)%in_frees_tile. specialize (Hpost y Hy). apply Z.ltb_ge. lia.
Qed.

(** Threading a live block into the free list, before any merging. *)
Lemma link_ok lo hi h m pre t post :
  tiled lo hi (pre ++ t :: post) -> lo mod 8 = 0 -> 0 < lo -> t_live t = true ->
  linked m (free_list h) (pre ++ t :: post) ->
  let m1 := (m.[size_at (t_addr t) <- t_size t]).[next_at (t_addr t) <- 0] in
  seg m1 (free_list h) (frees pre ++ frees post) 0 /\
  exists fl m2, unlink h (m1.[next_at (t_addr t) <- head_of (frees post)])
                  (tail_of (frees pre)) (t_addr t) = ({| h with free_list := fl |}, m2) /\
    linked m2 fl (pre ++ freed t :: post) /\
    (forall a, payload (pre ++ post) a -> m2.[a] = m.[a]).
Proof.
  intros Ht Hlo H0 Hl [Hseg Hsz] m1. rewrite frees_app, frees_cons_live in Hseg by done.
  destruct (tiled_around _ _ _ _ _ Ht Hlo) as (_ & _ & Hta & Hts & _ & Hle & _).
  apply sized_split in Hsz as (Hz1 & Hzt & Hz2). set (P := t_addr t) in *.
  assert (forall a, a < P \/ P + t_size t <= a -> m1.[a] = m.[a]) as Hm1.
  { intros a Ha. unfold m1, next_at, size_at. rewrite !load_store_ne by lia. done. }
  pose proof Hseg as (e & Hs1 & Hs2)%seg_app. pose proof (seg_head _ _ _ Hs2) as He.
  destruct (outside_ok _ _ m m1 _ _ _ Ht Hlo Hm1) as (G1 & G2 & _).
  split; [apply seg_app; exists e; auto|]. rewrite <-He.
  destruct (relink_ok _ _ h m pre t post e e P (m1.[next_at P <- e]) Ht Hlo Hs1 Hs2 Hz1 Hz2)
    as (fl & m2 & Hun & Hin & Hout).
  { intros a Ha. fold P in Ha. rewrite load_store_ne by (unfold next_at; lia). by apply Hm1. }
  exists fl, m2. split; [done|]. destruct (Hout m2) as (K1 & K2 & K3 & K4 & K5); [done|].
  fold P in Hin. split; [|done]. split.
  - rewrite frees_app, frees_cons_free by done. apply seg_app. exists P. split; [done|].
    simpl. fold P. split_and!; [done|lia|]. rewrite Hin by (unfold next_at; lia).
    by rewrite load_store_eq.
  - apply sized_split. split_and!; try done. unfold sized. simpl. fold P.
    rewrite Hin by (unfold size_at; lia). unfold m1, next_at, size_at.
    by rewrite !load_store_ne, load_store_eq by lia.
Qed.

Lemma tiled_cons_tile lo hi pre t post :
  tiled lo hi (pre ++ t :: post) -> tiled lo hi (pre ++ cons_tile t post).
Proof.
  intros (mid & Hp & Hm)%tiled_app. apply tiled_app. exists mid. split; [done|].
  destruct post as [|u us]; [done|]. simpl.
  destruct (negb (t_live t) && negb (t_live u)); [|done].
  simpl in *. destruct Hm as (H1 & H2 & H3 & H4 & H5 & H6 & H7). split_and!; try done; try lia.
  by replace (mid + (t_size t + t_size u)) with (mid + t_size t + t_size u) by lia.
Qed.

Lemma payload_cons_tile pre t post a :
  is_free t -> payload (pre ++ post) a -> payload (pre ++ drop 1 (cons_tile t post)) a.
Proof.
  intros Hf (y & Hy & Hl & Ha). exists y. split; [|done]. rewrite elem_of_app in *.
  destruct post as [|u us]; [done|]. simpl. unfold is_free in Hf. rewrite Hf. simpl.
  destruct (t_live u) eqn:Hu; simpl; [done|]. rewrite elem_of_cons in Hy.
  destruct Hy as [?|[->|?]]; [tauto|congruence|rewrite drop_0; tauto].
Qed.

Lemma payload_free_l pre u post a :
  is_free u -> payload ((pre ++ [u]) ++ post) a -> payload (pre ++ post) a.
Proof.
  intros Hf (y & Hy & Hl & Ha). exists y. split; [|done].
  rewrite !elem_of_app, list_elem_of_singleton in Hy. rewrite elem_of_app.
  unfold is_free in Hf. destruct Hy as [[? | ->] | ?]; [tauto|congruence|tauto].
Qed.

(** Both merges of [insert_free] together coalesce the row. *)
Lemma merges_ok lo hi m fl pre t post :
  tiled lo hi (pre ++ t :: post) -> lo mod 8 = 0 -> 0 < lo -> hi <= U32_MAX ->
  coalesced (pre ++ t :: post) -> linked m fl (pre ++ freed t :: post) ->
  exists m', (m ← merge_next m (t_addr t) (head_of (frees post));
              merge_prev m (tail_of (frees pre)) (t_addr t)) = Done m' /\
    linked m' fl (t_free (t_addr t) (pre ++ t :: post)) /\
    (forall a, payload (pre ++ post) a -> m'.[a] = m.[a]).
Proof.
  intros Ht Hlo H0 Hhi Hc Hlk.
  assert (tiled lo hi (pre ++ freed t :: post)) as Ht1.
  { pose proof (tiled_mark lo hi (t_addr t) _ Ht) as Hm. by rewrite (mark_split lo hi) in Hm. }
  destruct (merge_next_step lo hi m fl pre (freed t) post) as (m1 & Hm1 & Hlk1 & Hp1); try done.
  change (t_addr (freed t)) with (t_addr t) in Hm1. rewrite Hm1. cbn [mbind outcome_bind].
  pose proof (tiled_cons_tile _ _ _ _ _ Ht1) as Ht2.
  destruct (cons_tile_head (freed t) post) as (v & rest & Hv & Hvf & Hva); [done|].
  change (t_addr (freed t)) with (t_addr t) in Hva.
  assert (forall a, payload (pre ++ post) a -> payload (pre ++ rest) a) as Hpay.
  { intros a Ha. apply (payload_cons_tile _ (freed t)) in Ha; [|done]. by rewrite Hv in Ha. }
  destruct (last pre) as [u|] eqn:Hu; [destruct (t_live u) eqn:Hul|].
  - exists m1. rewrite (t_free_after_live lo hi) by (done || congruence).
    split_and!; try done. rewrite <-Hva. rewrite Hv in *.
    apply (merge_prev_skip lo hi m1 fl pre v rest); try done. congruence.
  - apply last_Some in Hu as [pre' ->]. rewrite <-!app_assoc in *. simpl app in *.
    rewrite (t_free_after_hole lo hi pre' u t post v rest) by done. rewrite Hv in *.
    destruct (merge_ok lo hi m1 fl pre' u v rest) as (m2 & _ & Hm2 & Hlk2 & Hp2); try done.
    exists m2. rewrite frees_app, frees_cons_free by done. rewrite <-Hva.
    unfold tail_of. change (frees []) with (@nil Z). rewrite last_snoc. simpl. split_and!; try done.
    intros a Ha. rewrite <-Hp1 by done. apply Hp2. eapply (payload_free_l _ u); [done|].
    rewrite <-app_assoc. by apply Hpay.
  - apply last_None in Hu as ->. exists m1. rewrite (t_free_after_live lo hi) by done.
    split_and!; done.
Qed.

(** *** [deallocate] *)

Lemma heap_deallocate_sim h m pre t post :
  heap_rep h m (pre ++ t :: post) -> t_live t = true ->
  exists h' m', deallocate h m (t_addr t + HEADER_SIZE) = Done (h', m') /\
    heap_rep h' m' (t_free (t_addr t) (pre ++ t :: post)) /\
    heap_start h' = heap_start h /\ heap_end h' = heap_end h /\ allocations h' = allocations h /\
    (forall a, payload (pre ++ post) a -> m'.[a] = m.[a]).
Proof.
  intros Hrep Hl. pose proof Hrep as [Ht Hc H0 Hlo Hrdy Hhi Hlk Hu].
  destruct (tiled_around _ _ _ _ _ Ht Hlo) as (_ & _ & _ & Hts & _ & Hle & Hend).
  pose proof Hlk as [_ (_ & Hzt & _)%sized_split]. unfold sized in Hzt.
  pose proof (live_bytes_free _ _ _ _ _ Ht Hlo Hl) as Hlb.
  pose proof (live_bytes_bounds _ _ _ (tiled_free _ _ (t_addr t) _ Ht)) as Hlb'.
  set (h1 := {| h with used := saturating_sub (used h) (t_size t) |}).
  destruct (link_ok _ _ h1 m pre t post Ht Hlo H0 Hl Hlk) as (Hwalk & fl & m2 & Hun & Hlk2 & Hp2).
  destruct (merges_ok _ _ m2 fl pre t post Ht Hlo H0 Hhi Hc Hlk2) as (m3 & Hm3 & Hlk3 & Hp3).
  exists {| h1 with free_list := fl |}, m3. split.
  - unfold deallocate, is_ready, sub_u32, HEADER_SIZE.
    rewrite (proj2 (Z.ltb_lt _ _) Hrdy). destruct (Z.eqb_spec (t_addr t + 8) 0); [lia|].
    destruct (Z.leb_spec 8 (t_addr t + 8)); [|lia]. cbn [orb negb mbind outcome_bind].
    replace (t_addr t + 8 - 8) with (t_addr t) by lia. rewrite Hzt.
    destruct (Z.ltb_spec (t_addr t) (heap_start h)); [lia|].
    destruct (Z.leb_spec (heap_end h) (t_addr t)); [lia|]. cbn [orb].
    destruct (Z.ltb_spec (t_size t) 8); [lia|].
    rewrite (add_u32_ok (t_addr t)) by lia. cbn [mbind outcome_bind].
    destruct (Z.ltb_spec (heap_end h) (t_addr t + t_size t)); [lia|]. fold h1. unfold insert_free.
    rewrite (insert_walk_ok (heap_start h) (heap_end h) _ _ pre t post) by
      (try done; pose proof (walk_fuel_enough _ _ _ Hrep) as Hf;
       rewrite frees_app, frees_cons_live in Hf by done; exact Hf).
    cbn [mbind outcome_bind]. unfold unlink in Hun.
    destruct (tail_of (frees pre) =? 0); injection Hun as Hfl <-;
      (destruct (merge_next _ (t_addr t) (head_of (frees post))); [|done..]);
      cbn [mbind outcome_bind] in *; rewrite Hm3; cbn [mbind outcome_bind]; by rewrite <-Hfl || by subst.
  - split_and!; try done; [|intros a Ha; by rewrite Hp3, Hp2].
    split; try done; [by apply tiled_free|apply coalesced_coalesce|].
    cbn [used h1]. rewrite Hlb, Hu. unfold saturating_sub. lia.
Qed.

End HeapFacts.
