(* ===== verification/HeapFrame.v ===== *)
(** * What the heap leaves alone, and when it has room

    Neither [allocate] nor [deallocate] writes outside the heap's own bytes; a
    row with a large enough hole keeps one through both. *)

From S2P Require Import Prelude.
From S2P Require Import Heap.
From S2P Require Import HeapTiles.
From S2P Require Import HeapFacts.
#[local] Open Scope Z_scope.
#[local] Ltac Zify.zify_post_hook ::= Z.to_euclidean_division_equations.

Module HeapFrame.
Import Heap Tiles HeapFacts.

(** An address that belongs to no block of the heap. *)
Definition outside (h : Heap) (a : Z) : Prop := a < heap_start h \/ heap_end h <= a.

(** ** Writes *)

Lemma unlink_frame h m prev n h' m' a :
  unlink h m prev n = (h', m') -> (prev <> 0 -> a <> prev + 4) -> m'.[a] = m.[a].
Proof.
  unfold unlink, next_at. destruct (Z.eqb_spec prev 0); intros [= <- <-]; [done|].
  intros Ha. apply load_store_ne. specialize (Ha ltac:(done)). lia.
Qed.

Lemma take_block_frame h m needed prev cur next h' m' p a :
  take_block h m needed prev cur next = Done (h', m', p) ->
  (prev <> 0 -> a <> prev + 4) -> (a < cur \/ cur + m.[size_at cur] <= a) ->
  8 <= needed <= m.[size_at cur] -> m'.[a] = m.[a].
Proof.
  unfold take_block, size_at, next_at. intros Ht Hp Ha Hn. unfold HEADER_SIZE in *.
  set (rem := m.[cur] - needed) in *.
  assert (forall h1 m1, (if 8 <=? rem then split ← add_u32 cur needed;
      Done (unlink h ((m.[split <- rem]).[split + 4 <- next]) prev split) else Done (unlink h m prev next))
      = Done (h1, m1) -> m1.[a] = m.[a]) as Hfirst.
  { intros h1 m1. destruct (Z.leb_spec 8 rem).
    - unfold add_u32. destruct (cur + needed <=? U32_MAX); [|done]. cbn [mbind outcome_bind].
      intros [= Hu]. rewrite (unlink_frame _ _ _ _ _ _ a Hu Hp). rewrite !load_store_ne by lia. done.
    - intros [= Hu]. by apply (unlink_frame _ _ _ _ _ _ a Hu Hp). }
  match type of Ht with mbind _ ?e = _ => destruct e as [[h1 m1]| |] eqn:E end; [|done..].
  cbn [mbind outcome_bind] in Ht. specialize (Hfirst _ _ eq_refl).
  destruct (add_u32 (used h1) _) as [u| |]; [|done..]. cbn [mbind outcome_bind] in Ht.
  destruct (add_u32 (allocations h1) 1) as [n| |]; [|done..]. cbn [mbind outcome_bind] in Ht.
  destruct (add_u32 cur 8) as [q| |]; [|done..]. cbn [mbind outcome_bind] in Ht.
  injection Ht as <- <- <-. rewrite !load_store_ne by lia. done.
Qed.

(** The hole before a split of the row, if any, lies inside the heap. *)
Lemma hole_inside h m ts b : heap_rep h m ts -> b ∈ frees ts -> heap_start h <= b /\ b + 8 <= heap_end h.
Proof.
  intros Hrep (y & Hy & <-)%in_frees_tile.
  pose proof (tiled_elem _ _ _ _ (hr_tiled _ _ _ Hrep) (hr_aligned _ _ _ Hrep) Hy). lia.
Qed.

Lemma tail_of_elem l : tail_of l <> 0 -> tail_of l ∈ l.
Proof.
  unfold tail_of. destruct (last l) as [b|] eqn:E; [|done]. intros _. apply last_Some in E as [l' ->].
  apply elem_of_app. right. apply list_elem_of_here.
Qed.

Lemma allocate_outside h m ts layout h' m' p a :
  heap_rep h m ts -> 0 <= l_size layout -> allocate h m layout = Done (h', m', p) ->
  outside h a -> m'.[a] = m.[a].
Proof.
  intros Hrep Hsz. unfold allocate. destruct (negb (is_ready h) || _); [by intros [= <- <- <-]|].
  destruct (_ <? _); [by intros [= <- <- <-]|]. rewrite aligned_block_size_spec by done.
  destruct (_ <=? U32_MAX); [|by intros [= <- <- <-]].
  destruct (block_size_ok (l_size layout) Hsz) as (H8 & _ & _). set (needed := block_size (l_size layout)) in *.
  pose proof Hrep as [_ _ _ _ _ _ [Hseg Hsized] _].
  edestruct (walk_list m _ _ _ (alloc_walk_body h m needed) (walk_fuel h) 0 _ _ Hseg)
    as (q1 & q2 & Hq & Hgo & Hstop & ->); [by eapply walk_fuel_enough|].
  cbn [mbind outcome_bind]. fold (tail_of q1). destruct q2 as [|b q']; [by intros [= <- <- <-]|].
  destruct (frees_split _ _ _ Hq) as (ts1 & ts2 & -> & H1 & _ & H3).
  destruct (H3 b q' eq_refl) as (t & ts3 & -> & Hf & <- & _).
  pose proof Hsized as (_ & Hst & _)%sized_split. unfold sized in Hst.
  specialize (Hstop _ _ eq_refl). simpl in Hstop. rewrite Hst, negb_false_iff, Z.leb_le in Hstop.
  change (head_of (t_addr t :: q')) with (t_addr t). rewrite Hq in Hseg.
  apply seg_app in Hseg as (mid & _ & _ & Hb0 & _).
  destruct (Z.eqb_spec (t_addr t) 0); [done|]. intros Htake Ha.
  destruct (tiled_around _ _ _ _ _ (hr_tiled _ _ _ Hrep) (hr_aligned _ _ _ Hrep)) as (_ & _ & _ & _ & _ & Hlo & Hhi).
  apply (take_block_frame _ _ _ _ _ _ _ _ _ a Htake); rewrite ?Hst; unfold outside in Ha; [|lia|lia].
  intros Hne%tail_of_elem. assert (tail_of q1 ∈ frees (ts1 ++ t :: ts3)) as Hin.
  { rewrite Hq. apply elem_of_app. by left. }
  pose proof (hole_inside _ _ _ _ Hrep Hin). lia.
Qed.

Lemma merge_next_frame m block cur m' a :
  merge_next m block cur = Done m' -> a <> block -> a <> block + 4 -> m'.[a] = m.[a].
Proof.
  unfold merge_next, size_at, next_at. intros Hm H1 H2.
  destruct (cur =? 0); [by injection Hm as <-|]. destruct (add_u32 block _) as [fin| |]; [|done..].
  cbn [mbind outcome_bind] in Hm. destruct (fin =? cur); [|by injection Hm as <-].
  match type of Hm with mbind _ ?e = _ => destruct e as [s| |] end; [|done..]. cbn [mbind outcome_bind] in Hm. injection Hm as <-.
  rewrite !load_store_ne by lia. done.
Qed.

Lemma merge_prev_frame m prev block m' a :
  merge_prev m prev block = Done m' -> (prev <> 0 -> a <> prev /\ a <> prev + 4) -> m'.[a] = m.[a].
Proof.
  unfold merge_prev, size_at, next_at. intros Hm H1.
  destruct (Z.eqb_spec prev 0); [by injection Hm as <-|]. specialize (H1 ltac:(done)).
  destruct (add_u32 prev _) as [fin| |]; [|done..].
  cbn [mbind outcome_bind] in Hm. destruct (fin =? block); [|by injection Hm as <-].
  match type of Hm with mbind _ ?e = _ => destruct e as [s| |] end; [|done..]. cbn [mbind outcome_bind] in Hm. injection Hm as <-.
  rewrite !load_store_ne by lia. done.
Qed.

Lemma insert_free_frame h m block size prev cur h' m' a :
  run_loop (walk_fuel h) (insert_step ((m.[size_at block <- size]).[next_at block <- 0]) block) (0, free_list h)
    = Done (prev, cur) ->
  insert_free h m block size = Done (h', m') ->
  a <> block -> a <> block + 4 -> (prev <> 0 -> a <> prev /\ a <> prev + 4) -> m'.[a] = m.[a].
Proof.
  unfold insert_free. intros -> Hi H1 H2 H3. cbn [mbind outcome_bind] in Hi.
  set (m1 := ((m.[size_at block <- size]).[next_at block <- 0]).[next_at block <- cur]) in *.
  assert (m1.[a] = m.[a]) as Hm1 by (unfold m1, size_at, next_at; rewrite !load_store_ne by lia; done).
  set (s := if prev =? 0 then _ else _) in Hi. assert (s.2.[a] = m1.[a]) as Hs.
  { unfold s. destruct (Z.eqb_spec prev 0) as [|Hne]; [done|]. cbn [snd]. unfold next_at.
    destruct (H3 Hne) as [_ H4]. by rewrite load_store_ne by lia. }
  destruct s as [h1 m2]. cbn [snd] in Hs.
  destruct (merge_next m2 block cur) as [m3| |] eqn:E3; [|done..]. cbn [mbind outcome_bind] in Hi.
  destruct (merge_prev m3 prev block) as [m4| |] eqn:E4; [|done..]. cbn [mbind outcome_bind] in Hi.
  injection Hi as <- <-. rewrite (merge_prev_frame _ _ _ _ a E4 H3), (merge_next_frame _ _ _ _ a E3 H1 H2).
  by rewrite Hs.
Qed.

Lemma deallocate_outside h m pre t post h' m' a :
  heap_rep h m (pre ++ t :: post) -> t_live t = true ->
  deallocate h m (t_addr t + HEADER_SIZE) = Done (h', m') -> outside h a -> m'.[a] = m.[a].
Proof.
  intros Hrep Hl Hd Ha. pose proof Hrep as [Ht Hc H0 Hlo Hrdy Hhi Hlk Hu].
  destruct (tiled_around _ _ _ _ _ Ht Hlo) as (_ & _ & _ & Hts & _ & Hle & Hend).
  pose proof Hlk as [_ (_ & Hzt & _)%sized_split]. unfold sized in Hzt.
  unfold deallocate, is_ready, sub_u32, HEADER_SIZE in Hd.
  rewrite (proj2 (Z.ltb_lt _ _) Hrdy) in Hd. destruct (Z.eqb_spec (t_addr t + 8) 0); [lia|].
  destruct (Z.leb_spec 8 (t_addr t + 8)); [|lia]. cbn [orb negb mbind outcome_bind] in Hd.
  replace (t_addr t + 8 - 8) with (t_addr t) in Hd by lia. rewrite Hzt in Hd.
  destruct (Z.ltb_spec (t_addr t) (heap_start h)); [lia|].
  destruct (Z.leb_spec (heap_end h) (t_addr t)); [lia|]. cbn [orb] in Hd.
  destruct (Z.ltb_spec (t_size t) 8); [lia|].
  rewrite (add_u32_ok (t_addr t)) in Hd by lia. cbn [mbind outcome_bind] in Hd.
  destruct (Z.ltb_spec (heap_end h) (t_addr t + t_size t)); [lia|].
  set (h1 := {| h with used := _ |}) in Hd.
  destruct (link_ok _ _ h1 m pre t post Ht Hlo H0 Hl Hlk) as (Hwalk & _).
  unfold outside in Ha.
  eapply (insert_free_frame h1 m (t_addr t) (t_size t) _ _ _ _ a); [|exact Hd|lia|lia|].
  - apply (insert_walk_ok (heap_start h) (heap_end h) _ _ pre t post); try done.
    pose proof (walk_fuel_enough _ _ _ Hrep) as Hf. by rewrite frees_app, frees_cons_live in Hf.
  - intros Hne%tail_of_elem. assert (tail_of (frees pre) ∈ frees (pre ++ t :: post)) as Hin.
    { rewrite frees_app, elem_of_app. by left. }
    pose proof (hole_inside _ _ _ _ Hrep Hin). lia.
Qed.

(** A word no operation on behalf of others may touch. *)
Definition foreign (h : Heap) (ts : list tile) (a : Z) : Prop := payload ts a \/ outside h a.

Lemma payload_inside h m ts a : heap_rep h m ts -> payload ts a -> heap_start h <= a < heap_end h.
Proof.
  intros [Htt _ _ Hlo _ _ _ _] (y & Hy & _ & Hr). destruct (tiled_elem _ _ _ _ Htt Hlo Hy) as (? & ? & _). lia.
Qed.

(** Writes by others hit no header or link. *)
Lemma heap_rep_foreign h m m' ts :
  heap_rep h m ts -> (forall x, ~ foreign h ts x -> m'.[x] = m.[x]) -> heap_rep h m' ts.
Proof.
  intros Hrep Hag. pose proof Hrep as [Htt Hc H0 Hlo Hrdy Hhi [Hseg Hsz] Hu].
  assert (forall y x, y ∈ ts -> x = t_addr y \/ (is_free y /\ x = t_addr y + 4) -> m'.[x] = m.[x]) as Hmiss.
  { intros y x Hy Hx. apply Hag. pose proof (tiled_elem _ _ _ _ Htt Hlo Hy).
    intros [(t & Ht & Htl & Hr)|Ho]; [|unfold outside in Ho; lia].
    destruct (tiled_disjoint _ _ _ _ _ Htt Hlo Ht Hy) as [<-|Hd]; [|lia].
    destruct Hx as [->|[Hf _]]; [lia|]. unfold is_free in Hf. congruence. }
  split; try done. split.
  - apply seg_agree with m; [|done]. intros b (y & Hy & Hyf & <-)%elem_of_frees. apply (Hmiss y); [done|by right].
  - rewrite Forall_forall in *. intros y Hy. unfold sized, size_at in *.
    rewrite (Hmiss y); [by apply Hsz|done|by left].
Qed.

(** What a client does to the words of its own block, in particular. *)
Lemma heap_rep_agree h m m' ts t :
  heap_rep h m ts -> t ∈ ts -> t_live t = true ->
  (forall x, x < t_addr t + 8 \/ t_addr t + t_size t <= x -> m'.[x] = m.[x]) -> heap_rep h m' ts.
Proof.
  intros Hrep Ht Htl Hag. apply (heap_rep_foreign h m m' ts Hrep). intros x Hx. apply Hag.
  destruct (decide (t_addr t + 8 <= x < t_addr t + t_size t)); [|lia]. exfalso. apply Hx. left. by exists t.
Qed.

Lemma heap_rep_write h m ts t x v :
  heap_rep h m ts -> t ∈ ts -> t_live t = true -> t_addr t + 8 <= x < t_addr t + t_size t ->
  heap_rep h (m.[x <- v]) ts.
Proof. intros Hrep Ht Htl Hx. apply (heap_rep_agree h m _ ts t Hrep Ht Htl). intros y Hy. apply load_store_ne. lia. Qed.

(** The other blocks of a row. *)
Lemma others lo hi pre t post y : tiled lo hi (pre ++ t :: post) -> lo mod 8 = 0 ->
  y ∈ pre ++ post <-> y ∈ pre ++ t :: post /\ y <> t.
Proof.
  intros Ht Hlo. destruct (tiled_around _ _ _ _ _ Ht Hlo) as (Hpre & Hpost & _ & Hs & _).
  rewrite !elem_of_app, elem_of_cons. split; [|tauto]. intros [Hy|Hy].
  - split; [tauto|]. intros ->. specialize (Hpre t Hy). lia.
  - split; [tauto|]. intros ->. specialize (Hpost t Hy). lia.
Qed.

(** ** Room *)

Definition room (n : Z) (ts : list tile) : Prop := exists t, t ∈ ts /\ is_free t /\ n <= t_size t.

Lemma room_le n n' ts : n' <= n -> room n ts -> room n' ts.
Proof. intros Hn (t & ? & ? & ?). exists t. split_and!; [done|done|lia]. Qed.

Lemma t_alloc_room needed n ts : 8 <= n -> 0 <= needed -> room (needed + n) ts ->
  exists b ts', t_alloc needed ts = Some (b, ts') /\ room n ts'.
Proof.
  intros H8 H0 (r & Hr & Hrf & Hrs). destruct (t_alloc needed ts) as [[b ts']|] eqn:E.
  - exists b, ts'. split; [done|].
    apply t_alloc_Some in E as (pre & t & post & -> & Hf & Hn & _ & -> & _).
    rewrite elem_of_app, elem_of_cons in Hr.
    assert (r ∈ pre ++ carve needed t ++ post \/ r = t) as [Hin| ->].
    { rewrite !elem_of_app. tauto. }
    + exists r. split_and!; [done|done|lia].
    + exists (mkTile (t_addr t + needed) (t_size t - needed) false). split; [|split; [done|cbn; lia]].
      rewrite !elem_of_app. right. left. unfold carve. destruct (Z.leb_spec 8 (t_size t - needed)); [|lia].
      apply list_elem_of_further, list_elem_of_here.
  - rewrite t_alloc_None in E. specialize (E r Hr Hrf). lia.
Qed.

Lemma coalesce_room n lo hi ts : tiled lo hi ts -> room n ts -> room n (coalesce ts).
Proof.
  revert lo. induction ts as [|t ts IH]; intros lo Ht Hr; [done|]. cbn [tiled] in Ht. destruct Ht as (_ & Hs & _ & Ht).
  cbn [coalesce foldr]. fold (coalesce ts). pose proof (tiled_coalesce _ _ _ Ht) as Htc.
  destruct Hr as (r & [->|Hr]%elem_of_cons & Hrf & Hrs).
  - destruct (cons_tile_head t (coalesce ts) Hrf) as (v & rest & Hv & Hvf & _). exists v. rewrite Hv.
    split; [apply list_elem_of_here|split; [done|]]. unfold cons_tile in Hv.
    destruct (coalesce ts) as [|u us]; [injection Hv as <- <-; lia|].
    destruct (_ && _); injection Hv as <- <-; [|lia]. cbn [tiled] in Htc. cbn [join t_size]. lia.
  - destruct (IH _ Ht) as (v & Hv & Hvf & Hvs); [by exists r|]. unfold cons_tile.
    destruct (coalesce ts) as [|u us]; [by apply elem_of_nil in Hv|].
    destruct (negb (t_live t) && negb (t_live u)) eqn:E; [|exists v; split; [by apply list_elem_of_further|done]].
    apply andb_true_iff in E as [E1%negb_true_iff E2%negb_true_iff].
    apply elem_of_cons in Hv as [->|Hv].
    + exists (join t u). split; [apply list_elem_of_here|]. split; [done|]. cbn [join t_size]. lia.
    + exists v. split; [by apply list_elem_of_further|done].
Qed.

Lemma t_free_room n lo hi b ts : tiled lo hi ts -> room n ts -> room n (t_free b ts).
Proof.
  intros Ht (r & Hr & Hrf & Hrs). apply (coalesce_room n lo hi); [by apply tiled_mark|].
  exists (mark_free b r). split; [by apply list_elem_of_fmap_2|].
  unfold mark_free, is_free in *. by destruct (t_addr r =? b).
Qed.

(** ** Taking and giving back, as a client sees it *)

(** Same live blocks. *)
Definition same_live (ts us : list tile) : Prop := forall y, t_live y = true -> y ∈ ts <-> y ∈ us.

Lemma allocate_client h m ts n R :
  heap_rep h m ts -> 0 < n -> n + 15 <= U32_MAX -> 8 <= R -> room (n + 16 + R) ts -> allocations h < U32_MAX ->
  exists h' m' pre t post, allocate h m (mkLayout n 1) = Done (h', m', t_addr t + 8) /\
    heap_rep h' m' (pre ++ t :: post) /\ t_live t = true /\ n + 8 <= t_size t /\ same_live (pre ++ post) ts /\
    used h' = used h + t_size t /\ allocations h' = allocations h + 1 /\ room R (pre ++ t :: post) /\
    heap_start h' = heap_start h /\ heap_end h' = heap_end h /\ (forall a, foreign h ts a -> m'.[a] = m.[a]).
Proof.
  intros Hrep Hn Hmax HR Hroom Hal.
  destruct (heap_allocate_sim h m ts (mkLayout n 1) Hrep ltac:(cbn; lia) Hal) as (h' & m' & p & Ha & H).
  assert (exists b ts', spec_alloc (mkLayout n 1) ts = Some (b, ts') /\ t_alloc (block_size n) ts = Some (b, ts') /\
    room R ts') as (b & ts' & Hs & Hta & Hr).
  { unfold spec_alloc. cbn [l_size l_align]. destruct (Z.eqb_spec n 0); [lia|].
    destruct (Z.ltb_spec U32_MAX (n + 15)); [lia|]. cbn [orb Z.ltb Z.compare].
    destruct (t_alloc_room (block_size n) R ts) as (b & ts' & Hb & Hr); [lia|unfold block_size; lia| |by exists b, ts'].
    eapply room_le; [|exact Hroom]. unfold block_size. lia. }
  rewrite Hs in H. destruct H as (-> & Hrep' & Hst & Hen & Hall & Hpay). unfold HEADER_SIZE in *.
  pose proof Hta as (pre & t & post & -> & Hf & Hle & -> & -> & _)%t_alloc_Some.
  destruct (block_size_ok n ltac:(lia)) as (_ & _ & Hbs).
  set (t1 := mkTile (t_addr t) (if 8 <=? t_size t - block_size n then block_size n else t_size t) true).
  assert (exists post1, pre ++ carve (block_size n) t ++ post = pre ++ t1 :: post1 /\
    (forall y, t_live y = true -> y ∈ post1 <-> y ∈ post)) as (post1 & Hc & Hp1).
  { unfold carve, t1. destruct (8 <=? t_size t - block_size n); eexists; (split; [reflexivity|]); [|done].
    intros y Hy. rewrite elem_of_cons. split; [intros [->|?]; done|tauto]. }
  exists h', m', pre, t1, post1. rewrite <-Hc. split_and!; try done.
  - unfold t1. cbn [t_size]. destruct (8 <=? t_size t - block_size n); lia.
  - intros y Hy. rewrite !elem_of_app, elem_of_cons, (Hp1 y Hy). unfold is_free in Hf.
    split; [tauto|]. intros [?|[->|?]]; [tauto|congruence|tauto].
  - rewrite (hr_used _ _ _ Hrep'), (hr_used _ _ _ Hrep), live_bytes_carve by done. done.
  - intros a [Hp|Ho]; [by apply Hpay|]. eapply allocate_outside; [exact Hrep| |exact Ha|exact Ho]. cbn. lia.
Qed.

Lemma deallocate_client h m pre t post :
  heap_rep h m (pre ++ t :: post) -> t_live t = true ->
  exists h' m' ts', deallocate h m (t_addr t + 8) = Done (h', m') /\ heap_rep h' m' ts' /\ same_live ts' (pre ++ post) /\
    used h' = used h - t_size t /\ allocations h' = allocations h /\
    (forall R, room R (pre ++ t :: post) -> room R ts') /\
    heap_start h' = heap_start h /\ heap_end h' = heap_end h /\
    (forall a, foreign h (pre ++ post) a -> m'.[a] = m.[a]).
Proof.
  intros Hrep Hl. destruct (heap_deallocate_sim h m pre t post Hrep Hl) as (h' & m' & Hd & Hr & Hst & Hen & Ha & Hp).
  exists h', m', (t_free (t_addr t) (pre ++ t :: post)). split_and!; try done.
  - intros y Hy. pose proof (t_free_live_elems _ _ _ _ _ y (hr_tiled _ _ _ Hrep) (hr_aligned _ _ _ Hrep)) as Hiff. tauto.
  - rewrite (hr_used _ _ _ Hr), (hr_used _ _ _ Hrep). eapply live_bytes_free; [apply Hrep|apply Hrep|done].
  - intros R. eapply t_free_room, Hrep.
  - intros a [Hpa|Ho]; [by apply Hp|]. by eapply deallocate_outside.
Qed.

End HeapFrame.
