(* ===== verification/HeapSpec.v ===== *)
(** * What the heap guarantees

    Refinement of the row of blocks by [allocate], [deallocate] and [init], and
    what clients of the heap get in every state they can reach. *)

From S2P Require Import Prelude.
From S2P Require Import MemMap.
From S2P Require Import FrameAlloc.
From S2P Require Import FramePool.
From S2P Require Import FrameNew.
From S2P Require Import FrameSpec.
From S2P Require Import Heap.
From S2P Require Import HeapTiles.
From S2P Require Import HeapFacts.
From S2P Require Import HeapFrame.
#[local] Open Scope Z_scope.
#[local] Ltac Zify.zify_post_hook ::= Z.to_euclidean_division_equations.

Module HeapSpec.
Import Heap Tiles HeapFacts HeapFrame.

(** The row right after [init]: one hole. *)
Definition one_hole (start size : Z) : list tile := [mkTile start size false].

Lemma heap_init_ok h m start size :
  0 < start -> start mod 8 = 0 -> 8 <= size -> size mod 8 = 0 -> start + size <= U32_MAX ->
  exists h' m', heap_init h m start size = Done (h', m') /\
    heap_rep h' m' (one_hole start size) /\ heap_start h' = start /\ heap_end h' = start + size /\
    allocations h' = 0 /\ (forall a, a < start \/ start + size <= a -> m'.[a] = m.[a]).
Proof.
  intros H0 Hm H8 Hsm Hle. unfold heap_init, is_multiple_of, HEADER_SIZE, ALIGN.
  rewrite (proj2 (Z.leb_le _ _) H8), (proj2 (Z.eqb_eq _ _) Hm), (proj2 (Z.eqb_eq _ _) Hsm).
  cbn [negb andb]. rewrite add_u32_ok by done. cbn [mbind outcome_bind].
  eexists _, _. split; [done|]. split_and!; try done.
  - split; simpl; try done; try lia. unfold linked, one_hole, sized, next_at, size_at. simpl.
    split; [split_and!; [done|lia|by rewrite load_store_eq]|].
    repeat constructor. simpl. by rewrite load_store_ne, load_store_eq by lia.
  - intros a Ha. unfold next_at, size_at. rewrite !load_store_ne by lia. done.
Qed.

(** A 64-byte heap at 0x1000, as concrete input. *)
Definition demo_heap : Heap := mkHeap 0x1000 0x1040 0x1000 0 0.
Definition demo_mem : mem := {[0x1000 := 64]}.
Definition demo_row : list tile := one_hole 0x1000 64.

Lemma demo_rep : heap_rep demo_heap demo_mem demo_row.
Proof.
  split; try done. split; [|by repeat constructor]. vm_compute. done.
Qed.

(** C13: [allocate] is first fit on the row of blocks, on every branch: a zero
    size, an alignment above 8, a size whose block would overflow [usize] or a
    row without a large enough hole give the null pointer and change nothing;
    otherwise the first hole that fits is carved, the pointer is 8 past the
    block, memory represents the new row, the counters move, and no word of
    any live block's payload changes. (While the allocation counter is below
    [u32::MAX], where counting one more would panic.) *)
Theorem allocate_is_first_fit (h : Heap) (m : mem) (ts : list tile) (layout : Layout) :
  heap_rep h m ts -> 0 <= l_size layout -> allocations h < U32_MAX ->
  exists h' m' p, allocate h m layout = Done (h', m', p) /\
    match spec_alloc layout ts with
    | None => p = 0 /\ h' = h /\ m' = m
    | Some (b, ts') => p = b + HEADER_SIZE /\ heap_rep h' m' ts' /\
        allocations h' = allocations h + 1 /\ (forall a, payload ts a -> m'.[a] = m.[a])
    end.
Proof.
  intros Hr Hs Ha. destruct (heap_allocate_sim h m ts layout Hr Hs Ha) as (h' & m' & p & Hal & H).
  exists h', m', p. split; [done|]. destruct (spec_alloc layout ts) as [[b ts']|]; [|done]. tauto.
Qed.

Lemma allocate_is_first_fit_witness :
  exists h' m', allocate demo_heap demo_mem (mkLayout 5 1) = Done (h', m', 0x1008) /\
    heap_rep h' m' [mkTile 0x1000 16 true; mkTile 0x1010 48 false].
Proof.
  destruct (allocate_is_first_fit demo_heap demo_mem demo_row (mkLayout 5 1) demo_rep
    ltac:(simpl; lia) ltac:(vm_compute; reflexivity)) as (h' & m' & p & Hal & Hp & Hrep & _).
  exists h', m'. split; [rewrite Hal, Hp; reflexivity|exact Hrep].
Defined.

(** C14: [deallocate] of a live block's pointer returns and leaves the row in
    which that block is free and all adjacent holes are merged; the bytes in
    use drop by the block's size and no other live block's payload changes. *)
Theorem deallocate_coalesces (h : Heap) (m : mem) (pre : list tile) (t : tile) (post : list tile) :
  heap_rep h m (pre ++ t :: post) -> t_live t = true ->
  exists h' m', deallocate h m (t_addr t + HEADER_SIZE) = Done (h', m') /\
    heap_rep h' m' (t_free (t_addr t) (pre ++ t :: post)) /\
    used h' = used h - t_size t /\ allocations h' = allocations h /\
    (forall a, payload (pre ++ post) a -> m'.[a] = m.[a]).
Proof.
  intros Hrep Hl. destruct (heap_deallocate_sim h m pre t post Hrep Hl) as (h' & m' & Hd & Hr & _ & _ & Ha & Hp).
  exists h', m'. split_and!; try done. rewrite (hr_used _ _ _ Hr), (hr_used _ _ _ Hrep).
  apply (live_bytes_free (heap_start h) (heap_end h)); [apply Hrep|apply Hrep|done].
Qed.

Lemma two_block_rep :
  exists m, heap_rep (mkHeap 0x1000 0x1040 0x1010 16 1) m
    ([] ++ mkTile 0x1000 16 true :: [mkTile 0x1010 48 false]).
Proof.
  exists {[0x1000 := 16; 0x1010 := 48]}. split; try done.
  split; [vm_compute; done|]. repeat constructor; vm_compute; reflexivity.
Qed.

Lemma deallocate_coalesces_witness :
  exists m h' m', deallocate (mkHeap 0x1000 0x1040 0x1010 16 1) m 0x1008 = Done (h', m') /\
    heap_rep h' m' demo_row.
Proof.
  destruct two_block_rep as [m Hr].
  destruct (deallocate_coalesces _ m [] (mkTile 0x1000 16 true) [mkTile 0x1010 48 false] Hr eq_refl)
    as (h' & m' & Hd & Hrep & _).
  exists m, h', m'. split; [exact Hd|exact Hrep].
Defined.

(** Round trip: giving back the block that [allocate] just returned restores
    the row of blocks exactly - the carved tail is merged back - and with it
    the bytes in use. *)
Theorem allocate_deallocate_roundtrip (h : Heap) (m : mem) (ts : list tile) (layout : Layout)
    (h1 : Heap) (m1 : mem) (p : Z) :
  heap_rep h m ts -> 0 <= l_size layout -> allocations h < U32_MAX ->
  allocate h m layout = Done (h1, m1, p) -> p <> 0 ->
  exists h2 m2, deallocate h1 m1 p = Done (h2, m2) /\ heap_rep h2 m2 ts /\ used h2 = used h.
Proof.
  intros Hrep Hs Ha Hal Hp. destruct (heap_allocate_sim h m ts layout Hrep Hs Ha) as (h' & m' & p' & Hal' & H).
  rewrite Hal in Hal'. injection Hal' as <- <- <-. unfold spec_alloc in H.
  destruct (_ || _ || _); [by destruct H|].
  destruct (t_alloc _ ts) as [[b ts']|] eqn:Hta; [|by destruct H]. destruct H as (-> & Hrep1 & _).
  destruct (block_size_ok _ Hs) as (H8 & H8m & _).
  pose proof (t_free_alloc _ _ _ _ _ _ (hr_tiled _ _ _ Hrep) (hr_aligned _ _ _ Hrep)
    (hr_coalesced _ _ _ Hrep) H8 H8m Hta) as Hback.
  apply t_alloc_Some in Hta as (pre & t & post & _ & _ & _ & -> & -> & _).
  assert (exists t1 post1, pre ++ carve (block_size (l_size layout)) t ++ post = pre ++ t1 :: post1 /\
    t_live t1 = true /\ t_addr t1 = t_addr t) as (t1 & post1 & Hc & Hl1 & Hat).
  { unfold carve. destruct (8 <=? _); by eexists _, _. }
  rewrite Hc, <-Hat in *. destruct (heap_deallocate_sim _ _ _ _ _ Hrep1 Hl1) as (h2 & m2 & Hd & Hr & _).
  rewrite Hback in Hr. exists h2, m2. split_and!; try done.
  by rewrite (hr_used _ _ _ Hr), (hr_used _ _ _ Hrep).
Qed.

Lemma allocate_deallocate_roundtrip_witness :
  exists h1 m1 h2 m2, allocate demo_heap demo_mem (mkLayout 5 1) = Done (h1, m1, 0x1008) /\
    deallocate h1 m1 0x1008 = Done (h2, m2) /\ heap_rep h2 m2 demo_row.
Proof.
  destruct (allocate demo_heap demo_mem (mkLayout 5 1)) as [[[h1 m1] p]| |] eqn:Hal;
    [|discriminate Hal|discriminate Hal].
  destruct (allocate_deallocate_roundtrip demo_heap demo_mem demo_row (mkLayout 5 1) h1 m1 p demo_rep
    ltac:(simpl; lia) ltac:(vm_compute; reflexivity) Hal
    ltac:(vm_compute in Hal; injection Hal as _ _ <-; discriminate)) as (h2 & m2 & Hd & Hr & _).
  assert (p = 0x1008) as -> by (vm_compute in Hal; injection Hal as _ _ <-; reflexivity).
  exists h1, m1, h2, m2. split; [reflexivity|]. split; [exact Hd|exact Hr].
Defined.

(** A request of [n] bytes takes a block of [n] rounded up to 8 plus an
    8-byte header, and [None] exactly when that arithmetic would overflow. *)
Theorem aligned_block_size_exact (n : Z) :
  0 <= n ->
  aligned_block_size n = (if n + 15 <=? U32_MAX then Some (block_size n) else None) /\
  block_size n mod 8 = 0 /\ n + 8 <= block_size n < n + 16.
Proof.
  intros Hn. split; [by apply aligned_block_size_spec|]. unfold block_size. lia.
Qed.

Lemma aligned_block_size_exact_witness :
  aligned_block_size 13 = Some 24 /\ aligned_block_size 4294967281 = None.
Proof.
  split.
  - rewrite (proj1 (aligned_block_size_exact 13 ltac:(lia))). reflexivity.
  - rewrite (proj1 (aligned_block_size_exact 4294967281 ltac:(lia))). reflexivity.
Defined.

(** ** The heap and its clients

    Clients allocate, give back pointers they hold, and write words inside the
    bytes they asked for. [hs_live] maps each held pointer to the size asked. *)

Record heap_sys := mkSys { hs_heap : Heap; hs_mem : mem; hs_live : gmap Z Z }.

Inductive heap_step : heap_sys -> heap_sys -> Prop :=
| step_alloc s layout h m p :
    0 <= l_size layout -> allocations (hs_heap s) < U32_MAX ->
    allocate (hs_heap s) (hs_mem s) layout = Done (h, m, p) -> p <> 0 ->
    heap_step s (mkSys h m (<[p := l_size layout]> (hs_live s)))
| step_alloc_null s layout h m :
    0 <= l_size layout -> allocations (hs_heap s) < U32_MAX ->
    allocate (hs_heap s) (hs_mem s) layout = Done (h, m, 0) ->
    heap_step s (mkSys h m (hs_live s))
| step_dealloc s p n h m :
    hs_live s !! p = Some n -> deallocate (hs_heap s) (hs_mem s) p = Done (h, m) ->
    heap_step s (mkSys h m (delete p (hs_live s)))
| step_write s p n x v :
    hs_live s !! p = Some n -> p <= x < p + n -> x mod 4 = 0 ->
    heap_step s (mkSys (hs_heap s) ((hs_mem s).[x <- v]) (hs_live s)).

(** The held pointers are exactly the live blocks, each large enough. *)
Definition heap_inv (s : heap_sys) : Prop :=
  exists ts, heap_rep (hs_heap s) (hs_mem s) ts /\
    (forall p n, hs_live s !! p = Some n ->
       exists t, t ∈ ts /\ t_live t = true /\ t_addr t + 8 = p /\ n + 8 <= t_size t) /\
    (forall t, t ∈ ts -> t_live t = true -> is_Some (hs_live s !! (t_addr t + 8))).

Lemma carve_elems needed t y :
  y ∈ carve needed t -> t_live y = true ->
  t_addr y = t_addr t /\ (t_size y = needed \/ t_size y = t_size t).
Proof.
  unfold carve. destruct (8 <=? _); rewrite ?elem_of_cons, ?elem_of_nil.
  - intros [->|[->|[]]]; simpl; [tauto|done].
  - intros [->|[]]. simpl. tauto.
Qed.

Lemma heap_inv_alloc s layout h m p :
  heap_inv s -> 0 <= l_size layout -> allocations (hs_heap s) < U32_MAX ->
  allocate (hs_heap s) (hs_mem s) layout = Done (h, m, p) -> p <> 0 ->
  hs_live s !! p = None /\ heap_inv (mkSys h m (<[p := l_size layout]> (hs_live s))) /\
  (forall q n a, hs_live s !! q = Some n -> q <= a < q + n -> m.[a] = (hs_mem s).[a]).
Proof.
  intros (ts & Hrep & Hl1 & Hl2) Hs Ha Hal Hp.
  destruct (heap_allocate_sim _ _ _ _ Hrep Hs Ha) as (h' & m' & p' & Hal' & H).
  rewrite Hal in Hal'. injection Hal' as <- <- <-. unfold spec_alloc in H.
  destruct (_ || _ || _); [by destruct H|].
  destruct (t_alloc _ ts) as [[b ts']|] eqn:Hta; [|by destruct H].
  destruct H as (-> & Hrep1 & _ & _ & _ & Hpay). unfold HEADER_SIZE in *.
  destruct (block_size_ok _ Hs) as (H8 & H8m & Hbs).
  apply t_alloc_Some in Hta as (pre & t & post & -> & Hf & Hle & -> & -> & _).
  destruct (tiled_around _ _ _ _ _ (hr_tiled _ _ _ Hrep) (hr_aligned _ _ _ Hrep))
    as (Hpre & Hpost & _ & Hts & _).
  assert (forall y, y ∈ pre ++ t :: post -> t_live y = true -> y ∈ pre ++ post /\ t_addr y <> t_addr t) as Hy.
  { intros y. rewrite elem_of_app, elem_of_cons, elem_of_app. unfold is_free in Hf.
    intros [Hy|[->|Hy]] Hl; [|congruence|].
    - specialize (Hpre y Hy). split; [tauto|lia].
    - specialize (Hpost y Hy). split; [tauto|lia]. }
  assert (forall y, y ∈ pre ++ post -> y ∈ pre ++ carve (block_size (l_size layout)) t ++ post) as Hsub.
  { intros y. rewrite !elem_of_app. tauto. }
  assert (hs_live s !! (t_addr t + 8) = None) as Hnone.
  { apply eq_None_not_Some. intros [n (y & Hyt & Hyl & Hya & _)%Hl1].
    destruct (Hy y Hyt Hyl) as [_ Hne]. lia. }
  split_and!; [done| |].
  - exists (pre ++ carve (block_size (l_size layout)) t ++ post). split; [done|]. simpl. split.
    + intros q n [[<- <-]|[Hne Hq]]%lookup_insert_Some.
      * unfold carve. destruct (8 <=? _); eexists; rewrite !elem_of_app, elem_of_cons; simpl;
          (split; [right; left; left; reflexivity|]); simpl; lia.
      * destruct (Hl1 q n Hq) as (y & Hyt & Hyl & Hya & Hyn). exists y.
        split_and!; try done. by apply Hsub, Hy.
    + intros y Hyin Hyl. rewrite !elem_of_app in Hyin.
      assert (y ∈ carve (block_size (l_size layout)) t \/ y ∈ pre ++ post) as [Hyc|Hyp]
        by (rewrite elem_of_app; tauto).
      * destruct (carve_elems _ _ _ Hyc Hyl) as [-> _]. by rewrite lookup_insert_eq.
      * assert (y ∈ pre ++ t :: post) as Hyt by (rewrite elem_of_app in *; rewrite elem_of_cons; tauto).
        destruct (Hy y Hyt Hyl). rewrite lookup_insert_ne by lia. by apply Hl2.
  - intros q n a (y & Hyt & Hyl & <- & Hyn)%Hl1 Haq. apply Hpay. exists y. split_and!; try done; lia.
Qed.

Lemma heap_inv_dealloc s p n :
  heap_inv s -> hs_live s !! p = Some n ->
  exists h m, deallocate (hs_heap s) (hs_mem s) p = Done (h, m) /\
    heap_inv (mkSys h m (delete p (hs_live s))) /\
    (forall q k a, hs_live s !! q = Some k -> q <> p -> q <= a < q + k -> m.[a] = (hs_mem s).[a]).
Proof.
  intros (ts & Hrep & Hl1 & Hl2) Hp. destruct (Hl1 p n Hp) as (t & Ht & Htl & <- & Htn).
  apply list_elem_of_split in Ht as (pre & post & ->).
  destruct (heap_deallocate_sim _ _ _ _ _ Hrep Htl) as (h & m & Hd & Hrep' & _ & _ & _ & Hpay).
  pose proof (hr_tiled _ _ _ Hrep) as Htl'. pose proof (hr_aligned _ _ _ Hrep) as Hlo.
  destruct (tiled_around _ _ _ _ _ Htl' Hlo) as (Hpre & Hpost & _ & Hts & _).
  assert (forall y, y ∈ t_free (t_addr t) (pre ++ t :: post) /\ t_live y = true <->
            y ∈ pre ++ post /\ t_live y = true) as Helem.
  { intros y. apply (t_free_live_elems _ _ _ _ _ y Htl' Hlo). }
  assert (forall y, y ∈ pre ++ post -> t_addr y <> t_addr t) as Hne.
  { intros y [Hy|Hy]%elem_of_app; [specialize (Hpre y Hy)|specialize (Hpost y Hy)]; lia. }
  exists h, m. split; [done|]. split.
  - eexists. split; [exact Hrep'|]. simpl. split.
    + intros q k [Hqp Hq]%lookup_delete_Some. destruct (Hl1 q k Hq) as (y & Hy & Hyl & Hya & Hyk).
      exists y. split_and!; try done. apply Helem. split; [|done].
      rewrite elem_of_app, elem_of_cons in Hy. rewrite elem_of_app.
      destruct Hy as [?|[->|?]]; [tauto|lia|tauto].
    + intros y Hy Hyl. destruct (proj1 (Helem y) (conj Hy Hyl)) as [Hyp _].
      rewrite lookup_delete_ne by (specialize (Hne y Hyp); lia). apply Hl2; [|done].
      rewrite elem_of_app in *. rewrite elem_of_cons. tauto.
  - intros q k a (y & Hy & Hyl & <- & Hyk)%Hl1 Hqp Ha. apply Hpay. exists y.
    split; [|split; [done|lia]]. rewrite elem_of_app, elem_of_cons in Hy. rewrite elem_of_app.
    destruct Hy as [?|[->|?]]; [tauto|lia|tauto].
Qed.

(** Client writes stay inside their block: no header or link is hit. *)
Lemma heap_inv_write s p n x v :
  heap_inv s -> hs_live s !! p = Some n -> p <= x < p + n -> x mod 4 = 0 ->
  heap_inv (mkSys (hs_heap s) ((hs_mem s).[x <- v]) (hs_live s)).
Proof.
  intros (ts & Hrep & Hl1 & Hl2) Hp Hx Hx4. exists ts. simpl. split; [|done].
  destruct (Hl1 p n Hp) as (t & Ht & Htl & <- & Htn). apply (heap_rep_write _ _ _ t); try done. lia.
Qed.

Lemma spec_alloc_pos h m ts layout b ts' :
  heap_rep h m ts -> spec_alloc layout ts = Some (b, ts') -> 0 < b.
Proof.
  intros Hrep. unfold spec_alloc. destruct (_ || _ || _); [done|].
  intros (pre & t & post & -> & _ & _ & -> & _)%t_alloc_Some.
  destruct (tiled_around _ _ _ _ _ (hr_tiled _ _ _ Hrep) (hr_aligned _ _ _ Hrep)) as (_ & _ & _ & _ & _ & Hle & _).
  pose proof (hr_start _ _ _ Hrep). lia.
Qed.

Lemma heap_inv_step s s' : heap_inv s -> heap_step s s' -> heap_inv s'.
Proof.
  intros Hinv Hs. destruct Hs as [s l h m p Hs Ha Hal Hp|s l h m Hs Ha Hal|s p n h m Hp Hd|s p n x v Hp Hx H4].
  - by apply (heap_inv_alloc s l h m p).
  - pose proof Hinv as (ts & Hrep & H1 & H2).
    destruct (heap_allocate_sim _ _ _ _ Hrep Hs Ha) as (h' & m' & p' & Hal' & H). rewrite Hal in Hal'.
    injection Hal' as <- <- Hp. destruct (spec_alloc l ts) as [[b ts']|] eqn:Hsp.
    + destruct H as (Hb & _). pose proof (spec_alloc_pos _ _ _ _ _ _ Hrep Hsp). unfold HEADER_SIZE in Hb. lia.
    + destruct H as (_ & -> & ->). exists ts. done.
  - destruct (heap_inv_dealloc s p n Hinv Hp) as (h' & m' & Hd' & Hi & _).
    rewrite Hd in Hd'. by injection Hd' as <- <-.
  - by apply (heap_inv_write s p n).
Qed.

(** A heap [init] made of [start..start + size], nothing live. *)
Definition fresh_heap (start size : Z) (s : heap_sys) : Prop :=
  0 < start /\ start mod 8 = 0 /\ 8 <= size /\ size mod 8 = 0 /\ start + size <= U32_MAX /\
  hs_live s = ∅ /\ exists h m, heap_init h m start size = Done (hs_heap s, hs_mem s).

(** Every client history keeps the invariant and the bounds of the heap. *)
Lemma heap_inv_reachable start size s0 s :
  fresh_heap start size s0 -> rtc heap_step s0 s -> heap_inv s.
Proof.
  intros (H1 & H2 & H3 & H4 & H5 & Hl & h & m & Hi) Hr.
  destruct (heap_init_ok h m start size H1 H2 H3 H4 H5) as (h' & m' & Hi' & Hrep & _).
  rewrite Hi in Hi'. injection Hi' as <- <-.
  assert (heap_inv s0) as H0.
  { exists (one_hole start size). rewrite Hl. split_and!; [done|done|].
    intros t ->%list_elem_of_singleton. done. }
  revert H0. clear -Hr. induction Hr as [|x y z Hxy _ IH]; [done|]. intros Hx.
  by eapply IH, heap_inv_step.
Qed.

(** Bytes [p..p + n) and [q..q + k) do not meet. *)
Definition apart (p n q k : Z) : Prop := p + n <= q \/ q + k <= p.

(** C2: Isolation. In every state clients can reach from a fresh heap, [allocate]
    returns; a non-null pointer is 8-aligned, its bytes lie inside the heap
    and meet no live allocation, and no byte of a live allocation changes (as
    long as the allocation counter is below [u32::MAX], where counting one
    more would panic). Giving back a held pointer always returns and changes no
    byte of the others. *)
Theorem heap_isolation (start size : Z) (s0 s : heap_sys) :
  fresh_heap start size s0 -> rtc heap_step s0 s ->
  (forall layout, 0 <= l_size layout -> allocations (hs_heap s) < U32_MAX ->
     exists h m p, allocate (hs_heap s) (hs_mem s) layout = Done (h, m, p) /\
       (p <> 0 -> p mod 8 = 0 /\ heap_start (hs_heap s) <= p /\
          p + l_size layout <= heap_end (hs_heap s) /\
          (forall q n, hs_live s !! q = Some n -> apart p (l_size layout) q n)) /\
       (forall q n a, hs_live s !! q = Some n -> q <= a < q + n -> m.[a] = (hs_mem s).[a])) /\
  (forall p n, hs_live s !! p = Some n ->
     exists h m, deallocate (hs_heap s) (hs_mem s) p = Done (h, m) /\
       (forall q k a, hs_live s !! q = Some k -> q <> p -> q <= a < q + k -> m.[a] = (hs_mem s).[a])).
Proof.
  intros Hf Hr. pose proof (heap_inv_reachable _ _ _ _ Hf Hr) as Hinv. split.
  - intros layout Hs Ha. pose proof Hinv as (ts & Hrep & Hl1 & _).
    destruct (heap_allocate_sim _ _ _ _ Hrep Hs Ha) as (h & m & p & Hal & H). exists h, m, p.
    split; [done|]. destruct (decide (p = 0)) as [->|Hp].
    + split; [done|]. destruct (spec_alloc layout ts) as [[b ts']|] eqn:Hsp; [|by destruct H as (_ & -> & ->)].
      pose proof (spec_alloc_pos _ _ _ _ _ _ Hrep Hsp). destruct H as [Hb _]. unfold HEADER_SIZE in Hb. lia.
    + destruct (heap_inv_alloc s layout h m p Hinv Hs Ha Hal Hp) as (Hn & (ts' & Hrep' & Hl' & _) & Hpay).
      destruct (spec_alloc layout ts) as [[b ts'']|]; [|by destruct H].
      destruct H as (_ & _ & Hst & Hen & _). simpl in *.
      destruct (Hl' p (l_size layout)) as (t & Ht & Htl & Htp & Hts); [by rewrite lookup_insert_eq|].
      pose proof (tiled_elem _ _ _ _ (hr_tiled _ _ _ Hrep') (hr_aligned _ _ _ Hrep') Ht) as Hte.
      split; [|done]. intros _. rewrite <-Hst, <-Hen. split_and!; try lia. intros q n Hq.
      destruct (Hl' q n) as (y & Hy & Hyl & Hyp & Hys); [rewrite lookup_insert_ne by congruence; done|].
      unfold apart. pose proof (tiled_elem _ _ _ _ (hr_tiled _ _ _ Hrep') (hr_aligned _ _ _ Hrep') Hy).
      destruct (tiled_disjoint _ _ _ _ _ (hr_tiled _ _ _ Hrep') (hr_aligned _ _ _ Hrep') Ht Hy)
        as [->|?]; [congruence|lia].
  - intros p n Hp. destruct (heap_inv_dealloc s p n Hinv Hp) as (h & m & Hd & _ & Hpay). eauto.
Qed.

Definition demo_sys : heap_sys := mkSys demo_heap ((demo_mem).[0x1004 <- 0]) ∅.

Lemma demo_fresh : fresh_heap 0x1000 64 demo_sys.
Proof.
  split_and!; try done. exists empty, ∅. vm_compute. reflexivity.
Qed.

Lemma heap_isolation_witness :
  exists h m, allocate demo_heap ((demo_mem).[0x1004 <- 0]) (mkLayout 8 4) = Done (h, m, 0x1008).
Proof.
  destruct (heap_isolation 0x1000 64 demo_sys demo_sys demo_fresh (rtc_refl _ _)) as [Hal _].
  destruct (Hal (mkLayout 8 4) ltac:(simpl; lia) ltac:(vm_compute; reflexivity)) as (h & m & p & He & _).
  exists h, m. simpl in He. rewrite He. vm_compute in He. injection He as _ _ <-. reflexivity.
Defined.

(** C28: No permanent fragmentation. Whenever clients have given everything
    back, the heap is a single hole again and no byte is in use. Every request
    of non-zero size and alignment at most 8 whose block (the size rounded up
    to 8, plus the header) fits the whole heap then succeeds, at the heap's
    first block, as long as the allocation counter is below [u32::MAX]. *)
Theorem heap_recovers (start size : Z) (s0 s : heap_sys) :
  fresh_heap start size s0 -> rtc heap_step s0 s -> hs_live s = ∅ ->
  used (hs_heap s) = 0 /\
  heap_rep (hs_heap s) (hs_mem s)
    (one_hole (heap_start (hs_heap s)) (heap_end (hs_heap s) - heap_start (hs_heap s))) /\
  (forall layout, 0 < l_size layout -> l_align layout <= 8 -> allocations (hs_heap s) < U32_MAX ->
     l_size layout + 15 <= U32_MAX ->
     block_size (l_size layout) <= heap_end (hs_heap s) - heap_start (hs_heap s) ->
     exists h m, allocate (hs_heap s) (hs_mem s) layout = Done (h, m, heap_start (hs_heap s) + 8)).
Proof.
  intros Hf Hr Hl. destruct (heap_inv_reachable _ _ _ _ Hf Hr) as (ts & Hrep & _ & Hl2).
  assert (ts = one_hole (heap_start (hs_heap s)) (heap_end (hs_heap s) - heap_start (hs_heap s))) as ->.
  { apply all_free_one_hole; try apply Hrep. apply Forall_forall. intros t Ht. unfold is_free.
    destruct (t_live t) eqn:Htl; [|done]. specialize (Hl2 t Ht Htl). rewrite Hl, lookup_empty in Hl2.
    by destruct Hl2. }
  split_and!; [by rewrite (hr_used _ _ _ Hrep)|done|]. intros layout Hs Hal Ha Hov Hfit.
  destruct (heap_allocate_sim _ _ _ layout Hrep ltac:(lia) Ha) as (h & m & p & He & H). exists h, m.
  rewrite He. unfold spec_alloc in H.
  destruct (Z.eqb_spec (l_size layout) 0); [lia|]. destruct (Z.ltb_spec 8 (l_align layout)); [lia|].
  destruct (Z.ltb_spec U32_MAX (l_size layout + 15)); [lia|]. simpl in H.
  rewrite (proj2 (Z.leb_le _ _) Hfit) in H. by destruct H as (-> & _).
Qed.

Lemma heap_recovers_witness :
  exists h m, allocate demo_heap ((demo_mem).[0x1004 <- 0]) (mkLayout 56 8) = Done (h, m, 0x1008).
Proof.
  destruct (heap_recovers 0x1000 64 demo_sys demo_sys demo_fresh (rtc_refl _ _) eq_refl) as (_ & _ & Hal).
  exact (Hal (mkLayout 56 8) ltac:(simpl; lia) ltac:(simpl; lia) ltac:(vm_compute; reflexivity)
    ltac:(vm_compute; discriminate) ltac:(vm_compute; discriminate)).
Defined.

(** ** [heap::init] *)

Import Frame Pool FrameFacts.

(** The addition [start + size] of [Heap::init] overflows when the run ends at
    4 GiB. *)
Lemma heap_init_overflows h m start :
  start = 2 ^ 32 - HEAP_SIZE -> heap_init h m start HEAP_SIZE = Panicked.
Proof. by intros ->. Qed.

(** Both ways [heap::init] can end, by where the run it is given ends. *)
Lemma heap_init_cases (fa : FrameAllocator) (m : mem) (p : pool) (h : Heap) :
  represents fa m p -> 0 ∉ p_all p ->
  (exists f fa', allocate_contiguous fa (Z.to_nat HEAP_FRAMES) = Done (fa', Some f) /\
     index f + HEAP_FRAMES = MAX_FRAME_INDEX /\ MAX_FRAME_INDEX - 1 ∈ p_all p /\
     Heap.init fa h m = Panicked) \/
  exists fa' h' m' r, Heap.init fa h m = Done (fa', h', m', r) /\
    if r_ready r then
      exists f, r_start r = index f * FRAME_SIZE /\ r_size r = HEAP_SIZE /\
        candidate (Z.to_nat HEAP_FRAMES) fa (index f) /\
        heap_rep h' m' (one_hole (r_start r) HEAP_SIZE) /\ heap_start h' = r_start r /\
        heap_end h' = r_start r + HEAP_SIZE /\ allocations h' = 0 /\
        represents fa' m' (mkPool (p_all p) (p_stack p) (fresh fa')) /\
        (forall i, index f <= i < index f + HEAP_FRAMES -> i ∈ p_fresh p /\ i ∉ p_stack p ++ fresh fa') /\
        (forall i, i ∈ fresh fa' -> i ∈ p_fresh p) /\
        (forall a, a < r_start r \/ r_start r + HEAP_SIZE <= a -> m'.[a] = m.[a])
    else h' = h /\ m' = m /\ (forall x, ~ candidate (Z.to_nat HEAP_FRAMES) fa x).
Proof.
  intros Hrep H0. unfold Heap.init.
  destruct (contiguous_returns fa (Z.to_nat HEAP_FRAMES) (rp_wf _ _ _ Hrep)) as (fa' & [f|] & Hal);
    rewrite Hal; cbn [mbind outcome_bind]; last first.
  { right. eexists _, _, _, _. split; [done|]. simpl. split_and!; try done.
    destruct (contiguous_sim_none _ _ _ _ _ Hrep Hal) as (_ & _ & Hn & _). by apply Hn. }
  destruct (contiguous_sim _ _ _ _ _ _ Hrep Hal) as (Hcand & _ & _ & sk & Hf & Hrep').
  change (Z.to_nat HEAP_FRAMES) with 256%nat in *.
  pose proof (NoDup_avail _ _ _ Hrep) as Hnd. unfold avail in Hnd.
  assert (forall i, index f <= i < index f + 256 -> i ∈ p_fresh p) as Hin.
  { intros i Hi. rewrite Hf, !elem_of_app, elem_of_zrange. right. left. lia. }
  assert (forall i, index f <= i < index f + 256 -> i ∉ p_stack p ++ fresh fa') as Hgone.
  { intros i Hi. rewrite elem_of_app. apply NoDup_app in Hnd as (_ & Hd & Hnd).
    rewrite Hf in Hnd. apply NoDup_app in Hnd as (_ & _ & Hnd). apply NoDup_app in Hnd as (_ & Hd' & _).
    intros [His|Hif]; [by apply (Hd i His), Hin|]. apply (Hd' i); [apply elem_of_zrange; lia|done]. }
  assert (forall i, i ∈ p_fresh p -> i ∈ p_all p /\ 0 < i < MAX_FRAME_INDEX) as Hb.
  { intros i Hi. assert (i ∈ p_all p) as Hia.
    { apply (avail_managed fa m p i Hrep). apply elem_of_app. by right. }
    split; [done|]. pose proof Hia as Hm. rewrite (rp_all _ _ _ Hrep) in Hm.
    pose proof (managed_bounds _ _ (rp_wf _ _ _ Hrep) Hm).
    assert (i <> 0) by (intros ->; done). lia. }
  destruct (Hb _ (Hin (index f) ltac:(lia))) as [_ Hlo].
  destruct (Hb _ (Hin (index f + 255) ltac:(lia))) as [Htop Hhi].
  assert (start_address f = index f * 4096) as Hst by (apply link_of_eq; lia).
  change MAX_FRAME_INDEX with 1048576 in *.
  destruct (decide (index f + 255 = 1048575)) as [Heq|Hne].
  { left. exists f, fa'. split_and!; [done|change HEAP_FRAMES with 256; lia|by replace (1048576 - 1) with (index f + 255) by lia|].
    rewrite heap_init_overflows; [done|]. rewrite Hst. change HEAP_SIZE with 1048576. lia. }
  right. rewrite Hst. change HEAP_SIZE with 1048576.
  destruct (heap_init_ok h m (index f * 4096) 1048576) as (h' & m' & Hi & Hr & Hhs & Hhe & Hha & Hout);
    [lia|lia|lia|done|change U32_MAX with 4294967295; lia|].
  rewrite Hi. cbn [mbind outcome_bind]. eexists _, _, _, _. split; [done|]. simpl.
  exists f. split_and!; try done; [|intros i Hi'; split; [apply Hin|apply Hgone]; exact Hi'|];
    [|intros i Hi'; rewrite Hf, !elem_of_app; tauto].
  destruct Hrep' as [R1 R2 R3 R4 R5 R6 R7]. split; try done.
  apply chain_agree with m; [|exact R4]. intros i His. apply Hout.
  pose proof (chain_bounds _ _ _ _ R4 His) as Hbi. rewrite link_of_eq by done.
  assert (~ (index f <= i < index f + 256)); [|lia].
  intros Hc. apply (Hgone i Hc). apply elem_of_app. by left.
Qed.

(** A pool without the last frame below 4 GiB never meets the overflow. *)
Lemma heap_init_run (fa : FrameAllocator) (m : mem) (p : pool) (h : Heap) :
  represents fa m p -> 0 ∉ p_all p -> MAX_FRAME_INDEX - 1 ∉ p_all p ->
  exists fa' h' m' r, Heap.init fa h m = Done (fa', h', m', r) /\
    if r_ready r then
      exists f, r_start r = index f * FRAME_SIZE /\ r_size r = HEAP_SIZE /\
        candidate (Z.to_nat HEAP_FRAMES) fa (index f) /\
        heap_rep h' m' (one_hole (r_start r) HEAP_SIZE) /\ heap_start h' = r_start r /\
        heap_end h' = r_start r + HEAP_SIZE /\ allocations h' = 0 /\
        represents fa' m' (mkPool (p_all p) (p_stack p) (fresh fa')) /\
        (forall i, index f <= i < index f + HEAP_FRAMES -> i ∈ p_fresh p /\ i ∉ p_stack p ++ fresh fa') /\
        (forall i, i ∈ fresh fa' -> i ∈ p_fresh p) /\
        (forall a, a < r_start r \/ r_start r + HEAP_SIZE <= a -> m'.[a] = m.[a])
    else h' = h /\ m' = m /\ (forall x, ~ candidate (Z.to_nat HEAP_FRAMES) fa x).
Proof.
  intros Hrep H0 Htop. destruct (heap_init_cases fa m p h Hrep H0) as [(? & ? & _ & _ & Hin & _)|H]; [done|exact H].
Qed.

(** C29: [heap::init] claims its run, from any allocator state whose pool does
    not hold frame 0 (which [FrameAllocator::new] reserves with the BIOS area).
    When the run it is given ends at 4 GiB - possible only if the pool holds
    the last frame below 4 GiB - the addition [start + size] overflows and the
    kernel panics. Otherwise it returns: either no run of 256 frames is left,
    the report says FAILED and heap and memory are untouched; or the heap is
    one hole covering exactly a run of frames that were all still unused,
    those frames have left the pool, and the frame allocator's free list is
    intact. *)
Theorem heap_init_claims_run (fa : FrameAllocator) (m : mem) (p : pool) (h : Heap) :
  represents fa m p -> 0 ∉ p_all p ->
  (exists f fa', allocate_contiguous fa (Z.to_nat HEAP_FRAMES) = Done (fa', Some f) /\
     index f + HEAP_FRAMES = MAX_FRAME_INDEX /\ MAX_FRAME_INDEX - 1 ∈ p_all p /\
     Heap.init fa h m = Panicked) \/
  exists fa' h' m' r, Heap.init fa h m = Done (fa', h', m', r) /\
    if r_ready r then
      exists f, r_start r = index f * FRAME_SIZE /\ r_size r = HEAP_SIZE /\
        candidate (Z.to_nat HEAP_FRAMES) fa (index f) /\
        heap_rep h' m' (one_hole (r_start r) HEAP_SIZE) /\ heap_start h' = r_start r /\
        heap_end h' = r_start r + HEAP_SIZE /\ allocations h' = 0 /\
        represents fa' m' (mkPool (p_all p) (p_stack p) (fresh fa')) /\
        (forall i, index f <= i < index f + HEAP_FRAMES -> i ∈ p_fresh p /\ i ∉ p_stack p ++ fresh fa') /\
        (forall i, i ∈ fresh fa' -> i ∈ p_fresh p) /\
        (forall a, a < r_start r \/ r_start r + HEAP_SIZE <= a -> m'.[a] = m.[a])
    else h' = h /\ m' = m /\ (forall x, ~ candidate (Z.to_nat HEAP_FRAMES) fa x).
Proof. apply heap_init_cases. Qed.

(** A machine with 2 MiB above 1 MiB. *)
Definition heap_map : MemMap.Map.MemoryMap := {|
  MemMap.Map.regions_buf := [MemMap.Map.mkRegion 0x100000 0x200000 MemMap.Map.Usable];
  MemMap.Map.len := 1; MemMap.Map.reported := 1; MemMap.Map.available := true |}.

Lemma heap_map_ok : FrameNew.NewFacts.map_ok heap_map.
Proof.
  split; [vm_compute; lia|repeat constructor; vm_compute; done|].
  intros [|j] [|k] r s b Hr Hs _ _; simplify_eq/=; done.
Qed.

Definition heap_pool : pool :=
  let a := new FrameSpec.FrameSpec.demo_image heap_map in mkPool (managed a) [] (managed a).

(** A machine whose BIOS reports the last MiB below 4 GiB as usable. *)
Definition top_map : MemMap.Map.MemoryMap := {|
  MemMap.Map.regions_buf := [MemMap.Map.mkRegion (2 ^ 32 - 0x100000) 0x100000 MemMap.Map.Usable];
  MemMap.Map.len := 1; MemMap.Map.reported := 1; MemMap.Map.available := true |}.

(** There the kernel panics while it claims its heap. *)
Lemma top_heap_panics : Heap.init (new FrameSpec.FrameSpec.demo_image top_map) Heap.empty ∅ = Panicked.
Proof. vm_compute. reflexivity. Qed.

Lemma heap_init_claims_run_witness :
  exists fa' h' m' r,
    Heap.init (new FrameSpec.FrameSpec.demo_image heap_map) Heap.empty ∅ = Done (fa', h', m', r) /\
    Heap.Report_fmt r = "Heap: 0x00100000-0x00200000 (1024 KiB), free-list allocator ready".
Proof.
  destruct (heap_init_claims_run (new FrameSpec.FrameSpec.demo_image heap_map) ∅ heap_pool Heap.empty
    (proj1 (FrameNew.NewFacts.new_represents FrameSpec.FrameSpec.demo_image heap_map ∅ heap_map_ok))
    ltac:(apply (bool_decide_unpack _); vm_compute; exact I)) as [(f & fa' & _ & _ & Hin & _)|(fa' & h' & m' & r & He & _)].
  { exfalso. apply (bool_decide_pack _) in Hin. vm_compute in Hin. exact Hin. }
  exists fa', h', m', r. split; [exact He|]. vm_compute in He. injection He as _ _ _ <-.
  vm_compute. reflexivity.
Defined.

End HeapSpec.
