(* ===== verification/Vec.v ===== *)
(** * Growing byte vectors on the kernel heap

    [Vec<u8>] of the [alloc] crate, as far as [heap::self_test] uses it: the
    buffer is a block of the global allocator, grown by doubling, and growing
    is [GlobalAlloc::realloc]'s default - allocate, copy, free. Bytes live in
    the words of memory. *)

From S2P Require Import Prelude.
From S2P Require Import Heap.
From S2P Require Import HeapTiles.
From S2P Require Import HeapFacts.
From S2P Require Import HeapFrame.
#[local] Open Scope Z_scope.
#[local] Ltac Zify.zify_post_hook ::= Z.to_euclidean_division_equations.

(** ** Bytes of memory *)
Module Bytes.

Definition word (a : Z) : Z := a / 4 * 4.
Definition place (a : Z) : Z := 2 ^ (8 * (a mod 4)).

(** Little-endian: byte [a mod 4] of the word at [word a]. *)
Definition load_u8 (m : mem) (a : Z) : Z := m.[word a] / place a mod 256.
Definition store_u8 (m : mem) (a v : Z) : mem :=
  m.[word a <- m.[word a] + (v - load_u8 m a) * place a].

(** [copy_nonoverlapping(src, dst, n)] *)
Definition copy (m : mem) (src dst n : Z) : mem :=
  fold_left (fun m i => store_u8 m (dst + i) (load_u8 m (src + i))) (range_list 0 n) m.

Lemma place_cases a : (a mod 4 = 0 /\ place a = 1) \/ (a mod 4 = 1 /\ place a = 256) \/
  (a mod 4 = 2 /\ place a = 65536) \/ (a mod 4 = 3 /\ place a = 16777216).
Proof.
  assert (a mod 4 = 0 \/ a mod 4 = 1 \/ a mod 4 = 2 \/ a mod 4 = 3) as [H|[H|[H|H]]] by lia;
    unfold place; rewrite H; tauto.
Qed.

Lemma load_store_u8 m a v : 0 <= v < 256 -> load_u8 (store_u8 m a v) a = v.
Proof.
  intros Hv. unfold store_u8. unfold load_u8 at 1. rewrite load_store_eq. unfold load_u8.
  destruct (place_cases a) as [[_ ->]|[[_ ->]|[[_ ->]|[_ ->]]]]; lia.
Qed.

Lemma load_store_u8_ne m a b v : a <> b -> 0 <= v < 256 -> load_u8 (store_u8 m a v) b = load_u8 m b.
Proof.
  intros Hne Hv. unfold store_u8. unfold load_u8 at 1.
  destruct (decide (word a = word b)) as [He|Hw]; [|by rewrite load_store_ne].
  rewrite He, load_store_eq. unfold load_u8. rewrite He. unfold word in He.
  destruct (place_cases a) as [[Ha ->]|[[Ha ->]|[[Ha ->]|[Ha ->]]]];
    destruct (place_cases b) as [[Hb ->]|[[Hb ->]|[[Hb ->]|[Hb ->]]]]; lia.
Qed.

Lemma store_u8_word m a v x : x <> word a -> (store_u8 m a v).[x] = m.[x].
Proof. intros H. unfold store_u8. by rewrite load_store_ne. Qed.

Lemma load_u8_agree m m' a : m'.[word a] = m.[word a] -> load_u8 m' a = load_u8 m a.
Proof. unfold load_u8. by intros ->. Qed.

Lemma load_u8_range m a : 0 <= load_u8 m a < 256.
Proof. unfold load_u8. lia. Qed.

(** Copying between byte ranges that do not meet. *)
Lemma copy_spec m src dst n : 0 <= n -> src + n <= dst \/ dst + n <= src ->
  (forall i, 0 <= i < n -> load_u8 (copy m src dst n) (dst + i) = load_u8 m (src + i)) /\
  (forall b, b < dst \/ dst + n <= b -> load_u8 (copy m src dst n) b = load_u8 m b) /\
  (forall x, x < word dst \/ dst + n <= x -> (copy m src dst n).[x] = m.[x]).
Proof.
  intros Hn Hd. unfold copy.
  assert (forall k, 0 <= k <= n -> let m' := fold_left (fun m i => store_u8 m (dst + i) (load_u8 m (src + i))) (range_list 0 k) m in
    (forall i, 0 <= i < k -> load_u8 m' (dst + i) = load_u8 m (src + i)) /\
    (forall b, b < dst \/ dst + k <= b -> load_u8 m' b = load_u8 m b) /\
    (forall x, x < word dst \/ dst + k <= x -> m'.[x] = m.[x])) as Hall.
  { intros k [Hk0 Hkn]. revert Hkn. pattern k. apply natlike_ind; [| |exact Hk0].
    - intros _. rewrite range_list_nil by lia. split_and!; [intros; lia|done|done].
    - clear k Hk0. intros k Hk IH Hkn. destruct IH as (H1 & H2 & H3); [lia|].
      rewrite (range_list_app 0 k (Z.succ k)) by lia. rewrite (range_list_cons k), (range_list_nil (k + 1)) by lia.
      rewrite fold_left_app. cbn [fold_left]. set (m' := fold_left _ (range_list 0 k) m) in *.
      pose proof (load_u8_range m' (src + k)) as Hr. split_and!.
      + intros i Hi. destruct (decide (i = k)) as [->|Hne].
        * rewrite load_store_u8 by done. apply H2. lia.
        * rewrite load_store_u8_ne by lia. apply H1. lia.
      + intros b Hb. rewrite load_store_u8_ne by lia. apply H2. lia.
      + intros x Hx. rewrite store_u8_word by (unfold word in *; lia). apply H3. lia. }
  apply (Hall n). lia.
Qed.

End Bytes.

(** ** [Vec<u8>] *)
Module Vec.
Import Heap Bytes.

Record Vec := mkVec { ptr : Z; cap : Z; len : Z }.

(** [Vec::new]: no buffer yet, a dangling pointer. *)
Definition new : Vec := mkVec 1 0 0.

(** The smallest buffer the crate allocates for one-byte elements, and the
    largest ([isize::MAX]). *)
Definition MIN_NON_ZERO_CAP : Z := 8.
Definition ISIZE_MAX : Z := 2 ^ 31 - 1.

(** [GlobalAlloc::realloc] as the trait provides it. *)
Definition realloc (h : Heap) (m : mem) (ptr old_size new_size : Z) : outcome (Heap * mem * Z) :=
  '(h, m, p) ← allocate h m (mkLayout new_size 1);
  if p =? 0 then Done (h, m, 0)
  else
    let m := copy m ptr p (Z.min old_size new_size) in
    '(h, m) ← deallocate h m ptr;
    Done (h, m, p).

(** [RawVec::grow_amortized]; a null answer is [handle_alloc_error]. *)
Definition grow_amortized (h : Heap) (m : mem) (v : Vec) (additional : Z) : outcome (Heap * mem * Vec) :=
  required ← add_u32 (len v) additional;
  let c := Z.max MIN_NON_ZERO_CAP (Z.max (cap v * 2) required) in
  if ISIZE_MAX <? c then Panicked
  else
    '(h, m, p) ← (if cap v =? 0 then allocate h m (mkLayout c 1) else realloc h m (ptr v) (cap v) c);
    if p =? 0 then Panicked else Done (h, m, mkVec p c (len v)).

Definition push (h : Heap) (m : mem) (v : Vec) (b : Z) : outcome (Heap * mem * Vec) :=
  '(h, m, v) ← (if len v =? cap v then grow_amortized h m v 1 else Done (h, m, v));
  Done (h, store_u8 m (ptr v + len v) b, mkVec (ptr v) (cap v) (len v + 1)).

Definition resize (h : Heap) (m : mem) (v : Vec) (new_len b : Z) : outcome (Heap * mem * Vec) :=
  if len v <? new_len then
    let n := new_len - len v in
    '(h, m, v) ← (if cap v - len v <? n then grow_amortized h m v n else Done (h, m, v));
    let m := fold_left (fun m i => store_u8 m (ptr v + i) b) (range_list (len v) new_len) m in
    Done (h, m, mkVec (ptr v) (cap v) new_len)
  else Done (h, m, mkVec (ptr v) (cap v) new_len).

(** The elements, read through the buffer. *)
Definition contents (m : mem) (v : Vec) : list Z := (fun i => load_u8 m (ptr v + i)) <$> range_list 0 (len v).

Definition drop (h : Heap) (m : mem) (v : Vec) : outcome (Heap * mem) :=
  if cap v =? 0 then Done (h, m) else deallocate h m (ptr v).

End Vec.
