(* ===== verification/VecFacts.v ===== *)
(** * A vector keeps its bytes

    [vec_rep]: the heap still has the live blocks it started with and, once the
    vector has a buffer, exactly one more, which holds the vector's bytes.
    Growing, pushing and resizing keep that; dropping returns the buffer. *)

From S2P Require Import Prelude.
From S2P Require Import Heap.
From S2P Require Import HeapTiles.
From S2P Require Import HeapFacts.
From S2P Require Import HeapFrame.
From S2P Require Import Vec.
#[local] Open Scope Z_scope.
#[local] Ltac Zify.zify_post_hook ::= Z.to_euclidean_division_equations.

Module VecFacts.
Import Heap Tiles HeapFacts HeapFrame Bytes Vec.

Lemma foreign_same h ts h' ts' a : same_live ts ts' -> heap_start h = heap_start h' -> heap_end h = heap_end h' ->
  foreign h ts a <-> foreign h' ts' a.
Proof.
  intros Hs H1 H2. unfold foreign, outside. rewrite H1, H2.
  assert (payload ts a <-> payload ts' a) as Hp; [|tauto].
  split; intros (y & Hy & Hl & Ha); exists y; (split; [by apply Hs|done]).
Qed.

(** Bytes of a block are in words of that block. *)
Lemma word_inside h m ts t a : heap_rep h m ts -> t ∈ ts -> t_addr t + 8 <= a < t_addr t + t_size t ->
  t_addr t + 8 <= word a < t_addr t + t_size t.
Proof.
  intros Hrep Ht Ha. pose proof (tiled_elem _ _ _ _ (hr_tiled _ _ _ Hrep) (hr_aligned _ _ _ Hrep) Ht). unfold word. lia.
Qed.

Lemma contents_ext m v m' v' : len v' = len v ->
  (forall i, 0 <= i < len v -> load_u8 m' (ptr v' + i) = load_u8 m (ptr v + i)) -> contents m' v' = contents m v.
Proof.
  intros Hl He. unfold contents. rewrite Hl. apply list_fmap_ext. intros k i Hi.
  apply He, elem_of_range_list. by eapply list_elem_of_lookup_2.
Qed.

Section vec.
Context (h0 : Heap) (m0 : mem) (ts0 : list tile).

(** The block [t] of the row is the vector's buffer. *)
Record buffer (h : Heap) (ts : list tile) (v : Vec) (pre : list tile) (t : tile) (post : list tile) : Prop := {
  bf_row : ts = pre ++ t :: post;
  bf_live : t_live t = true;
  bf_ptr : ptr v = t_addr t + 8;
  bf_cap : cap v + 8 <= t_size t;
  bf_others : same_live (pre ++ post) ts0;
  bf_used : used h = used h0 + t_size t
}.

Definition owner (h : Heap) (ts : list tile) (v : Vec) : Prop :=
  if cap v =? 0 then same_live ts ts0 /\ used h = used h0 else exists pre t post, buffer h ts v pre t post.

(** [R] bytes of room and [k] allocations are left. *)
Record vec_rep (R k : Z) (h : Heap) (m : mem) (v : Vec) (bytes : list Z) (ts : list tile) : Prop := {
  vr_heap : heap_rep h m ts;
  vr_start : heap_start h = heap_start h0;
  vr_end : heap_end h = heap_end h0;
  vr_room : room R ts;
  vr_allocs : allocations h + k <= U32_MAX;
  vr_kept : forall a, foreign h0 ts0 a -> m.[a] = m0.[a];
  vr_len : len v = Z.of_nat (length bytes);
  vr_cap : len v <= cap v;
  vr_bytes : contents m v = bytes;
  vr_owner : owner h ts v
}.

(** A foreign word is not a word of the buffer. *)
Lemma foreign_not_mine R k h m v bytes ts pre t post a :
  vec_rep R k h m v bytes ts -> buffer h ts v pre t post -> foreign h0 ts0 a ->
  a < t_addr t + 8 \/ t_addr t + t_size t <= a.
Proof.
  intros [Hrep Hst Hen _ _ _ _ _ _ _] [-> Hl _ _ Hs _] Hf.
  apply (foreign_same h (pre ++ post) h0 ts0 a Hs Hst Hen) in Hf.
  destruct (tiled_around _ _ _ _ _ (hr_tiled _ _ _ Hrep) (hr_aligned _ _ _ Hrep)) as (Hpre & Hpost & _ & Hts & _ & Hlo & Hhi).
  destruct Hf as [(y & [Hy|Hy]%elem_of_app & _ & Ha)|Ho]; [specialize (Hpre y Hy); lia|specialize (Hpost y Hy); lia|].
  unfold outside in Ho. lia.
Qed.

(** Whatever is done to the words of the buffer. *)
Lemma vec_rep_write R k h m m' v bytes ts pre t post n bytes' :
  vec_rep R k h m v bytes ts -> buffer h ts v pre t post -> 0 < cap v ->
  n <= cap v -> n = Z.of_nat (length bytes') ->
  (forall x, x < t_addr t + 8 \/ t_addr t + t_size t <= x -> m'.[x] = m.[x]) ->
  contents m' (mkVec (ptr v) (cap v) n) = bytes' ->
  vec_rep R k h m' (mkVec (ptr v) (cap v) n) bytes' ts.
Proof.
  intros Hv Hb Hc Hn Hl Hm Hct. pose proof Hv as [Hrep Hst Hen Hr Ha Hk _ _ _ _]. split; try done.
  - apply (heap_rep_agree h m m' ts t); try done; [|apply Hb]. rewrite (bf_row _ _ _ _ _ _ Hb).
    apply elem_of_app. right. apply list_elem_of_here.
  - intros a Hf. rewrite Hm; [by apply Hk|]. by eapply foreign_not_mine.
  - unfold owner. cbn [cap]. destruct (Z.eqb_spec (cap v) 0); [lia|]. exists pre, t, post. by destruct Hb.
Qed.

(** ** Growing *)

Lemma first_buffer R k h m v bytes ts c :
  vec_rep (c + 16 + R) (k + 1) h m v bytes ts -> 0 <= k -> cap v = 0 -> 8 <= R -> 0 < c <= ISIZE_MAX ->
  exists h' m' p ts', allocate h m (mkLayout c 1) = Done (h', m', p) /\ 0 < p /\
    vec_rep R k h' m' (mkVec p c (len v)) bytes ts'.
Proof.
  intros [Hrep Hst Hen Hr Ha Hk Hl Hcap Hct Hown] Hk0 Hc HR Hc0. unfold owner in Hown. rewrite Hc, Z.eqb_refl in Hown.
  destruct Hown as [Hs Hu]. assert (bytes = []) as ->.
  { apply nil_length_inv. rewrite Hc in Hcap. lia. }
  destruct (allocate_client h m ts c R Hrep) as (h' & m' & pre & t & post & Hal & Hrep' & Htl & Hts & Hsl & Hu' & Ha' & Hr' & Hst' & Hen' & Hf);
    [lia|unfold ISIZE_MAX, U32_MAX in *; lia|lia|done|lia|].
  pose proof (tiled_around _ _ _ _ _ (hr_tiled _ _ _ Hrep') (hr_aligned _ _ _ Hrep')) as (_ & _ & _ & _ & _ & Hlo & _).
  pose proof (hr_start _ _ _ Hrep').
  exists h', m', (t_addr t + 8), (pre ++ t :: post). split; [exact Hal|]. split; [lia|]. cbn [length] in Hl.
  split; cbn [len cap ptr]; try done; try congruence; try lia.
  - intros a Hfa. rewrite Hf; [by apply Hk|]. by apply (foreign_same h ts h0 ts0 a Hs Hst Hen).
  - unfold contents. cbn [len]. by rewrite range_list_nil by lia.
  - unfold owner. cbn [cap]. destruct (Z.eqb_spec c 0); [lia|]. exists pre, t, post.
    split; cbn [ptr cap]; try done; try lia. intros y Hy. rewrite (Hsl y Hy). by apply Hs.
Qed.

(** One block more, one block less. *)
Lemma move_live lo hi pre t post pre1 t1 post1 pre2 post2 pre3 post3 ts' :
  lo mod 8 = 0 -> tiled lo hi (pre ++ t :: post) -> tiled lo hi (pre1 ++ t1 :: post1) -> tiled lo hi (pre3 ++ t1 :: post3) ->
  t_live t = true -> same_live (pre1 ++ post1) (pre ++ t :: post) ->
  pre1 ++ t1 :: post1 = pre2 ++ t :: post2 -> same_live ts' (pre2 ++ post2) -> ts' = pre3 ++ t1 :: post3 ->
  same_live (pre3 ++ post3) (pre ++ post).
Proof.
  intros Hlo Ht Ht1 Ht3 Hl H1 He H2 -> y Hy.
  rewrite (others _ _ _ _ _ y Ht3 Hlo), (H2 y Hy), (others _ _ _ _ _ y Ht Hlo), <-(H1 y Hy), (others _ _ _ _ _ y Ht1 Hlo).
  rewrite He in *. rewrite (others _ _ _ _ _ y Ht1 Hlo). tauto.
Qed.

Lemma foreign_step h pre t post pre1 t1 post1 pre2 post2 a :
  heap_start h mod 8 = 0 -> tiled (heap_start h) (heap_end h) (pre ++ t :: post) ->
  tiled (heap_start h) (heap_end h) (pre1 ++ t1 :: post1) ->
  same_live (pre1 ++ post1) (pre ++ t :: post) -> pre1 ++ t1 :: post1 = pre2 ++ t :: post2 ->
  foreign h (pre ++ post) a ->
  foreign h (pre ++ t :: post) a /\ foreign h (pre2 ++ post2) a /\ (a < t_addr t1 + 8 \/ t_addr t1 + t_size t1 <= a).
Proof.
  intros Hlo Ht Ht1 Hsl He Hf. pose proof Ht1 as Ht2. rewrite He in Ht2.
  assert (t1 ∈ pre1 ++ t1 :: post1) as Hin11 by (apply elem_of_app; right; apply list_elem_of_here).
  destruct Hf as [(y & Hy & Hyl & Hya)|Ho].
  - apply (others _ _ _ _ _ y Ht Hlo) in Hy as [Hy Hny]. pose proof (proj2 (Hsl y Hyl) Hy) as Hy1.
    apply (others _ _ _ _ _ y Ht1 Hlo) in Hy1 as [Hy1 Hny1].
    assert (y ∈ pre2 ++ post2) as Hy2 by (apply (others _ _ _ _ _ y Ht2 Hlo); rewrite <-He; done).
    destruct (tiled_disjoint _ _ _ _ _ Ht1 Hlo Hy1 Hin11) as [|Hdis]; [congruence|].
    split_and!; [left; by exists y|left; by exists y|lia].
  - pose proof (tiled_elem _ _ _ _ Ht1 Hlo Hin11). unfold outside in Ho. split_and!; [by right|by right|lia].
Qed.

Lemma next_buffer R k h m v bytes ts c :
  vec_rep (c + 16 + R) (k + 1) h m v bytes ts -> 0 <= k -> 0 < cap v <= c -> 8 <= R -> c <= ISIZE_MAX ->
  exists h' m' p ts', realloc h m (ptr v) (cap v) c = Done (h', m', p) /\ 0 < p /\
    vec_rep R k h' m' (mkVec p c (len v)) bytes ts'.
Proof.
  intros Hv Hk0 Hc HR Hc0. pose proof Hv as [Hrep Hst Hen Hr Ha Hk Hl Hcap Hct Hown]. unfold owner in Hown.
  destruct (Z.eqb_spec (cap v) 0); [lia|]. destruct Hown as (pre & t & post & Hb). pose proof Hb as [-> Htl Hp Hts Hs Hu].
  destruct (allocate_client h m _ c R Hrep) as (h1 & m1 & pre1 & t1 & post1 & Hal & Hrep1 & Htl1 & Hts1 & Hsl1 & Hu1 & Ha1 & Hr1 & Hst1 & Hen1 & Hf1);
    [lia|unfold ISIZE_MAX, U32_MAX in *; lia|lia|done|lia|].
  pose proof (hr_aligned _ _ _ Hrep) as Hal8. pose proof (hr_tiled _ _ _ Hrep) as Ht. pose proof (hr_tiled _ _ _ Hrep1) as Ht1.
  rewrite Hst1, Hen1 in Ht1.
  assert (t ∈ pre1 ++ post1) as Hin by (apply Hsl1; [done|]; apply elem_of_app; right; apply list_elem_of_here).
  pose proof (proj1 (others _ _ _ _ _ t Ht1 Hal8) Hin) as [Hin1 Hne].
  assert (t1 ∈ pre1 ++ t1 :: post1) as Hin11 by (apply elem_of_app; right; apply list_elem_of_here).
  destruct (tiled_disjoint _ _ _ _ _ Ht1 Hal8 Hin1 Hin11) as [|Hdis]; [congruence|].
  pose proof (tiled_elem _ _ _ _ Ht1 Hal8 Hin1) as Hte. pose proof (tiled_elem _ _ _ _ Ht1 Hal8 Hin11) as Hte1.
  pose proof (hr_start _ _ _ Hrep) as H0.
  (* the copy *)
  destruct (copy_spec m1 (t_addr t + 8) (t_addr t1 + 8) (cap v) ltac:(lia) ltac:(lia)) as (Hcp1 & _ & Hcp3).
  set (m2 := copy m1 (t_addr t + 8) (t_addr t1 + 8) (cap v)) in *.
  assert (heap_rep h1 m2 (pre1 ++ t1 :: post1)) as Hrep2.
  { apply (heap_rep_agree h1 m1 m2 _ t1 Hrep1 Hin11 Htl1). intros x Hx. apply Hcp3. unfold word. lia. }
  apply list_elem_of_split in Hin1 as (pre2 & post2 & He). pose proof Hrep2 as Hrep2'. rewrite He in Hrep2'.
  destruct (deallocate_client h1 m2 pre2 t post2 Hrep2' Htl) as (h3 & m3 & ts3 & Hd & Hrep3 & Hsl3 & Hu3 & Ha3 & Hr3 & Hst3 & Hen3 & Hf3).
  pose proof Ht1 as Ht2. rewrite He in Ht2.
  assert (t1 ∈ pre2 ++ post2) as Hin2 by (apply (others _ _ _ _ _ t1 Ht2 Hal8); rewrite <-He; split; [done|congruence]).
  assert (t1 ∈ ts3) as Hin3 by (by apply Hsl3). apply list_elem_of_split in Hin3 as (pre3 & post3 & ->).
  exists h3, m3, (t_addr t1 + 8), (pre3 ++ t1 :: post3). unfold realloc. rewrite Hal. cbn [mbind outcome_bind].
  destruct (Z.eqb_spec (t_addr t1 + 8) 0); [lia|]. rewrite Hp, Z.min_l by lia. fold m2. rewrite Hd. cbn [mbind outcome_bind].
  split; [done|]. split; [lia|].
  assert (forall x, t_addr t1 + 8 <= x < t_addr t1 + t_size t1 -> m3.[x] = m2.[x]) as Hnew.
  { intros x Hx. apply Hf3. left. exists t1. split; [done|]. split; [done|lia]. }
  assert (forall x, t_addr t + 8 <= x < t_addr t + t_size t -> m1.[x] = m.[x]) as Hold.
  { intros x Hx. apply Hf1. left. exists t. split; [apply elem_of_app; right; apply list_elem_of_here|]. split; [done|lia]. }
  pose proof (hr_tiled _ _ _ Hrep3) as Ht3. rewrite Hst3, Hen3, Hst1, Hen1 in Ht3.
  split; cbn [len cap ptr]; try done; try congruence; try lia.
  - apply Hr3. by rewrite <-He.
  - intros a Hfa. rewrite <-(Hk a Hfa).
    apply (foreign_same h (pre ++ post) h0 ts0 a Hs Hst Hen) in Hfa.
    destruct (foreign_step h pre t post pre1 t1 post1 pre2 post2 a Hal8 Ht Ht1 Hsl1 He Hfa) as (Hf & Hf2 & Ha2).
    rewrite (Hf3 a), (Hcp3 a), (Hf1 a Hf); [done|unfold word; lia|].
    by apply (foreign_same h (pre2 ++ post2) h1 (pre2 ++ post2) a).
  - rewrite <-Hct. apply contents_ext; [done|]. cbn [ptr]. rewrite Hp. intros i Hi.
    rewrite (load_u8_agree m2 m3) by (apply Hnew, (word_inside _ _ _ _ _ Hrep1 Hin11); lia).
    rewrite (Hcp1 i) by lia. apply load_u8_agree, Hold. unfold word. lia.
  - unfold owner. cbn [cap]. destruct (Z.eqb_spec c 0); [lia|]. exists pre3, t1, post3.
    split; cbn [ptr cap]; try done; try lia. intros y Hy. rewrite <-(Hs y Hy). revert y Hy.
    by eapply (move_live _ _ pre t post pre1 t1 post1 pre2 post2 pre3 post3 _ Hal8 Ht Ht1 Ht3).
Qed.

Lemma grow_ok R k h m v bytes ts add :
  let c := Z.max 8 (Z.max (cap v * 2) (len v + add)) in
  vec_rep (c + 16 + R) (k + 1) h m v bytes ts -> 0 <= k -> 8 <= R -> c <= ISIZE_MAX ->
  exists h' m' p ts', grow_amortized h m v add = Done (h', m', mkVec p c (len v)) /\
    vec_rep R k h' m' (mkVec p c (len v)) bytes ts'.
Proof.
  intros c Hv Hk HR Hc. pose proof (vr_len _ _ _ _ _ _ _ Hv) as Hl. pose proof (vr_cap _ _ _ _ _ _ _ Hv) as Hcap.
  unfold grow_amortized, add_u32, MIN_NON_ZERO_CAP. fold c.
  destruct (Z.leb_spec (len v + add) U32_MAX); [|unfold U32_MAX, ISIZE_MAX in *; lia]. cbn [mbind outcome_bind]. fold c.
  destruct (Z.ltb_spec ISIZE_MAX c); [lia|]. destruct (Z.eqb_spec (cap v) 0) as [Hz|Hz].
  - destruct (first_buffer R k h m v bytes ts c Hv Hk Hz HR) as (h' & m' & p & ts' & -> & Hp & Hv'); [lia|].
    cbn [mbind outcome_bind]. destruct (Z.eqb_spec p 0); [lia|]. by exists h', m', p, ts'.
  - destruct (next_buffer R k h m v bytes ts c Hv Hk) as (h' & m' & p & ts' & -> & Hp & Hv'); [lia|lia|lia|].
    cbn [mbind outcome_bind]. destruct (Z.eqb_spec p 0); [lia|]. by exists h', m', p, ts'.
Qed.

(** ** Elements *)

Lemma contents_snoc m v b : 0 <= len v -> 0 <= b < 256 ->
  contents (store_u8 m (ptr v + len v) b) (mkVec (ptr v) (cap v) (len v + 1)) = contents m v ++ [b].
Proof.
  intros Hl Hb. unfold contents. cbn [len ptr]. rewrite (range_list_app 0 (len v) (len v + 1)) by lia.
  rewrite fmap_app, (range_list_cons (len v)), (range_list_nil (len v + 1)) by lia.
  cbn [fmap list_fmap]. rewrite load_store_u8 by done. f_equal. apply list_fmap_ext. intros k i Hi.
  apply load_store_u8_ne; [|done]. assert (i ∈ range_list 0 (len v)) as Hi' by (by eapply list_elem_of_lookup_2).
  apply elem_of_range_list in Hi'. lia.
Qed.

(** A push that finds room in the buffer. *)
Lemma store_ok R k h m v bytes ts b : vec_rep R k h m v bytes ts -> len v < cap v -> 0 <= b < 256 ->
  vec_rep R k h (store_u8 m (ptr v + len v) b) (mkVec (ptr v) (cap v) (len v + 1)) (bytes ++ [b]) ts.
Proof.
  intros Hv Hlt Hb. pose proof Hv as [Hrep _ _ _ _ _ Hl _ Hct Hown]. unfold owner in Hown.
  destruct (Z.eqb_spec (cap v) 0); [lia|]. destruct Hown as (pre & t & post & Hbf).
  pose proof Hbf as [Hts _ Hp Hcs _ _].
  apply (vec_rep_write _ _ _ m _ v bytes ts pre t post _ _ Hv Hbf); [lia|lia|rewrite length_app; cbn [length]; lia| |].
  - intros x Hx. apply store_u8_word. intros ->.
    assert (t ∈ ts) as Hin by (rewrite Hts; apply elem_of_app; right; apply list_elem_of_here).
    pose proof (word_inside _ _ _ _ (ptr v + len v) Hrep Hin). lia.
  - rewrite contents_snoc by lia. by rewrite Hct.
Qed.

Lemma push_ok R k h m v bytes ts b :
  vec_rep R k h m v bytes ts -> len v < cap v -> 0 <= b < 256 ->
  exists m', push h m v b = Done (h, m', mkVec (ptr v) (cap v) (len v + 1)) /\
    vec_rep R k h m' (mkVec (ptr v) (cap v) (len v + 1)) (bytes ++ [b]) ts.
Proof.
  intros Hv Hlt Hb. unfold push. destruct (Z.eqb_spec (len v) (cap v)); [lia|]. cbn [mbind outcome_bind].
  eexists. split; [done|]. by apply store_ok.
Qed.

Lemma push_grow_ok R k h m v bytes ts b :
  let c := Z.max 8 (Z.max (cap v * 2) (len v + 1)) in
  vec_rep (c + 16 + R) (k + 1) h m v bytes ts -> len v = cap v -> 0 <= b < 256 -> 0 <= k -> 8 <= R -> c <= ISIZE_MAX ->
  exists h' m' p ts', push h m v b = Done (h', m', mkVec p c (len v + 1)) /\
    vec_rep R k h' m' (mkVec p c (len v + 1)) (bytes ++ [b]) ts'.
Proof.
  intros c Hv He Hb Hk HR Hc. destruct (grow_ok R k h m v bytes ts 1 Hv Hk HR Hc) as (h' & m' & p & ts' & Hg & Hv').
  unfold push. rewrite (proj2 (Z.eqb_eq _ _) He), Hg. cbn [mbind outcome_bind ptr len cap].
  eexists h', _, p, ts'. split; [done|].
  apply (store_ok R k h' m' (mkVec p c (len v)) bytes ts' b Hv'); [|done]. cbn [len cap].
  pose proof (vr_len _ _ _ _ _ _ _ Hv). unfold c. lia.
Qed.

(** Filling up with one value. *)
Lemma fill_ok R k h m v bytes ts b n : vec_rep R k h m v bytes ts -> len v <= n <= cap v -> 0 <= b < 256 ->
  vec_rep R k h (fold_left (fun m i => store_u8 m (ptr v + i) b) (range_list (len v) n) m) (mkVec (ptr v) (cap v) n)
    (bytes ++ replicate (Z.to_nat (n - len v)) b) ts.
Proof.
  intros Hv Hn Hb. remember (Z.to_nat (n - len v)) as j eqn:Hj. revert m v bytes Hv Hn Hj.
  induction j as [|j IH]; intros m v bytes Hv Hn Hj.
  - rewrite range_list_nil by lia. cbn [fold_left replicate]. rewrite app_nil_r. replace n with (len v) by lia. by destruct v.
  - rewrite range_list_cons by lia. cbn [fold_left].
    pose proof (store_ok R k h m v bytes ts b Hv ltac:(lia) Hb) as Hv1.
    specialize (IH _ _ _ Hv1). cbn [ptr cap len] in IH. cbn [replicate]. rewrite <-app_assoc in IH. apply IH; lia.
Qed.

Lemma resize_grow_ok R k h m v bytes ts n b :
  let c := Z.max 8 (Z.max (cap v * 2) n) in
  vec_rep (c + 16 + R) (k + 1) h m v bytes ts -> cap v < n -> 0 <= b < 256 -> 0 <= k -> 8 <= R -> c <= ISIZE_MAX ->
  exists h' m' p ts', resize h m v n b = Done (h', m', mkVec p c n) /\
    vec_rep R k h' m' (mkVec p c n) (bytes ++ replicate (Z.to_nat (n - len v)) b) ts'.
Proof.
  intros c Hv Hn Hb Hk HR Hc. pose proof (vr_cap _ _ _ _ _ _ _ Hv) as Hcap.
  assert (c = Z.max 8 (Z.max (cap v * 2) (len v + (n - len v)))) as Hce by (unfold c; f_equal; lia).
  destruct (grow_ok R k h m v bytes ts (n - len v)) as (h' & m' & p & ts' & Hg & Hv'); rewrite <-?Hce; try done.
  unfold resize. destruct (Z.ltb_spec (len v) n); [|lia]. destruct (Z.ltb_spec (cap v - len v) (n - len v)); [|lia].
  rewrite Hg, <-Hce in *. cbn [mbind outcome_bind ptr len cap].
  eexists h', _, p, ts'. split; [done|].
  apply (fill_ok R k h' m' (mkVec p c (len v)) bytes ts' b n Hv'); [|done]. cbn [len cap]. unfold c. lia.
Qed.

(** Dropping the vector gives back what it took. *)
Lemma drop_ok R k h m v bytes ts : vec_rep R k h m v bytes ts ->
  exists h' m' ts', drop h m v = Done (h', m') /\ heap_rep h' m' ts' /\ same_live ts' ts0 /\ used h' = used h0 /\
    room R ts' /\ allocations h' + k <= U32_MAX /\ heap_start h' = heap_start h0 /\ heap_end h' = heap_end h0 /\
    (forall a, foreign h0 ts0 a -> m'.[a] = m0.[a]).
Proof.
  intros [Hrep Hst Hen Hr Ha Hk Hl Hcap Hct Hown]. unfold owner in Hown. unfold drop.
  destruct (Z.eqb_spec (cap v) 0); [destruct Hown; by exists h, m, ts|].
  destruct Hown as (pre & t & post & [-> Htl Hp Hc Hs Hu]). rewrite Hp.
  destruct (deallocate_client h m pre t post Hrep Htl) as (h' & m' & ts' & -> & Hrep' & Hsl & Hu' & Ha' & Hr' & Hst' & Hen' & Hf).
  exists h', m', ts'. split_and!; try done; try congruence; try lia.
  - intros y Hy. rewrite (Hsl y Hy). by apply Hs.
  - by apply Hr'.
  - intros a Hfa. rewrite Hf; [by apply Hk|]. by apply (foreign_same h (pre ++ post) h0 ts0 a Hs Hst Hen).
Qed.

End vec.

Lemma new_ok h m ts R k : heap_rep h m ts -> room R ts -> allocations h + k <= U32_MAX ->
  vec_rep h m ts R k h m new [] ts.
Proof. intros Hrep Hr Ha. split; try done. Qed.

End VecFacts.
