(* ===== verification/HeapTest.v ===== *)
(** * The heap's boot self-test ([memory/heap.rs], [self_test])

    The test on a vector of bytes, and that it passes on every heap with half a
    kilobyte of room - leaving the heap as it found it. *)

From S2P Require Import Prelude.
From S2P Require Import Fmt.
From S2P Require Import Heap.
From S2P Require Import HeapTiles.
From S2P Require Import HeapFacts.
From S2P Require Import HeapFrame.
From S2P Require Import HeapSpec.
From S2P Require Import Vec.
From S2P Require Import VecFacts.
#[local] Open Scope Z_scope.

Module HeapTest.
Import Heap Vec.

Definition SELF_TEST_BYTES : Z := 64.

Record SelfTest := mkSelfTest { pushed : Z; failure : option string }.

Definition SelfTest_fmt (t : SelfTest) : string :=
  match failure t with
  | Some reason => "Heap: SELF-TEST FAILED - " +:+ reason
  | None => "Heap: self-test ok - Vec pushed " +:+ Fmt.dec (pushed t) +:+ " bytes and read them back"
  end.

(** The push loop's body. *)
Definition push_next (i : Z) (s : Heap * mem * Vec * Z) : outcome (Heap * mem * Vec * Z) :=
  let '(h, m, v, pushed) := s in
  '(h, m, v) ← push h m v (as_u8 i);
  Done (h, m, v, pushed + 1).

(** Whether the bytes are the ones pushed, in order. *)
Definition in_order (bytes : list Z) : bool :=
  forallb id (imap (fun i b => b =? as_u8 (Z.of_nat i)) bytes).

(** Returning early drops the vector. *)
Definition fail_with (h : Heap) (m : mem) (v : Vec) (pushed : Z) (reason : string) : outcome (Heap * mem * SelfTest) :=
  '(h, m) ← Vec.drop h m v;
  Done (h, m, mkSelfTest pushed (Some reason)).

Definition self_test (h : Heap) (m : mem) : outcome (Heap * mem * SelfTest) :=
  if negb (is_ready h) then Done (h, m, mkSelfTest 0 (Some "heap was not initialised"))
  else
    let used_before := used h in
    '(h, m, v, pushed) ← for_each (range_list 0 SELF_TEST_BYTES) push_next (h, m, Vec.new, 0);
    if negb (len v =? SELF_TEST_BYTES) then fail_with h m v pushed "Vec length mismatch after pushes"
    else if negb (in_order (contents m v)) then fail_with h m v pushed "Vec contents did not match what was pushed"
    else
      '(h, m, v) ← resize h m v (SELF_TEST_BYTES * 4) 0xA5;
      if negb (len v =? SELF_TEST_BYTES * 4) then fail_with h m v pushed "Vec resize failed"
      else if negb (in_order (take (Z.to_nat SELF_TEST_BYTES) (contents m v)))
      then fail_with h m v pushed "Vec lost data across resize"
      else
        '(h, m) ← Vec.drop h m v;
        Done (h, m, mkSelfTest pushed
          (if negb (used h =? used_before) then Some "bytes went missing: used count did not return after drop"
           else None)).

End HeapTest.

Module HeapTestFacts.
Import Heap Tiles HeapFacts HeapFrame HeapSpec Bytes Vec VecFacts HeapTest.

(** Buffers still to come while the vector's capacity is [c]: 8, 16, 32 and 64
    bytes while pushing and 256 for the resize, each with up to 16 bytes of
    header and padding. *)
Definition budget (c : Z) : Z :=
  if c =? 0 then 456 else if c =? 8 then 432 else if c =? 16 then 400 else if c =? 32 then 352 else 272.
Definition growths (c : Z) : Z :=
  if c =? 0 then 5 else if c =? 8 then 4 else if c =? 16 then 3 else if c =? 32 then 2 else 1.

Definition pattern (n : nat) : list Z := as_u8 <$> zrange 0 n.

Lemma pattern_S n : pattern (S n) = pattern n ++ [as_u8 (Z.of_nat n)].
Proof.
  unfold pattern. replace (zrange 0 (S n)) with (range_list 0 (Z.of_nat n + 1)).
  - rewrite (range_list_app 0 (Z.of_nat n)) by lia. rewrite fmap_app. f_equal.
    + unfold range_list. by rewrite Z.sub_0_r, Nat2Z.id.
    + rewrite range_list_cons, range_list_nil by lia. done.
  - unfold range_list. f_equal. lia.
Qed.

Lemma length_pattern n : length (pattern n) = n.
Proof. induction n as [|n IH]; [done|]. rewrite pattern_S, length_app, IH. cbn [length]. lia. Qed.

Section test.
Context (h0 : Heap) (m0 : mem) (ts0 : list tile) (R k : Z).
Context (HR : 8 <= R) (Hk : 0 <= k).

(** After [n] pushes. *)
Definition pushing (n : nat) (s : Heap * mem * Vec * Z) : Prop :=
  let '(h, m, v, p) := s in
  p = Z.of_nat n /\ (cap v = 0 \/ cap v = 8 \/ cap v = 16 \/ cap v = 32 \/ cap v = 64) /\
  cap v < 2 * Z.of_nat n + 16 /\
  exists ts, vec_rep h0 m0 ts0 (budget (cap v) + R) (growths (cap v) + k) h m v (pattern n) ts.

Lemma push_next_ok n s : (n < 64)%nat -> pushing n s ->
  exists s', push_next (Z.of_nat n) s = Done s' /\ pushing (S n) s'.
Proof.
  destruct s as [[[h m] v] p]. intros Hn (-> & Hc & Hc2 & ts & Hv). unfold push_next.
  pose proof (vr_len _ _ _ _ _ _ _ _ _ _ Hv) as Hl. rewrite length_pattern in Hl.
  pose proof (vr_cap _ _ _ _ _ _ _ _ _ _ Hv) as Hlc.
  assert (0 <= as_u8 (Z.of_nat n) < 256) as Hb by (apply Z.mod_pos_bound; lia).
  destruct (decide (len v < cap v)) as [Hlt|Hge].
  - destruct (push_ok h0 m0 ts0 _ _ h m v _ ts _ Hv Hlt Hb) as (m' & -> & Hv'). cbn [mbind outcome_bind].
    eexists. split; [done|]. split_and!; [lia|done|cbn [cap]; lia|]. exists ts. by rewrite pattern_S.
  - set (c := Z.max 8 (Z.max (cap v * 2) (len v + 1))).
    assert (budget (cap v) = c + 16 + budget c /\ growths (cap v) = growths c + 1 /\
      (c = 8 \/ c = 16 \/ c = 32 \/ c = 64) /\ c < 2 * Z.of_nat n + 16) as (Hbud & Hgr & Hc' & Hc3).
    { unfold c. destruct Hc as [E|[E|[E|[E|E]]]]; rewrite E in *; replace (len v) with (Z.of_nat n) in * by lia;
        [assert (n = 0%nat) as -> by lia|assert (n = 8%nat) as -> by lia|assert (n = 16%nat) as -> by lia|
         assert (n = 32%nat) as -> by lia|lia]; vm_compute; auto 10. }
    rewrite Hbud, Hgr in Hv. replace (c + 16 + budget c + R) with (c + 16 + (budget c + R)) in Hv by lia.
    replace (growths c + 1 + k) with (growths c + k + 1) in Hv by lia.
    assert (0 <= growths c /\ 0 <= budget c) as [Hg0 Hb0].
    { destruct Hc' as [-> | [-> | [-> | ->]]]; vm_compute; split; congruence. }
    destruct (push_grow_ok h0 m0 ts0 (budget c + R) (growths c + k) h m v _ ts (as_u8 (Z.of_nat n)) Hv)
      as (h' & m' & p & ts' & -> & Hv'); try done; try lia.
    { fold c. unfold ISIZE_MAX. lia. }
    cbn [mbind outcome_bind]. eexists. split; [done|]. unfold pushing. rewrite pattern_S. cbn [cap] in *.
    fold c in Hv' |- *. clearbody c. split_and!; [lia|tauto|lia|]. by exists ts'.
Qed.

Lemma pushes_ok n s : (n <= 64)%nat -> pushing 0 s ->
  exists s', for_each (range_list 0 (Z.of_nat n)) push_next s = Done s' /\ pushing n s'.
Proof.
  intros Hn Hs.
  destruct (for_each_inv push_next (fun l s => pushing (length l) s) (range_list 0 (Z.of_nat n))) with s as (s' & Hr & Hs');
    [|done|].
  - intros dn x rest s1 Hl Hd. apply (f_equal (fun l => l !! length dn)) in Hl as Hx.
    rewrite list_lookup_middle in Hx by done. unfold range_list in *. rewrite Z.sub_0_r, Nat2Z.id in *.
    assert (length dn < n)%nat as Hlt by (apply (f_equal length) in Hl; rewrite length_zrange, length_app in Hl; cbn [length] in Hl; lia).
    rewrite lookup_zrange in Hx by done. injection Hx as <-. rewrite length_app. cbn [length]. rewrite Nat.add_1_r.
    apply push_next_ok; [lia|done].
  - exists s'. split; [done|]. unfold range_list in Hs'. by rewrite Z.sub_0_r, Nat2Z.id, length_zrange in Hs'.
Qed.

End test.

Lemma pattern_in_order rest : in_order (take 64 (pattern 64 ++ rest)) = true.
Proof. rewrite take_app_le by done. vm_compute. reflexivity. Qed.

(** The test, in full. *)
Lemma heap_test_ok h m ts R n :
  heap_rep h m ts -> 8 <= R -> 0 <= n -> room (456 + R) ts -> allocations h + 5 + n <= U32_MAX ->
  exists h' m' ts', self_test h m = Done (h', m', mkSelfTest 64 None) /\ heap_rep h' m' ts' /\ same_live ts' ts /\
    used h' = used h /\ room R ts' /\ allocations h' + n <= U32_MAX /\ heap_start h' = heap_start h /\ heap_end h' = heap_end h /\
    (forall a, foreign h ts a -> m'.[a] = m.[a]).
Proof.
  intros Hrep HR Hn0 Hroom Hal. unfold self_test, is_ready.
  rewrite (proj2 (Z.ltb_lt _ _) (hr_ready _ _ _ Hrep)). cbn [negb].
  destruct (pushes_ok h m ts R n HR ltac:(lia) 64 (h, m, new, 0)) as ([[[h1 m1] v1] p1] & Hp & -> & Hc & Hc2 & ts1 & Hv1); [done| |].
  { split_and!; [done|by left|cbn; lia|]. exists ts. apply new_ok; [done|done|].
    change (growths (cap new)) with 5. lia. }
  change (Z.of_nat 64) with 64 in *. unfold SELF_TEST_BYTES. rewrite Hp. cbn [mbind outcome_bind].
  pose proof (vr_len _ _ _ _ _ _ _ _ _ _ Hv1) as Hl. rewrite length_pattern in Hl. change (Z.of_nat 64) with 64 in Hl.
  pose proof (vr_cap _ _ _ _ _ _ _ _ _ _ Hv1) as Hlc. assert (cap v1 = 64) as H64 by lia.
  rewrite Hl, Z.eqb_refl. cbn [negb]. rewrite (vr_bytes _ _ _ _ _ _ _ _ _ _ Hv1).
  change (in_order (pattern 64)) with true. cbn [negb]. rewrite H64 in Hv1.
  destruct (resize_grow_ok h m ts R n h1 m1 v1 (pattern 64) ts1 (64 * 4) 0xA5) as (h2 & m2 & p2 & ts2 & -> & Hv2); try lia.
  { rewrite H64. replace (n + 1) with (growths 64 + n) by (change (growths 64) with 1; lia). exact Hv1. }
  { rewrite H64. vm_compute. congruence. }
  cbn [mbind outcome_bind len]. rewrite Z.eqb_refl. cbn [negb].
  rewrite (vr_bytes _ _ _ _ _ _ _ _ _ _ Hv2). change (Z.to_nat 64) with 64%nat. rewrite pattern_in_order. cbn [negb].
  destruct (drop_ok _ _ _ _ _ _ _ _ _ _ Hv2) as (h3 & m3 & ts3 & -> & Hrep3 & Hs & Hu & Hr & Ha & Hst & Hen & Hf).
  cbn [mbind outcome_bind]. rewrite Hu, Z.eqb_refl. exists h3, m3, ts3. done.
Qed.

(** The heap self-test passes on every heap that has a hole of 464 bytes: all
    64 bytes come back, also after the buffer has moved, and the line printed
    says so. It leaves no trace: the live blocks are the ones there were, no
    byte of theirs and no word outside the heap has changed, and the byte
    count is back. On a heap that was never initialised it says so instead. *)
Theorem heap_self_test_passes (h : Heap) (m : mem) (ts : list tile) :
  heap_rep h m ts -> room 464 ts -> allocations h + 5 <= U32_MAX ->
  (exists h' m' ts' t, self_test h m = Done (h', m', t) /\
     SelfTest_fmt t = "Heap: self-test ok - Vec pushed 64 bytes and read them back" /\
     heap_rep h' m' ts' /\ same_live ts' ts /\ used h' = used h /\ (forall a, foreign h ts a -> m'.[a] = m.[a])) /\
  self_test Heap.empty m = Done (Heap.empty, m, mkSelfTest 0 (Some "heap was not initialised")).
Proof.
  intros Hrep Hroom Hal. split; [|done].
  destruct (heap_test_ok h m ts 8 0 Hrep ltac:(lia) ltac:(lia) Hroom ltac:(lia)) as (h' & m' & ts' & Ht & Hr & Hs & Hu & _ & _ & _ & _ & Hf).
  by exists h', m', ts', (mkSelfTest 64 None).
Qed.

Lemma heap_self_test_passes_witness :
  exists h m h' m', heap_init Heap.empty ∅ 0x1000 0x1000 = Done (h, m) /\
    self_test h m = Done (h', m', mkSelfTest 64 None).
Proof.
  destruct (heap_init_ok Heap.empty ∅ 0x1000 0x1000 ltac:(lia) eq_refl ltac:(lia) eq_refl ltac:(vm_compute; congruence))
    as (h & m & Hi & Hrep & _ & _ & Ha & _).
  destruct (heap_self_test_passes h m (one_hole 0x1000 0x1000) Hrep) as ((h' & m' & ts' & t & Ht & Hf & _) & _).
  - exists (mkTile 0x1000 0x1000 false). split; [apply list_elem_of_here|]. split; [reflexivity|]. cbn. lia.
  - rewrite Ha. vm_compute. congruence.
  - exists h, m, h', m'. split; [exact Hi|]. rewrite Ht. destruct t as [p [r|]]; [discriminate Hf|].
    vm_compute in Hi. injection Hi as <- <-. vm_compute in Ht. injection Ht as _ _ <-. reflexivity.
Defined.

End HeapTestFacts.
