(* ===== verification/Machine.v ===== *)
(** * The machine the kernel runs on

    What the kernel's inline assembly touches: the CPU registers it reads and
    writes, and the I/O ports. Devices behind the ports are a parameter: a
    type of device states with [outb]/[inb]; a component's theorems assume of
    it what the device's documentation says (a class of laws next to that
    component), and a concrete instance shows the laws can be met. *)

From S2P Require Import Prelude.
#[local] Open Scope Z_scope.

Module Machine.

(** ** CPU registers *)

(** The operand of [lgdt]/[lidt]: limit and base. *)
Record TablePointer := mkPointer { p_limit : Z; p_base : Z }.

Record Cpu := mkCpu {
  cr0 : Z;
  cr3 : Z;
  gdtr : TablePointer;
  idtr : TablePointer;
  cs : Z; ds : Z; es : Z; fs : Z; gs : Z; ss : Z;
  tr : Z;
  if_flag : bool    (** EFLAGS.IF *)
}.

(** The state [boot.asm] leaves: protected mode, interrupts off. *)
Definition boot_cpu : Cpu :=
  mkCpu 1 0 (mkPointer 23 0) (mkPointer 0 0) 8 16 16 16 16 16 0 false.

(** ** Port I/O *)

Class PortIO (D : Type) := {
  outb : D -> Z -> Z -> D;
  inb : D -> Z -> Z * D
}.

(** [inw]: 16-bit reads. *)
Class WordIO (D : Type) := inw : D -> Z -> Z * D.

End Machine.
