(* ===== verification/Descriptors.v ===== *)
(** * Segments, tasks and gates ([gdt.rs], [tss.rs], [idt.rs])

    The three tables the CPU reads: their contents as the kernel writes them,
    the registers it loads, and ([Hw]) how the CPU decodes an entry. *)

From S2P Require Import Prelude.
From S2P Require Import Machine.
#[local] Open Scope Z_scope.

(** ** Addresses the linker chooses *)
Module Image.

Record Image := mkImage {
  main_tss_addr : Z;
  double_fault_tss_addr : Z;
  gdt_addr : Z;
  idt_addr : Z;
  double_fault_stack_bottom : Z;
  double_fault_stack_top : Z
}.

End Image.

(** ** [tss.rs] *)
Module Tss.
Import Image.

Definition KERNEL_CODE_SELECTOR : Z := 1 * 8.
Definition KERNEL_DATA_SELECTOR : Z := 2 * 8.

Record TaskStateSegment := mkTss {
  previous_task_link : Z; reserved0 : Z;
  esp0 : Z; ss0 : Z; reserved1 : Z;
  esp1 : Z; ss1 : Z; reserved2 : Z;
  esp2 : Z; ss2 : Z; reserved3 : Z;
  t_cr3 : Z; t_eip : Z; t_eflags : Z;
  t_eax : Z; t_ecx : Z; t_edx : Z; t_ebx : Z;
  t_esp : Z; t_ebp : Z; t_esi : Z; t_edi : Z;
  t_es : Z; reserved4 : Z;
  t_cs : Z; reserved5 : Z;
  t_ss : Z; reserved6 : Z;
  t_ds : Z; reserved7 : Z;
  t_fs : Z; reserved8 : Z;
  t_gs : Z; reserved9 : Z;
  ldt_selector : Z; reserved10 : Z;
  debug_trap : Z;
  iomap_base : Z
}.

(** Field widths in bytes, in declaration order. *)
Definition field_sizes : list Z :=
  [2; 2; 4; 2; 2; 4; 2; 2; 4; 2; 2; 4; 4; 4; 4; 4; 4; 4; 4; 4; 4; 4;
   2; 2; 2; 2; 2; 2; 2; 2; 2; 2; 2; 2; 2; 2; 2; 2].
Definition tss_size : Z := fold_left Z.add field_sizes 0.

Definition EMPTY : TaskStateSegment :=
  mkTss 0 0 0 0 0 0 0 0 0 0 0 0 0 0 0 0 0 0 0 0 0 0 0 0 0 0 0 0 0 0 0 0 0 0 0 0 0 tss_size.

(** [MAIN_TSS] and [DOUBLE_FAULT_TSS]. *)
Record TssState := mkTssState { main : TaskStateSegment; double_fault : TaskStateSegment }.

Record Location := mkLocation { base : Z; limit : Z }.

Definition double_fault_stack_range (im : Image) : Z * Z :=
  (double_fault_stack_bottom im, double_fault_stack_top im).
Definition stack_top (im : Image) : Z := snd (double_fault_stack_range im).

Definition init (im : Image) (s : TssState) (double_fault_entry : Z) : TssState :=
  let main := EMPTY in
  let df := EMPTY in
  let df := {| df with t_eip := as_u32 double_fault_entry |} in
  let df := {| df with t_esp := stack_top im |} in
  let df := {| df with t_ebp := t_esp df |} in
  let df := {| df with esp0 := t_esp df |} in
  let df := {| df with ss0 := KERNEL_DATA_SELECTOR |} in
  let df := {| df with t_cs := KERNEL_CODE_SELECTOR |} in
  let df := {| df with t_ss := KERNEL_DATA_SELECTOR |} in
  let df := {| df with t_ds := KERNEL_DATA_SELECTOR |} in
  let df := {| df with t_es := KERNEL_DATA_SELECTOR |} in
  let df := {| df with t_fs := KERNEL_DATA_SELECTOR |} in
  let df := {| df with t_gs := KERNEL_DATA_SELECTOR |} in
  let df := {| df with t_eflags := 0x00000002 |} in
  mkTssState main df.

Definition set_page_directory (s : TssState) (cr3 : Z) : TssState :=
  let main := {| (main s) with t_cr3 := cr3 |} in
  let double_fault := {| (double_fault s) with t_cr3 := cr3 |} in
  mkTssState main double_fault.

Definition main_task (im : Image) : Location := mkLocation (main_tss_addr im) (tss_size - 1).
Definition double_fault_task (im : Image) : Location :=
  mkLocation (double_fault_tss_addr im) (tss_size - 1).

Record InterruptedState := mkInterrupted {
  i_eip : Z; i_cs : Z; i_eflags : Z; i_esp : Z; i_ss : Z; i_ebp : Z; i_previous_task_link : Z
}.

Definition interrupted_state (s : TssState) : InterruptedState :=
  mkInterrupted (t_eip (main s)) (t_cs (main s)) (t_eflags (main s)) (t_esp (main s))
    (t_ss (main s)) (t_ebp (main s)) (previous_task_link (double_fault s)).

End Tss.

(** ** [gdt.rs] *)
Module Gdt.
Import Machine Image.

Definition ACCESS_KERNEL_CODE : Z := 0x9a.
Definition ACCESS_KERNEL_DATA : Z := 0x92.
Definition ACCESS_TSS_AVAILABLE : Z := 0x89.
Definition FLAGS_32BIT_4K : Z := 0xc.
Definition FLAGS_TSS : Z := 0x0.

Definition NULL : Z := 0.

Definition descriptor_new (base limit access flags : Z) : Z :=
  Z.lor (Z.land limit 0xffff)
  (Z.lor (Z.shiftl (Z.land base 0xffff) 16)
  (Z.lor (Z.shiftl (Z.land (Z.shiftr base 16) 0xff) 32)
  (Z.lor (Z.shiftl access 40)
  (Z.lor (Z.shiftl (Z.land (Z.shiftr limit 16) 0xf) 48)
  (Z.lor (Z.shiftl (Z.land flags 0xf) 52)
         (Z.shiftl (Z.land (Z.shiftr base 24) 0xff) 56)))))).

Definition flat (access : Z) : Z := descriptor_new 0 0xfffff access FLAGS_32BIT_4K.
Definition tss_descriptor (location : Tss.Location) : Z :=
  descriptor_new (Tss.base location) (Tss.limit location) ACCESS_TSS_AVAILABLE FLAGS_TSS.

Definition NULL_INDEX : nat := 0.
Definition KERNEL_CODE_INDEX : nat := 1.
Definition KERNEL_DATA_INDEX : nat := 2.
Definition MAIN_TSS_INDEX : nat := 3.
Definition DOUBLE_FAULT_TSS_INDEX : nat := 4.
Definition ENTRY_COUNT : nat := 5.

Definition MAIN_TSS_SELECTOR : Z := Z.of_nat MAIN_TSS_INDEX * 8.
Definition DOUBLE_FAULT_TSS_SELECTOR : Z := Z.of_nat DOUBLE_FAULT_TSS_INDEX * 8.

(** [lgdt], the far jump through selector 8, and the segment reloads. *)
Definition load (cpu : Cpu) (pointer : TablePointer) : Cpu :=
  {| cpu with gdtr := pointer; cs := 0x08; ds := 0x10; es := 0x10; fs := 0x10; gs := 0x10; ss := 0x10 |}.

(** [ltr]: the CPU loads the task register and marks the descriptor busy. *)
Definition load_task_register (gdt : list Z) (cpu : Cpu) (selector : Z) : list Z * Cpu :=
  let i := Z.to_nat (Z.shiftr selector 3) in
  (<[i := Z.lor (gdt !!! i) (Z.shiftl 1 41)]> gdt, {| cpu with tr := selector |}).

Definition init (im : Image) (gdt : list Z) (cpu : Cpu) : list Z * Cpu :=
  let gdt := <[NULL_INDEX := NULL]> gdt in
  let gdt := <[KERNEL_CODE_INDEX := flat ACCESS_KERNEL_CODE]> gdt in
  let gdt := <[KERNEL_DATA_INDEX := flat ACCESS_KERNEL_DATA]> gdt in
  let gdt := <[MAIN_TSS_INDEX := tss_descriptor (Tss.main_task im)]> gdt in
  let gdt := <[DOUBLE_FAULT_TSS_INDEX := tss_descriptor (Tss.double_fault_task im)]> gdt in
  let pointer := mkPointer (Z.of_nat ENTRY_COUNT * 8 - 1) (gdt_addr im) in
  let cpu := load cpu pointer in
  load_task_register gdt cpu MAIN_TSS_SELECTOR.

Record Loaded := mkLoaded { g_base : Z; g_limit : Z; g_cs : Z; g_ds : Z; g_tr : Z }.

Definition loaded (cpu : Cpu) : Loaded :=
  mkLoaded (p_base (gdtr cpu)) (p_limit (gdtr cpu)) (cs cpu) (ds cpu) (tr cpu).

End Gdt.

(** ** [idt.rs] *)
Module Idt.
Import Machine Image.

Definition ENTRY_COUNT : nat := 256.
Definition PRESENT : Z := 0x80.
Definition GATE_32BIT_INTERRUPT : Z := 0xe.
Definition GATE_TASK : Z := 0x5.

Record StackFrame := mkFrame { eip : Z; f_cs : Z; eflags : Z }.

Record Gate := mkGate {
  offset_low : Z; selector : Z; reserved : Z; type_attr : Z; offset_high : Z
}.

#[export] Instance Gate_eq_dec : EqDecision Gate.
Proof. solve_decision. Defined.

Definition MISSING : Gate := mkGate 0 0 0 0 0.
#[export] Instance Gate_inhabited : Inhabited Gate := populate MISSING.

Definition interrupt (offset sel : Z) : Gate :=
  mkGate (as_u16 offset) sel 0 (Z.lor PRESENT GATE_32BIT_INTERRUPT) (as_u16 (Z.shiftr offset 16)).

Definition task (tss_selector : Z) : Gate :=
  mkGate 0 tss_selector 0 (Z.lor PRESENT GATE_TASK) 0.

Definition is_present (g : Gate) : bool := has_bits (type_attr g) PRESENT.

Definition for_table (im : Image) : TablePointer :=
  mkPointer (Z.of_nat ENTRY_COUNT * 8 - 1) (idt_addr im).

Definition init (im : Image) (idt : list Gate) (cpu : Cpu) : list Gate * Cpu :=
  let idt := (fun _ => MISSING) <$> idt in
  (idt, {| cpu with idtr := for_table im |}).

(** [set_gate], which [set_handler] and [set_handler_with_error_code] call. *)
Definition set_gate (idt : list Gate) (vector offset : Z) : list Gate :=
  <[Z.to_nat vector := interrupt (as_u32 offset) Tss.KERNEL_CODE_SELECTOR]> idt.
Definition set_task_gate (idt : list Gate) (vector tss_selector : Z) : list Gate :=
  <[Z.to_nat vector := task tss_selector]> idt.
Definition has_handler (idt : list Gate) (vector : Z) : bool :=
  is_present (idt !!! Z.to_nat vector).
Definition clear_handler (idt : list Gate) (vector : Z) : list Gate :=
  <[Z.to_nat vector := MISSING]> idt.

Record Loaded := mkLoaded { l_base : Z; l_limit : Z; l_handlers : nat }.

Definition loaded (cpu : Cpu) (idt : list Gate) : Loaded :=
  mkLoaded (p_base (idtr cpu)) (p_limit (idtr cpu)) (length (List.filter is_present idt)).
Definition loaded_entries (l : Loaded) : Z := (l_limit l + 1) / 8.

End Idt.
