(* ===== verification/DescriptorFacts.v ===== *)
(** * The tables decode to what the kernel meant

    [Hw] is how the CPU reads a segment descriptor and a gate; the lemmas show
    the kernel's encodings are read back as the values they were built from. *)

From S2P Require Import Prelude.
From S2P Require Import Machine.
From S2P Require Import Descriptors.
#[local] Open Scope Z_scope.

(** ** The CPU's view *)
Module Hw.
Import Idt.

Definition d_base (d : Z) : Z :=
  Z.lor (Z.land (Z.shiftr d 16) (Z.ones 24)) (Z.shiftl (Z.land (Z.shiftr d 56) (Z.ones 8)) 24).
Definition d_limit (d : Z) : Z :=
  Z.lor (Z.land d (Z.ones 16)) (Z.shiftl (Z.land (Z.shiftr d 48) (Z.ones 4)) 16).
Definition d_access (d : Z) : Z := Z.land (Z.shiftr d 40) (Z.ones 8).
Definition d_flags (d : Z) : Z := Z.land (Z.shiftr d 52) (Z.ones 4).

(** Last valid offset of a segment, with the granularity bit applied. *)
Definition segment_last (d : Z) : Z :=
  if Z.testbit (d_flags d) 3 then (d_limit d + 1) * 4096 - 1 else d_limit d.

Definition gate_offset (g : Gate) : Z := offset_low g + 2 ^ 16 * offset_high g.
Definition gate_type (g : Gate) : Z := Z.land (type_attr g) 0xf.

(** Where vector [v] goes: an offset in the code segment, or a task's TSS. *)
Inductive target := ToOffset (sel offset : Z) | ToTask (sel : Z) | NotPresent.

Definition gate_target (g : Gate) : target :=
  if negb (is_present g) then NotPresent
  else if gate_type g =? GATE_TASK then ToTask (selector g)
  else ToOffset (selector g) (gate_offset g).

(** The descriptor a selector names. *)
Definition descriptor_of (gdt : list Z) (sel : Z) : Z := gdt !!! Z.to_nat (Z.shiftr sel 3).

End Hw.

Module DescriptorFacts.
Import Hw Idt.

Lemma field_bit x k n sh i :
  0 <= k -> 0 <= n -> 0 <= sh -> 0 <= i ->
  Z.testbit (Z.shiftl (Z.land (Z.shiftr x k) (Z.ones n)) sh) i =
  (sh <=? i) && (i <? sh + n) && Z.testbit x (i - sh + k).
Proof.
  intros Hk Hn Hs Hi. rewrite Z.shiftl_spec, Z.land_spec by done.
  destruct (Z.leb_spec sh i); simpl.
  - rewrite Z.shiftr_spec, Z.testbit_ones by lia.
    destruct (Z.leb_spec 0 (i - sh)); [|lia]. simpl.
    destruct (Z.ltb_spec (i - sh) n), (Z.ltb_spec i (sh + n)); try lia;
      rewrite ?andb_true_r, ?andb_false_r; done.
  - rewrite Z.testbit_neg_r by lia. done.
Qed.

(** A projection [k..k + n] of a word, bit by bit. *)
Lemma slice_bit d k n i :
  0 <= k -> 0 <= n -> 0 <= i ->
  Z.testbit (Z.land (Z.shiftr d k) (Z.ones n)) i = (i <? n) && Z.testbit d (i + k).
Proof.
  intros Hk Hn Hi. rewrite Z.land_spec, Z.shiftr_spec, Z.testbit_ones by lia.
  destruct (Z.leb_spec 0 i); [|lia]. simpl. by rewrite andb_comm.
Qed.

Lemma testbit_bounded x n i : 0 <= x < 2 ^ n -> n <= i -> Z.testbit x i = false.
Proof.
  intros Hx Hi. destruct (decide (x = 0)) as [->|]; [by rewrite Z.bits_0|].
  apply Z.bits_above_log2; [lia|]. apply Z.lt_le_trans with n; [|done].
  apply Z.log2_lt_pow2; lia.
Qed.

Lemma descriptor_bit base limit access flags i :
  is_u8 access -> 0 <= i ->
  Z.testbit (Gdt.descriptor_new base limit access flags) i =
  (i <? 16) && Z.testbit limit i
  || (16 <=? i) && (i <? 32) && Z.testbit base (i - 16)
  || (32 <=? i) && (i <? 40) && Z.testbit base (i - 16)
  || (40 <=? i) && (i <? 48) && Z.testbit access (i - 40)
  || (48 <=? i) && (i <? 52) && Z.testbit limit (i - 32)
  || (52 <=? i) && (i <? 56) && Z.testbit flags (i - 52)
  || (56 <=? i) && (i <? 64) && Z.testbit base (i - 32).
Proof.
  intros Ha Hi. unfold Gdt.descriptor_new.
  replace access with (Z.land (Z.shiftr access 0) (Z.ones 8)) at 1
    by (rewrite Z.shiftr_0_r, Z.land_ones by lia; apply Z.mod_small; exact Ha).
  replace (Z.land limit 0xffff) with (Z.shiftl (Z.land (Z.shiftr limit 0) (Z.ones 16)) 0)
    by (by rewrite Z.shiftr_0_r, Z.shiftl_0_r).
  replace (Z.land base 0xffff) with (Z.land (Z.shiftr base 0) (Z.ones 16)) by (by rewrite Z.shiftr_0_r).
  replace (Z.land flags 0xf) with (Z.land (Z.shiftr flags 0) (Z.ones 4)) by (by rewrite Z.shiftr_0_r).
  change 0xff with (Z.ones 8). change 0xf with (Z.ones 4).
  rewrite !Z.lor_spec, !field_bit by lia.
  replace (i - 0 + 0) with i by lia. replace (i - 16 + 0) with (i - 16) by lia.
  replace (i - 32 + 16) with (i - 16) by lia. replace (i - 40 + 0) with (i - 40) by lia.
  replace (i - 48 + 16) with (i - 32) by lia. replace (i - 52 + 0) with (i - 52) by lia.
  replace (i - 56 + 24) with (i - 32) by lia.
  change (0 + 16) with 16. change (16 + 16) with 32. change (32 + 8) with 40. change (40 + 8) with 48.
  change (48 + 4) with 52. change (52 + 4) with 56. change (56 + 8) with 64.
  destruct (Z.leb_spec 0 i); [|lia]. by rewrite !orb_assoc.
Qed.

(** Splits on every comparison of the goal and closes the impossible cases. *)
Ltac split_compares :=
  repeat match goal with
  | |- context [?a <? ?b] => destruct (Z.ltb_spec a b); try lia
  | |- context [?a <=? ?b] => destruct (Z.leb_spec a b); try lia
  end; cbn [andb orb]; rewrite ?orb_false_r, ?andb_true_r.

Lemma descriptor_base b l a f : is_u32 b -> is_u8 a -> d_base (Gdt.descriptor_new b l a f) = b.
Proof.
  intros Hb Ha. apply Z.bits_inj'. intros i Hi. unfold d_base.
  rewrite Z.lor_spec, field_bit, slice_bit, !descriptor_bit by (done || lia).
  destruct (Z.ltb_spec i 24).
  - split_compares; f_equal; lia.
  - destruct (Z.ltb_spec i 32); [split_compares; f_equal; lia|].
    rewrite (testbit_bounded b 32 i) by (done || lia). by split_compares.
Qed.

Lemma descriptor_limit b l a f : 0 <= l < 2 ^ 20 -> is_u8 a -> d_limit (Gdt.descriptor_new b l a f) = l.
Proof.
  intros Hl Ha. apply Z.bits_inj'. intros i Hi. unfold d_limit.
  rewrite <-(Z.shiftr_0_r (Gdt.descriptor_new b l a f)) at 1.
  rewrite Z.lor_spec, field_bit, slice_bit, !descriptor_bit by (done || lia).
  destruct (Z.ltb_spec i 16).
  - split_compares; f_equal; lia.
  - destruct (Z.ltb_spec i 20); [split_compares; f_equal; lia|].
    rewrite (testbit_bounded l 20 i) by (done || lia). by split_compares.
Qed.

Lemma descriptor_access b l a f : is_u8 a -> d_access (Gdt.descriptor_new b l a f) = a.
Proof.
  intros Ha. apply Z.bits_inj'. intros i Hi. unfold d_access.
  rewrite slice_bit, !descriptor_bit by (done || lia).
  destruct (Z.ltb_spec i 8); [split_compares; f_equal; lia|].
  by rewrite (testbit_bounded a 8 i) by (done || lia).
Qed.

Lemma descriptor_flags b l a f : is_u8 a -> 0 <= f < 2 ^ 4 -> d_flags (Gdt.descriptor_new b l a f) = f.
Proof.
  intros Ha Hf. apply Z.bits_inj'. intros i Hi. unfold d_flags.
  rewrite slice_bit, !descriptor_bit by (done || lia).
  destruct (Z.ltb_spec i 4); [split_compares; f_equal; lia|].
  by rewrite (testbit_bounded f 4 i) by (done || lia).
Qed.

Lemma gate_offset_interrupt offset sel : is_u32 offset -> gate_offset (interrupt offset sel) = offset.
Proof.
  intros Ho. unfold gate_offset, interrupt, as_u16. simpl.
  rewrite Z.shiftr_div_pow2 by lia. unfold is_u32 in Ho.
  rewrite (Z.mod_small (offset / 2 ^ 16)).
  - rewrite Z.add_comm. symmetry. by apply Z_div_mod_eq_full.
  - split; [apply Z.div_pos; lia|]. apply Z.div_lt_upper_bound; lia.
Qed.

Lemma gate_target_interrupt offset sel :
  is_u32 offset -> gate_target (interrupt offset sel) = ToOffset sel offset.
Proof. intros Ho. unfold gate_target. simpl. by rewrite gate_offset_interrupt. Qed.

Lemma gate_target_task sel : gate_target (task sel) = ToTask sel.
Proof. done. Qed.

(** The TSS descriptors: byte-granular, 104 bytes, busy once loaded. *)
Lemma tss_descriptor_decodes b :
  is_u32 b ->
  let d := Gdt.descriptor_new b 103 Gdt.ACCESS_TSS_AVAILABLE Gdt.FLAGS_TSS in
  d_base d = b /\ segment_last d = 103 /\ d_access d = 0x89.
Proof.
  intros Hb d. assert (is_u8 Gdt.ACCESS_TSS_AVAILABLE) as Ha by (vm_compute; split; congruence).
  unfold segment_last. subst d. rewrite descriptor_flags by (done || lia).
  split_and!; [by apply descriptor_base|apply descriptor_limit; (done || lia)|by apply descriptor_access].
Qed.

Lemma busy_is_descriptor b l f :
  Z.lor (Gdt.descriptor_new b l Gdt.ACCESS_TSS_AVAILABLE f) (Z.shiftl 1 41) =
  Gdt.descriptor_new b l 0x8b f.
Proof.
  apply Z.bits_inj'. intros i Hi.
  assert (is_u8 Gdt.ACCESS_TSS_AVAILABLE /\ is_u8 0x8b) as [? ?] by (vm_compute; repeat split; congruence).
  rewrite Z.lor_spec, !descriptor_bit, Z.shiftl_1_l, Z.pow2_bits_eqb by (done || lia).
  destruct (Z.eqb_spec 41 i) as [<-|Hne].
  - rewrite orb_true_r. reflexivity.
  - rewrite orb_false_r. do 4 f_equal.
    destruct (Z.leb_spec 40 i), (Z.ltb_spec i 48); try done. simpl.
    change 0x8b with (Z.lor Gdt.ACCESS_TSS_AVAILABLE (2 ^ 1)).
    rewrite Z.lor_spec, (Z.pow2_bits_eqb 1) by lia.
    destruct (Z.eqb_spec 1 (i - 40)); [lia|]. by rewrite orb_false_r.
Qed.

Lemma busy_tss_decodes b :
  is_u32 b ->
  let d := Z.lor (Gdt.descriptor_new b 103 Gdt.ACCESS_TSS_AVAILABLE Gdt.FLAGS_TSS) (Z.shiftl 1 41) in
  d_base d = b /\ segment_last d = 103 /\ d_access d = 0x8b.
Proof.
  intros Hb d. subst d. rewrite busy_is_descriptor.
  assert (is_u8 0x8b) as Ha by (vm_compute; split; congruence).
  unfold segment_last. rewrite descriptor_flags by (done || lia).
  split_and!; [by apply descriptor_base|apply descriptor_limit; (done || lia)|by apply descriptor_access].
Qed.

(** Descriptor round trip: from the 8-byte entry [Descriptor::new] builds,
    the CPU reads back exactly the base, 20-bit limit, access byte and flags
    it was given, although the fields are scattered over the word. *)
Theorem descriptor_roundtrip (base limit access flags : Z) :
  is_u32 base -> 0 <= limit < 2 ^ 20 -> is_u8 access -> 0 <= flags < 2 ^ 4 ->
  let d := Gdt.descriptor_new base limit access flags in
  d_base d = base /\ d_limit d = limit /\ d_access d = access /\ d_flags d = flags.
Proof.
  intros Hb Hl Ha Hf d.
  split_and!; [by apply descriptor_base|by apply descriptor_limit|by apply descriptor_access|
    by apply descriptor_flags].
Qed.

Lemma descriptor_roundtrip_witness :
  d_base (Gdt.descriptor_new 0x12345678 103 0x89 0) = 0x12345678.
Proof.
  exact (proj1 (descriptor_roundtrip 0x12345678 103 0x89 0 ltac:(vm_compute; split; congruence)
    ltac:(lia) ltac:(vm_compute; split; congruence) ltac:(lia))).
Defined.

End DescriptorFacts.
