(* ===== verification/Pic.v ===== *)
(** * The interrupt controllers ([pic.rs])

    [Pic] is the driver over any port-I/O device state. [PicHw] states how an
    8259A reacts to the words the driver sends, [PicFacts] what the driver
    achieves on such a pair. *)

From S2P Require Import Prelude.
From S2P Require Import Machine.
#[local] Open Scope Z_scope.

Module Pic.
Import Machine.

Definition IRQ_VECTOR_BASE : Z := 32.
Definition IRQ_COUNT : Z := 16.
Definition IRQ_VECTOR_LAST : Z := IRQ_VECTOR_BASE + IRQ_COUNT - 1.
Definition MASTER_COMMAND : Z := 0x20.
Definition MASTER_DATA : Z := 0x21.
Definition SLAVE_COMMAND : Z := 0xa0.
Definition SLAVE_DATA : Z := 0xa1.
Definition ICW1_INIT : Z := 0x11.
Definition ICW3_MASTER_CASCADE : Z := Z.shiftl 1 2.
Definition ICW3_SLAVE_IDENTITY : Z := 2.
Definition ICW4_8086_MODE : Z := 0x01.
Definition OCW2_END_OF_INTERRUPT : Z := 0x20.
Definition OCW3_READ_IN_SERVICE : Z := 0x0b.
Definition SPURIOUS_LINE : Z := 7.
Definition MASK_ALL : Z := 0xff.
Definition IO_DELAY_PORT : Z := 0x80.

Record Pic := mkPic { command : Z; data : Z; vector_offset : Z }.

(** [PICS] *)
Definition master : Pic := mkPic MASTER_COMMAND MASTER_DATA IRQ_VECTOR_BASE.
Definition slave : Pic := mkPic SLAVE_COMMAND SLAVE_DATA (IRQ_VECTOR_BASE + 8).

Definition irq_of_vector (vector : Z) : option Z :=
  if (IRQ_VECTOR_BASE <=? vector) && (vector <=? IRQ_VECTOR_LAST)
  then Some (vector - IRQ_VECTOR_BASE) else None.

Inductive Acknowledged := Serviced | Spurious.

#[export] Instance Acknowledged_eq_dec : EqDecision Acknowledged.
Proof. solve_decision. Defined.

Section driver.
Context {D : Type} `{PortIO D}.

Definition io_delay (d : D) : D := outb d IO_DELAY_PORT 0.

Definition initialize (d : D) (p : Pic) (cascade_word : Z) : D :=
  let d := outb d (command p) ICW1_INIT in
  let d := io_delay d in
  let d := outb d (data p) (vector_offset p) in
  let d := io_delay d in
  let d := outb d (data p) cascade_word in
  let d := io_delay d in
  let d := outb d (data p) ICW4_8086_MODE in
  io_delay d.

Definition set_mask (d : D) (p : Pic) (mask : Z) : D := outb d (data p) mask.
Definition mask (d : D) (p : Pic) : Z * D := inb d (data p).

Definition end_of_interrupt (d : D) (irq : Z) : D * Acknowledged :=
  let from_slave := 8 <=? irq in
  let line := irq mod 8 in
  let serviced (d : D) :=
    let d := if from_slave then outb d SLAVE_COMMAND OCW2_END_OF_INTERRUPT else d in
    (outb d MASTER_COMMAND OCW2_END_OF_INTERRUPT, Serviced) in
  if line =? SPURIOUS_LINE then
    let command := if from_slave then SLAVE_COMMAND else MASTER_COMMAND in
    let d := outb d command OCW3_READ_IN_SERVICE in
    let '(status, d) := inb d command in
    let in_service := has_bits status (Z.shiftl 1 line) in
    if negb in_service then
      let d := if from_slave then outb d MASTER_COMMAND OCW2_END_OF_INTERRUPT else d in
      (d, Spurious)
    else serviced d
  else serviced d.

Definition init (d : D) : D :=
  let d := initialize d master ICW3_MASTER_CASCADE in
  let d := initialize d slave ICW3_SLAVE_IDENTITY in
  let d := set_mask d master MASK_ALL in
  set_mask d slave MASK_ALL.

Record State := mkState { vector_base : Z; vector_last : Z; master_mask : Z; slave_mask : Z }.

Definition all_masked (s : State) : bool :=
  (master_mask s =? MASK_ALL) && (slave_mask s =? MASK_ALL).

Definition state (d : D) : State * D :=
  let '(mm, d) := mask d master in
  let '(sm, d) := mask d slave in
  (mkState (vector_offset master) (vector_offset slave + 7) mm sm, d).

(** [m & !(1 << i)] on [u8]. *)
Definition clear_mask_bit (m i : Z) : Z := Z.land m (Z.lxor 0xff (Z.shiftl 1 i)).

Definition unmask (d : D) (irq : Z) : D :=
  if IRQ_COUNT <=? irq then d
  else if irq <? 8 then
    let '(m, d) := mask d master in
    set_mask d master (clear_mask_bit m irq)
  else
    let '(m, d) := mask d slave in
    let d := set_mask d slave (clear_mask_bit m (irq - 8)) in
    let '(m, d) := mask d master in
    set_mask d master (clear_mask_bit m 2).

End driver.
End Pic.

(** ** The 8259A, as documented, for the words the driver sends *)
Module PicHw.
Import Machine Pic.

Record Chip := mkChip {
  icw : nat;            (** 0 when operating, else the initialization word awaited *)
  base : Z;             (** ICW2 *)
  cascade : Z;          (** ICW3 *)
  mode : Z;             (** ICW4 *)
  imr : Z;
  isr : Z;
  irr : Z;
  read_isr : bool
}.

(** IRQ0 has the highest priority. *)
Definition clear_highest (isr : Z) : Z :=
  match List.find (Z.testbit isr) (zrange 0 8) with
  | Some k => Z.clearbit isr k
  | None => isr
  end.

Definition chip_command (c : Chip) (v : Z) : Chip :=
  if v =? ICW1_INIT then {| c with icw := 2; imr := 0; read_isr := false |}
  else if v =? OCW3_READ_IN_SERVICE then {| c with read_isr := true |}
  else if v =? OCW2_END_OF_INTERRUPT then {| c with isr := clear_highest (isr c) |}
  else c.

Definition chip_data (c : Chip) (v : Z) : Chip :=
  match icw c with
  | 2 => {| c with icw := 3; base := Z.land v 0xf8 |}
  | 3 => {| c with icw := 4; cascade := v |}
  | 4 => {| c with icw := 0; mode := v |}
  | _ => {| c with imr := v |}
  end%nat.

Inductive side := Master | Slave.

Definition command_port (s : side) : Z := match s with Master => MASTER_COMMAND | Slave => SLAVE_COMMAND end.
Definition data_port (s : side) : Z := match s with Master => MASTER_DATA | Slave => SLAVE_DATA end.

(** A device state that contains the pair. *)
Class PicDevice (D : Type) `{PortIO D} := {
  chips : D -> side -> Chip;
  pic_out : forall d port v s,
    chips (outb d port v) s =
    if port =? command_port s then chip_command (chips d s) v
    else if port =? data_port s then chip_data (chips d s) v
    else chips d s;
  pic_in : forall d port s, chips (snd (inb d port)) s = chips d s;
  pic_in_command : forall d s,
    fst (inb d (command_port s)) = if read_isr (chips d s) then isr (chips d s) else irr (chips d s);
  pic_in_data : forall d s, fst (inb d (data_port s)) = imr (chips d s)
}.

(** A machine with nothing but the two controllers. *)
Record Pair := mkPair { m_chip : Chip; s_chip : Chip }.

#[export] Instance Pair_io : PortIO Pair := {|
  outb p port v :=
    mkPair (if port =? MASTER_COMMAND then chip_command (m_chip p) v
            else if port =? MASTER_DATA then chip_data (m_chip p) v else m_chip p)
           (if port =? SLAVE_COMMAND then chip_command (s_chip p) v
            else if port =? SLAVE_DATA then chip_data (s_chip p) v else s_chip p);
  inb p port :=
    (if port =? MASTER_COMMAND then if read_isr (m_chip p) then isr (m_chip p) else irr (m_chip p)
     else if port =? MASTER_DATA then imr (m_chip p)
     else if port =? SLAVE_COMMAND then if read_isr (s_chip p) then isr (s_chip p) else irr (s_chip p)
     else if port =? SLAVE_DATA then imr (s_chip p) else 0xff, p)
|}.

#[export] Instance Pair_pic : PicDevice Pair.
Proof.
  refine {| chips p s := match s with Master => m_chip p | Slave => s_chip p end |}.
  - by intros d port v [].
  - done.
  - by intros d [].
  - by intros d [].
Defined.

End PicHw.

Module PicFacts.
Import Machine Pic PicHw.

Section device.
Context {D : Type} `{PicDevice D}.

(** Follows one port write into the pair, deciding whom it reaches. *)
Ltac out_step :=
  rewrite pic_out;
  repeat match goal with
  | |- context [if ?a =? ?b then _ else _] =>
      let v := eval vm_compute in (a =? b) in change (a =? b) with v; cbv iota
  end.

Lemma inb_pair (d : D) port : inb d port = (fst (inb d port), snd (inb d port)).
Proof. by destruct (inb d port). Qed.

Lemma init_chips (d : D) s : chips (init d) s =
  {| (chips d s) with icw := 0; imr := 0xff; read_isr := false; mode := 1;
     base := (match s with Master => 32 | Slave => 40 end);
     cascade := (match s with Master => 4 | Slave => 2 end) |}.
Proof.
  unfold init, initialize, set_mask, io_delay. destruct s; repeat out_step; reflexivity.
Qed.

(** [state] reads both masks and changes nothing. *)
Lemma state_reads (d : D) : exists d', state d = (mkState 32 47 (imr (chips d Master)) (imr (chips d Slave)), d') /\
  d' = snd (inb (snd (inb d MASTER_DATA)) SLAVE_DATA) /\ forall s, chips d' s = chips d s.
Proof.
  eexists. split; [|split; [reflexivity|intros s; by rewrite !pic_in]].
  unfold state, mask. rewrite (inb_pair d). cbn [data master slave]. rewrite (inb_pair (snd (inb d MASTER_DATA))).
  change MASTER_DATA with (data_port Master). change SLAVE_DATA with (data_port Slave).
  by rewrite !pic_in_data, pic_in.
Qed.

(** [pic::init] on any pair of 8259As, whatever state the BIOS left: both
    controllers are operating in 8086 mode, cascaded on IRQ2, raising vectors
    32..39 and 40..47, with every line masked - and [state] reports exactly
    that. *)
Theorem pic_init_remaps (d : D) :
  let d' := init d in
  (forall s, icw (chips d' s) = 0%nat /\ imr (chips d' s) = 0xff /\ mode (chips d' s) = 1) /\
  base (chips d' Master) = 32 /\ base (chips d' Slave) = 40 /\
  cascade (chips d' Master) = 4 /\ cascade (chips d' Slave) = 2 /\
  fst (state d') = mkState 32 47 0xff 0xff /\ all_masked (fst (state d')) = true.
Proof.
  pose proof (init_chips d) as Hc.
  cbv zeta. split; [intros s; rewrite Hc; done|]. rewrite !Hc.
  destruct (state_reads (init d)) as (d' & -> & _). rewrite !Hc. done.
Qed.

Lemma clear_mask_bit_spec m i :
  0 <= m < 2 ^ 8 -> 0 <= i < 8 -> clear_mask_bit m i = Z.clearbit m i.
Proof.
  intros Hm Hi. apply Z.bits_inj'. intros j Hj. unfold clear_mask_bit.
  rewrite Z.land_spec, Z.lxor_spec, Z.clearbit_eqb by lia.
  change 0xff with (Z.ones 8). rewrite Z.testbit_ones by lia.
  rewrite Z.shiftl_spec by done. destruct (Z.leb_spec 0 j); [|lia]. simpl.
  destruct (Z.ltb_spec j 8); simpl.
  - destruct (Z.eqb_spec i j) as [->|Hne].
    + by rewrite Z.sub_diag.
    + assert (Z.testbit 1 (j - i) = false) as ->; [|done].
      destruct (Z.ltb_spec (j - i) 0); [by apply Z.testbit_neg_r|].
      apply Z.bits_above_log2; [lia|]. simpl. lia.
  - assert (Z.testbit m j = false) as ->; [|done].
    destruct (decide (m = 0)) as [->|]; [by rewrite Z.bits_0|].
    apply Z.bits_above_log2; [lia|]. apply Z.log2_lt_pow2; [lia|].
    apply Z.lt_le_trans with (2 ^ 8); [lia|]. apply Z.pow_le_mono_r; lia.
Qed.

(** Both controllers are initialized, with a byte in the mask register. *)
Definition operating (d : D) : Prop := forall s, icw (chips d s) = 0%nat /\ 0 <= imr (chips d s) < 2 ^ 8.

Lemma unmask_master (d : D) irq : operating d -> 0 <= irq < 8 ->
  chips (unmask d irq) Master = {| (chips d Master) with imr := Z.clearbit (imr (chips d Master)) irq |} /\
  chips (unmask d irq) Slave = chips d Slave.
Proof.
  intros Hok Hi. destruct (Hok Master) as [Hm Hmi]. unfold unmask, mask, set_mask, IRQ_COUNT.
  destruct (Z.leb_spec 16 irq); [lia|]. destruct (Z.ltb_spec irq 8); [|lia].
  rewrite inb_pair. cbn [data master]. change MASTER_DATA with (data_port Master).
  rewrite pic_in_data, !pic_out, !pic_in, clear_mask_bit_spec by lia. simpl.
  unfold chip_data. by rewrite Hm.
Qed.

Lemma unmask_slave (d : D) irq : operating d -> 8 <= irq < 16 ->
  chips (unmask d irq) Master = {| (chips d Master) with imr := Z.clearbit (imr (chips d Master)) 2 |} /\
  chips (unmask d irq) Slave = {| (chips d Slave) with imr := Z.clearbit (imr (chips d Slave)) (irq - 8) |}.
Proof.
  intros Hok Hi. destruct (Hok Master) as [Hm Hmi], (Hok Slave) as [Hs Hsi]. unfold unmask, mask, set_mask, IRQ_COUNT.
  destruct (Z.leb_spec 16 irq); [lia|]. destruct (Z.ltb_spec irq 8); [lia|].
  rewrite inb_pair. cbn [data master slave]. change SLAVE_DATA with (data_port Slave). rewrite inb_pair.
  change MASTER_DATA with (data_port Master).
  rewrite !pic_in_data, !pic_out, !pic_in, !pic_out, !pic_in, !clear_mask_bit_spec by (try lia;
    simpl; rewrite ?pic_in; lia). simpl. unfold chip_data. rewrite Hm, Hs. done.
Qed.

(** [unmask] of a line clears that line's mask bit on its controller and, for
    a slave line, the master's cascade bit; every other bit, and everything
    else about the controllers, stays as it was. A number that is no IRQ line
    changes nothing. *)
Theorem unmask_exact (d : D) (irq : Z) :
  0 <= irq -> operating d ->
  let d' := unmask d irq in
  if irq <? 8 then
    chips d' Master = {| (chips d Master) with imr := Z.clearbit (imr (chips d Master)) irq |} /\
    chips d' Slave = chips d Slave
  else if irq <? 16 then
    chips d' Master = {| (chips d Master) with imr := Z.clearbit (imr (chips d Master)) 2 |} /\
    chips d' Slave = {| (chips d Slave) with imr := Z.clearbit (imr (chips d Slave)) (irq - 8) |}
  else d' = d.
Proof.
  intros Hi Hok. cbv zeta. destruct (Z.ltb_spec irq 8); [by apply unmask_master|].
  destruct (Z.ltb_spec irq 16); [by apply unmask_slave|].
  unfold unmask, IRQ_COUNT. destruct (Z.leb_spec 16 irq); [done|lia].
Qed.

(** [k] is the highest-priority line in service. *)
Definition highest (isr k : Z) : Prop :=
  0 <= k < 8 /\ Z.testbit isr k = true /\ forall j, 0 <= j < k -> Z.testbit isr j = false.

Lemma find_highest isr k n j :
  0 <= j -> highest isr k -> j <= k < j + Z.of_nat n ->
  List.find (Z.testbit isr) (zrange j n) = Some k.
Proof.
  intros Hj (Hk & Ht & Hl). revert j Hj. induction n as [|n IH]; intros j Hj Hr; [lia|]. simpl.
  destruct (decide (j = k)) as [->|Hne]; [by rewrite Ht|].
  rewrite Hl by lia. apply IH; lia.
Qed.

Lemma clear_highest_spec isr k : highest isr k -> clear_highest isr = Z.clearbit isr k.
Proof.
  intros Hh. unfold clear_highest. rewrite (find_highest isr k); [done|lia|done|].
  destruct Hh as (? & _). lia.
Qed.

Lemma has_bits_testbit x k : 0 <= k -> has_bits x (Z.shiftl 1 k) = Z.testbit x k.
Proof.
  intros Hk. unfold has_bits. rewrite Z.shiftl_1_l.
  destruct (Z.testbit x k) eqn:Ht.
  - apply negb_true_iff, Z.eqb_neq. intros Hz.
    assert (Z.testbit (Z.land x (2 ^ k)) k = true) as Hb
      by (rewrite Z.land_spec, Ht, Z.pow2_bits_true by done; done).
    rewrite Hz, Z.bits_0 in Hb. done.
  - apply negb_false_iff, Z.eqb_eq. apply Z.bits_inj'. intros j Hj.
    rewrite Z.land_spec, Z.bits_0, Z.pow2_bits_eqb by lia.
    destruct (Z.eqb_spec k j) as [<-|]; [by rewrite Ht|by rewrite andb_false_r].
Qed.

(** Everything of a controller but the in-service bits and the read selector. *)
Definition same_setup (c c' : Chip) : Prop :=
  icw c' = icw c /\ base c' = base c /\ cascade c' = cascade c /\ mode c' = mode c /\
  imr c' = imr c /\ irr c' = irr c.

(** OCW3 followed by a read of the command port gives the in-service bits. *)
Lemma read_in_service (d : D) s :
  has_bits (fst (inb (outb d (command_port s) OCW3_READ_IN_SERVICE) (command_port s))) (Z.shiftl 1 7) =
  Z.testbit (isr (chips d s)) 7.
Proof.
  rewrite pic_in_command, pic_out, Z.eqb_refl. change (read_isr (chip_command _ _)) with true. cbv iota.
  change (isr (chip_command ?c OCW3_READ_IN_SERVICE)) with (isr c). by rewrite has_bits_testbit by lia.
Qed.

Lemma eoi_cases (d : D) irq :
  0 <= irq < 16 ->
  let s := if 8 <=? irq then Slave else Master in
  let spurious := (irq mod 8 =? 7) && negb (Z.testbit (isr (chips d s)) 7) in
  let d' := fst (end_of_interrupt d irq) in
  snd (end_of_interrupt d irq) = (if spurious then Spurious else Serviced) /\
  (forall t, same_setup (chips d t) (chips d' t)) /\
  isr (chips d' Master) = (if spurious && negb (8 <=? irq) then isr (chips d Master)
                           else clear_highest (isr (chips d Master))) /\
  isr (chips d' Slave) = (if (8 <=? irq) && negb spurious then clear_highest (isr (chips d Slave))
                          else isr (chips d Slave)).
Proof.
  intros Hirq. cbv zeta. unfold end_of_interrupt, SPURIOUS_LINE.
  destruct (Z.eqb_spec (irq mod 8) 7) as [H7|H7]; cbn [andb].
  - rewrite H7. destruct (8 <=? irq); cbn [negb andb]; rewrite inb_pair.
    + pose proof (read_in_service d Slave) as Hr. change (command_port Slave) with SLAVE_COMMAND in Hr.
      rewrite Hr. destruct (Z.testbit (isr (chips d Slave)) 7); cbn [negb andb fst snd];
        (split_and!; [done|intros []; repeat first [out_step | rewrite pic_in]; done| |]);
        repeat first [out_step | rewrite pic_in]; done.
    + pose proof (read_in_service d Master) as Hr. change (command_port Master) with MASTER_COMMAND in Hr.
      rewrite Hr. destruct (Z.testbit (isr (chips d Master)) 7); cbn [negb andb fst snd];
        (split_and!; [done|intros []; repeat first [out_step | rewrite pic_in]; done| |]);
        repeat first [out_step | rewrite pic_in]; done.
  - destruct (8 <=? irq); cbn [negb andb fst snd];
      (split_and!; [done|intros []; repeat out_step; done| |]); repeat out_step; done.
Qed.

(** C34: [end_of_interrupt] acknowledges exactly the IRQ it is called for. When
    the line is the highest-priority one in service (with the cascade in
    service on the master for a slave line), precisely its in-service bit -
    and the cascade bit - is cleared and the answer is [Serviced]. When IRQ7
    or IRQ15 arrives without its in-service bit, the answer is [Spurious] and
    that controller keeps its in-service bits; only the master's cascade bit
    is cleared for a spurious IRQ15. Masks and vectors never change. *)
Theorem end_of_interrupt_exact (d : D) (irq : Z) :
  0 <= irq < 16 ->
  let line := irq mod 8 in
  let M := isr (chips d Master) in let S := isr (chips d Slave) in
  let d' := fst (end_of_interrupt d irq) in
  let ack := snd (end_of_interrupt d irq) in
  (forall t, same_setup (chips d t) (chips d' t)) /\
  (irq < 8 -> highest M line ->
     ack = Serviced /\ isr (chips d' Master) = Z.clearbit M line /\ isr (chips d' Slave) = S) /\
  (8 <= irq -> highest S line -> highest M 2 ->
     ack = Serviced /\ isr (chips d' Master) = Z.clearbit M 2 /\ isr (chips d' Slave) = Z.clearbit S line) /\
  (irq = 7 -> Z.testbit M 7 = false ->
     ack = Spurious /\ isr (chips d' Master) = M /\ isr (chips d' Slave) = S) /\
  (irq = 15 -> Z.testbit S 7 = false -> highest M 2 ->
     ack = Spurious /\ isr (chips d' Master) = Z.clearbit M 2 /\ isr (chips d' Slave) = S).
Proof.
  intros Hirq. cbv zeta. destruct (eoi_cases d irq Hirq) as (Hack & Hsame & HM & HS).
  rewrite Hack, HM, HS. clear Hack HM HS. split; [done|]. split_and!.
  - intros Hlt Hh. destruct (Z.leb_spec 8 irq); [lia|].
    assert ((irq mod 8 =? 7) && negb (Z.testbit (isr (chips d Master)) 7) = false) as ->.
    { destruct (Z.eqb_spec (irq mod 8) 7) as [He|]; [|done]. destruct Hh as (_ & Hb & _).
      rewrite He in Hb. by rewrite Hb. }
    simpl. by rewrite (clear_highest_spec _ _ Hh).
  - intros Hge Hh Hm. destruct (Z.leb_spec 8 irq); [|lia].
    assert ((irq mod 8 =? 7) && negb (Z.testbit (isr (chips d Slave)) 7) = false) as ->.
    { destruct (Z.eqb_spec (irq mod 8) 7) as [He|]; [|done]. destruct Hh as (_ & Hb & _).
      rewrite He in Hb. by rewrite Hb. }
    simpl. by rewrite (clear_highest_spec _ _ Hh), (clear_highest_spec _ _ Hm).
  - intros -> Hb. change (8 <=? 7) with false. change (7 mod 8 =? 7) with true. cbv iota. by rewrite Hb.
  - intros -> Hb Hm. change (8 <=? 15) with true. change (15 mod 8 =? 7) with true. cbv iota.
    rewrite Hb. simpl. by rewrite (clear_highest_spec _ _ Hm).
Qed.

End device.

(** ** On the concrete pair *)

Definition bios_pair : Pair :=
  mkPair (mkChip 0 8 4 1 0xb8 0 0 false) (mkChip 0 0x70 2 1 0x8f 0 0 false).

Lemma pic_init_remaps_witness :
  chips (init bios_pair) Master = mkChip 0 32 4 1 0xff 0 0 false /\
  all_masked (fst (state (init bios_pair))) = true.
Proof.
  destruct (pic_init_remaps bios_pair) as (_ & _ & _ & _ & _ & _ & Hall).
  split; [reflexivity|exact Hall].
Defined.

Lemma unmask_exact_witness :
  imr (chips (unmask (init bios_pair) 12) Slave) = 0xef.
Proof.
  destruct (unmask_exact (init bios_pair) 12 ltac:(lia)
    ltac:(unfold operating; intros []; vm_compute; repeat split; congruence)) as [_ Hs].
  rewrite Hs. reflexivity.
Defined.

Definition timer_in_service : Pair :=
  mkPair (mkChip 0 32 4 1 0xfe 1 0 false) (mkChip 0 40 2 1 0xff 0 0 false).

Lemma end_of_interrupt_exact_witness :
  snd (end_of_interrupt timer_in_service 0) = Serviced /\
  isr (chips (fst (end_of_interrupt timer_in_service 0)) Master) = 0.
Proof.
  destruct (end_of_interrupt_exact timer_in_service 0 ltac:(lia)) as (_ & H & _).
  change (0 mod 8) with 0 in H.
  destruct (H ltac:(lia) ltac:(split; [lia|split; [reflexivity|intros j Hj; lia]])) as (Ha & Hm & _).
  split; [exact Ha|]. rewrite Hm. reflexivity.
Defined.

End PicFacts.
