(* ===== verification/Interrupts.v ===== *)
(** * Exceptions and the catch-all ([exceptions.rs], [interrupts.rs])

    Which vector goes where, what is reported, and when the kernel halts.
    Entry points of handlers are link-time addresses: [Entries] names them. *)

From S2P Require Import Prelude.
From S2P Require Import Fmt.
From S2P Require Import Machine.
From S2P Require Import Descriptors.
From S2P Require Import Pic.
#[local] Open Scope Z_scope.

(** What a handler does in the end. *)
Inductive Control := Resume | Halt.

(** ** [exceptions.rs] *)
Module Exceptions.
Import Idt.

Definition DIVIDE_ERROR : Z := 0.
Definition INVALID_OPCODE : Z := 6.
Definition DOUBLE_FAULT : Z := 8.
Definition GENERAL_PROTECTION_FAULT : Z := 13.

Definition INSTALLED_SUMMARY : string :=
  "Exceptions: #0 divide error, #6 invalid opcode, #8 double fault, #13 GP fault".

(** Addresses of the handler functions. *)
Record Entries := mkEntries {
  divide_error : Z;
  invalid_opcode : Z;
  general_protection_fault : Z;
  double_fault_entry : Z;
  unhandled : Z -> Z;                     (** [unhandled::<VECTOR>] *)
  unhandled_with_error_code : Z -> Z      (** [unhandled_with_error_code::<VECTOR>] *)
}.

Definition init (e : Entries) (idt : list Gate) : list Gate :=
  let idt := set_gate idt DIVIDE_ERROR (divide_error e) in
  let idt := set_gate idt INVALID_OPCODE (invalid_opcode e) in
  let idt := set_gate idt GENERAL_PROTECTION_FAULT (general_protection_fault e) in
  set_task_gate idt DOUBLE_FAULT Gdt.DOUBLE_FAULT_TSS_SELECTOR.

(** The register line of a report. *)
Definition frame_line (error_code : option Z) (frame : StackFrame) : string :=
  let regs := "    eip=" +:+ Fmt.hex 10 (eip frame) +:+ " cs=" +:+ Fmt.hex 6 (f_cs frame)
                +:+ " eflags=" +:+ Fmt.hex 10 (eflags frame) in
  match error_code with
  | Some code => regs +:+ " error=" +:+ Fmt.hex 10 code
  | None => regs
  end.

(** The lines [report] prints on both surfaces before it halts. *)
Definition report (vector : Z) (name : string) (error_code : option Z) (frame : StackFrame)
  : list string * Control :=
  ([""; "*** CPU EXCEPTION #" +:+ Fmt.dec vector +:+ ": " +:+ name;
    frame_line error_code frame;
    "    Halted - this exception is not recoverable."], Halt).

(** The lines [double_fault_entry] prints, running with stack pointer
    [handler_esp]. *)
Definition double_fault_report (im : Image.Image) (t : Tss.TssState) (handler_esp : Z)
  : list string * Control :=
  let i := Tss.interrupted_state t in
  let '(bottom, top) := Tss.double_fault_stack_range im in
  ([""; "*** CPU EXCEPTION #" +:+ Fmt.dec DOUBLE_FAULT +:+ ": double fault";
    "    interrupted: eip=" +:+ Fmt.hex 10 (Tss.i_eip i) +:+ " cs=" +:+ Fmt.hex 6 (Tss.i_cs i)
      +:+ " eflags=" +:+ Fmt.hex 10 (Tss.i_eflags i);
    "    interrupted stack: esp=" +:+ Fmt.hex 10 (Tss.i_esp i) +:+ " ebp=" +:+ Fmt.hex 10 (Tss.i_ebp i)
      +:+ " ss=" +:+ Fmt.hex 6 (Tss.i_ss i);
    "    handler stack: esp=" +:+ Fmt.hex 10 handler_esp +:+ " in private " +:+ Fmt.hex 10 bottom
      +:+ ".." +:+ Fmt.hex 10 top;
    "    switched from TSS " +:+ Fmt.hex 6 (Tss.i_previous_task_link i) +:+ " via task gate";
    "    Halted - this exception is not recoverable."], Halt).

End Exceptions.

(** ** [interrupts.rs] *)
Module Interrupts.
Import Machine Idt Exceptions.

Definition EXCEPTION_VECTOR_COUNT : Z := 32.

(** [UNHANDLED_TOTAL] and [REPORTED]. *)
Record IState := mkIState { unhandled_total : Z; reported : list Z }.

Definition stub_row (e : Entries) (b : Z) : list Z :=
  (fun k => unhandled e (b + k)) <$> zrange 0 16.
Definition STUB_ROWS (e : Entries) : list (list Z) :=
  stub_row e <$> [0x00; 0x10; 0x20; 0x30; 0x40; 0x50; 0x60; 0x70;
                  0x80; 0x90; 0xa0; 0xb0; 0xc0; 0xd0; 0xe0; 0xf0].
Definition stub (e : Entries) (vector : Z) : Z :=
  STUB_ROWS e !!! Z.to_nat (Z.shiftr vector 4) !!! Z.to_nat (Z.land vector 0x0f).

Definition error_code_stub (e : Entries) (vector : Z) : option Z :=
  if bool_decide (vector ∈ [8; 10; 11; 12; 13; 14; 17; 21; 29; 30])
  then Some (unhandled_with_error_code e vector) else None.

(** The body of the loop over all vectors in [init]. *)
Definition fill_vector (e : Entries) (s : list Gate * nat) (vector : Z) : list Gate * nat :=
  let '(idt, installed) := s in
  if has_handler idt vector then (idt, installed)
  else (match error_code_stub e vector with
        | Some handler => set_gate idt vector handler
        | None => set_gate idt vector (stub e vector)
        end, S installed).

Definition init (e : Entries) (s : IState) (idt : list Gate) : IState * list Gate * nat :=
  let s := mkIState 0 ((fun _ => 0) <$> reported s) in
  let '(idt, installed) := fold_left (fill_vector e) (range_list 0 256) (idt, 0%nat) in
  (s, idt, installed).

Definition enable (cpu : Cpu) : Cpu := {| cpu with if_flag := true |}.
Definition enabled (cpu : Cpu) : bool := if_flag cpu.
Definition unhandled_count (s : IState) : Z := unhandled_total s.

Definition mark_reported (s : IState) (vector : Z) : IState * bool :=
  let bit := Z.shiftl 1 (vector mod 32) in
  let i := Z.to_nat (vector / 32) in
  let word := reported s !!! i in
  ({| s with reported := <[i := Z.lor word bit]> (reported s) |}, has_bits word bit).

Definition exception_name (vector : Z) : string :=
  match vector with
  | 0 => "divide error" | 1 => "debug" | 2 => "non-maskable interrupt" | 3 => "breakpoint"
  | 4 => "overflow" | 5 => "bound range exceeded" | 6 => "invalid opcode"
  | 7 => "device not available" | 8 => "double fault" | 9 => "coprocessor segment overrun"
  | 10 => "invalid TSS" | 11 => "segment not present" | 12 => "stack-segment fault"
  | 13 => "general protection fault" | 14 => "page fault" | 16 => "x87 floating-point error"
  | 17 => "alignment check" | 18 => "machine check" | 19 => "SIMD floating-point exception"
  | 20 => "virtualization exception" | 21 => "control protection exception"
  | 28 => "hypervisor injection exception" | 29 => "VMM communication exception"
  | 30 => "security exception"
  | _ => "reserved exception"
  end.

(** The lines of one catch-all report. *)
Definition dispatch_lines (vector : Z) (error_code : option Z) (frame : StackFrame)
    (irq : option Z) (spurious : option bool) : list string :=
  let head := "*** UNHANDLED INTERRUPT #" +:+ Fmt.dec vector +:+ ": " in
  let first :=
    match irq, spurious with
    | Some irq, Some true => head +:+ "spurious IRQ" +:+ Fmt.dec irq
    | Some irq, _ => head +:+ "IRQ" +:+ Fmt.dec irq +:+ ", no driver"
    | None, _ => if vector <? EXCEPTION_VECTOR_COUNT then head +:+ exception_name vector
                 else head +:+ "no handler"
    end in
  let ending :=
    if vector <? EXCEPTION_VECTOR_COUNT
    then ["    Halted - an unhandled CPU exception cannot be resumed."]
    else [(if bool_decide (spurious = Some true) then "    Resuming - spurious, so the PIC got no EOI."
           else if bool_decide (irq <> None) then "    Resuming - the IRQ was acknowledged and dropped."
           else "    Resuming - nothing can raise this vector but the kernel.");
          "    Further reports for this vector are suppressed."] in
  "" :: first :: frame_line error_code frame :: ending.

Section dispatch.
Context {D : Type} `{PortIO D}.

Definition dispatch (s : IState) (d : D) (vector : Z) (error_code : option Z) (frame : StackFrame)
  : IState * D * list string * Control :=
  let s := {| s with unhandled_total := wrapping_add_u32 (unhandled_total s) 1 |} in
  let '(s, already_reported) := mark_reported s vector in
  let irq := Pic.irq_of_vector vector in
  let '(d, spurious) :=
    match irq with
    | Some irq => let '(d, ack) := Pic.end_of_interrupt d irq in
                  (d, Some (match ack with Pic.Spurious => true | Pic.Serviced => false end))
    | None => (d, None)
    end in
  let lines := if negb already_reported
               then dispatch_lines vector error_code frame irq spurious else [] in
  (s, d, lines, if vector <? EXCEPTION_VECTOR_COUNT then Halt else Resume).

End dispatch.
End Interrupts.
