(* ===== verification/InterruptFacts.v ===== *)
(** * Every vector goes somewhere, and each report happens once *)

From S2P Require Import Prelude.
From S2P Require Import Machine.
From S2P Require Import Descriptors.
From S2P Require Import DescriptorFacts.
From S2P Require Import Pic.
From S2P Require Import Interrupts.
#[local] Open Scope Z_scope.

Module InterruptFacts.
Import Machine Idt Hw Exceptions Interrupts.

Lemma filter_all_true {A} (f : A -> bool) (l : list A) :
  (forall x, In x l -> f x = true) -> List.filter f l = l.
Proof.
  induction l as [|x l IH]; intros Hf; simpl; [done|].
  rewrite (Hf x (or_introl eq_refl)), IH; [done|]. intros y Hy. apply Hf. by right.
Qed.

(** ** The stub table *)

Lemma stub_spec e v : 0 <= v < 256 -> stub e v = unhandled e v.
Proof.
  intros Hv. assert (stub e <$> zrange 0 256 = unhandled e <$> zrange 0 256) as Heq
    by (vm_compute; reflexivity).
  apply (f_equal (.!! Z.to_nat v)) in Heq.
  rewrite !list_lookup_fmap, lookup_zrange in Heq by lia. simpl in Heq.
  rewrite Z2Nat.id in Heq by lia. by injection Heq.
Qed.

(** The entry point a vector's catch-all must have: with an error code exactly
    for the vectors that push one. *)
Definition entry_for (e : Entries) (v : Z) : Z :=
  if bool_decide (v ∈ [8; 10; 11; 12; 13; 14; 17; 21; 29; 30])
  then unhandled_with_error_code e v else unhandled e v.

Definition catch_all (e : Entries) (v : Z) : Gate :=
  interrupt (as_u32 (entry_for e v)) Tss.KERNEL_CODE_SELECTOR.

Lemma fill_vector_step e idt n v :
  0 <= v < 256 ->
  fill_vector e (idt, n) v =
  if has_handler idt v then (idt, n) else (<[Z.to_nat v := catch_all e v]> idt, S n).
Proof.
  intros Hv. unfold fill_vector, error_code_stub, set_gate, catch_all, entry_for.
  rewrite stub_spec by done. destruct (has_handler idt v); [done|]. by case_bool_decide.
Qed.

Lemma lookup_gate_insert (idt : list Gate) i v (g : Gate) :
  length idt = 256%nat -> 0 <= i < 256 -> 0 <= v < 256 ->
  <[Z.to_nat i := g]> idt !!! Z.to_nat v = if decide (v = i) then g else idt !!! Z.to_nat v.
Proof.
  intros Hl Hi Hv. case_decide as He.
  - subst. apply list_lookup_total_insert_eq. lia.
  - apply list_lookup_total_insert_ne. lia.
Qed.

Definition gap (idt : list Gate) (v : Z) : Prop := has_handler idt v = false.
#[export] Instance gap_dec idt v : Decision (gap idt v).
Proof. unfold gap. apply _. Defined.

(** The loop fills exactly the gaps. *)
Lemma fill_spec e l idt n :
  length idt = 256%nat -> NoDup l -> (forall v, v ∈ l -> 0 <= v < 256) ->
  exists idt', fold_left (fill_vector e) l (idt, n) = (idt', (n + length (filter (gap idt) l))%nat) /\
    length idt' = 256%nat /\
    (forall v, 0 <= v < 256 -> idt' !!! Z.to_nat v =
       if decide (v ∈ l /\ gap idt v) then catch_all e v else idt !!! Z.to_nat v).
Proof.
  revert idt n. induction l as [|i l IH]; intros idt n Hlen Hnd Hl; cbn [fold_left].
  { exists idt. simpl. rewrite Nat.add_0_r. split_and!; done. }
  apply NoDup_cons in Hnd as [Hni Hnd].
  pose proof (Hl i (list_elem_of_here _ _)) as Hi. rewrite fill_vector_step by done.
  assert (forall v, v ∈ l -> 0 <= v < 256) as Hl' by (intros v Hv; apply Hl; by apply list_elem_of_further).
  destruct (has_handler idt i) eqn:Hh.
  - destruct (IH idt n Hlen Hnd Hl') as (idt' & -> & Hlen' & Hg). exists idt'.
    rewrite filter_cons_False by (unfold gap; congruence). split_and!; try done.
    intros v Hv. rewrite Hg by done. apply decide_ext. rewrite elem_of_cons.
    split; [tauto|]. intros [[->|?] Hgap]; [unfold gap in Hgap; congruence|done].
  - set (idt1 := <[Z.to_nat i := catch_all e i]> idt).
    assert (length idt1 = 256%nat) as Hlen1 by (unfold idt1; by rewrite length_insert).
    assert (forall v, 0 <= v < 256 -> v <> i -> has_handler idt1 v = has_handler idt v) as Hsame.
    { intros v Hv Hne. unfold has_handler, idt1. rewrite lookup_gate_insert by done. by rewrite decide_False. }
    destruct (IH idt1 (S n) Hlen1 Hnd Hl') as (idt' & -> & Hlen' & Hg). exists idt'.
    assert (filter (gap idt1) l = filter (gap idt) l) as ->.
    { apply filter_ext_in. intros v Hv. unfold gap. rewrite Hsame; [done|auto|]. by intros ->. }
    rewrite filter_cons_True by done. simpl. rewrite Nat.add_succ_r. split_and!; try done.
    intros v Hv. rewrite Hg by done. unfold idt1. rewrite lookup_gate_insert by done.
    destruct (decide (v = i)) as [->|Hne].
    + rewrite (decide_False (P := i ∈ l /\ _)) by tauto.
      rewrite decide_True; [done|]. split; [apply list_elem_of_here|done].
    + apply decide_ext. unfold gap. rewrite Hsame by done. rewrite elem_of_cons. tauto.
Qed.

Lemma fill_all e idt :
  length idt = 256%nat ->
  exists idt', fold_left (fill_vector e) (range_list 0 256) (idt, 0%nat) =
      (idt', length (filter (gap idt) (range_list 0 256))) /\
    length idt' = 256%nat /\
    (forall v, 0 <= v < 256 -> idt' !!! Z.to_nat v =
       if has_handler idt v then idt !!! Z.to_nat v else catch_all e v).
Proof.
  intros Hlen. destruct (fill_spec e (range_list 0 256) idt 0 Hlen) as (idt' & Hf & Hl & Hg).
  { apply NoDup_range_list. }
  { intros v. by rewrite elem_of_range_list. }
  exists idt'. split_and!; try done. intros v Hv. rewrite Hg by done.
  case_decide as Hd.
  - destruct Hd as [_ Hgap]. unfold gap in Hgap. by rewrite Hgap.
  - destruct (has_handler idt v) eqn:Hh; [done|]. destruct Hd. by rewrite elem_of_range_list.
Qed.

(** ** The whole table *)

(** [idt::init], [exceptions::init], [interrupts::init], in boot order. *)
Definition build_idt (im : Image.Image) (e : Entries) (s : IState) (idt : list Gate) (cpu : Cpu)
  : IState * list Gate * nat * Cpu :=
  let '(idt, cpu) := Idt.init im idt cpu in
  let idt := Exceptions.init e idt in
  let '(s, idt, installed) := Interrupts.init e s idt in
  (s, idt, installed, cpu).

(** Where each vector must lead. *)
Definition expected (e : Entries) (v : Z) : target :=
  if v =? 8 then ToTask Gdt.DOUBLE_FAULT_TSS_SELECTOR
  else ToOffset Tss.KERNEL_CODE_SELECTOR
    (if v =? 0 then divide_error e
     else if v =? 6 then invalid_opcode e
     else if v =? 13 then general_protection_fault e
     else entry_for e v).

(** Function addresses are 32-bit. *)
Record entries_u32 (e : Entries) : Prop := {
  eu_divide : is_u32 (divide_error e);
  eu_opcode : is_u32 (invalid_opcode e);
  eu_gp : is_u32 (general_protection_fault e);
  eu_unhandled : forall v, is_u32 (unhandled e v);
  eu_unhandled_error : forall v, is_u32 (unhandled_with_error_code e v)
}.

Lemma missing_table (idt : list Gate) :
  length idt = 256%nat -> ((fun _ => MISSING) <$> idt) = replicate 256 MISSING.
Proof. intros Hl. rewrite <-Hl. clear Hl. induction idt; csimpl; [done|]. by f_equal. Qed.

Lemma exceptions_table e v :
  0 <= v < 256 ->
  let idt := Exceptions.init e (replicate 256 MISSING) in
  idt !!! Z.to_nat v =
    (if v =? 8 then task Gdt.DOUBLE_FAULT_TSS_SELECTOR
     else if v =? 13 then interrupt (as_u32 (general_protection_fault e)) Tss.KERNEL_CODE_SELECTOR
     else if v =? 6 then interrupt (as_u32 (invalid_opcode e)) Tss.KERNEL_CODE_SELECTOR
     else if v =? 0 then interrupt (as_u32 (divide_error e)) Tss.KERNEL_CODE_SELECTOR
     else MISSING).
Proof.
  intros Hv. cbv zeta. unfold Exceptions.init, set_task_gate, set_gate.
  unfold DOUBLE_FAULT, GENERAL_PROTECTION_FAULT, INVALID_OPCODE, DIVIDE_ERROR.
  rewrite !lookup_gate_insert by (rewrite ?length_insert, ?length_replicate; done || lia).
  rewrite lookup_total_replicate_2 by lia.
  destruct (Z.eqb_spec v 8), (Z.eqb_spec v 13), (Z.eqb_spec v 6), (Z.eqb_spec v 0);
    repeat case_decide; try lia; done.
Qed.

(** The catch-all on top of the exception handlers. *)
Lemma catch_all_ok (e : Entries) (s : IState) : entries_u32 e ->
  exists idt', Interrupts.init e s (Exceptions.init e (replicate 256 MISSING)) =
      (mkIState 0 ((fun _ => 0) <$> reported s), idt', 252%nat) /\
    length idt' = 256%nat /\
    (forall v, 0 <= v < 256 -> gate_target (idt' !!! Z.to_nat v) = expected e v).
Proof.
  intros He. set (idt1 := Exceptions.init e (replicate 256 MISSING)).
  assert (length idt1 = 256%nat) as Hl1.
  { unfold idt1, Exceptions.init, set_task_gate, set_gate. by rewrite !length_insert. }
  destruct (fill_all e idt1 Hl1) as (idt' & Hf & Hl' & Hg). unfold Interrupts.init.
  rewrite Hf. change (length (filter (gap idt1) (range_list 0 256))) with 252%nat.
  exists idt'. split; [done|]. split; [done|].
  intros v Hv. rewrite Hg by done. unfold has_handler, idt1. rewrite exceptions_table by done.
  unfold expected, catch_all, entry_for.
  destruct (Z.eqb_spec v 8); [done|]. destruct (Z.eqb_spec v 13).
  { subst. simpl. rewrite as_u32_id by apply He. apply DescriptorFacts.gate_target_interrupt, He. }
  destruct (Z.eqb_spec v 6).
  { subst. simpl. rewrite as_u32_id by apply He. apply DescriptorFacts.gate_target_interrupt, He. }
  destruct (Z.eqb_spec v 0).
  { subst. simpl. rewrite as_u32_id by apply He. apply DescriptorFacts.gate_target_interrupt, He. }
  change (is_present MISSING) with false. cbv iota.
  assert (is_u32 (entry_for e v)) as Hu by (unfold entry_for; case_bool_decide; apply He).
  unfold entry_for in Hu. rewrite as_u32_id by done. by apply DescriptorFacts.gate_target_interrupt.
Qed.

(** C31: Once [kmain] has built the table - [exceptions::init] and then the
    catch-all of [interrupts::init], before the timer and keyboard drivers take
    over vectors 32 and 33 (see [kernel_boots]) - every one of the 256 vectors
    leads somewhere: the three registered exceptions to their handlers, vector 8
    through the task gate to the double-fault TSS, and each of the remaining 252
    to the catch-all instance of that very vector, with the entry shape (error
    code or not) the CPU uses for it. [init] reports 252 installed and the CPU points at
    the table. *)
Theorem every_vector_handled (im : Image.Image) (e : Entries) (s : IState) (idt : list Gate) (cpu : Cpu) :
  length idt = 256%nat -> entries_u32 e ->
  exists s' idt' cpu', build_idt im e s idt cpu = (s', idt', 252%nat, cpu') /\
    (forall v, 0 <= v < 256 -> gate_target (idt' !!! Z.to_nat v) = expected e v) /\
    l_handlers (loaded cpu' idt') = 256%nat /\ loaded_entries (loaded cpu' idt') = 256 /\
    l_base (loaded cpu' idt') = Image.idt_addr im /\
    unhandled_total s' = 0 /\ Forall (fun w => w = 0) (reported s').
Proof.
  intros Hlen He. unfold build_idt. cbn [Idt.init]. unfold Idt.init. rewrite missing_table by done.
  destruct (catch_all_ok e s He) as (idt' & -> & Hl' & Ht). eexists _, idt', _. split; [done|].
  split; [exact Ht|]. split; [|split; [reflexivity|split; [reflexivity|split; [reflexivity|]]]].
  - cbn [loaded l_handlers]. rewrite <-Hl'. f_equal. apply filter_all_true.
    intros g Hg'. apply list_elem_of_In, list_elem_of_lookup in Hg' as [i Hi].
    pose proof (lookup_lt_Some _ _ _ Hi). specialize (Ht (Z.of_nat i) ltac:(lia)).
    rewrite Nat2Z.id, (list_lookup_total_correct _ _ _ Hi) in Ht. unfold gate_target in Ht.
    destruct (is_present g); [done|]. unfold expected in Ht. simpl in Ht. by destruct (_ =? 8).
  - apply Forall_fmap, Forall_true. done.
Qed.

Definition demo_entries : Entries :=
  mkEntries 0x10000 0x10010 0x10020 0x10030 (fun v => 0x20000 + 16 * (v mod 256))
    (fun v => 0x30000 + 16 * (v mod 256)).
Definition demo_image : Image.Image :=
  Image.mkImage 0x18000 0x18080 0x18100 0x19000 0x1a000 0x1b000.

Lemma demo_entries_u32 : entries_u32 demo_entries.
Proof.
  split; [split; reflexivity || discriminate..| |]; intros v; unfold is_u32; cbn;
    pose proof (Z.mod_pos_bound v 256 ltac:(lia)); lia.
Qed.

Lemma every_vector_handled_witness :
  exists s' idt' cpu',
    build_idt demo_image demo_entries (mkIState 7 (replicate 8 3)) (replicate 256 (task 99)) boot_cpu =
      (s', idt', 252%nat, cpu') /\ gate_target (idt' !!! 14%nat) = ToOffset 8 (0x30000 + 16 * 14).
Proof.
  pose proof (every_vector_handled demo_image demo_entries (mkIState 7 (replicate 8 3))
    (replicate 256 (task 99)) boot_cpu (length_replicate 256 (task 99)) demo_entries_u32) as Hev.
  destruct Hev as (s' & idt' & cpu' & Hb & Ht & _).
  exists s', idt', cpu'. split; [exact Hb|]. specialize (Ht 14 ltac:(lia)).
  change (Z.to_nat 14) with 14%nat in Ht. rewrite Ht. vm_compute. reflexivity.
Defined.

(** ** The catch-all *)

Definition is_reported (s : IState) (v : Z) : bool :=
  Z.testbit (reported s !!! Z.to_nat (v / 32)) (v mod 32).

Lemma mark_reported_spec s v :
  0 <= v < 256 -> length (reported s) = 8%nat ->
  let '(s', b) := mark_reported s v in
  b = is_reported s v /\ unhandled_total s' = unhandled_total s /\ length (reported s') = 8%nat /\
  (forall w, 0 <= w < 256 -> is_reported s' w = (w =? v) || is_reported s w).
Proof.
  intros Hv Hl. unfold mark_reported. cbv beta iota zeta.
  pose proof (Z.mod_pos_bound v 32 ltac:(lia)) as Hm.
  split_and!; [apply PicFacts.has_bits_testbit; lia|done|cbn [reported]; by rewrite length_insert|].
  intros w Hw. unfold is_reported. cbn [reported].
  pose proof (Z.div_mod v 32 ltac:(lia)) as Hdv. pose proof (Z.div_mod w 32 ltac:(lia)) as Hdw.
  pose proof (Z.mod_pos_bound w 32 ltac:(lia)) as Hmw.
  assert (0 <= v / 32 < 8 /\ 0 <= w / 32 < 8) as [? ?] by lia.
  destruct (decide (w / 32 = v / 32)) as [He|Hne].
  - rewrite He, list_lookup_total_insert_eq by lia.
    rewrite Z.lor_spec, Z.shiftl_1_l, Z.pow2_bits_eqb by lia.
    destruct (Z.eqb_spec (v mod 32) (w mod 32)), (Z.eqb_spec w v); try lia;
      rewrite ?orb_true_r, ?orb_false_r; simpl; try done; subst; lia.
  - rewrite list_lookup_total_insert_ne by lia.
    destruct (Z.eqb_spec w v); [subst; lia|done].
Qed.

Section dispatch.
Context {D : Type} `{PortIO D}.

(** C33: The catch-all, on every vector: the count goes up by one (modulo 2^32);
    the vector is marked and no other vector's mark changes; a report is
    printed exactly when the vector was not marked before; an IRQ vector is
    acknowledged at the controllers and any other vector leaves the devices
    alone; and the kernel halts exactly for the CPU's own exceptions. *)
Theorem dispatch_reports_once (s : IState) (d : D) (v : Z) (error_code : option Z) (frame : StackFrame) :
  0 <= v < 256 -> length (reported s) = 8%nat ->
  let '(s', d', lines, control) := dispatch s d v error_code frame in
  unhandled_total s' = (unhandled_total s + 1) mod 2 ^ 32 /\
  length (reported s') = 8%nat /\
  (forall w, 0 <= w < 256 -> is_reported s' w = (w =? v) || is_reported s w) /\
  (lines = [] <-> is_reported s v = true) /\
  (if (32 <=? v) && (v <=? 47) then d' = fst (Pic.end_of_interrupt d (v - 32)) else d' = d) /\
  (control = Halt <-> v < 32).
Proof.
  intros Hv Hl. unfold dispatch.
  set (s1 := {| s with unhandled_total := _ |}).
  pose proof (mark_reported_spec s1 v Hv Hl) as Hm. destruct (mark_reported s1 v) as [s2 b].
  destruct Hm as (-> & Ht & Hl2 & Hw). change (is_reported s1 v) with (is_reported s v).
  unfold Pic.irq_of_vector, EXCEPTION_VECTOR_COUNT.
  change Pic.IRQ_VECTOR_LAST with 47. change Pic.IRQ_VECTOR_BASE with 32. destruct ((32 <=? v) && (v <=? 47)).
  - destruct (Pic.end_of_interrupt d (v - 32)) as [d' ack]. cbv beta iota zeta.
    split_and!; try done.
    + by destruct (is_reported s v).
    + destruct (Z.ltb_spec v 32); split; done || lia.
  - cbv beta iota zeta. split_and!; try done.
    + by destruct (is_reported s v).
    + destruct (Z.ltb_spec v 32); split; done || lia.
Qed.

End dispatch.

#[local] Existing Instance PicHw.Pair_io.

Lemma dispatch_reports_once_witness :
  let '(_, _, lines, control) :=
    dispatch (mkIState 0 (replicate 8 0)) PicFacts.bios_pair 0x60 None (mkFrame 0x10123 8 0x202) in
  lines <> [] /\ control = Resume.
Proof.
  pose proof (dispatch_reports_once (mkIState 0 (replicate 8 0)) PicFacts.bios_pair 0x60 None
    (mkFrame 0x10123 8 0x202) ltac:(lia) eq_refl) as H.
  destruct (dispatch _ _ _ _ _) as [[[s' d'] lines] control] eqn:Hd.
  destruct H as (_ & _ & _ & Hl & _ & Hc). split.
  - intros ->. destruct Hl as [Hl _]. specialize (Hl eq_refl). vm_compute in Hl. discriminate Hl.
  - destruct control; [reflexivity|]. destruct Hc as [Hc _]. specialize (Hc eq_refl). lia.
Defined.

(** ** The double fault *)

Lemma gdt_contents im gdt cpu :
  length gdt = 5%nat ->
  Gdt.init im gdt cpu =
    ([Gdt.NULL; Gdt.flat Gdt.ACCESS_KERNEL_CODE; Gdt.flat Gdt.ACCESS_KERNEL_DATA;
      Z.lor (Gdt.tss_descriptor (Tss.main_task im)) (Z.shiftl 1 41);
      Gdt.tss_descriptor (Tss.double_fault_task im)],
     {| (Gdt.load cpu (mkPointer 39 (Image.gdt_addr im))) with tr := Gdt.MAIN_TSS_SELECTOR |}).
Proof.
  intros Hl. do 5 (destruct gdt as [|? gdt]; [done|]). destruct gdt; [|done]. reflexivity.
Qed.

(** C32: After [tss::init], [gdt::init] and the IDT is built, a double fault is
    survivable whatever the interrupted stack: vector 8 of the table is a task
    gate whose selector names a TSS descriptor that is available, has the exact
    104-byte limit and the address of the double-fault TSS; that TSS starts
    [double_fault_entry] on the top of the private stack with interrupts off,
    with CS the flat code segment and SS, DS, ES, FS and GS the flat data
    segment; and the task register names the other TSS, which is marked busy,
    so the interrupted registers are saved there. *)
Theorem double_fault_runs_on_private_stack (im : Image.Image) (e : Entries) (t : Tss.TssState)
    (gdt : list Z) (s : IState) (idt : list Gate) (cpu : Cpu) :
  length gdt = 5%nat -> is_u32 (Image.main_tss_addr im) -> is_u32 (Image.double_fault_tss_addr im) ->
  is_u32 (double_fault_entry e) -> length idt = 256%nat -> entries_u32 e ->
  let tss := Tss.init im t (double_fault_entry e) in
  let '(gdt', cpu') := Gdt.init im gdt cpu in
  let '(_, idt', _, cpu'') := build_idt im e s idt cpu' in
  let df := Tss.double_fault tss in
  let d := descriptor_of gdt' Gdt.DOUBLE_FAULT_TSS_SELECTOR in
  let m := descriptor_of gdt' (tr cpu'') in
  gate_target (idt' !!! Z.to_nat DOUBLE_FAULT) = ToTask Gdt.DOUBLE_FAULT_TSS_SELECTOR /\
  (d_base d = Image.double_fault_tss_addr im /\ segment_last d = 103 /\ d_access d = 0x89) /\
  (d_base m = Image.main_tss_addr im /\ segment_last m = 103 /\ d_access m = 0x8b) /\
  (Tss.t_eip df = double_fault_entry e /\ Tss.t_esp df = Image.double_fault_stack_top im /\
   Z.testbit (Tss.t_eflags df) 9 = false) /\
  (d_base (descriptor_of gdt' (Tss.t_cs df)) = 0 /\
   segment_last (descriptor_of gdt' (Tss.t_cs df)) = U32_MAX /\
   d_access (descriptor_of gdt' (Tss.t_cs df)) = 0x9a) /\
  (forall sel, sel ∈ [Tss.t_ss df; Tss.t_ds df; Tss.t_es df; Tss.t_fs df; Tss.t_gs df] ->
   d_base (descriptor_of gdt' sel) = 0 /\ segment_last (descriptor_of gdt' sel) = U32_MAX /\
   d_access (descriptor_of gdt' sel) = 0x92) /\
  cs cpu'' = Tss.t_cs df /\ ss cpu'' = Tss.t_ss df.
Proof.
  intros Hl Hm Hd He Hli Heu. rewrite gdt_contents by done. cbv beta iota zeta.
  unfold build_idt, Idt.init. rewrite missing_table by done. cbv beta iota zeta.
  destruct (catch_all_ok e s Heu) as (idt' & -> & _ & Ht). cbv beta iota zeta.
  split; [exact (Ht 8 ltac:(lia))|]. unfold descriptor_of.
  change (Z.to_nat (Z.shiftr Gdt.DOUBLE_FAULT_TSS_SELECTOR 3)) with 4%nat.
  cbn [tr cs ss]. change (Z.to_nat (Z.shiftr Gdt.MAIN_TSS_SELECTOR 3)) with 3%nat.
  change (Z.to_nat (Z.shiftr (Tss.t_cs _) 3)) with 1%nat.
  change ([?a; ?b; ?c; ?d; ?f] !!! 4%nat) with f. change ([?a; ?b; ?c; ?d; ?f] !!! 3%nat) with d.
  change ([?a; ?b; ?c; ?d; ?f] !!! 1%nat) with b.
  split; [apply (DescriptorFacts.tss_descriptor_decodes _ Hd)|].
  split; [apply (DescriptorFacts.busy_tss_decodes _ Hm)|].
  split; [split; [by apply as_u32_id|split; reflexivity]|].
  split; [vm_compute; auto|]. split; [|split; reflexivity].
  intros sel Hsel. assert (sel = 16) as ->; [|vm_compute; auto].
  rewrite !elem_of_cons, elem_of_nil in Hsel. by destruct_or! Hsel.
Qed.

Lemma double_fault_runs_on_private_stack_witness :
  Tss.t_esp (Tss.double_fault (Tss.init demo_image (Tss.mkTssState Tss.EMPTY Tss.EMPTY)
    (double_fault_entry demo_entries))) = 0x1b000.
Proof.
  pose proof (double_fault_runs_on_private_stack demo_image demo_entries
    (Tss.mkTssState Tss.EMPTY Tss.EMPTY) (replicate 5 0) (mkIState 0 (replicate 8 0))
    (replicate 256 (task 99)) boot_cpu eq_refl
    ltac:(split; reflexivity || discriminate) ltac:(split; reflexivity || discriminate)
    ltac:(split; reflexivity || discriminate) (length_replicate 256 (task 99)) demo_entries_u32) as Hdf.
  destruct (Gdt.init _ _ _) as [gdt' cpu']. destruct (build_idt _ _ _ _ _) as [[[s' idt'] n] cpu''].
  destruct Hdf as (_ & _ & _ & (_ & Hesp & _) & _). exact Hesp.
Defined.

End InterruptFacts.
