(* ===== verification/FrameSource.v ===== *)
(** * What the frame allocator promises to its clients

    [FrameSource] is the operation paging uses, [FrameSourceLaws] the promise:
    an allocation succeeds exactly while frames are left, hands out a frame
    nobody holds, never frame 0, below a known limit, and writes to held frames
    do not disturb the source. The frame allocator is an instance. *)

From S2P Require Import Prelude.
From S2P Require Import MemMap.
From S2P Require Import FrameAlloc.
From S2P Require Import FramePool.
From S2P Require Import FrameNew.
From S2P Require Import FrameSpec.
#[local] Open Scope Z_scope.

Module FrameSource.
Import Frame.

Class FrameSource (A : Type) := fs_allocate : A -> mem -> outcome (A * option Frame).

(** [fs_ok a m limit held n]: the frames in [held] are handed out, [n] more can
    be, all below [limit]. *)
Class FrameSourceLaws (A : Type) `{FrameSource A} := {
  fs_ok : A -> mem -> Z -> gset Z -> nat -> Prop;
  fs_some a m limit held n : fs_ok a m limit held (S n) ->
    exists a' f, fs_allocate a m = Done (a', Some f) /\ index f ∉ held /\
      0 < index f /\ (index f + 1) * FRAME_SIZE <= limit /\
      fs_ok a' m limit ({[index f]} ∪ held) n;
  fs_none a m limit held : fs_ok a m limit held 0 ->
    exists a', fs_allocate a m = Done (a', None) /\ fs_ok a' m limit held 0;
  fs_write a m limit held n i x v : fs_ok a m limit held n -> i ∈ held ->
    i * FRAME_SIZE <= x < (i + 1) * FRAME_SIZE -> fs_ok a (m.[x <- v]) limit held n;
  fs_limit a m limit held n : fs_ok a m limit held n -> limit <= 2 ^ 32
}.

(** ** The frame allocator is such a source *)
Import Pool FrameFacts FrameSpec.

#[export] Instance allocator_source : FrameSource FrameAllocator := allocate.

(** [Q] is any further fact about allocator and pool that allocations keep;
    [R] says which frames may be held though they are not of the pool (frames
    the source can never hand out). *)
Section with_fact.
Context (R : Z -> Prop) (Q : FrameAllocator -> pool -> Prop).
Context (HQ : forall a b p, same_layout a b -> Q a p -> Q b (pool_alloc p).2).

Definition allocator_ok (a : FrameAllocator) (m : mem) (limit : Z) (held : gset Z) (n : nat) : Prop :=
  limit <= 2 ^ 32 /\ exists p, represents a m p /\ length (avail p) = n /\
    (forall i, i ∈ p_all p -> 0 < i /\ (i + 1) * FRAME_SIZE <= limit) /\
    (forall i, i ∈ held -> (i ∈ p_all p \/ R i) /\ i ∉ avail p) /\ Q a p.

Lemma allocator_some a m limit held n :
  allocator_ok a m limit held (S n) ->
  exists a' f, allocate a m = Done (a', Some f) /\ index f ∉ held /\
    0 < index f /\ (index f + 1) * FRAME_SIZE <= limit /\
    allocator_ok a' m limit ({[index f]} ∪ held) n.
Proof.
  intros (Hlim & p & Hrep & Hn & Hb & Hheld & Hq).
  destruct (avail p) as [|i l] eqn:Hav; [done|].
  destruct (allocate_sim a m p Hrep) as (a' & Hal & Hrep' & Hlay & _). apply (HQ a a' p Hlay) in Hq.
  destruct (pool_alloc_cons p i l Hav) as (p' & Hp & Hav' & Hall). rewrite Hp in *.
  pose proof (NoDup_avail _ _ _ Hrep) as Hnd. rewrite Hav in Hnd. apply NoDup_cons in Hnd as [Hni _].
  assert (i ∈ p_all p) as Hi.
  { apply (avail_managed a m p i Hrep). rewrite Hav. apply list_elem_of_here. }
  exists a', (from_index i). split; [exact Hal|]. simpl. destruct (Hb i Hi) as [? ?].
  split_and!; [|done|done|].
  - intros Hh. destruct (Hheld i Hh) as [_ Hn']. apply Hn', list_elem_of_here.
  - split; [done|]. exists p'. split; [exact Hrep'|]. rewrite Hav', Hall.
    split; [simpl in Hn; lia|]. split; [done|]. split; [|exact Hq].
    intros j [->%elem_of_singleton|Hj]%elem_of_union; [split; [by left|done]|].
    destruct (Hheld j Hj) as [? Hnj]. split; [done|]. intros ?. by apply Hnj, list_elem_of_further.
Qed.

Lemma allocator_none a m limit held :
  allocator_ok a m limit held 0 ->
  exists a', allocate a m = Done (a', None) /\ allocator_ok a' m limit held 0.
Proof.
  intros (Hlim & p & Hrep & Hn & Hb & Hheld & Hq). apply nil_length_inv in Hn.
  destruct (allocate_sim a m p Hrep) as (a' & Hal & Hrep' & Hlay & _). apply (HQ a a' p Hlay) in Hq.
  rewrite (pool_alloc_nil p Hn) in *. exists a'. split; [exact Hal|]. split; [done|].
  exists p. rewrite Hn in *. done.
Qed.

Lemma allocator_write a m limit held n i x v :
  allocator_ok a m limit held n -> i ∈ held ->
  i * FRAME_SIZE <= x < (i + 1) * FRAME_SIZE -> allocator_ok a (m.[x <- v]) limit held n.
Proof.
  intros (Hlim & p & Hrep & Hn & Hb & Hheld & Hq) Hi Hx. split; [done|]. exists p.
  split; [|done]. apply represents_store; [done|]. intros j Hj ->.
  pose proof (chain_bounds _ _ _ _ (rp_chain _ _ _ Hrep) Hj) as Hbj.
  rewrite link_of_eq in Hx by done. unfold FRAME_SIZE in Hx. destruct (Hheld i Hi) as [_ Hav].
  apply Hav, elem_of_app. left. by replace i with j by lia.
Qed.

Definition allocator_laws_with : FrameSourceLaws FrameAllocator.
Proof.
  refine {| fs_ok := allocator_ok |}.
  - exact allocator_some.
  - exact allocator_none.
  - exact allocator_write.
  - by intros a m limit held n [? _].
Defined.

End with_fact.

#[export] Instance allocator_laws : FrameSourceLaws FrameAllocator :=
  allocator_laws_with (fun _ => True) (fun _ _ => True) (fun _ _ _ _ _ => I).

End FrameSource.
