(* ===== verification/Paging.v ===== *)
(** * Paging ([memory/paging.rs])

    Building the identity map out of frames from any [FrameSource], turning
    paging on, and reading entries back - which, with paging on, goes through
    the very tables being read. *)

From S2P Require Import Prelude.
From S2P Require Import Fmt.
From S2P Require Import MemMap.
From S2P Require Import FrameAlloc.
From S2P Require Import FrameSource.
From S2P Require Import Machine.
From S2P Require Import Descriptors.
#[local] Open Scope Z_scope.

(** What the processor does with an address while paging is on: the two-level
    walk through the tables. *)
Module Mmu.

(** Physical address and write permission of a virtual address, or a fault. *)
Definition translate (m : mem) (cr3 v : Z) : option (Z * bool) :=
  let pde := m.[cr3 + 4 * (v / 2 ^ 22)] in
  if negb (Z.testbit pde 0) then None
  else
    let pte := m.[pde / 4096 * 4096 + 4 * (v mod 2 ^ 22 / 4096)] in
    if negb (Z.testbit pte 0) then None
    else Some (pte / 4096 * 4096 + v mod 4096, Z.testbit pde 1 && Z.testbit pte 1).

End Mmu.

Module Paging.
Import Frame FrameSource Machine.

Definition PRESENT : Z := Z.shiftl 1 0.
Definition WRITABLE : Z := Z.shiftl 1 1.
Definition KERNEL_PAGE : Z := Z.lor PRESENT WRITABLE.
Definition ENTRIES : Z := 1024.
Definition BYTES_PER_DIRECTORY_ENTRY : Z := FRAME_SIZE * ENTRIES.
Definition CR0_PG : Z := Z.shiftl 1 31.

Record Report := mkReport {
  r_cr3 : Z;
  mapped_end : Z;
  page_tables : Z;
  paging_enabled : bool;
  stack_guard : Z
}.

Definition failed : Report := mkReport 0 0 0 false 0.

Definition Report_fmt (r : Report) : string :=
  if r_cr3 r =? 0 then "Paging: FAILED (could not build an identity map)"
  else
    "Paging: identity-mapped " +:+ Fmt.hex 10 0 +:+ "-" +:+ Fmt.hex 10 (mapped_end r) +:+ " ("
      +:+ Fmt.dec (mapped_end r / (1024 * 1024)) +:+ " MiB) via " +:+ Fmt.dec (page_tables r)
      +:+ " page tables, CR3=" +:+ Fmt.hex 10 (r_cr3 r) +:+ ", PG="
      +:+ Fmt.dec (if paging_enabled r then 1 else 0)
      +:+ (if stack_guard r =? 0 then ""
           else Fmt.newline +:+ "Paging: stack guard page " +:+ Fmt.hex 10 (stack_guard r) +:+ "-"
                  +:+ Fmt.hex 10 (stack_guard r + FRAME_SIZE) +:+ " unmapped").

Definition div_ceil (a b : Z) : Z := (a + b - 1) / b.

Definition identity_map_end (map : Map.MemoryMap) : Z :=
  let end_ := fold_left (fun e region => Z.max e (Z.min (Map.end_ region) (2 ^ 32)))
                (List.filter Map.is_usable (Map.regions map)) 0 in
  if end_ =? 0 then 0
  else
    let rounded := div_ceil end_ BYTES_PER_DIRECTORY_ENTRY * BYTES_PER_DIRECTORY_ENTRY in
    as_u32 (Z.min rounded (2 ^ 32 - BYTES_PER_DIRECTORY_ENTRY)).

(** Address of entry [i] of the table in [table]. *)
Definition entry_ptr (table : Frame) (i : Z) : Z := start_address table + 4 * i.

(** The tables are written before paging is on, at their physical addresses. *)
Definition write_entry (m : mem) (table : Frame) (i v : Z) : outcome mem :=
  if i <? ENTRIES then Done (m.[entry_ptr table i <- v]) else Panicked.
(** [write_bytes(ptr, 0, FRAME_SIZE)], word by word. *)
Definition zero_frame (m : mem) (f : Frame) : mem :=
  fold_left (fun m i => m.[entry_ptr f i <- 0]) (range_list 0 ENTRIES) m.

Definition read_cr3 (cpu : Cpu) : Z := cr3 cpu.
Definition read_cr0 (cpu : Cpu) : Z := cr0 cpu.
Definition paging_is_enabled (cpu : Cpu) : bool := has_bits (read_cr0 cpu) CR0_PG.
Definition enable (cpu : Cpu) (page_directory : Z) : Cpu :=
  let cpu := {| cpu with cr3 := page_directory |} in
  {| cpu with cr0 := Z.lor (cr0 cpu) CR0_PG |}.

(** A load: with paging on the address goes through the MMU, and a page fault
    ends in the catch-all handler, which halts. *)
Definition load_at (cpu : Cpu) (m : mem) (a : Z) : outcome Z :=
  if paging_is_enabled cpu then
    match Mmu.translate m (read_cr3 cpu) a with
    | Some (phys, _) => Done (m.[phys])
    | None => Panicked
    end
  else Done (m.[a]).

Definition read_entry (cpu : Cpu) (m : mem) (table : Frame) (i : Z) : outcome Z :=
  if i <? ENTRIES then load_at cpu m (entry_ptr table i) else Panicked.

Definition is_present (cpu : Cpu) (m : mem) (virt : Z) : outcome bool :=
  let cr3 := read_cr3 cpu in
  if cr3 =? 0 then Done false
  else
    let pd_index := virt / BYTES_PER_DIRECTORY_ENTRY in
    let pt_index := virt mod BYTES_PER_DIRECTORY_ENTRY / FRAME_SIZE in
    pde ← read_entry cpu m (containing_address cr3) pd_index;
    if negb (has_bits pde PRESENT) then Done false
    else
      let table := containing_address (Z.land pde (Z.lxor U32_MAX (FRAME_SIZE - 1))) in
      pte ← read_entry cpu m table pt_index;
      Done (has_bits pte PRESENT).

(** The inner loop: one table's entries, the guard page left out. *)
Fixpoint fill_table (m : mem) (table : Frame) (base guard : Z) (pages : list Z) : outcome mem :=
  match pages with
  | [] => Done m
  | page_index :: pages =>
      off ← mul_u32 page_index FRAME_SIZE;
      phys ← add_u32 base off;
      m ← (if phys =? guard then Done m
           else write_entry m table page_index (Z.lor phys KERNEL_PAGE));
      fill_table m table base guard pages
  end.

Section init.
Context {A : Type} `{FrameSource A}.

Definition allocate_zeroed_frame (a : A) (m : mem) : outcome (A * mem * option Frame) :=
  '(a, r) ← fs_allocate a m;
  match r with
  | None => Done (a, m, None)
  | Some frame => Done (a, zero_frame m frame, Some frame)
  end.

(** The outer loop; [false] is the early return on exhaustion. *)
Fixpoint map_tables (a : A) (m : mem) (directory : Frame) (guard : Z) (tables : list Z)
  : outcome (A * mem * bool) :=
  match tables with
  | [] => Done (a, m, true)
  | table_index :: tables =>
      '(a, m, r) ← allocate_zeroed_frame a m;
      match r with
      | None => Done (a, m, false)
      | Some table =>
          base ← mul_u32 table_index BYTES_PER_DIRECTORY_ENTRY;
          m ← fill_table m table base guard (range_list 0 ENTRIES);
          m ← write_entry m directory table_index (Z.lor (start_address table) KERNEL_PAGE);
          map_tables a m directory guard tables
      end
  end.

(** [paging::init]; [guard_page] is the linker's [stack_guard_page]. *)
Definition init (map : Map.MemoryMap) (guard_page : Z) (a : A) (m : mem) (cpu : Cpu) (t : Tss.TssState)
  : outcome (A * mem * Cpu * Tss.TssState * Report) :=
  let mapped_end := identity_map_end map in
  if mapped_end =? 0 then Done (a, m, cpu, t, failed)
  else if negb (guard_page mod FRAME_SIZE =? 0) then Panicked
  else
    let page_table_count := mapped_end / BYTES_PER_DIRECTORY_ENTRY in
    '(a, m, r) ← allocate_zeroed_frame a m;
    match r with
    | None => Done (a, m, cpu, t, failed)
    | Some directory =>
        '(a, m, ok) ← map_tables a m directory guard_page (range_list 0 page_table_count);
        if negb ok then Done (a, m, cpu, t, failed)
        else
          let cr3 := start_address directory in
          let t := Tss.set_page_directory t cr3 in
          let cpu := enable cpu cr3 in
          let enabled := paging_is_enabled cpu in
          let active_cr3 := read_cr3 cpu in
          guard_present ← is_present cpu m guard_page;
          let guard_unmapped := negb guard_present in
          Done (a, m, cpu, t,
                mkReport active_cr3 mapped_end page_table_count
                  (enabled && (active_cr3 =? cr3) && guard_unmapped)
                  (if guard_unmapped then guard_page else 0))
    end.

End init.
End Paging.
