(* ===== verification/PagingFacts.v ===== *)
(** * The identity map

    Against any lawful source of frames, [paging::init] builds tables under
    which every mapped address translates to itself, except for the guard page.
    Reading the guard's entry back works while directory and tables are mapped
    themselves; a directory above the mapped end makes [init] fault. *)

From S2P Require Import Prelude.
From S2P Require Import MemMap.
From S2P Require Import FrameAlloc.
From S2P Require Import FramePool.
From S2P Require Import FrameNew.
From S2P Require Import FrameSpec.
From S2P Require Import FrameSource.
From S2P Require Import Machine.
From S2P Require Import Descriptors.
From S2P Require Import Paging.
#[local] Open Scope Z_scope.
#[local] Ltac Zify.zify_post_hook ::= Z.to_euclidean_division_equations.

Module PagingFacts.
Import Frame FrameSource Machine Paging Mmu.

(** ** Entries *)

Definition frame_ok (f : Frame) : Prop := 0 <= index f < 2 ^ 20.

Lemma start_address_eq f : frame_ok f -> start_address f = index f * 4096.
Proof. intros Hf. apply (FrameFacts.link_of_eq (index f)). exact Hf. Qed.

Lemma entry_ptr_eq f i : frame_ok f -> entry_ptr f i = index f * 4096 + 4 * i.
Proof. intros Hf. unfold entry_ptr. by rewrite start_address_eq. Qed.

(** The table in frame [f] holds [g]. *)
Definition table_at (m : mem) (f : Frame) (g : Z -> Z) : Prop :=
  forall i, 0 <= i < ENTRIES -> m.[entry_ptr f i] = g i.

(** [m'] differs from [m] at most inside frame [f]. *)
Definition only_in (f : Frame) (m m' : mem) : Prop :=
  forall a, a < index f * 4096 \/ (index f + 1) * 4096 <= a -> m'.[a] = m.[a].

Lemma only_in_trans f m1 m2 m3 : only_in f m1 m2 -> only_in f m2 m3 -> only_in f m1 m3.
Proof. intros H1 H2 a Ha. rewrite H2, H1; done. Qed.

Lemma only_in_store f m i v :
  frame_ok f -> 0 <= i < ENTRIES -> only_in f m (m.[entry_ptr f i <- v]).
Proof.
  intros Hf Hi a Ha. rewrite entry_ptr_eq by done. apply load_store_ne. unfold ENTRIES in Hi. lia.
Qed.

Lemma table_at_other f g m m' h :
  frame_ok f -> frame_ok g -> index f <> index g -> only_in f m m' ->
  table_at m g h -> table_at m' g h.
Proof.
  intros Hf Hg Hne Hm Ht i Hi. rewrite <-(Ht i Hi). apply Hm. rewrite entry_ptr_eq by done.
  unfold ENTRIES in Hi. lia.
Qed.

Lemma table_at_agree f g m m' :
  frame_ok f -> (forall x, x / 4096 = index f -> m'.[x] = m.[x]) -> table_at m f g -> table_at m' f g.
Proof.
  intros Hf Hm Ht i Hi. rewrite <-(Ht i Hi). apply Hm. rewrite entry_ptr_eq by done. unfold ENTRIES in Hi. lia.
Qed.

Lemma zero_fold f l m :
  frame_ok f -> (forall i, i ∈ l -> 0 <= i < ENTRIES) ->
  let m' := fold_left (fun m i => m.[entry_ptr f i <- 0]) l m in
  only_in f m m' /\ (forall i, i ∈ l \/ m.[entry_ptr f i] = 0 -> m'.[entry_ptr f i] = 0).
Proof.
  intros Hf. revert m. induction l as [|j l IH]; intros m Hl; cbn [fold_left]; cbv zeta.
  - split; [done|]. intros i [Hi|?]; [by apply elem_of_nil in Hi|done].
  - destruct (IH (m.[entry_ptr f j <- 0])) as [Ho Hz].
    { intros i Hi. apply Hl. by apply list_elem_of_further. }
    split; [eapply only_in_trans; [|exact Ho]; apply only_in_store; [done|apply Hl, list_elem_of_here]|].
    intros i Hi. apply Hz. destruct (decide (i = j)) as [->|Hne]; [right; apply load_store_eq|].
    destruct Hi as [[->|Hi]%elem_of_cons|Hi]; [done|by left|right].
    rewrite load_store_ne; [done|]. rewrite !entry_ptr_eq by done. lia.
Qed.

Lemma zero_frame_spec f m :
  frame_ok f -> only_in f m (zero_frame m f) /\ table_at (zero_frame m f) f (fun _ => 0).
Proof.
  intros Hf. destruct (zero_fold f (range_list 0 ENTRIES) m Hf) as [Ho Hz].
  { intros i. by rewrite elem_of_range_list. }
  split; [done|]. intros i Hi. apply Hz. left. by apply elem_of_range_list.
Qed.

Definition frames (fs : list Frame) : gset Z := list_to_set (index <$> fs).

Lemma elem_of_frames i fs : i ∈ frames fs <-> exists f, f ∈ fs /\ i = index f.
Proof. unfold frames. rewrite elem_of_list_to_set, list_elem_of_fmap. firstorder. Qed.

Lemma frames_nil held : frames [] ∪ held = held.
Proof. apply union_empty_l_L. Qed.

Lemma frames_cons f fs held : frames (f :: fs) ∪ held = frames fs ∪ ({[index f]} ∪ held).
Proof. unfold frames. simpl. set_solver. Qed.

(** Frames below [limit] that are distinct, none of them frame 0 or held before. *)
Record taken (limit : Z) (held : gset Z) (fs : list Frame) : Prop := {
  tk_nodup : NoDup (index <$> fs);
  tk_frame f : f ∈ fs -> index f ∉ held /\ 0 < index f /\ (index f + 1) * FRAME_SIZE <= limit
}.

Lemma taken_nil limit held : taken limit held [].
Proof. split; [constructor|]. intros f Hf. by apply elem_of_nil in Hf. Qed.

Lemma taken_cons limit held f fs :
  index f ∉ held -> 0 < index f -> (index f + 1) * FRAME_SIZE <= limit ->
  taken limit ({[index f]} ∪ held) fs -> taken limit held (f :: fs).
Proof.
  intros Hh Hp Hl [Hnd Hfs]. split.
  - rewrite fmap_cons. constructor; [|done]. intros (g & Hg & Hin)%list_elem_of_fmap.
    destruct (Hfs g Hin) as [Hn _]. apply Hn. rewrite <-Hg. set_solver.
  - intros g [->|Hg]%elem_of_cons; [done|]. destruct (Hfs g Hg) as [Hn ?]. split; [set_solver|done].
Qed.

(** The entry [init] wants for page [i] of the table covering [base]. *)
Definition page_entry (base guard i : Z) : Z :=
  if base + i * FRAME_SIZE =? guard then 0 else Z.lor (base + i * FRAME_SIZE) KERNEL_PAGE.

Section source.
Context {A : Type} `{FrameSourceLaws A}.

Lemma fs_ok_entry (a : A) m limit held n f i v :
  fs_ok a m limit held n -> index f ∈ held -> frame_ok f -> 0 <= i < ENTRIES ->
  fs_ok a (m.[entry_ptr f i <- v]) limit held n.
Proof.
  intros Hok Hh Hf Hi. eapply fs_write; [done|exact Hh|]. rewrite entry_ptr_eq by done.
  unfold ENTRIES, FRAME_SIZE in *. lia.
Qed.

Lemma fs_ok_zero (a : A) m limit held n f :
  fs_ok a m limit held n -> index f ∈ held -> frame_ok f -> fs_ok a (zero_frame m f) limit held n.
Proof.
  intros Hok Hh Hf. unfold zero_frame.
  assert (forall i, i ∈ range_list 0 ENTRIES -> 0 <= i < ENTRIES) as Hl
    by (intros i; by rewrite elem_of_range_list).
  revert m Hok Hl. induction (range_list 0 ENTRIES) as [|j l IH]; intros m Hok Hl; [done|].
  cbn [fold_left]. apply IH.
  - apply fs_ok_entry; try done. apply Hl, list_elem_of_here.
  - intros i Hi. apply Hl. by apply list_elem_of_further.
Qed.

(** *** One table *)

Lemma fill_table_spec (a : A) m limit held n f base guard l :
  fs_ok a m limit held n -> index f ∈ held -> frame_ok f -> NoDup l ->
  (forall i, i ∈ l -> 0 <= i < ENTRIES) -> 0 <= base <= 2 ^ 32 - BYTES_PER_DIRECTORY_ENTRY ->
  exists m', fill_table m f base guard l = Done m' /\ fs_ok a m' limit held n /\ only_in f m m' /\
    (forall i, 0 <= i < ENTRIES -> m'.[entry_ptr f i] =
       if decide (i ∈ l) then
         if base + i * FRAME_SIZE =? guard then m.[entry_ptr f i] else page_entry base guard i
       else m.[entry_ptr f i]).
Proof.
  intros Hok Hh Hf Hnd Hl Hb. change BYTES_PER_DIRECTORY_ENTRY with 4194304 in Hb.
  revert m Hok. induction l as [|j l IH]; intros m Hok; cbn [fill_table].
  { exists m. split_and!; done. }
  apply NoDup_cons in Hnd as [Hj Hnd]. pose proof (Hl j (list_elem_of_here _ _)) as Hjr.
  change ENTRIES with 1024 in *. unfold mul_u32, add_u32. change U32_MAX with 4294967295.
  change FRAME_SIZE with 4096.
  destruct (Z.leb_spec (j * 4096) 4294967295); [|lia]. cbn [mbind outcome_bind].
  destruct (Z.leb_spec (base + j * 4096) 4294967295); [|lia]. cbn [mbind outcome_bind].
  assert (forall i, i ∈ l -> 0 <= i < 1024) as Hl' by (intros i Hi; apply Hl; by apply list_elem_of_further).
  destruct (Z.eqb_spec (base + j * 4096) guard) as [Hg|Hg]; cbn [mbind outcome_bind].
  - destruct (IH Hnd Hl' m Hok) as (m' & -> & Hok' & Ho & He). exists m'. split_and!; try done.
    intros i Hi. rewrite He by done. rewrite elem_of_cons_decide. change FRAME_SIZE with 4096.
    destruct (decide (i = j)) as [->|]; [|done].
    rewrite decide_False by done. rewrite (proj2 (Z.eqb_eq _ _) Hg). done.
  - unfold write_entry. change ENTRIES with 1024. destruct (Z.ltb_spec j 1024); [|lia].
    cbn [mbind outcome_bind].
    destruct (IH Hnd Hl' (m.[entry_ptr f j <- Z.lor (base + j * 4096) KERNEL_PAGE]))
      as (m' & -> & Hok' & Ho & He); [by apply fs_ok_entry|].
    exists m'. split_and!; try done.
    { eapply only_in_trans; [|exact Ho]. by apply only_in_store. }
    intros i Hi. rewrite He by done. rewrite elem_of_cons_decide. change FRAME_SIZE with 4096 in *.
    destruct (decide (i = j)) as [->|Hne].
    + rewrite decide_False, load_store_eq by done. unfold page_entry. change FRAME_SIZE with 4096.
      by rewrite (proj2 (Z.eqb_neq _ _) Hg).
    + rewrite load_store_ne by (rewrite !entry_ptr_eq by done; lia). done.
Qed.

(** *** The whole tree *)

Record tree (m : mem) (dir : Frame) (guard : Z) (held : gset Z) (ts : list Frame) : Prop := {
  tr_dir_ok : frame_ok dir;
  tr_dir_held : index dir ∈ held;
  tr_ok : forall f, f ∈ ts -> frame_ok f /\ index f ∈ held /\ index f <> index dir;
  tr_dir : table_at m dir (fun j => match ts !! Z.to_nat j with
                                    | Some f => Z.lor (start_address f) KERNEL_PAGE
                                    | None => 0
                                    end);
  tr_tables : forall j f, ts !! j = Some f ->
    table_at m f (page_entry (Z.of_nat j * BYTES_PER_DIRECTORY_ENTRY) guard)
}.

(** The tables live in the frames held for them. *)
Lemma tree_agree m m' dir guard held ts :
  tree m dir guard held ts -> (forall x, x / 4096 ∈ held -> m'.[x] = m.[x]) -> tree m' dir guard held ts.
Proof.
  intros [Hd Hdh Hts Hdir Htab] Hm. split; try done.
  - apply (table_at_agree dir _ m); [done| |done]. intros x Hx. apply Hm. by rewrite Hx.
  - intros j f Hf. destruct (Hts f (list_elem_of_lookup_2 _ _ _ Hf)) as (Hok & Hh & _).
    apply (table_at_agree f _ m); [done| |by apply Htab]. intros x Hx. apply Hm. by rewrite Hx.
Qed.

(** What a tree needs is held is its own frames. *)
Lemma tree_tight m dir guard held ts : tree m dir guard held ts -> tree m dir guard (frames (dir :: ts)) ts.
Proof.
  intros [Hd Hdh Hts Hdir Htab]. split; try done; [|intros f Hf; destruct (Hts f Hf) as (? & _ & ?); split_and!; try done].
  - apply elem_of_frames. exists dir. split; [apply list_elem_of_here|done].
  - apply elem_of_frames. exists f. split; [by apply list_elem_of_further|done].
Qed.

(** Memory outside the held frames is untouched. *)
Definition outside_same (held : gset Z) (m m' : mem) : Prop :=
  forall a, a / 4096 ∉ held -> m'.[a] = m.[a].

Lemma only_in_outside f held m m' : index f ∈ held -> only_in f m m' -> outside_same held m m'.
Proof.
  intros Hf Ho a Ha. apply Ho. destruct (decide (a / 4096 = index f)) as [He|Hne]; [congruence|lia].
Qed.

Lemma outside_same_trans held held' m1 m2 m3 :
  held ⊆ held' -> outside_same held m1 m2 -> outside_same held' m2 m3 -> outside_same held' m1 m3.
Proof. intros Hs H1 H2 a Ha. rewrite H2 by done. apply H1. intros Hin. apply Ha. by apply Hs. Qed.

(** Adding one table to the tree. *)
Lemma tree_step (a : A) m limit held n dir guard ts f :
  tree m dir guard held ts -> index f ∉ held -> frame_ok f -> (length ts < 1023)%nat ->
  fs_ok a m limit ({[index f]} ∪ held) n ->
  exists m', (base ← mul_u32 (Z.of_nat (length ts)) BYTES_PER_DIRECTORY_ENTRY;
      m ← fill_table (zero_frame m f) f base guard (range_list 0 ENTRIES);
      write_entry m dir (Z.of_nat (length ts)) (Z.lor (start_address f) KERNEL_PAGE)) = Done m' /\
    fs_ok a m' limit ({[index f]} ∪ held) n /\
    tree m' dir guard ({[index f]} ∪ held) (ts ++ [f]) /\
    outside_same {[index dir; index f]} m m'.
Proof.
  intros [Hd Hdh Hts Hdir Htab] Hnh Hf Hlen Hok. set (k := Z.of_nat (length ts)).
  assert (index f ∈ ({[index f]} ∪ held : gset Z)) as Hfh by (apply elem_of_union_l; by apply elem_of_singleton).
  assert (index f <> index dir) as Hfd by congruence.
  destruct (zero_frame_spec f m Hf) as [Hzo Hz].
  unfold mul_u32. change BYTES_PER_DIRECTORY_ENTRY with 4194304 in *. change U32_MAX with 4294967295.
  destruct (Z.leb_spec (k * 4194304) 4294967295); [|lia]. cbn [mbind outcome_bind].
  destruct (fill_table_spec a (zero_frame m f) limit ({[index f]} ∪ held) n f (k * 4194304) guard
    (range_list 0 ENTRIES)) as (m1 & -> & Hok1 & Ho1 & He1); try done.
  { by apply fs_ok_zero. }
  { apply NoDup_range_list. }
  { intros i. by rewrite elem_of_range_list. }
  { change BYTES_PER_DIRECTORY_ENTRY with 4194304. lia. }
  cbn [mbind outcome_bind]. unfold write_entry.
  destruct (Z.ltb_spec k ENTRIES); [|unfold ENTRIES in *; lia].
  assert (0 <= k < ENTRIES) as Hk by (unfold ENTRIES in *; lia).
  set (pde := Z.lor (start_address f) KERNEL_PAGE).
  exists (m1.[entry_ptr dir k <- pde]). split; [done|].
  pose proof (only_in_store dir m1 k pde Hd Hk) as Hod.
  pose proof (only_in_trans f _ _ _ Hzo Ho1) as Hof.
  assert (table_at m1 dir (fun j => match ts !! Z.to_nat j with
    Some f => Z.lor (start_address f) KERNEL_PAGE | None => 0 end)) as Hdir1
    by (by apply (table_at_other f dir m)).
  split_and!.
  - apply fs_ok_entry; try done. by apply elem_of_union_r.
  - split; try done; [by apply elem_of_union_r| | |].
    + intros g [Hg|Hg%list_elem_of_singleton]%elem_of_app; [|by subst].
      destruct (Hts g Hg) as (? & ? & ?). split_and!; try done. by apply elem_of_union_r.
    + intros i Hi. destruct (decide (i = k)) as [->|Hne].
      * rewrite load_store_eq. subst k. rewrite Nat2Z.id, lookup_app_r, Nat.sub_diag by lia. done.
      * rewrite load_store_ne by (rewrite !entry_ptr_eq by done; lia). rewrite (Hdir1 i Hi).
        destruct (decide (i < k)) as [Hlt|Hge].
        -- by rewrite lookup_app_l by lia.
        -- rewrite (lookup_ge_None_2 ts), lookup_app_r by lia.
           by rewrite (lookup_ge_None_2 [f]) by (simpl; lia).
    + intros j g Hg. apply (table_at_other dir g m1); try done.
      * apply lookup_app_Some in Hg as [Hg|[_ [_ <-]%list_lookup_singleton_Some]]; [|done].
        by apply list_elem_of_lookup_2, Hts in Hg as (? & _).
      * apply lookup_app_Some in Hg as [Hg|[_ [_ <-]%list_lookup_singleton_Some]]; [|done].
        apply list_elem_of_lookup_2, Hts in Hg as (_ & _ & ?). done.
      * apply lookup_app_Some in Hg as [Hg|[Hj [Hz0 <-]%list_lookup_singleton_Some]].
        -- pose proof (Hts g (list_elem_of_lookup_2 _ _ _ Hg)) as (Hgo & Hgh & _).
           apply (table_at_other f g m); try done; [congruence|]. by apply Htab.
        -- replace (Z.of_nat j) with k by (subst k; lia). intros i Hi. rewrite He1 by done.
           change BYTES_PER_DIRECTORY_ENTRY with 4194304.
           rewrite decide_True by (by apply elem_of_range_list).
           case_match eqn:Hg; [|done]. rewrite (Hz i Hi). unfold page_entry. by rewrite Hg.
  - eapply (outside_same_trans {[index dir; index f]}); [done| |].
    + eapply only_in_outside; [|exact Hof]. set_solver.
    + eapply only_in_outside; [|exact Hod]. set_solver.
Qed.

Lemma allocate_zeroed_some (a : A) m limit held n :
  fs_ok a m limit held (S n) ->
  exists a' f, allocate_zeroed_frame a m = Done (a', zero_frame m f, Some f) /\
    fs_allocate a m = Done (a', Some f) /\
    index f ∉ held /\ frame_ok f /\ 0 < index f /\ (index f + 1) * FRAME_SIZE <= limit /\
    fs_ok a' m limit ({[index f]} ∪ held) n.
Proof.
  intros Hok. destruct (fs_some _ _ _ _ _ Hok) as (a' & f & Hal & Hnh & Hnn & Hlim & Hok').
  exists a', f. unfold allocate_zeroed_frame. rewrite Hal. cbn [mbind outcome_bind].
  pose proof (fs_limit _ _ _ _ _ Hok). split_and!; try done. unfold frame_ok, FRAME_SIZE in *. lia.
Qed.

Lemma allocate_zeroed_none (a : A) m limit held :
  fs_ok a m limit held 0 ->
  exists a', allocate_zeroed_frame a m = Done (a', m, None) /\ fs_ok a' m limit held 0.
Proof.
  intros Hok. destruct (fs_none _ _ _ _ Hok) as (a' & Hal & Hok'). exists a'.
  unfold allocate_zeroed_frame. by rewrite Hal.
Qed.

Lemma map_tables_spec r (a : A) m limit held n dir guard ts :
  tree m dir guard held ts -> fs_ok a m limit held n -> (length ts + r <= 1023)%nat ->
  exists a' m' us, map_tables a m dir guard (zrange (Z.of_nat (length ts)) r) = Done (a', m', (r <=? n)%nat) /\
    length us = Nat.min r n /\ taken limit held us /\
    tree m' dir guard (frames us ∪ held) (ts ++ us) /\ fs_ok a' m' limit (frames us ∪ held) (n - length us) /\
    outside_same ({[index dir]} ∪ frames us) m m'.
Proof.
  revert a m held n ts. induction r as [|r IH]; intros a m held n ts Ht Hok Hlen; cbn [zrange map_tables].
  { exists a, m, []. rewrite app_nil_r, frames_nil, Nat.sub_0_r. split_and!; try done. apply taken_nil. }
  destruct n as [|n].
  { destruct (allocate_zeroed_none a m limit held Hok) as (a' & -> & Hok').
    exists a', m, []. rewrite app_nil_r, frames_nil. split_and!; try done. apply taken_nil. }
  destruct (allocate_zeroed_some a m limit held n Hok) as (a' & f & -> & _ & Hnh & Hf & Hpos & Hfl & Hok').
  cbn [mbind outcome_bind].
  destruct (tree_step a' m limit held n dir guard ts f Ht Hnh Hf ltac:(lia) Hok') as (m1 & Hrun & Hok1 & Ht1 & Ho1).
  destruct (mul_u32 (Z.of_nat (length ts)) BYTES_PER_DIRECTORY_ENTRY) as [base| |]; try done.
  cbn [mbind outcome_bind] in *.
  destruct (fill_table (zero_frame m f) f base guard (range_list 0 ENTRIES)) as [m0| |]; try done.
  cbn [mbind outcome_bind] in *. rewrite Hrun. cbn [mbind outcome_bind].
  replace (Z.of_nat (length ts) + 1) with (Z.of_nat (length (ts ++ [f]))) by (rewrite length_app; simpl; lia).
  destruct (IH a' m1 ({[index f]} ∪ held) n (ts ++ [f]) Ht1 Hok1) as (a2 & m2 & us & Hmap & Hlu & Htk & Htu & Hoku & Ho2).
  { rewrite length_app. simpl. lia. }
  exists a2, m2, (f :: us). rewrite <-app_assoc in Htu.
  rewrite frames_cons. split_and!; try done; [simpl; lia|by apply taken_cons|].
  eapply (outside_same_trans {[index dir; index f]}); [unfold frames; simpl; set_solver|exact Ho1|].
  intros x Hx. apply Ho2. unfold frames in *. simpl in Hx. set_solver.
Qed.

(** *** Reading the tree *)

Lemma entry_address x : x mod 4096 = 0 -> Z.lor x KERNEL_PAGE / 4096 * 4096 = x.
Proof. intros Hx. change KERNEL_PAGE with 3. rewrite (lor_low x 3 2) by lia. lia. Qed.

Lemma entry_bits x : Z.testbit (Z.lor x KERNEL_PAGE) 0 = true /\ Z.testbit (Z.lor x KERNEL_PAGE) 1 = true.
Proof. rewrite !Z.lor_spec. change KERNEL_PAGE with 3. split; apply orb_true_r. Qed.

Lemma tree_translate m dir guard held ts v :
  tree m dir guard held ts -> guard mod 4096 = 0 -> 0 <= v < 2 ^ 32 ->
  translate m (start_address dir) v =
  if (v <? Z.of_nat (length ts) * 2 ^ 22) && negb (v / 4096 * 4096 =? guard) then Some (v, true) else None.
Proof.
  intros [Hd _ Hts Hdir Htab] Hg Hv. unfold translate.
  set (j := v / 2 ^ 22). set (i := v mod 2 ^ 22 / 4096).
  change (2 ^ 22) with 4194304 in *. assert (0 <= j < 1024 /\ 0 <= i < 1024) as [Hj Hi] by lia.
  change (start_address dir + 4 * j) with (entry_ptr dir j). rewrite (Hdir j Hj).
  destruct (Z.ltb_spec v (Z.of_nat (length ts) * 4194304)) as [Hlt|Hge]; cbn [andb].
  - destruct (lookup_lt_is_Some_2 ts (Z.to_nat j)) as [f Hf]; [lia|]. rewrite Hf.
    destruct (Hts f (list_elem_of_lookup_2 _ _ _ Hf)) as (Hfo & _).
    destruct (entry_bits (start_address f)) as [-> ->]. cbn [negb].
    rewrite entry_address by (rewrite start_address_eq by done; lia).
    change (start_address f + 4 * i) with (entry_ptr f i). rewrite (Htab _ _ Hf i Hi).
    unfold page_entry. change BYTES_PER_DIRECTORY_ENTRY with 4194304. change FRAME_SIZE with 4096.
    replace (Z.of_nat (Z.to_nat j) * 4194304 + i * 4096) with (v / 4096 * 4096) by lia.
    destruct (v / 4096 * 4096 =? guard); [done|].
    destruct (entry_bits (v / 4096 * 4096)) as [-> ->]. cbn [negb].
    rewrite entry_address by lia. do 2 f_equal. lia.
  - rewrite (lookup_ge_None_2 ts) by lia. done.
Qed.

Lemma has_present x : has_bits x PRESENT = Z.testbit x 0.
Proof.
  unfold has_bits. change PRESENT with (Z.ones 1). rewrite Z.land_ones, Z.bit0_odd by lia.
  change (2 ^ 1) with 2. rewrite Zmod_odd. by destruct (Z.odd x).
Qed.

Lemma containing_start f : frame_ok f -> containing_address (start_address f) = f.
Proof.
  intros Hf. rewrite start_address_eq by done. destruct f as [i]. unfold containing_address. simpl.
  f_equal. rewrite Z.shiftr_div_pow2 by (unfold FRAME_SHIFT; lia).
  change (2 ^ FRAME_SHIFT) with 4096. lia.
Qed.

(** Directory and tables are mapped by themselves, each at its own address. *)
Definition self_mapped (dir : Frame) (guard : Z) (ts : list Frame) : Prop :=
  forall f, f ∈ dir :: ts ->
    (index f + 1) * FRAME_SIZE <= Z.of_nat (length ts) * 2 ^ 22 /\ index f <> guard / FRAME_SIZE.

Lemma read_entry_mapped m dir guard held ts cpu f i :
  tree m dir guard held ts -> guard mod 4096 = 0 -> cr3 cpu = start_address dir ->
  self_mapped dir guard ts -> f ∈ dir :: ts -> 0 <= i < ENTRIES ->
  read_entry cpu m f i = Done (m.[entry_ptr f i]).
Proof.
  intros Ht Hg Hcr Hsm Hf Hi. unfold read_entry, load_at. destruct (Z.ltb_spec i ENTRIES); [|lia].
  destruct (paging_is_enabled cpu); [|done]. unfold read_cr3. rewrite Hcr.
  assert (frame_ok f) as Hfo.
  { destruct Ht as [? _ Hts _ _]. apply elem_of_cons in Hf as [->|Hf]; [done|by apply Hts]. }
  destruct (Hsm f Hf) as [Hlim Hne]. rewrite entry_ptr_eq by done. change FRAME_SIZE with 4096 in *.
  unfold frame_ok, ENTRIES in *.
  rewrite (tree_translate _ _ _ _ _ _ Ht Hg) by lia.
  destruct (Z.ltb_spec (index f * 4096 + 4 * i) (Z.of_nat (length ts) * 2 ^ 22)); [|lia].
  replace ((index f * 4096 + 4 * i) / 4096 * 4096) with (index f * 4096) by lia.
  destruct (Z.eqb_spec (index f * 4096) guard); [lia|done].
Qed.

(** [is_present] agrees with the MMU's walk. *)
Lemma tree_is_present m dir guard held ts cpu v :
  tree m dir guard held ts -> guard mod 4096 = 0 -> 0 <= v < 2 ^ 32 -> 0 < index dir ->
  cr3 cpu = start_address dir -> self_mapped dir guard ts ->
  is_present cpu m v =
    Done (match translate m (start_address dir) v with Some _ => true | None => false end).
Proof.
  intros Ht Hg Hv Hpos Hcr Hsm. rewrite (tree_translate _ _ _ _ _ _ Ht Hg Hv).
  pose proof Ht as [Hd _ Hts Hdir Htab]. unfold is_present, read_cr3. rewrite Hcr.
  pose proof (start_address_eq dir Hd) as Hsd. destruct (Z.eqb_spec (start_address dir) 0); [lia|].
  rewrite containing_start by done. change BYTES_PER_DIRECTORY_ENTRY with 4194304.
  change FRAME_SIZE with 4096. set (j := v / 4194304). set (i := v mod 4194304 / 4096).
  assert (0 <= j < ENTRIES /\ 0 <= i < ENTRIES) as [Hj Hi] by (unfold ENTRIES; lia).
  rewrite (read_entry_mapped m dir guard held ts) by (done || apply list_elem_of_here).
  cbn [mbind outcome_bind]. rewrite (Hdir j Hj), has_present.
  destruct (Z.ltb_spec v (Z.of_nat (length ts) * 2 ^ 22)) as [Hlt|Hge]; cbn [andb].
  - destruct (lookup_lt_is_Some_2 ts (Z.to_nat j)) as [f Hf]; [lia|]. rewrite Hf.
    pose proof (list_elem_of_lookup_2 _ _ _ Hf) as Hfin.
    destruct (Hts f Hfin) as (Hfo & _).
    destruct (entry_bits (start_address f)) as [-> _]. cbn [negb].
    assert (Z.land (Z.lor (start_address f) KERNEL_PAGE) (Z.lxor U32_MAX (4096 - 1)) =
            start_address f) as ->.
    { change (Z.lxor U32_MAX (4096 - 1)) with (Z.ldiff (Z.ones 32) (Z.ones 12)).
      pose proof (start_address_eq f Hfo). unfold frame_ok in Hfo.
      rewrite land_high; [|change KERNEL_PAGE with 3; rewrite (lor_low _ 3 2) by lia; lia|lia].
      change (2 ^ 12) with 4096. apply entry_address. lia. }
    rewrite containing_start by done.
    rewrite (read_entry_mapped m dir guard held ts) by (done || by apply list_elem_of_further).
    cbn [mbind outcome_bind]. rewrite (Htab _ _ Hf i Hi), has_present.
    unfold page_entry. change BYTES_PER_DIRECTORY_ENTRY with 4194304. change FRAME_SIZE with 4096.
    replace (Z.of_nat (Z.to_nat j) * 4194304 + i * 4096) with (v / 4096 * 4096) by lia.
    destruct (v / 4096 * 4096 =? guard); [done|]. by destruct (entry_bits (v / 4096 * 4096)) as [-> _].
  - rewrite (lookup_ge_None_2 ts) by lia. done.
Qed.

(** With the directory above the mapped end, reading an entry of it faults. *)
Lemma unmapped_directory_faults m dir guard held ts cpu v :
  tree m dir guard held ts -> guard mod 4096 = 0 -> 0 <= v < 2 ^ 32 -> 0 < index dir ->
  cr3 cpu = start_address dir -> paging_is_enabled cpu = true ->
  Z.of_nat (length ts) * 2 ^ 22 <= start_address dir -> is_present cpu m v = Panicked.
Proof.
  intros Ht Hg Hv Hpos Hcr Hpg Hhi. pose proof Ht as [Hd _ _ _ _].
  unfold is_present, read_cr3. rewrite Hcr.
  pose proof (start_address_eq dir Hd) as Hsd. destruct (Z.eqb_spec (start_address dir) 0); [lia|].
  rewrite containing_start by done. change BYTES_PER_DIRECTORY_ENTRY with 4194304.
  unfold read_entry, load_at, read_cr3. rewrite Hpg, Hcr.
  destruct (Z.ltb_spec (v / 4194304) ENTRIES) as [Hj|]; [|done]. unfold ENTRIES, frame_ok in *.
  rewrite (tree_translate _ _ _ _ _ _ Ht Hg) by (rewrite entry_ptr_eq by done; lia).
  rewrite entry_ptr_eq by done.
  destruct (Z.ltb_spec (index dir * 4096 + 4 * (v / 4194304)) (Z.of_nat (length ts) * 2 ^ 22)); [lia|done].
Qed.

(** *** [identity_map_end] *)

Lemma fold_max_ge (f : Map.Region -> Z) rs e :
  e <= fold_left (fun e r => Z.max e (f r)) rs e /\
  (forall r, In r rs -> f r <= fold_left (fun e r => Z.max e (f r)) rs e).
Proof.
  revert e. induction rs as [|r rs IH]; intros e; simpl; [split; [lia|done]|].
  destruct (IH (Z.max e (f r))) as [H1' H2']. split; [lia|].
  intros s [<-|Hs]; [lia|auto].
Qed.

Lemma fold_max_bound (f : Map.Region -> Z) rs e b :
  e <= b -> (forall r, f r <= b) -> fold_left (fun e r => Z.max e (f r)) rs e <= b.
Proof.
  intros He Hf. revert e He. induction rs as [|r rs IH]; intros e He; simpl; [done|].
  apply IH. specialize (Hf r). lia.
Qed.

Lemma identity_map_end_spec map :
  let E := identity_map_end map in
  0 <= E <= 2 ^ 32 - 2 ^ 22 /\ E mod 2 ^ 22 = 0 /\
  (forall r, In r (List.filter Map.is_usable (Map.regions map)) ->
     0 <= Map.end_ r -> Z.min (Map.end_ r) (2 ^ 32 - 2 ^ 22) <= E).
Proof.
  cbv zeta. unfold identity_map_end.
  destruct (fold_max_ge (fun r => Z.min (Map.end_ r) (2 ^ 32))
    (List.filter Map.is_usable (Map.regions map)) 0) as [Hge Hall].
  pose proof (fold_max_bound (fun r => Z.min (Map.end_ r) (2 ^ 32))
    (List.filter Map.is_usable (Map.regions map)) 0 (2 ^ 32) ltac:(lia) ltac:(intros; lia)) as Hle.
  set (e := fold_left _ _ 0) in *. unfold div_ceil.
  change BYTES_PER_DIRECTORY_ENTRY with 4194304. change (2 ^ 22) with 4194304.
  change (2 ^ 32) with 4294967296 in *. destruct (Z.eqb_spec e 0).
  - split_and!; try lia. intros r Hr Hr0. specialize (Hall r Hr). cbv beta in Hall. lia.
  - unfold as_u32. change (2 ^ 32) with 4294967296.
    rewrite Z.mod_small by lia. split_and!; try lia.
    intros r Hr Hr0. specialize (Hall r Hr). cbv beta in Hall. lia.
Qed.

(** ** [paging::init] *)

Lemma paging_on cpu pd : paging_is_enabled (enable cpu pd) = true.
Proof.
  unfold paging_is_enabled, read_cr0, has_bits, enable. cbn [cr0]. apply negb_true_iff, Z.eqb_neq.
  intros Hz0. assert (Z.testbit (Z.land (Z.lor (cr0 cpu) CR0_PG) CR0_PG) 31 = true) as Hbit.
  { rewrite Z.land_spec, Z.lor_spec. change (Z.testbit CR0_PG 31) with true. by rewrite orb_true_r. }
  by rewrite Hz0, Z.bits_0 in Hbit.
Qed.

Lemma taken_size limit held fs : taken limit held fs -> size (frames fs) = length fs.
Proof.
  intros [Hnd _]. unfold frames. rewrite size_list_to_set by done. by rewrite length_fmap.
Qed.

(** Up to reading the guard's entry back, [init] needs frames only. *)
Lemma init_tables (a : A) m limit held n map guard cpu t :
  fs_ok a m limit held n -> let E := identity_map_end map in
  E <> 0 -> guard mod 4096 = 0 -> E / 2 ^ 22 < Z.of_nat n ->
  exists a' m' dir ts,
    init map guard a m cpu t =
      (p ← is_present (enable cpu (start_address dir)) m' guard;
       Done (a', m', enable cpu (start_address dir), Tss.set_page_directory t (start_address dir),
         mkReport (start_address dir) E (E / 2 ^ 22) (negb p) (if negb p then guard else 0))) /\
    (exists a1, fs_allocate a m = Done (a1, Some dir)) /\
    taken limit held (dir :: ts) /\ Z.of_nat (length ts) = E / 2 ^ 22 /\
    tree m' dir guard (frames (dir :: ts) ∪ held) ts /\ outside_same (frames (dir :: ts)) m m' /\
    fs_ok a' m' limit (frames (dir :: ts) ∪ held) (n - 1 - length ts).
Proof.
  intros Hok E HE Hg Hn. destruct (identity_map_end_spec map) as (Hb & Hm & _). fold E in Hb, Hm.
  change (2 ^ 22) with 4194304 in *. unfold init. fold E. destruct (Z.eqb_spec E 0); [done|].
  change FRAME_SIZE with 4096. rewrite Hg. cbn [Z.eqb negb].
  destruct n as [|n]; [lia|].
  destruct (allocate_zeroed_some a m limit held n Hok) as (a1 & dir & Hz0 & Hal & Hnh & Hd & Hpos & Hlim & Hok1).
  rewrite Hz0. cbn [mbind outcome_bind]. destruct (zero_frame_spec dir m Hd) as [Hzo Hz].
  assert (index dir ∈ ({[index dir]} ∪ held : gset Z)) as Hdh
    by (apply elem_of_union_l; by apply elem_of_singleton).
  assert (tree (zero_frame m dir) dir guard ({[index dir]} ∪ held) []) as Ht0.
  { split; try done. intros f Hf. by apply elem_of_nil in Hf. }
  change BYTES_PER_DIRECTORY_ENTRY with 4194304. unfold range_list. rewrite Z.sub_0_r.
  destruct (map_tables_spec (Z.to_nat (E / 4194304)) a1 (zero_frame m dir) limit ({[index dir]} ∪ held) n
    dir guard []) as (a' & m' & us & Hmap & Hlu & Htk & Htu & Hoku & Ho); try done.
  { by apply fs_ok_zero. }
  { simpl. lia. }
  change (Z.of_nat (length (@nil Frame))) with 0 in Hmap. rewrite Hmap.
  rewrite (proj2 (Nat.leb_le (Z.to_nat (E / 4194304)) n)) by lia.
  cbn [mbind outcome_bind negb app] in *.
  assert (Z.of_nat (length us) = E / 4194304) as Hlen by lia.
  exists a', m', dir, us. rewrite frames_cons. split_and!; try done.
  - rewrite paging_on. unfold read_cr3 at 1 2. cbn [enable cr3]. by rewrite Z.eqb_refl.
  - by exists a1.
  - by apply taken_cons.
  - eapply (outside_same_trans {[index dir]}); [unfold frames; simpl; set_solver| |exact Ho].
    eapply only_in_outside; [|exact Hzo]. set_solver.
  - by replace (S n - 1 - length us)%nat with (n - length us)%nat by lia.
Qed.

(** With directory and tables mapped, the read succeeds and so does [init]. *)
Lemma init_builds (a : A) m limit held n map guard cpu t :
  fs_ok a m limit held n -> let E := identity_map_end map in
  E <> 0 -> limit <= E -> guard mod 4096 = 0 -> 0 <= guard < E -> guard / 4096 ∈ held -> E / 2 ^ 22 < Z.of_nat n ->
  exists a' m' dir ts,
    init map guard a m cpu t =
      Done (a', m', enable cpu (start_address dir), Tss.set_page_directory t (start_address dir),
            mkReport (start_address dir) E (E / 2 ^ 22) true guard) /\
    taken limit held (dir :: ts) /\ Z.of_nat (length ts) = E / 2 ^ 22 /\
    tree m' dir guard (frames (dir :: ts) ∪ held) ts /\ outside_same (frames (dir :: ts)) m m' /\
    fs_ok a' m' limit (frames (dir :: ts) ∪ held) (n - 1 - length ts).
Proof.
  intros Hok E HE Hlim Hg Hgr Hgh Hn.
  destruct (init_tables a m limit held n map guard cpu t Hok HE Hg Hn)
    as (a' & m' & dir & ts & Hrun & _ & Htk & Hlen & Ht & Ho & Hok').
  exists a', m', dir, ts. split_and!; try done. rewrite Hrun. fold E in Hlen, Hrun |- *.
  destruct (identity_map_end_spec map) as (Hb & Hm & _). fold E in Hb, Hm. change (2 ^ 22) with 4194304 in *.
  destruct (tk_frame _ _ _ Htk dir (list_elem_of_here _ _)) as (_ & Hpos & _).
  rewrite (tree_is_present m' dir guard (frames (dir :: ts) ∪ held) ts); try done; [|lia|].
  - rewrite (tree_translate _ _ _ _ _ _ Ht) by (done || lia).
    replace (guard / 4096 * 4096) with guard by lia. rewrite (Z.eqb_refl guard). cbn [negb]. by rewrite andb_false_r.
  - intros f Hf. destruct (tk_frame _ _ _ Htk f Hf) as (Hnh & _ & Hfl). change FRAME_SIZE with 4096 in *.
    change (2 ^ 22) with 4194304. split; [lia|]. intros He. apply Hnh. by rewrite He.
Qed.

(** C10: Identity map. Given enough frames below [limit], all of which get mapped
    ([limit] is at most the identity map's end), and the guard page's frame not
    among them, [paging::init] succeeds: paging is on, the MMU translates every
    address below the reported end to itself, writable, except that the stack
    guard page faults; everything above faults; both TSSes carry the same page
    directory. It takes exactly one frame for the directory and one for each
    4 MiB of the map - [new], all below [limit] and none of them held before -
    and changes no word of memory outside them. *)
Theorem paging_init_identity (a : A) (m : mem) (limit : Z) (held : gset Z) (n : nat)
    (map : Map.MemoryMap) (guard : Z) (cpu : Cpu) (t : Tss.TssState) :
  fs_ok a m limit held n -> identity_map_end map <> 0 -> limit <= identity_map_end map ->
  guard mod 4096 = 0 -> 0 <= guard < identity_map_end map -> guard / 4096 ∈ held ->
  identity_map_end map / 2 ^ 22 < Z.of_nat n ->
  exists a' m' cpu' t' r new, init map guard a m cpu t = Done (a', m', cpu', t', r) /\
    paging_enabled r = true /\ stack_guard r = guard /\ mapped_end r = identity_map_end map /\
    paging_is_enabled cpu' = true /\ r_cr3 r = cr3 cpu' /\
    Tss.t_cr3 (Tss.main t') = cr3 cpu' /\ Tss.t_cr3 (Tss.double_fault t') = cr3 cpu' /\
    (forall v, 0 <= v < 2 ^ 32 -> translate m' (cr3 cpu') v =
       if (v <? mapped_end r) && negb (v / 4096 * 4096 =? guard) then Some (v, true) else None) /\
    Z.of_nat (size new) = 1 + identity_map_end map / 2 ^ 22 /\ page_tables r = identity_map_end map / 2 ^ 22 /\
    (forall i, i ∈ new -> i ∉ held /\ 0 < i /\ (i + 1) * FRAME_SIZE <= limit) /\
    (forall x, x / FRAME_SIZE ∉ new -> m'.[x] = m.[x]) /\
    fs_ok a' m' limit (new ∪ held) (n - 1 - Z.to_nat (identity_map_end map / 2 ^ 22)).
Proof.
  intros Hok HE Hlim Hg Hgr Hgh Hn.
  destruct (init_builds a m limit held n map guard cpu t Hok HE Hlim Hg Hgr Hgh Hn)
    as (a' & m' & dir & ts & Hrun & Htk & Hlen & Ht & Ho & Hok').
  destruct (identity_map_end_spec map) as (_ & Hm & _).
  eexists a', m', _, _, _, (frames (dir :: ts)). split; [exact Hrun|]. cbn [cr3 cr0 enable r_cr3 mapped_end stack_guard
    page_tables paging_enabled Tss.main Tss.double_fault Tss.set_page_directory Tss.t_cr3].
  split_and!; try done.
  - apply paging_on.
  - intros v Hv. rewrite (tree_translate _ _ _ _ _ _ Ht Hg Hv), Hlen.
    by replace (identity_map_end map / 2 ^ 22 * 2 ^ 22) with (identity_map_end map) by lia.
  - rewrite (taken_size _ _ _ Htk). simpl length. lia.
  - intros i (f & Hf & ->)%elem_of_frames. by apply (tk_frame _ _ _ Htk).
  - by replace (Z.to_nat (identity_map_end map / 2 ^ 22)) with (length ts) by lia.
Qed.

(** The comment on [is_present] takes directory and tables for mapped. When the
    directory's frame lies above the mapped end - in usable RAM of the top
    4 MiB below 4 GiB - the read after paging is on page-faults and [init]
    does not return. *)
Theorem unmapped_directory_stops_init (a a1 : A) (m : mem) (limit : Z) (held : gset Z) (n : nat)
    (map : Map.MemoryMap) (guard : Z) (cpu : Cpu) (t : Tss.TssState) (dir : Frame) :
  fs_ok a m limit held n -> identity_map_end map <> 0 -> guard mod 4096 = 0 -> 0 <= guard < 2 ^ 32 ->
  identity_map_end map / 2 ^ 22 < Z.of_nat n ->
  fs_allocate a m = Done (a1, Some dir) -> identity_map_end map <= start_address dir ->
  init map guard a m cpu t = Panicked.
Proof.
  intros Hok HE Hg Hgr Hn Hal Hhi.
  destruct (init_tables a m limit held n map guard cpu t Hok HE Hg Hn)
    as (a' & m' & d & ts & Hrun & (a2 & Hal') & Htk & Hlen & Ht & _).
  rewrite Hal in Hal'. injection Hal' as _ <-. rewrite Hrun.
  destruct (identity_map_end_spec map) as (_ & Hm & _).
  destruct (tk_frame _ _ _ Htk dir (list_elem_of_here _ _)) as (_ & Hpos & _).
  rewrite (unmapped_directory_faults m' dir guard (frames (dir :: ts) ∪ held) ts); try done; [apply paging_on|lia].
Qed.

(** C39: When the frames do not suffice - or the map has no usable memory -
    [paging::init] still returns, reports FAILED, and touches neither the CPU
    nor the TSSes: paging is never left half enabled. *)
Theorem paging_init_fails_cleanly (a : A) (m : mem) (limit : Z) (held : gset Z) (n : nat)
    (map : Map.MemoryMap) (guard : Z) (cpu : Cpu) (t : Tss.TssState) :
  fs_ok a m limit held n -> guard mod 4096 = 0 ->
  identity_map_end map = 0 \/ Z.of_nat n <= identity_map_end map / 2 ^ 22 ->
  exists a' m', init map guard a m cpu t = Done (a', m', cpu, t, failed) /\
    Report_fmt failed = "Paging: FAILED (could not build an identity map)".
Proof.
  intros Hok Hg Hcase. destruct (identity_map_end_spec map) as (Hb & Hm & _).
  change (2 ^ 22) with 4194304 in *. unfold init.
  destruct (Z.eqb_spec (identity_map_end map) 0) as [|HE]; [by eexists _, _|].
  change FRAME_SIZE with 4096. rewrite Hg. cbn [Z.eqb negb].
  destruct Hcase as [|Hn]; [done|]. destruct n as [|n].
  { destruct (allocate_zeroed_none a m limit held Hok) as (a' & -> & _). by eexists _, _. }
  destruct (allocate_zeroed_some a m limit held n Hok) as (a1 & dir & -> & _ & Hnh & Hd & Hpos & Hlim & Hok1).
  cbn [mbind outcome_bind]. destruct (zero_frame_spec dir m Hd) as [Hzo Hz].
  assert (index dir ∈ ({[index dir]} ∪ held : gset Z)) as Hdh
    by (apply elem_of_union_l; by apply elem_of_singleton).
  change BYTES_PER_DIRECTORY_ENTRY with 4194304. unfold range_list. rewrite Z.sub_0_r.
  destruct (map_tables_spec (Z.to_nat (identity_map_end map / 4194304)) a1 (zero_frame m dir) limit
    ({[index dir]} ∪ held) n dir guard []) as (a' & m' & us & Hmap & _).
  { split; try done. intros f Hf. by apply elem_of_nil in Hf. }
  { by apply fs_ok_zero. }
  { simpl. lia. }
  change (Z.of_nat (length (@nil Frame))) with 0 in Hmap. rewrite Hmap.
  rewrite (proj2 (Nat.leb_gt (Z.to_nat (identity_map_end map / 4194304)) n)) by lia. by eexists _, _.
Qed.

End source.

(** ** The frame allocator at boot *)
Import FrameSpec NewFacts FrameFacts.

Lemma managed_bounds_new ki map i : map_ok map -> 0 <= ki.1 < ki.2 -> ki.2 <= 2 ^ 32 ->
  i ∈ FrameFacts.managed (new ki map) -> 0 < i /\ (i + 1) * FRAME_SIZE <= 2 ^ 32.
Proof.
  intros Hok Hk1 Hk2 Hi. apply new_managed in Hi as (_ & Hb & Hres); [|done..].
  change MAX_FRAME_INDEX with 1048576 in Hb. change FRAME_SIZE with 4096.
  split; [|lia]. destruct (decide (i = 0)) as [->|]; [|lia]. exfalso.
  apply Forall_cons in Hres as [Hlow _]. apply Hlow. exists 0. vm_compute. done.
Qed.

(** A freshly built allocator is a source of all the frames it manages, with any
    frames held that it does not. *)
Lemma new_source ki map m limit held :
  map_ok map -> 0 <= ki.1 < ki.2 -> ki.2 <= 2 ^ 32 -> limit <= 2 ^ 32 ->
  (forall i, i ∈ FrameFacts.managed (new ki map) -> (i + 1) * FRAME_SIZE <= limit) ->
  (forall i, i ∈ held -> i ∉ FrameFacts.managed (new ki map)) ->
  fs_ok (new ki map) m limit held (length (FrameFacts.managed (new ki map))).
Proof.
  intros Hok Hk1 Hk2 Hl Hb Hh. split; [done|].
  eexists. split; [by apply new_represents|]. unfold avail. cbn [Pool.p_stack Pool.p_fresh Pool.p_all app].
  split_and!; [done| |intros i Hi; split; [by right|by apply Hh]|done].
  intros i Hi. split; [by apply (managed_bounds_new ki map)|by apply Hb].
Qed.

Lemma is_present_ends cpu m v : is_present cpu m v = Panicked \/ exists b, is_present cpu m v = Done b.
Proof.
  assert (forall f i, read_entry cpu m f i = Panicked \/ exists x, read_entry cpu m f i = Done x) as Hr.
  { intros f i. unfold read_entry, load_at. destruct (i <? ENTRIES); [|by left]. destruct (paging_is_enabled cpu); [|right; by eexists].
    destruct (translate _ _ _) as [[? ?]|]; [right; by eexists|by left]. }
  unfold is_present. cbv zeta. destruct (read_cr3 cpu =? 0); [right; by eexists|].
  match goal with |- context [read_entry cpu m ?f ?i] => destruct (Hr f i) as [->|[pde ->]] end; [by left|]. cbn [mbind outcome_bind].
  destruct (negb _); [right; by eexists|].
  match goal with |- context [read_entry cpu m ?f ?i] => destruct (Hr f i) as [->|[pte ->]] end; [by left|right; by eexists].
Qed.

(** The identity map never reaches the top 4 MiB below 4 GiB: if the memory map
    has usable RAM there, its frames are in the allocator's pool, and if [init]
    returns at all they are not mapped: the first access to one that is handed
    out faults. *)
Theorem top_frames_unmapped (map : Map.MemoryMap) (ki : Z * Z) (m : mem) (guard : Z) (cpu : Cpu)
    (t : Tss.TssState) (i : Z) :
  map_ok map -> 0 <= ki.1 < ki.2 -> ki.2 <= 2 ^ 32 -> guard mod 4096 = 0 -> identity_map_end map <> 0 ->
  identity_map_end map / 2 ^ 22 < Z.of_nat (length (FrameFacts.managed (new ki map))) ->
  i ∈ FrameFacts.managed (new ki map) -> 2 ^ 32 - 2 ^ 22 <= i * 4096 ->
  init map guard (new ki map) m cpu t = Panicked \/
  exists a' m' cpu' t' r, init map guard (new ki map) m cpu t = Done (a', m', cpu', t', r) /\
    translate m' (cr3 cpu') (i * 4096) = None.
Proof.
  intros Hok Hk1 Hk2 Hg HE Hn Hi Htop.
  assert (fs_ok (new ki map) m (2 ^ 32) ∅ (length (FrameFacts.managed (new ki map)))) as Hs.
  { apply new_source; [done..|lia| |].
    - intros j Hj. destruct (managed_bounds_new ki map j Hok Hk1 Hk2 Hj) as [_ Hb]. exact Hb.
    - intros j Hj. by apply elem_of_empty in Hj. }
  destruct (init_tables (new ki map) m (2 ^ 32) ∅ _ map guard cpu t Hs HE Hg Hn)
    as (a' & m' & dir & ts & -> & _ & _ & Hlen & Ht & _).
  destruct (is_present_ends (enable cpu (start_address dir)) m' guard) as [->|[b ->]]; [by left|right].
  eexists a', m', _, _, _. split; [reflexivity|]. cbn [cr3 enable].
  destruct (identity_map_end_spec map) as (Hb & Hm & _).
  apply new_managed in Hi as (_ & Hib & _); [|done..]. change MAX_FRAME_INDEX with 1048576 in Hib.
  rewrite (tree_translate _ _ _ _ _ _ Ht Hg) by lia.
  destruct (Z.ltb_spec (i * 4096) (Z.of_nat (length ts) * 2 ^ 22)); [lia|done].
Qed.

Lemma demo_source map : map_ok map ->
  fs_ok (new demo_image map) ∅ (2 ^ 32) ∅ (length (managed (new demo_image map))).
Proof.
  intros Hok. apply new_source; [exact Hok|vm_compute; done|vm_compute; done|lia| |].
  - intros i Hi. destruct (managed_bounds_new demo_image map i Hok) as [_ Hb]; [vm_compute; done..|done|exact Hb].
  - intros i Hi. by apply elem_of_empty in Hi.
Qed.

(** Two ranges of usable RAM: [a] frames from 1 MiB on, and from frame [b] up
    to the 4 GiB line; kept disjoint by [b]. *)
Definition split_map (a b : Z) : Map.MemoryMap := {|
  Map.regions_buf := [Map.mkRegion 0x100000 (a * 4096) Map.Usable;
                      Map.mkRegion (b * 4096) (2 ^ 32 - b * 4096) Map.Usable];
  Map.len := 2; Map.reported := 2; Map.available := true |}.

Lemma split_map_usable a b :
  usable (split_map a b) =
    [Map.mkRegion 0x100000 (a * 4096) Map.Usable; Map.mkRegion (b * 4096) (2 ^ 32 - b * 4096) Map.Usable].
Proof. reflexivity. Qed.

Lemma split_map_ok a b : 0 <= a < 2 ^ 19 -> 2 ^ 19 + 256 <= b <= 2 ^ 20 -> map_ok (split_map a b).
Proof.
  intros Ha Hb. split; [|rewrite split_map_usable..].
  - change (2 <= Map.MAX_ENTRIES)%nat. unfold Map.MAX_ENTRIES. lia.
  - repeat constructor; cbn [Map.base Map.length_]; lia.
  - intros j k r s x Hr Hs Hbr Hbs. unfold Map.end_, saturating_add_u64 in Hbr, Hbs.
    destruct j as [|[|j]], k as [|[|k]]; cbn [lookup list_lookup] in Hr, Hs; simplify_eq; try done;
      cbn [Map.base Map.length_] in *; lia.
Qed.

Definition boot_tss : Tss.TssState := Tss.mkTssState Tss.EMPTY Tss.EMPTY.

Lemma paging_init_identity_witness :
  exists a' m' cpu' t' r, init demo_map 0x12000 demo ∅ boot_cpu boot_tss = Done (a', m', cpu', t', r) /\
    paging_enabled r = true /\ translate m' (cr3 cpu') 0xb8000 = Some (0xb8000, true) /\
    translate m' (cr3 cpu') 0x12abc = None.
Proof.
  destruct (paging_init_identity demo ∅ (identity_map_end demo_map) {[0x12]} (length (managed demo)) demo_map 0x12000
    boot_cpu boot_tss
    (new_source demo_image demo_map ∅ (identity_map_end demo_map) {[0x12]} demo_map_ok ltac:(vm_compute; done)
      ltac:(vm_compute; done) ltac:(vm_compute; done)
      ltac:(apply Forall_forall, (bool_decide_unpack _); vm_compute; exact I)
      ltac:(intros i ->%elem_of_singleton; apply (bool_decide_unpack _); vm_compute; exact I))
    ltac:(vm_compute; done) ltac:(done) ltac:(vm_compute; done) ltac:(vm_compute; done) ltac:(vm_compute; done)
    ltac:(vm_compute; done))
    as (a' & m' & cpu' & t' & r & new & Hrun & Hon & _ & Hend & _ & _ & _ & _ & Htr & _).
  exists a', m', cpu', t', r. split; [exact Hrun|]. split; [exact Hon|].
  rewrite !Htr, Hend by lia. split; vm_compute; reflexivity.
Defined.

(** A machine whose BIOS lists sixteen frames below 4 GiB before the low RAM:
    the directory goes there, and boot ends in a page fault. *)
Definition top_first_map : Map.MemoryMap := {|
  Map.regions_buf := [Map.mkRegion (0xffff0 * 4096) (16 * 4096) Map.Usable;
                      Map.mkRegion 0x100000 (1024 * 4096) Map.Usable];
  Map.len := 2; Map.reported := 2; Map.available := true |}.

Lemma top_first_usable : usable top_first_map =
  [Map.mkRegion (0xffff0 * 4096) (16 * 4096) Map.Usable; Map.mkRegion 0x100000 (1024 * 4096) Map.Usable].
Proof. reflexivity. Qed.

Lemma top_first_map_ok : map_ok top_first_map.
Proof.
  split; [vm_compute; lia|rewrite top_first_usable..].
  - repeat constructor; cbn [Map.base Map.length_]; lia.
  - intros j k r s x Hr Hs Hbr Hbs. unfold Map.end_, saturating_add_u64 in Hbr, Hbs.
    destruct j as [|[|j]], k as [|[|k]]; cbn [lookup list_lookup] in Hr, Hs; simplify_eq; try done;
      cbn [Map.base Map.length_] in *; lia.
Qed.

Lemma unmapped_directory_stops_init_witness :
  init top_first_map 0x12000 (new demo_image top_first_map) ∅ boot_cpu boot_tss = Panicked.
Proof.
  destruct (allocate_sim (new demo_image top_first_map) ∅ _
    (proj1 (new_represents demo_image top_first_map ∅ top_first_map_ok))) as (a1 & Hal & _).
  apply (unmapped_directory_stops_init (new demo_image top_first_map) a1 ∅ (2 ^ 32) ∅
    (length (managed (new demo_image top_first_map))) top_first_map 0x12000 boot_cpu boot_tss (from_index 0xffff0)).
  - exact (demo_source top_first_map top_first_map_ok).
  - by vm_compute.
  - reflexivity.
  - lia.
  - by vm_compute.
  - exact Hal.
  - by vm_compute.
Defined.

Lemma paging_init_fails_cleanly_witness :
  exists a' m', init (split_map 1 (2 ^ 20)) 0x12000 (new demo_image (split_map 1 (2 ^ 20))) ∅ boot_cpu boot_tss =
    Done (a', m', boot_cpu, boot_tss, failed).
Proof.
  destruct (paging_init_fails_cleanly (new demo_image (split_map 1 (2 ^ 20))) ∅ (2 ^ 32) ∅ _ (split_map 1 (2 ^ 20)) 0x12000 boot_cpu
    boot_tss
    (demo_source _ (split_map_ok 1 (2 ^ 20) ltac:(done) ltac:(done)))
    ltac:(vm_compute; done) ltac:(right; vm_compute; done)) as (a' & m' & Hrun & _).
  exists a', m'. exact Hrun.
Defined.

End PagingFacts.
