(* ===== verification/Ring.v ===== *)
(** * Ring buffers

    The contents of a circular array of which [len] slots from [start] on are
    live; the input queue and the scheduler's ready queue are both such
    arrays. *)

From S2P Require Import Prelude.

Module Ring.

Section ring.
Context {A : Type} `{Inhabited A}.
#[local] Open Scope nat_scope.

Definition view (buf : list A) (start len : nat) : list A :=
  (fun i => buf !!! ((start + i) mod length buf)) <$> seq 0 len.

Lemma length_view buf start len : length (view buf start len) = len.
Proof. unfold view. by rewrite length_fmap, length_seq. Qed.

Lemma view_nil buf start : view buf start 0 = [].
Proof. done. Qed.

(** Two offsets below the capacity name different slots. *)
Lemma slot_inj n start i j :
  i < n -> j < n -> (start + i) mod n = (start + j) mod n -> i = j.
Proof.
  intros Hi Hj Heq.
  pose proof (Nat.div_mod (start + i) n ltac:(lia)).
  pose proof (Nat.div_mod (start + j) n ltac:(lia)).
  rewrite Heq in *. destruct (Nat.lt_trichotomy ((start + i) / n) ((start + j) / n)) as [Hlt|[Heq'|Hlt]]; nia.
Qed.

(** Writing the first dead slot appends. *)
Lemma view_push buf start len x :
  len < length buf ->
  view (<[(start + len) mod length buf := x]> buf) start (S len) = view buf start len ++ [x].
Proof.
  intros Hlen. unfold view. rewrite length_insert, seq_S, fmap_app. simpl. f_equal.
  - apply list_fmap_ext. intros k i Hi. apply lookup_seq in Hi as [-> Hi].
    apply list_lookup_total_insert_ne. intros Hc.
    apply slot_inj in Hc; lia.
  - f_equal. apply list_lookup_total_insert_eq. apply Nat.mod_upper_bound. lia.
Qed.

(** The oldest element is at [start]. *)
Lemma view_pop buf start len :
  start < length buf ->
  view buf start (S len) = buf !!! start :: view buf ((start + 1) mod length buf) len.
Proof.
  intros Hs. unfold view. simpl. rewrite Nat.add_0_r, (Nat.mod_small start) by done. f_equal.
  rewrite <-seq_shift. rewrite <-list_fmap_compose. apply list_fmap_ext. intros k i Hi. simpl. f_equal.
  rewrite Nat.Div0.add_mod_idemp_l. f_equal. lia.
Qed.

(** Advancing the start by one and shortening by one keeps the end. *)
Lemma end_pop n start len : n <> 0 ->
  ((start + 1) mod n + len) mod n = (start + S len) mod n.
Proof. intros Hn. rewrite Nat.Div0.add_mod_idemp_l. f_equal. lia. Qed.

Lemma end_push n start len : n <> 0 ->
  ((start + len) mod n + 1) mod n = (start + S len) mod n.
Proof. intros Hn. rewrite Nat.Div0.add_mod_idemp_l. f_equal. lia. Qed.

End ring.
End Ring.
