(* ===== verification/Sync.v ===== *)
(** * Critical sections ([sync.rs])

    [IrqMutex]: masking interrupts, taking the lock if it is free, running the
    closure either way, and putting both back. *)

From S2P Require Import Prelude.
From S2P Require Import Machine.
#[local] Open Scope Z_scope.

Module Sync.
Import Machine.

Definition EFLAGS_IF : Z := Z.shiftl 1 9.

(** Bit 1 of EFLAGS always reads as set; the arithmetic flags are not
    modelled. *)
Definition read_eflags (cpu : Cpu) : Z := Z.lor 2 (if if_flag cpu then EFLAGS_IF else 0).

Definition cli (cpu : Cpu) : Cpu := {| cpu with if_flag := false |}.
Definition sti (cpu : Cpu) : Cpu := {| cpu with if_flag := true |}.

Record IrqMutex (T : Type) := mkMutex { locked : bool; value : T }.
Arguments mkMutex {T} locked value.
Arguments locked {T} i.
Arguments value {T} i.

(** [IrqMutex::new] *)
Definition new {T} (v : T) : IrqMutex T := mkMutex false v.

(** [IrqMutex::with]. The closure works on the mutex itself, because a handler
    that interrupts it may enter [with] on the same mutex; its own access is to
    [value]. *)
Definition with_ {T R} (f : IrqMutex T -> Cpu -> outcome (IrqMutex T * Cpu * R))
    (mx : IrqMutex T) (cpu : Cpu) : outcome (IrqMutex T * Cpu * R) :=
  let saved_flags := read_eflags cpu in
  let cpu := cli cpu in
  let acquired := negb (locked mx) in
  let mx := if acquired then mkMutex true (value mx) else mx in
  '(mx, cpu, result) ← f mx cpu;
  let mx := if acquired then mkMutex false (value mx) else mx in
  let cpu := if has_bits saved_flags EFLAGS_IF then sti cpu else cpu in
  Done (mx, cpu, result).

(** A closure that only uses the protected value. *)
Definition on_value {T R} (f : T -> outcome (T * R)) (mx : IrqMutex T) (cpu : Cpu)
  : outcome (IrqMutex T * Cpu * R) :=
  '(v, r) ← f (value mx); Done (mkMutex (locked mx) v, cpu, r).

(** ** Facts *)

Lemma read_eflags_if cpu : has_bits (read_eflags cpu) EFLAGS_IF = if_flag cpu.
Proof. unfold read_eflags. by destruct (if_flag cpu). Qed.

Lemma cpu_if_eta cpu b : if_flag cpu = b -> {| cpu with if_flag := b |} = cpu.
Proof. intros <-. by destruct cpu. Qed.

(** [with] around any closure that puts the lock and the interrupt flag back
    where it found them does the same. *)
Lemma with_spec {T R} (f : IrqMutex T -> Cpu -> outcome (IrqMutex T * Cpu * R)) mx cpu v r :
  f (mkMutex true (value mx)) (cli cpu) = Done (mkMutex true v, cli cpu, r) ->
  with_ f mx cpu = Done (mkMutex (locked mx) v, cpu, r).
Proof.
  intros Hf. unfold with_. rewrite read_eflags_if.
  destruct mx as [[] w]; cbn [locked value negb] in *; rewrite Hf; cbn [mbind outcome_bind locked value];
    (destruct (if_flag cpu) eqn:Hi; unfold sti, cli; [|by rewrite cpu_if_eta]);
    destruct cpu; simpl in *; by subst.
Qed.

Lemma with_value {T R} (f : T -> outcome (T * R)) mx cpu v r :
  f (value mx) = Done (v, r) -> with_ (on_value f) mx cpu = Done (mkMutex (locked mx) v, cpu, r).
Proof. intros Hf. apply with_spec. unfold on_value. simpl. by rewrite Hf. Qed.

(** A section that changes the value, is then interrupted by handlers that
    enter sections of their own on the same mutex, and changes it again. *)
Inductive section (T : Type) :=
| Section_ (pre : T -> T) (handlers : list (section T)) (post : T -> T).
Arguments Section_ {T}.

Definition update {T} (g : T -> T) (mx : IrqMutex T) : IrqMutex T := mkMutex (locked mx) (g (value mx)).

Fixpoint run {T} (s : section T) (mx : IrqMutex T) (cpu : Cpu) : outcome (IrqMutex T * Cpu * unit) :=
  match s with
  | Section_ pre handlers post =>
      with_ (fun mx cpu =>
        '(mx, cpu) ← fold_left (fun st h => '(mx, cpu) ← st; '(mx, cpu, _) ← run h mx cpu; Done (mx, cpu))
          handlers (Done (update pre mx, cpu));
        Done (update post mx, cpu, tt)) mx cpu
  end.

(** What the same nest of sections does to a value nobody locks. *)
Fixpoint effect {T} (s : section T) (v : T) : T :=
  match s with
  | Section_ pre handlers post => post (fold_left (fun v h => effect h v) handlers (pre v))
  end.

Section section_ind.
Context {T : Type} (P : section T -> Prop).
Context (Hs : forall pre hs post, Forall P hs -> P (Section_ pre hs post)).

Fixpoint section_nested_ind (s : section T) : P s :=
  match s with
  | Section_ pre hs post =>
      Hs pre hs post ((fix go hs := match hs return Forall P hs with
                                    | [] => Forall_nil_2 P
                                    | h :: hs => Forall_cons_2 P h hs (section_nested_ind h) (go hs)
                                    end) hs)
  end.
End section_ind.

(** C25: No nesting of critical sections on one mutex blocks: whether or not the
    lock is held on entry, every section in the nest runs to its end exactly
    once, inner ones as if called in the middle of the outer one, and on exit
    the lock and the interrupt flag are what they were on entry. *)
Theorem nested_sections_complete {T} (s : section T) (mx : IrqMutex T) (cpu : Cpu) :
  run s mx cpu = Done (mkMutex (locked mx) (effect s (value mx)), cpu, tt).
Proof.
  revert mx cpu. induction s as [pre hs post IH] using section_nested_ind.
  intros mx cpu. simpl. apply with_spec. unfold update at 2. cbn [locked value].
  set (c := cli cpu). generalize (pre (value mx)). clear mx.
  induction IH as [|h hs Hh _ IHh]; intros v; [done|].
  cbn [fold_left mbind outcome_bind]. rewrite Hh. cbn [locked value]. apply IHh.
Qed.

End Sync.
