(* ===== verification/Input.v ===== *)
(** * The input queue ([input.rs])

    A 64-slot ring between the keyboard interrupt and the shell, and that it
    is a bounded first-in first-out queue that drops the newest event when
    full. *)

From S2P Require Import Prelude.
From S2P Require Import Ring.
From S2P Require Import Machine.
From S2P Require Import Sync.
#[local] Open Scope Z_scope.

Module Input.
Import Machine Sync.

Definition CAPACITY : nat := 64.

(** A [char] is its code point. *)
Inductive KeyEvent :=
| Char (c : Z)
| Enter
| Backspace.

#[export] Instance KeyEvent_eq_dec : EqDecision KeyEvent.
Proof. solve_decision. Defined.
#[export] Instance KeyEvent_inhabited : Inhabited KeyEvent := populate Enter.

Record Queue := mkQueue {
  buf : list KeyEvent;
  head : nat;
  tail : nat;
  len : nat;
  dropped : Z
}.

(** [Queue::new] *)
Definition new : Queue := mkQueue (replicate CAPACITY (Char 0)) 0 0 0 0.

(** [Queue::push] *)
Definition queue_push (q : Queue) (event : KeyEvent) : outcome (Queue * bool) :=
  if (len q =? CAPACITY)%nat then Done ({| q with dropped := saturating_add_u32 (dropped q) 1 |}, false)
  else
    buf ← index_set (buf q) (head q) event;
    Done ({| q with buf := buf; head := ((head q + 1) mod CAPACITY)%nat; len := S (len q) |}, true).

(** [Queue::pop] *)
Definition queue_pop (q : Queue) : outcome (Queue * option KeyEvent) :=
  if (len q =? 0)%nat then Done (q, None)
  else
    event ← index_get (buf q) (tail q);
    Done ({| q with tail := ((tail q + 1) mod CAPACITY)%nat; len := pred (len q) |}, Some event).

(** The static [QUEUE] behind its mutex. *)
Definition push (mx : IrqMutex Queue) (cpu : Cpu) (event : KeyEvent) : outcome (IrqMutex Queue * Cpu * bool) :=
  with_ (on_value (fun q => queue_push q event)) mx cpu.
Definition pop (mx : IrqMutex Queue) (cpu : Cpu) : outcome (IrqMutex Queue * Cpu * option KeyEvent) :=
  with_ (on_value queue_pop) mx cpu.
Definition length_ (mx : IrqMutex Queue) (cpu : Cpu) : outcome (IrqMutex Queue * Cpu * nat) :=
  with_ (on_value (fun q => Done (q, len q))) mx cpu.
Definition dropped_ (mx : IrqMutex Queue) (cpu : Cpu) : outcome (IrqMutex Queue * Cpu * Z) :=
  with_ (on_value (fun q => Done (q, dropped q))) mx cpu.

End Input.

Module InputFacts.
Import Machine Sync Input.

(** ** The bounded queue it implements *)

Record fifo := mkFifo { waiting : list KeyEvent; lost : Z }.

Definition fifo_push (f : fifo) (e : KeyEvent) : fifo * bool :=
  if (length (waiting f) <? CAPACITY)%nat then (mkFifo (waiting f ++ [e]) (lost f), true)
  else (mkFifo (waiting f) (Z.min (lost f + 1) (2 ^ 32 - 1)), false).
Definition fifo_pop (f : fifo) : fifo * option KeyEvent :=
  match waiting f with
  | [] => (f, None)
  | e :: es => (mkFifo es (lost f), Some e)
  end.

(** [q] holds what [f] says. *)
Record holds (q : Queue) (f : fifo) : Prop := {
  h_buf : length (buf q) = CAPACITY;
  h_tail : (tail q < CAPACITY)%nat;
  h_len : (len q <= CAPACITY)%nat;
  h_head : head q = ((tail q + len q) mod CAPACITY)%nat;
  h_view : Ring.view (buf q) (tail q) (len q) = waiting f;
  h_lost : dropped q = lost f
}.

Lemma holds_length q f : holds q f -> length (waiting f) = len q.
Proof. intros [_ _ _ _ <- _]. apply Ring.length_view. Qed.

Lemma holds_one q f f' : holds q f -> holds q f' -> f = f'.
Proof. destruct f, f'. intros [] []. cbn in *. congruence. Qed.

Lemma holds_new : holds new (mkFifo [] 0).
Proof. split; try done; vm_compute; lia. Qed.

Lemma push_sim q f e : holds q f ->
  exists q', queue_push q e = Done (q', (fifo_push f e).2) /\ holds q' (fifo_push f e).1.
Proof.
  intros Hq. pose proof (holds_length _ _ Hq) as Hlen. destruct Hq as [Hb Ht Hl Hh Hv Hd].
  unfold queue_push, fifo_push. rewrite Hlen.
  destruct (Nat.eqb_spec (len q) CAPACITY) as [Hf|Hf].
  - destruct (Nat.ltb_spec (len q) CAPACITY); [lia|]. eexists. split; [done|].
    split; cbn [buf head tail len dropped waiting lost fst snd]; try done. unfold saturating_add_u32. rewrite Hd. done.
  - destruct (Nat.ltb_spec (len q) CAPACITY) as [Hlt|]; [|lia].
    rewrite index_set_Done by (rewrite Hb, Hh; apply Nat.mod_upper_bound; done).
    eexists. split; [done|]. split; cbn [buf head tail len dropped waiting lost fst snd].
    + by rewrite length_insert.
    + done.
    + lia.
    + rewrite Hh. by apply Ring.end_push.
    + rewrite <-Hv, Hh, <-Hb. apply Ring.view_push. lia.
    + done.
Qed.

Lemma pop_sim q f : holds q f ->
  exists q', queue_pop q = Done (q', (fifo_pop f).2) /\ holds q' (fifo_pop f).1.
Proof.
  intros Hq. pose proof (holds_length _ _ Hq) as Hlen. destruct Hq as [Hb Ht Hl Hh Hv Hd].
  unfold queue_pop, fifo_pop. destruct (len q) as [|n] eqn:Hn; cbn [Nat.eqb].
  - apply nil_length_inv in Hlen. rewrite Hlen. exists q. cbn [fst snd]. split; [done|]. split; try done.
    + lia.
    + by rewrite Hn.
    + by rewrite Hn.
  - rewrite Ring.view_pop in Hv by lia. destruct (waiting f) as [|e es]; [done|].
    injection Hv as He Hes. rewrite index_get_total by lia. cbn [mbind outcome_bind].
    eexists. split; [by rewrite He|]. split; cbn [buf head tail len dropped waiting lost fst snd pred]; try done.
    + by apply Nat.mod_upper_bound.
    + lia.
    + rewrite Hh. symmetry. by apply Ring.end_pop.
    + by rewrite <-Hb.
Qed.

(** ** The static queue, shared by the interrupt handler and the shell *)

Inductive op := Push (e : KeyEvent) | Pop | Len | Dropped.

Inductive reply := RPush (accepted : bool) | RPop (e : option KeyEvent) | RLen (n : nat) | RDropped (n : Z).

Definition apply_op (mx : IrqMutex Queue) (cpu : Cpu) (o : op) : outcome (IrqMutex Queue * Cpu * reply) :=
  match o with
  | Push e => '(mx, cpu, r) ← push mx cpu e; Done (mx, cpu, RPush r)
  | Pop => '(mx, cpu, r) ← pop mx cpu; Done (mx, cpu, RPop r)
  | Len => '(mx, cpu, r) ← length_ mx cpu; Done (mx, cpu, RLen r)
  | Dropped => '(mx, cpu, r) ← dropped_ mx cpu; Done (mx, cpu, RDropped r)
  end.

Fixpoint apply_ops (mx : IrqMutex Queue) (cpu : Cpu) (os : list op)
  : outcome (IrqMutex Queue * Cpu * list reply) :=
  match os with
  | [] => Done (mx, cpu, [])
  | o :: os =>
      '(mx, cpu, r) ← apply_op mx cpu o;
      '(mx, cpu, rs) ← apply_ops mx cpu os;
      Done (mx, cpu, r :: rs)
  end.

Definition fifo_op (f : fifo) (o : op) : fifo * reply :=
  match o with
  | Push e => let '(f, r) := fifo_push f e in (f, RPush r)
  | Pop => let '(f, r) := fifo_pop f in (f, RPop r)
  | Len => (f, RLen (length (waiting f)))
  | Dropped => (f, RDropped (lost f))
  end.

Fixpoint fifo_ops (f : fifo) (os : list op) : list reply :=
  match os with
  | [] => []
  | o :: os => let '(f, r) := fifo_op f o in r :: fifo_ops f os
  end.

Lemma op_sim mx cpu f o : holds (value mx) f ->
  exists q, apply_op mx cpu o = Done (mkMutex (locked mx) q, cpu, (fifo_op f o).2) /\ holds q (fifo_op f o).1.
Proof.
  intros Hq. destruct o as [e| | |]; cbn [apply_op fifo_op fst snd].
  - destruct (push_sim _ _ e Hq) as (q & Hp & Hq'). unfold push. rewrite (with_value _ _ _ _ _ Hp).
    exists q. destruct (fifo_push f e). done.
  - destruct (pop_sim _ _ Hq) as (q & Hp & Hq'). unfold pop. rewrite (with_value _ _ _ _ _ Hp).
    exists q. destruct (fifo_pop f). done.
  - exists (value mx). unfold length_. rewrite (with_value _ _ _ (value mx) (len (value mx)) eq_refl). by rewrite (holds_length _ _ Hq).
  - exists (value mx). unfold dropped_. rewrite (with_value _ _ _ (value mx) (dropped (value mx)) eq_refl). by rewrite (h_lost _ _ Hq).
Qed.

(** C24: The input queue is a bounded FIFO: any sequence of calls from boot on,
    in whatever order the interrupt handler and the shell make them and
    whether or not interrupts are enabled, returns exactly what a queue of at
    most 64 events would, oldest first, rejecting and counting (up to
    [u32::MAX]) the events that arrive when it is full; no call panics, and
    the lock and the interrupt flag are restored. *)
Theorem input_queue_is_bounded_fifo (cpu : Cpu) (os : list op) :
  exists q, apply_ops (Sync.new Input.new) cpu os =
    Done (mkMutex false q, cpu, fifo_ops (mkFifo [] 0) os).
Proof.
  pose proof holds_new as Hq. change Input.new with (value (Sync.new Input.new)) in Hq.
  change false with (locked (Sync.new Input.new)).
  revert Hq. generalize (Sync.new Input.new), (mkFifo [] 0). induction os as [|o os IH]; intros mx f Hq.
  { exists (value mx). by destruct mx. }
  destruct (op_sim mx cpu f o Hq) as (q & Hop & Hq'). cbn [apply_ops fifo_ops]. rewrite Hop.
  cbn [mbind outcome_bind]. destruct (fifo_op f o) as [f' r].
  destruct (IH (mkMutex (locked mx) q) f' Hq') as (q' & ->). by exists q'.
Qed.

End InputFacts.
