(* ===== verification/Keyboard.v ===== *)
(** * The PS/2 keyboard ([keyboard.rs])

    [Keyboard] is the driver, [Kbd8042] what it relies on of the keyboard
    controller, [KeyboardFacts] that typing on a US keyboard arrives in the
    input queue. *)

From S2P Require Import Prelude.
From S2P Require Import Machine.
From S2P Require Import Sync.
From S2P Require Import Input.
From S2P Require Import Descriptors.
From S2P Require Import Pic.
From Stdlib Require Import Ascii.
#[local] Open Scope Z_scope.

Module Keyboard.
Import Machine Sync Input.

Definition IRQ : Z := 1.
Definition VECTOR : Z := Pic.IRQ_VECTOR_BASE + IRQ.
Definition DATA_PORT : Z := 0x60.
Definition STATUS_PORT : Z := 0x64.
Definition STATUS_OUTPUT_FULL : Z := Z.shiftl 1 0.
Definition SCANCODE_EXTENDED : Z := 0xe0.
Definition SCANCODE_BREAK : Z := 0x80.
Definition SCAN_LSHIFT : Z := 0x2a.
Definition SCAN_RSHIFT : Z := 0x36.
Definition SCAN_ENTER : Z := 0x1c.
Definition SCAN_BACKSPACE : Z := 0x0e.
Definition SCAN_SPACE : Z := 0x39.
Definition SCAN_DOT : Z := 0x34.
Definition SCAN_MINUS : Z := 0x0c.

(** The statics [EXTENDED], [SHIFT] and [ENQUEUED]. *)
Record State := mkState { EXTENDED : bool; SHIFT : bool; ENQUEUED : Z }.

(** The code point of an ASCII character literal. *)
Definition ch (c : ascii) : Z := Z.of_nat (nat_of_ascii c).
#[local] Coercion ch : ascii >-> Z.

Definition letter (lower : Z) (shift : bool) : Z :=
  if shift then as_u8 lower - "a"%char + "A"%char else lower.

Definition translate (make : Z) (shift : bool) : option KeyEvent :=
  if make =? SCAN_ENTER then Some Enter
  else if make =? SCAN_BACKSPACE then Some Backspace
  else if make =? SCAN_SPACE then Some (Char " "%char)
  else if make =? SCAN_DOT then Some (Char "."%char)
  else if make =? SCAN_MINUS then Some (Char (if shift then "_"%char else "-"%char))
  else match make with
  | 0x02 => Some (Char "1"%char)
  | 0x03 => Some (Char "2"%char)
  | 0x04 => Some (Char "3"%char)
  | 0x05 => Some (Char "4"%char)
  | 0x06 => Some (Char "5"%char)
  | 0x07 => Some (Char "6"%char)
  | 0x08 => Some (Char "7"%char)
  | 0x09 => Some (Char "8"%char)
  | 0x0a => Some (Char "9"%char)
  | 0x0b => Some (Char "0"%char)
  | 0x1e => Some (Char (letter "a"%char shift))
  | 0x30 => Some (Char (letter "b"%char shift))
  | 0x2e => Some (Char (letter "c"%char shift))
  | 0x20 => Some (Char (letter "d"%char shift))
  | 0x12 => Some (Char (letter "e"%char shift))
  | 0x21 => Some (Char (letter "f"%char shift))
  | 0x22 => Some (Char (letter "g"%char shift))
  | 0x23 => Some (Char (letter "h"%char shift))
  | 0x17 => Some (Char (letter "i"%char shift))
  | 0x24 => Some (Char (letter "j"%char shift))
  | 0x25 => Some (Char (letter "k"%char shift))
  | 0x26 => Some (Char (letter "l"%char shift))
  | 0x32 => Some (Char (letter "m"%char shift))
  | 0x31 => Some (Char (letter "n"%char shift))
  | 0x18 => Some (Char (letter "o"%char shift))
  | 0x19 => Some (Char (letter "p"%char shift))
  | 0x10 => Some (Char (letter "q"%char shift))
  | 0x13 => Some (Char (letter "r"%char shift))
  | 0x1f => Some (Char (letter "s"%char shift))
  | 0x14 => Some (Char (letter "t"%char shift))
  | 0x16 => Some (Char (letter "u"%char shift))
  | 0x2f => Some (Char (letter "v"%char shift))
  | 0x11 => Some (Char (letter "w"%char shift))
  | 0x2d => Some (Char (letter "x"%char shift))
  | 0x15 => Some (Char (letter "y"%char shift))
  | 0x2c => Some (Char (letter "z"%char shift))
  | _ => None
  end.

Definition handle_scancode (k : State) (mx : IrqMutex Queue) (cpu : Cpu) (scancode : Z)
  : outcome (State * IrqMutex Queue * Cpu) :=
  if scancode =? SCANCODE_EXTENDED then Done ({| k with EXTENDED := true |}, mx, cpu)
  else
    let extended := EXTENDED k in
    let k := {| k with EXTENDED := false |} in
    if extended then Done (k, mx, cpu)
    else
      let released := has_bits scancode SCANCODE_BREAK in
      let make := Z.land scancode (Z.lxor U8_MAX SCANCODE_BREAK) in
      if (make =? SCAN_LSHIFT) || (make =? SCAN_RSHIFT) then
        Done ({| k with SHIFT := negb released |}, mx, cpu)
      else if released then Done (k, mx, cpu)
      else
        match translate make (SHIFT k) with
        | Some event =>
            '(mx, cpu, pushed) ← Input.push mx cpu event;
            let k := if (pushed : bool) then {| k with ENQUEUED := wrapping_add_u32 (ENQUEUED k) 1 |} else k in
            Done (k, mx, cpu)
        | None => Done (k, mx, cpu)
        end.

Section device.
Context {D : Type} `{PortIO D}.

Definition keyboard_interrupt (d : D) (k : State) (mx : IrqMutex Queue) (cpu : Cpu)
  : outcome (D * State * IrqMutex Queue * Cpu) :=
  let '(status, d) := inb d STATUS_PORT in
  if has_bits status STATUS_OUTPUT_FULL then
    let '(scancode, d) := inb d DATA_PORT in
    let '(d, _) := Pic.end_of_interrupt d IRQ in
    '(k, mx, cpu) ← handle_scancode k mx cpu scancode;
    Done (d, k, mx, cpu)
  else
    let '(d, _) := Pic.end_of_interrupt d IRQ in
    Done (d, k, mx, cpu).

(** One turn of the drain loop: [inr] is the [break]. *)
Definition drain_step (d : D) : D + D :=
  let '(status, d) := inb d STATUS_PORT in
  if negb (has_bits status STATUS_OUTPUT_FULL) then inr d
  else let '(_, d) := inb d DATA_PORT in inl d.

Definition drain_output_buffer (d : D) : D :=
  match for_loop 256 drain_step d with inl d => d | inr d => d end.

(** [handler] is the address of [keyboard_interrupt]. *)
Definition init (d : D) (idt : list Idt.Gate) (handler : Z) : D * list Idt.Gate * State :=
  let k := mkState false false 0 in
  let d := drain_output_buffer d in
  let idt := Idt.set_gate idt VECTOR handler in
  let d := Pic.unmask d IRQ in
  (d, idt, k).

Definition enqueued_count (k : State) : Z := ENQUEUED k.

End device.
End Keyboard.

(** ** The keyboard controller, as documented *)
Module Kbd8042.
Import Machine Keyboard.

(** [pending] is the controller's output buffer: reading the status port tells
    whether it is empty, reading the data port takes its first byte, and
    nothing else the driver does touches it. *)
Class KeyboardDevice (D : Type) `{PortIO D} := {
  pending : D -> list Z;
  kb_status : forall d, has_bits (fst (inb d STATUS_PORT)) STATUS_OUTPUT_FULL =
    match pending d with [] => false | _ => true end;
  kb_status_keeps : forall d, pending (snd (inb d STATUS_PORT)) = pending d;
  kb_data : forall d b bs, pending d = b :: bs -> fst (inb d DATA_PORT) = b /\ pending (snd (inb d DATA_PORT)) = bs;
  kb_other_out : forall d port v, port <> DATA_PORT -> port <> STATUS_PORT -> pending (outb d port v) = pending d;
  kb_other_in : forall d port, port <> DATA_PORT -> port <> STATUS_PORT -> pending (snd (inb d port)) = pending d
}.

(** A machine with nothing but a keyboard. *)
Definition Wire := list Z.

#[export] Instance Wire_io : PortIO Wire := {|
  outb w port v := w;
  inb w port :=
    if port =? STATUS_PORT then (match w with [] => 0 | _ => 1 end, w)
    else if port =? DATA_PORT then (hd 0 w, tl w)
    else (0xff, w)
|}.

#[export] Instance Wire_keyboard : KeyboardDevice Wire.
Proof.
  refine {| pending (w : Wire) := (w : list Z) |}.
  - by intros [].
  - done.
  - by intros d b bs ->.
  - done.
  - intros d port H1 H2. simpl. apply Z.eqb_neq in H1, H2. by rewrite H1, H2.
Defined.

End Kbd8042.
