(* ===== verification/KeyboardFacts.v ===== *)
(** * Typing reaches the input queue

    A US keyboard as its rows of keys, what it sends when keys are struck, and
    that the driver turns that byte stream back into the keys. *)

From S2P Require Import Prelude.
From S2P Require Import Machine.
From S2P Require Import Sync.
From S2P Require Import Input.
From S2P Require Import Descriptors.
From S2P Require Import Pic.
From S2P Require Import Keyboard.
From Stdlib Require Import Ascii.
#[local] Open Scope Z_scope.

Module KeyboardFacts.
Import Machine Sync Input InputFacts Keyboard Kbd8042.

(** ** The keyboard *)

(** The keys of a row from its first make code on. *)
Definition row (first : Z) (keys : string) : list (Z * ascii) :=
  imap (fun i c => (first + Z.of_nat i, c)) (String.list_ascii_of_string keys).

Definition digit_keys : list (Z * ascii) := row 0x02 "1234567890".
Definition letter_keys : list (Z * ascii) :=
  row 0x10 "qwertyuiop" ++ row 0x1e "asdfghjkl" ++ row 0x2c "zxcvbnm".
Definition upper (c : ascii) : ascii := ascii_of_nat (nat_of_ascii c - 32).

(** Make code, whether Shift is held, and the event meant. *)
Definition layout : list (Z * bool * KeyEvent) :=
  [(0x1c, false, Enter); (0x0e, false, Backspace); (0x39, false, Char 32);
   (0x34, false, Char 46); (0x0c, false, Char 45); (0x0c, true, Char 95)] ++
  ((fun k => (k.1, false, Char (ch k.2))) <$> digit_keys) ++
  ((fun k => (k.1, false, Char (ch k.2))) <$> letter_keys) ++
  ((fun k => (k.1, true, Char (ch (upper k.2)))) <$> letter_keys).

(** A stroke types a key of the layout or one outside it: an extended key,
    sent as [0xe0] and its code, on the way down and on the way up. *)
Inductive stroke :=
| Key (make : Z) (shifted : bool) (e : KeyEvent)
| ExtendedKey (code : Z).

Definition stroke_ok (s : stroke) : Prop :=
  match s with
  | Key make shifted e => (make, shifted, e) ∈ layout
  | ExtendedKey code => 0 <= code < 0x60
  end.

Definition break (make : Z) : Z := make + 0x80.

Definition sends (s : stroke) : list Z :=
  match s with
  | Key make false _ => [make; break make]
  | Key make true _ => [0x2a; make; break make; break 0x2a]
  | ExtendedKey code => [0xe0; code; 0xe0; break code]
  end.

Definition means (s : stroke) : list KeyEvent :=
  match s with Key _ _ e => [e] | ExtendedKey _ => [] end.

(** ** One byte *)

Definition byte_step (st : outcome (State * IrqMutex Queue * Cpu)) (b : Z) : outcome (State * IrqMutex Queue * Cpu) :=
  '(k, mx, cpu) ← st; handle_scancode k mx cpu b.
Definition feed (k : State) (mx : IrqMutex Queue) (cpu : Cpu) (bs : list Z) : outcome (State * IrqMutex Queue * Cpu) :=
  fold_left byte_step bs (Done (k, mx, cpu)).

Lemma feed_app k mx cpu bs cs k' mx' cpu' :
  feed k mx cpu bs = Done (k', mx', cpu') -> feed k mx cpu (bs ++ cs) = feed k' mx' cpu' cs.
Proof. unfold feed. rewrite fold_left_app. by intros ->. Qed.

(** *** The bytes as keys *)

(** What the driver remembers between bytes: extension prefix seen, Shift held. *)
Record Mode := mkMode { m_extended : bool; m_shift : bool }.
#[export] Instance Mode_eq_dec : EqDecision Mode.
Proof. solve_decision. Defined.

Definition mode_of (k : State) : Mode := mkMode (EXTENDED k) (SHIFT k).

(** One byte of the stream: a Shift key, a key pressed, or nothing of interest. *)
Definition decode_byte (m : Mode) (b : Z) : Mode * list KeyEvent :=
  let make := Z.land b 0x7f in
  if b =? 0xe0 then (mkMode true (m_shift m), [])
  else if m_extended m then (mkMode false (m_shift m), [])
  else if bool_decide (make = 0x2a \/ make = 0x36) then (mkMode false (negb (has_bits b 0x80)), [])
  else if has_bits b 0x80 then (mkMode false (m_shift m), [])
  else (mkMode false (m_shift m), option_list (translate make (m_shift m))).

Fixpoint decode (m : Mode) (bs : list Z) : Mode * list KeyEvent :=
  match bs with
  | [] => (m, [])
  | b :: bs => let '(m, es) := decode_byte m b in let '(m, es') := decode m bs in (m, es ++ es')
  end.

Definition released : Mode := mkMode false false.
(** The keys of a stream that starts with no key held. *)
Definition decoded (bs : list Z) : list KeyEvent := (decode released bs).2.

Lemma decode_app m bs cs : decode m (bs ++ cs) =
  ((decode (decode m bs).1 cs).1, (decode m bs).2 ++ (decode (decode m bs).1 cs).2).
Proof.
  revert m. induction bs as [|b bs IH]; intros m; cbn [app decode]; [apply surjective_pairing|].
  destruct (decode_byte m b) as [m1 es]. rewrite IH. destruct (decode m1 bs) as [m2 es2]. cbn [fst snd]. by rewrite app_assoc.
Qed.

Lemma decode_byte_one m b : (length (decode_byte m b).2 <= 1)%nat.
Proof.
  unfold decode_byte. destruct (_ =? _); [cbn; lia|]. destruct (m_extended m); [cbn; lia|]. case_bool_decide; [cbn; lia|].
  destruct (has_bits _ _); [cbn; lia|]. destruct (translate _ _); cbn; lia.
Qed.

Definition fifo_all (f : fifo) (es : list KeyEvent) : fifo := fold_left (fun f e => (fifo_push f e).1) es f.

(** Any byte at all: the queue has got the key it decodes to, lock and interrupt
    flag are as they were. *)
Lemma scancode_decodes k mx cpu f b : holds (value mx) f ->
  exists k' q, handle_scancode k mx cpu b = Done (k', mkMutex (locked mx) q, cpu) /\
    mode_of k' = (decode_byte (mode_of k) b).1 /\ holds q (fifo_all f (decode_byte (mode_of k) b).2).
Proof.
  intros Hq. assert (mx = mkMutex (locked mx) (value mx)) as Hmx by (by destruct mx). unfold handle_scancode, decode_byte.
  change SCANCODE_EXTENDED with 0xe0. change (Z.lxor U8_MAX SCANCODE_BREAK) with 0x7f. change SCANCODE_BREAK with 0x80.
  change SCAN_LSHIFT with 0x2a. change SCAN_RSHIFT with 0x36. cbn [mode_of m_extended m_shift].
  destruct (b =? 0xe0); [by eexists _, (value mx); rewrite <-Hmx|]. destruct (EXTENDED k); [by eexists _, (value mx); rewrite <-Hmx|].
  replace ((Z.land b 0x7f =? 0x2a) || (Z.land b 0x7f =? 0x36)) with (bool_decide (Z.land b 0x7f = 0x2a \/ Z.land b 0x7f = 0x36)).
  2: { destruct (Z.eqb_spec (Z.land b 0x7f) 0x2a), (Z.eqb_spec (Z.land b 0x7f) 0x36); case_bool_decide; tauto. }
  case_bool_decide; [by eexists _, (value mx); rewrite <-Hmx|]. destruct (has_bits b 0x80); [by eexists _, (value mx); rewrite <-Hmx|].
  destruct (translate _ _) as [ev|]; [|by eexists _, (value mx); rewrite <-Hmx].
  destruct (push_sim _ _ ev Hq) as (q & Hp & Hq'). unfold Input.push. rewrite (with_value _ _ _ _ _ Hp). cbn [mbind outcome_bind].
  eexists _, q. split; [reflexivity|]. by destruct (fifo_push f ev).2.
Qed.

(** How many of them find room. *)
Fixpoint accepted (f : fifo) (es : list KeyEvent) : Z :=
  match es with
  | [] => 0
  | e :: es => (if (fifo_push f e).2 then 1 else 0) + accepted (fifo_push f e).1 es
  end.

(** Every key of the layout decodes to its event, and no code in it is a Shift
    key, a break code or the extension prefix. *)
Definition key_ok (k : Z * bool * KeyEvent) : bool :=
  let '(make, shifted, e) := k in
  bool_decide (translate make shifted = Some e) &&
  (negb (make =? 0xe0) && negb (break make =? 0xe0) && negb ((make =? SCAN_LSHIFT) || (make =? SCAN_RSHIFT)) &&
   negb (has_bits make SCANCODE_BREAK) && has_bits (break make) SCANCODE_BREAK &&
   (Z.land make (Z.lxor U8_MAX SCANCODE_BREAK) =? make) &&
   (Z.land (break make) (Z.lxor U8_MAX SCANCODE_BREAK) =? make)).

Lemma layout_ok k : k ∈ layout -> key_ok k = true.
Proof.
  revert k. apply Forall_forall. assert (forallb key_ok layout = true) as Hl by (vm_compute; reflexivity).
  apply Forall_forall. intros k Hk%list_elem_of_In. by eapply forallb_forall in Hl.
Qed.

Lemma bump_bool_mod n k : wrapping_add_u32 (as_u32 n) k = as_u32 (n + k).
Proof. unfold wrapping_add_u32, as_u32. by rewrite Zplus_mod_idemp_l. Qed.

(** A make code with Shift in the right state pushes the event; the break code
    does nothing. *)
Lemma feed_key make shifted e n mx cpu f :
  (make, shifted, e) ∈ layout -> holds (value mx) f ->
  exists q, feed (mkState false shifted (as_u32 n)) mx cpu [make; break make] =
      Done (mkState false shifted (as_u32 (n + accepted f [e])), mkMutex (locked mx) q, cpu) /\
    holds q (fifo_push f e).1.
Proof.
  intros Hk Hq. apply layout_ok in Hk. unfold key_ok in Hk.
  rewrite !andb_true_iff, !negb_true_iff, bool_decide_eq_true, !Z.eqb_eq in Hk.
  destruct Hk as (Ht & (((((He & Hb) & Hs) & Hr) & Hbr) & Hm) & Hbm).
  destruct (push_sim _ _ e Hq) as (q & Hp & Hq'). exists q. split; [|done].
  cbn [feed fold_left]. unfold byte_step. cbn [mbind outcome_bind]. unfold handle_scancode at 2.
  change SCANCODE_EXTENDED with 0xe0. rewrite He. cbn [EXTENDED SHIFT ENQUEUED]. rewrite Hm, Hs, Hr, Ht.
  unfold Input.push. rewrite (with_value _ _ _ _ _ Hp). cbn [mbind outcome_bind].
  cbn [accepted]. rewrite Z.add_0_r, <-bump_bool_mod.
  assert (forall c, handle_scancode (mkState false shifted c) (mkMutex (locked mx) q) cpu (break make) =
    Done (mkState false shifted c, mkMutex (locked mx) q, cpu)) as Hbreak.
  { intros c. unfold handle_scancode. change SCANCODE_EXTENDED with 0xe0. rewrite Hb.
    cbn [EXTENDED SHIFT ENQUEUED]. by rewrite Hbm, Hs, Hbr. }
  destruct (fifo_push f e).2; rewrite Hbreak; [done|]. by rewrite bump_bool_mod, Z.add_0_r.
Qed.

(** What the driver's state is between strokes. *)
Definition at_rest (n : Z) : State := mkState false false (as_u32 n).

Lemma feed_shift_down n mx cpu :
  feed (at_rest n) mx cpu [0x2a] = Done (mkState false true (as_u32 n), mx, cpu).
Proof. reflexivity. Qed.
Lemma feed_shift_up n mx cpu :
  feed (mkState false true (as_u32 n)) mx cpu [break 0x2a] = Done (at_rest n, mx, cpu).
Proof. reflexivity. Qed.

Lemma feed_extended code n mx cpu :
  0 <= code < 0x60 -> feed (at_rest n) mx cpu [0xe0; code; 0xe0; break code] = Done (at_rest n, mx, cpu).
Proof.
  intros Hc. cbn [feed fold_left]. unfold byte_step. cbn [mbind outcome_bind]. unfold handle_scancode, break.
  change SCANCODE_EXTENDED with 0xe0.
  destruct (Z.eqb_spec 0xe0 0xe0); [|done]. cbn [mbind outcome_bind EXTENDED at_rest].
  destruct (Z.eqb_spec code 0xe0); [lia|]. cbn [mbind outcome_bind EXTENDED SHIFT ENQUEUED].
  destruct (Z.eqb_spec (code + 0x80) 0xe0); [lia|]. done.
Qed.

Lemma feed_stroke s n mx cpu f :
  stroke_ok s -> holds (value mx) f ->
  exists q, feed (at_rest n) mx cpu (sends s) =
      Done (at_rest (n + accepted f (means s)), mkMutex (locked mx) q, cpu) /\
    holds q (fifo_all f (means s)).
Proof.
  intros Hs Hq. destruct s as [make [] e|code].
  - destruct (feed_key make true e n mx cpu f Hs Hq) as (q & Hf & Hq'). exists q. split; [|done].
    change (sends _) with ([0x2a] ++ [make; break make] ++ [break 0x2a]).
    rewrite (feed_app _ _ _ _ _ _ _ _ (feed_shift_down n mx cpu)), (feed_app _ _ _ _ _ _ _ _ Hf).
    apply feed_shift_up.
  - apply (feed_key make false e n mx cpu f Hs Hq).
  - exists (value mx). split; [|done]. simpl sends. rewrite feed_extended by done. cbn [means accepted].
    rewrite Z.add_0_r. by destruct mx.
Qed.

Lemma accepted_app f es es' : accepted f (es ++ es') = accepted f es + accepted (fifo_all f es) es'.
Proof. revert f. induction es as [|e es IH]; intros f; [done|]. simpl. rewrite IH. lia. Qed.

Lemma fifo_all_app f es es' : fifo_all f (es ++ es') = fifo_all (fifo_all f es) es'.
Proof. unfold fifo_all. apply fold_left_app. Qed.

Lemma feed_strokes ss n mx cpu f :
  Forall stroke_ok ss -> holds (value mx) f ->
  exists q, feed (at_rest n) mx cpu (ss ≫= sends) =
      Done (at_rest (n + accepted f (ss ≫= means)), mkMutex (locked mx) q, cpu) /\
    holds q (fifo_all f (ss ≫= means)).
Proof.
  intros Hss. revert n mx f. induction Hss as [|s ss Hs _ IH]; intros n mx f Hq.
  { exists (value mx). split; [|done]. simpl. rewrite Z.add_0_r. by destruct mx. }
  destruct (feed_stroke s n mx cpu f Hs Hq) as (q & Hf & Hq').
  destruct (IH (n + accepted f (means s)) (mkMutex (locked mx) q) (fifo_all f (means s)) Hq')
    as (q' & Hf' & Hq''). exists q'. rewrite !bind_cons, (feed_app _ _ _ _ _ _ _ _ Hf), Hf', accepted_app, fifo_all_app.
  by rewrite Z.add_assoc.
Qed.

Lemma decode_prefix m : decode_byte m 0xe0 = (mkMode true (m_shift m), []).
Proof. done. Qed.
Lemma decode_skipped sh b : b <> 0xe0 -> decode_byte (mkMode true sh) b = (mkMode false sh, []).
Proof. intros Hb. unfold decode_byte. by destruct (Z.eqb_spec b 0xe0). Qed.

(** What the keyboard sends decodes to what was struck. *)
Lemma decode_stroke s : stroke_ok s -> decode released (sends s) = (released, means s).
Proof.
  destruct s as [make shifted e|code]; intros Hs.
  - assert (forallb (fun k : Z * bool * KeyEvent => bool_decide (decode released (sends (Key k.1.1 k.1.2 k.2)) = (released, [k.2]))) layout = true)
      as Hl by (vm_compute; reflexivity).
    apply list_elem_of_In in Hs. eapply forallb_forall in Hl; [|exact Hs]. by apply bool_decide_eq_true in Hl.
  - cbn [stroke_ok] in Hs. unfold sends, break. cbn [decode]. rewrite decode_prefix. cbn [m_shift released]. rewrite decode_skipped by lia. rewrite decode_prefix. cbn [m_shift]. rewrite decode_skipped by lia. done.
Qed.

Lemma decode_strokes ss : Forall stroke_ok ss -> decode released (ss ≫= sends) = (released, ss ≫= means).
Proof.
  induction 1 as [|s ss Hs _ IH]; [done|]. rewrite !bind_cons, decode_app, decode_stroke by done. cbn [fst snd]. by rewrite IH.
Qed.

(** ** Interrupts *)

Section device.
Context {D : Type} `{KeyboardDevice D}.

(** One interrupt per byte the controller holds. *)
Fixpoint interrupts (n : nat) (d : D) (k : State) (mx : IrqMutex Queue) (cpu : Cpu)
  : outcome (D * State * IrqMutex Queue * Cpu) :=
  match n with
  | O => Done (d, k, mx, cpu)
  | S n => '(d, k, mx, cpu) ← keyboard_interrupt d k mx cpu; interrupts n d k mx cpu
  end.

Lemma interrupt_byte d k mx cpu b bs :
  pending d = b :: bs ->
  exists d', pending d' = bs /\
    keyboard_interrupt d k mx cpu = ('(k, mx, cpu) ← handle_scancode k mx cpu b; Done (d', k, mx, cpu)).
Proof.
  intros Hd. unfold keyboard_interrupt. pose proof (kb_status d) as Hst. pose proof (kb_status_keeps d) as Hk.
  destruct (inb d STATUS_PORT) as [status d1]. cbn [fst snd] in *. rewrite Hd in Hst, Hk. rewrite Hst.
  destruct (kb_data d1 b bs Hk) as [Hv Hp]. destruct (inb d1 DATA_PORT) as [v d2]. cbn [fst snd] in *. subst v.
  change (Pic.end_of_interrupt d2 IRQ) with
    (outb d2 Pic.MASTER_COMMAND Pic.OCW2_END_OF_INTERRUPT, Pic.Serviced).
  eexists. split; [|done]. by rewrite kb_other_out.
Qed.

Lemma interrupts_feed bs d k mx cpu k' mx' cpu' :
  pending d = bs -> feed k mx cpu bs = Done (k', mx', cpu') ->
  exists d', pending d' = [] /\ interrupts (length bs) d k mx cpu = Done (d', k', mx', cpu').
Proof.
  revert d k mx cpu. induction bs as [|b bs IH]; intros d k mx cpu Hd Hf.
  { exists d. split; [done|]. cbn in *. by injection Hf as -> -> ->. }
  destruct (interrupt_byte d k mx cpu b bs Hd) as (d1 & Hd1 & Hi). cbn [length interrupts]. rewrite Hi.
  cbn [feed fold_left] in Hf. unfold byte_step in Hf at 2. cbn [mbind outcome_bind] in Hf.
  destruct (handle_scancode k mx cpu b) as [[[k1 mx1] cpu1]| |] eqn:Hh; cbn [mbind outcome_bind].
  - by apply (IH d1 k1 mx1 cpu1).
  - exfalso. clear -Hf. induction bs; [done|auto].
  - exfalso. clear -Hf. induction bs; [done|auto].
Qed.

(** C23: Typing round trip. Whatever a user strikes on the US layout the driver
    supports - with Shift held for capitals and the underscore - and whatever
    extended keys are struck in between, after one interrupt per byte the
    controller is drained, the events meant have been queued in order as far as
    the queue had room, the count of enqueued keys grew by exactly those
    accepted, and Shift, lock and interrupt flag are back at rest. *)
Theorem typing_reaches_queue (ss : list stroke) (d : D) (n : Z) (mx : IrqMutex Queue) (cpu : Cpu) (f : fifo) :
  Forall stroke_ok ss -> pending d = ss ≫= sends -> holds (value mx) f ->
  exists d' q, interrupts (length (ss ≫= sends)) d (at_rest n) mx cpu =
      Done (d', at_rest (n + accepted f (ss ≫= means)), mkMutex (locked mx) q, cpu) /\
    pending d' = [] /\ holds q (fifo_all f (ss ≫= means)).
Proof.
  intros Hss Hd Hq. destruct (feed_strokes ss n mx cpu f Hss Hq) as (q & Hf & Hq').
  destruct (interrupts_feed _ _ _ _ _ _ _ _ Hd Hf) as (d' & Hd' & Hi). by exists d', q.
Qed.

End device.

(** Typing [Ox-1], an arrow key, Enter. *)
Definition demo_strokes : list stroke :=
  [Key 0x18 true (Char 79); Key 0x2d false (Char 120); Key 0x0c false (Char 45); Key 0x02 false (Char 49);
   ExtendedKey 0x48; Key 0x1c false Enter].

Lemma typing_reaches_queue_witness :
  exists d' q, interrupts 18 (demo_strokes ≫= sends : Wire) (at_rest 0) (Sync.new Input.new) boot_cpu =
      Done (d', at_rest 5, mkMutex false q, boot_cpu) /\
    holds q (mkFifo [Char 79; Char 120; Char 45; Char 49; Enter] 0).
Proof.
  destruct (typing_reaches_queue demo_strokes (demo_strokes ≫= sends : Wire) 0 (Sync.new Input.new) boot_cpu
    (mkFifo [] 0)) as (d' & q & Hi & _ & Hq).
  - repeat constructor; try (apply (bool_decide_unpack _); vm_compute; exact I); done.
  - reflexivity.
  - exact holds_new.
  - exists d', q. split; [exact Hi|exact Hq].
Defined.

(** The driver keeps one flag for two Shift keys: with both held, releasing
    either clears it, and a letter struck while the other is still down comes
    out in lower case. *)
Theorem shift_release_clears_both (n : Z) (mx : IrqMutex Queue) (cpu : Cpu) :
  feed (at_rest n) mx cpu [SCAN_LSHIFT; SCAN_RSHIFT; break SCAN_RSHIFT] = Done (at_rest n, mx, cpu) /\
  feed (at_rest n) mx cpu [SCAN_RSHIFT; SCAN_LSHIFT; break SCAN_LSHIFT] = Done (at_rest n, mx, cpu) /\
  forall f, holds (value mx) f -> exists q k,
    feed (at_rest n) mx cpu [SCAN_LSHIFT; SCAN_RSHIFT; break SCAN_RSHIFT; 0x1e; break 0x1e] =
      Done (k, mkMutex (locked mx) q, cpu) /\ holds q (fifo_push f (Char (ch "a"))).1.
Proof.
  split; [reflexivity|]. split; [reflexivity|]. intros f Hq.
  destruct (feed_key 0x1e false (Char (ch "a")) n mx cpu f) as (q & Hf & Hq'); [|done|].
  { apply (bool_decide_unpack _). vm_compute. exact I. }
  exists q. eexists. split; [exact Hf|done].
Qed.

End KeyboardFacts.
