(* ===== verification/Task.v ===== *)
(** * Tasks ([task/mod.rs], [task/switch.s])

    The cooperative scheduler: the task table, the ready ring, priming the
    stack of a new task, and the register-level context switch. A task's saved
    stack pointer, [context.esp], is a memory word the assembly reads and
    writes through a pointer; [slot id] is its address in the static table. *)

From S2P Require Import Prelude.
From S2P Require Import Ring.
From S2P Require Import Machine.
From S2P Require Import Sync.
From S2P Require Import Heap.
#[local] Open Scope Z_scope.

Module Task.
Import Machine.

Definition STACK_SIZE : Z := 8 * 1024.
Definition MAX_TASKS : nat := 4.

(** [_stack]; the other field, [context], is in memory at [slot id]. *)
Record Task := mkTask { stack : option Z }.

Record Scheduler := mkScheduler {
  tasks : list (option Task);
  ready : list nat;
  ready_head : nat;
  ready_len : nat;
  current : nat
}.

(** [Scheduler::new] *)
Definition new : Scheduler := mkScheduler (replicate MAX_TASKS None) (replicate MAX_TASKS 0%nat) 0 0 0.

Definition enqueue_ready (s : Scheduler) (id : nat) : outcome Scheduler :=
  if negb (ready_len s <? MAX_TASKS)%nat then Panicked
  else
    let tail := ((ready_head s + ready_len s) mod MAX_TASKS)%nat in
    ready ← index_set (ready s) tail id;
    Done {| s with ready := ready; ready_len := S (ready_len s) |}.

Definition dequeue_ready (s : Scheduler) : outcome (Scheduler * option nat) :=
  if (ready_len s =? 0)%nat then Done (s, None)
  else
    id ← index_get (ready s) (ready_head s);
    Done ({| s with ready_head := ((ready_head s + 1) mod MAX_TASKS)%nat;
                    ready_len := pred (ready_len s) |}, Some id).

(** The scheduler and the atomics [TASK_COUNT] and [TURNS]. *)
Record State := mkState { sched : Scheduler; TASK_COUNT : nat; TURNS : list Z }.

Definition boot : State := mkState new 0 (replicate MAX_TASKS 0).

Definition init (slot : nat -> Z) (st : State) (m : mem) : outcome (State * mem) :=
  tasks ← index_set (tasks (sched st)) 0 (Some (mkTask None));
  let m := m.[slot 0%nat <- 0] in
  Done ({| st with sched := {| (sched st) with tasks := tasks; current := 0%nat; ready_head := 0%nat;
                                               ready_len := 0%nat |};
                   TASK_COUNT := 1%nat |}, m).

Definition count (st : State) : nat := TASK_COUNT st.
Definition turns (st : State) (id : nat) : Z :=
  if (MAX_TASKS <=? id)%nat then 0 else default 0 (TURNS st !! id).

(** ** [spawn] *)

(** [alloc::vec![0u8; STACK_SIZE]]: a zeroed block from the global allocator;
    a null answer is the [alloc_error] panic. *)
Definition alloc_stack (h : Heap.Heap) (m : mem) : outcome (Heap.Heap * mem * Z) :=
  '(h, m, ptr) ← Heap.allocate h m (Heap.mkLayout STACK_SIZE 1);
  if ptr =? 0 then Panicked
  else
    let words := (fun i => ptr + 4 * i) <$> range_list 0 (STACK_SIZE / 4) in
    Done (h, fold_left (fun m a => m.[a <- 0]) words m, ptr).

Definition stack_top (ptr : Z) : Z := Z.land (ptr + STACK_SIZE) (Z.lxor U32_MAX 0xf).

(** The words [spawn] plants below the top, and the resulting [esp]. *)
Definition prime_stack (m : mem) (top entry trampoline : Z) : outcome (mem * Z) :=
  esp ← sub_u32 top 4;
  let m := m.[esp <- entry] in
  esp ← sub_u32 esp 4;
  let m := m.[esp <- trampoline] in
  fold_left (fun st _ => '(m, esp) ← st; esp ← sub_u32 esp 4; Done (m.[esp <- 0], esp))
    (zrange 0 4) (Done (m, esp)).

(** The part of [spawn] under the scheduler's lock, up to the write of the
    task's [context]. *)
Definition claim_slot (st : State) (ptr : Z) : outcome (State * option nat) :=
  match position (fun slot => negb (bool_decide (is_Some slot))) (tasks (sched st)) with
  | None => Done (st, None)
  | Some id =>
      tasks ← index_set (tasks (sched st)) id (Some (mkTask (Some ptr)));
      s ← enqueue_ready {| (sched st) with tasks := tasks |} id;
      Done ({| st with sched := s; TASK_COUNT := S (TASK_COUNT st) |}, Some id)
  end.

(** [entry] and [trampoline] are the addresses of the functions. A full table
    drops the box, which frees the stack. *)
Definition spawn (slot : nat -> Z) (trampoline : Z) (st : State) (h : Heap.Heap) (m : mem) (entry : Z)
  : outcome (State * Heap.Heap * mem * option nat) :=
  '(h, m, ptr) ← alloc_stack h m;
  '(m, esp) ← prime_stack m (stack_top ptr) (as_u32 entry) (as_u32 trampoline);
  '(st, r) ← claim_slot st ptr;
  match r with
  | None => '(h, m) ← Heap.deallocate h m ptr; Done (st, h, m, None)
  | Some id => Done (st, h, m.[slot id <- as_u32 esp], Some id)
  end.

(** ** [yield_now] *)

(** The block that holds the scheduler's lock; [None] is the early return of a
    sole task. *)
Definition pick_next (st : State) : outcome (State * option (nat * nat)) :=
  let s := sched st in
  let current_ := current s in
  s ← enqueue_ready s current_;
  '(s, next) ← dequeue_ready s;
  next ← outcome_of_option next;
  if (next =? current_)%nat then Done ({| st with sched := s |}, None)
  else
    t ← index_get (tasks s) current_;
    _ ← outcome_of_option t;
    t ← index_get (tasks s) next;
    _ ← outcome_of_option t;
    n ← index_get (TURNS st) next;
    TURNS ← index_set (TURNS st) next (wrapping_add_u32 n 1);
    Done ({| st with sched := {| s with current := next |}; TURNS := TURNS |}, Some (current_, next)).

(** ** [switch.s] *)

Record Regs := mkRegs {
  eax : Z; ebx : Z; ecx : Z; edx : Z; esi : Z; edi : Z; ebp : Z; esp : Z; eip : Z
}.

Definition pushl (r : Regs) (m : mem) (v : Z) : Regs * mem :=
  let sp := as_u32 (esp r - 4) in ({| r with esp := sp |}, m.[sp <- v]).
Definition popl (r : Regs) (m : mem) : Regs * Z := ({| r with esp := as_u32 (esp r + 4) |}, m.[esp r]).

Definition context_switch (r : Regs) (m : mem) : Regs * mem :=
  let r := {| r with eax := m.[esp r + 4] |} in
  let r := {| r with edx := m.[esp r + 8] |} in
  let '(r, m) := pushl r m (ebp r) in
  let '(r, m) := pushl r m (edi r) in
  let '(r, m) := pushl r m (esi r) in
  let '(r, m) := pushl r m (ebx r) in
  let m := m.[eax r <- esp r] in
  let r := {| r with esp := m.[edx r] |} in
  let '(r, v) := popl r m in let r := {| r with ebx := v |} in
  let '(r, v) := popl r m in let r := {| r with esi := v |} in
  let '(r, v) := popl r m in let r := {| r with edi := v |} in
  let '(r, v) := popl r m in let r := {| r with ebp := v |} in
  let '(r, v) := popl r m in ({| r with eip := v |}, m).

(** [task_trampoline] up to its call; [park] is the address of the halt loop
    after it. *)
Definition task_trampoline (park : Z) (r : Regs) (m : mem) : Regs * mem :=
  let '(r, v) := popl r m in let r := {| r with eax := v |} in
  let r := {| r with esp := as_u32 (esp r - 12) |} in
  let '(r, m) := pushl r m park in
  ({| r with eip := eax r |}, m).

(** The call of [context_switch] in [yield_now]: arguments and return address
    on the stack. *)
Definition call_context_switch (ret : Z) (r : Regs) (m : mem) (old_esp new_esp : Z) : Regs * mem :=
  let '(r, m) := pushl r m new_esp in
  let '(r, m) := pushl r m old_esp in
  let '(r, m) := pushl r m ret in
  context_switch r m.

(** [yield_now] up to where the CPU leaves the calling task, with the [flags]
    it keeps for its return; [None] when it returns at once. *)
Definition yield_now (slot : nat -> Z) (ret : Z) (st : State) (cpu : Cpu) (r : Regs) (m : mem)
  : outcome (State * Cpu * Regs * mem * option Z) :=
  '(st, sw) ← pick_next st;
  match sw with
  | None => Done (st, cpu, r, m, None)
  | Some (old, next) =>
      let flags := Sync.read_eflags cpu in
      let cpu := Sync.cli cpu in
      let '(r, m) := call_context_switch ret r m (slot old) (slot next) in
      Done (st, cpu, r, m, Some flags)
  end.

(** The rest of [yield_now], when the task that kept [flags] runs again. *)
Definition yield_return (flags : Z) (cpu : Cpu) : Cpu :=
  if has_bits flags Sync.EFLAGS_IF then Sync.sti cpu else cpu.

End Task.
