(* ===== verification/TaskFacts.v ===== *)
(** * The scheduler takes turns, the switch swaps contexts

    The ready ring with the running task is a rotation of the existing tasks;
    the assembly saves one task's registers and resumes another's exactly. *)

From S2P Require Import Prelude.
From S2P Require Import Ring.
From S2P Require Import Machine.
From S2P Require Import Sync.
From S2P Require Import Heap.
From S2P Require Import Task.
#[local] Open Scope Z_scope.

Module TaskFacts.
Import Machine Task.

(** ** The ready ring *)

Record ring_ok (s : Scheduler) (q : list nat) : Prop := {
  ro_ready : length (ready s) = MAX_TASKS;
  ro_head : (ready_head s < MAX_TASKS)%nat;
  ro_len : ready_len s = length q;
  ro_view : Ring.view (ready s) (ready_head s) (ready_len s) = q
}.

Lemma enqueue_spec s q id : ring_ok s q -> (length q < MAX_TASKS)%nat ->
  exists s', enqueue_ready s id = Done s' /\ ring_ok s' (q ++ [id]) /\
    tasks s' = tasks s /\ current s' = current s.
Proof.
  intros [Hr Hh Hl Hv] Hq. unfold enqueue_ready. rewrite Hl.
  destruct (Nat.ltb_spec (length q) MAX_TASKS); [|lia]. cbn [negb].
  rewrite index_set_Done by (rewrite Hr; by apply Nat.mod_upper_bound).
  eexists. split; [done|]. split; [|done]. split; cbn [ready ready_head ready_len].
  - by rewrite length_insert.
  - done.
  - rewrite length_app. simpl. lia.
  - rewrite Hl in Hv. rewrite <-Hr, Ring.view_push by lia. by rewrite Hv.
Qed.

Lemma dequeue_spec s q id : ring_ok s (id :: q) ->
  exists s', dequeue_ready s = Done (s', Some id) /\ ring_ok s' q /\
    tasks s' = tasks s /\ current s' = current s.
Proof.
  intros [Hr Hh Hl Hv]. unfold dequeue_ready. cbn [length] in Hl. rewrite Hl in *. cbn [Nat.eqb].
  rewrite Ring.view_pop in Hv by lia. injection Hv as Hid Hv.
  rewrite index_get_total by lia. cbn [mbind outcome_bind]. rewrite Hid.
  eexists. split; [done|]. split; [|done]. split; cbn [ready ready_head ready_len pred]; try done.
  - by apply Nat.mod_upper_bound.
  - by rewrite <-Hr.
Qed.

(** ** Well-formed scheduler states: task [c] runs, [q] wait in that order *)

Record st_ok (st : State) (c : nat) (q : list nat) : Prop := {
  so_tasks : length (tasks (sched st)) = MAX_TASKS;
  so_turns : length (TURNS st) = MAX_TASKS;
  so_ring : ring_ok (sched st) q;
  so_current : current (sched st) = c;
  so_nodup : NoDup (c :: q);
  so_occupied : forall i, i ∈ c :: q <-> exists t, tasks (sched st) !! i = Some (Some t);
  so_count : TASK_COUNT st = length (c :: q)
}.

Lemma so_bound st c q i : st_ok st c q -> i ∈ c :: q -> (i < MAX_TASKS)%nat.
Proof.
  intros Hok Hi. apply (so_occupied _ _ _ Hok) in Hi as [t Ht].
  rewrite <-(so_tasks _ _ _ Hok). by eapply lookup_lt_Some.
Qed.

Lemma so_length st c q : st_ok st c q -> (length (c :: q) <= MAX_TASKS)%nat.
Proof.
  intros Hok. rewrite <-(length_seq MAX_TASKS 0). apply NoDup_incl_length.
  - apply NoDup_ListNoDup, (so_nodup _ _ _ Hok).
  - intros i Hi%list_elem_of_In. apply in_seq. pose proof (so_bound _ _ _ _ Hok Hi). lia.
Qed.

Lemma init_ok slot m : exists st, init slot boot m = Done (st, m.[slot 0%nat <- 0]) /\
  st_ok st 0 [] /\ TURNS st = replicate MAX_TASKS 0 /\ tasks (sched st) = [Some (mkTask None); None; None; None].
Proof.
  eexists. split; [reflexivity|]. split; [|split; reflexivity]. split; try done.
  - split; try done. vm_compute. lia.
  - apply NoDup_singleton.
  - intros i. rewrite elem_of_cons, elem_of_nil.
    destruct i as [|[|[|[|i]]]]; simpl; split; try (by intros []); try (by intros [? [=]]); eauto.
Qed.

(** A yield rotates the tasks; alone, a task goes on. *)
Lemma pick_sole st c : st_ok st c [] ->
  exists st', pick_next st = Done (st', None) /\ st_ok st' c [] /\ TURNS st' = TURNS st.
Proof.
  intros Hok. pose proof Hok as [Ht Hu Hr Hc Hnd Hocc Hn]. unfold pick_next. rewrite Hc.
  destruct (enqueue_spec _ _ c Hr) as (s1 & -> & Hr1 & Ht1 & Hc1); [cbn [length]; unfold MAX_TASKS in *; lia|]. cbn [mbind outcome_bind].
  destruct (dequeue_spec _ _ _ Hr1) as (s2 & -> & Hr2 & Ht2 & Hc2). cbn [mbind outcome_bind outcome_of_option].
  rewrite Nat.eqb_refl. eexists. split; [done|]. split; [|done].
  split; cbn [sched TASK_COUNT TURNS]; try done; congruence || (rewrite Ht2, Ht1; done).
Qed.

Lemma index_occupied st c q i : st_ok st c q -> i ∈ c :: q ->
  exists t, index_get (tasks (sched st)) i = Done (Some t).
Proof.
  intros Hok [t Ht]%(so_occupied _ _ _ Hok). exists t. by apply index_get_Done.
Qed.

Lemma pick_rotates st c n q : st_ok st c (n :: q) ->
  exists st', pick_next st = Done (st', Some (c, n)) /\ st_ok st' n (q ++ [c]) /\
    TURNS st' = <[n := wrapping_add_u32 (TURNS st !!! n) 1]> (TURNS st) /\ tasks (sched st') = tasks (sched st).
Proof.
  intros Hok. pose proof Hok as [Ht Hu Hr Hc Hnd Hocc Hn]. unfold pick_next. rewrite Hc.
  pose proof (so_length _ _ _ Hok) as Hlen. cbn [length] in Hlen.
  destruct (enqueue_spec _ _ c Hr) as (s1 & -> & Hr1 & Ht1 & Hc1); [cbn [length]; unfold MAX_TASKS in *; lia|]. cbn [mbind outcome_bind].
  destruct (dequeue_spec _ _ _ Hr1) as (s2 & -> & Hr2 & Ht2 & Hc2). cbn [mbind outcome_bind outcome_of_option].
  assert (n <> c) as Hne by (intros ->; apply NoDup_cons in Hnd as [Hni _]; apply Hni, list_elem_of_here).
  apply Nat.eqb_neq in Hne as ->. rewrite Ht2, Ht1.
  destruct (index_occupied st c (n :: q) c Hok (list_elem_of_here _ _)) as [tc ->].
  destruct (index_occupied st c (n :: q) n Hok) as [tn ->]; [by apply list_elem_of_further, list_elem_of_here|].
  cbn [mbind outcome_bind outcome_of_option].
  assert (n < MAX_TASKS)%nat as Hnb by (apply (so_bound _ _ _ _ Hok); by apply list_elem_of_further, list_elem_of_here).
  rewrite index_get_total by lia. cbn [mbind outcome_bind]. rewrite index_set_Done by lia.
  eexists. split; [done|]. split; [|split; [done|cbn [sched tasks]; congruence]].
  assert (c :: n :: q ≡ₚ n :: q ++ [c]) as Hperm by (rewrite <-Permutation_cons_append; constructor).
  split; cbn [sched TASK_COUNT TURNS tasks current].
  - done.
  - by rewrite length_insert.
  - by destruct Hr2.
  - done.
  - by rewrite <-Hperm.
  - intros i. rewrite <-Hperm. apply Hocc.
  - rewrite Hn. by rewrite Hperm.
Qed.

(** A new task goes to the end of the queue, in a slot nobody has. *)
Lemma claim_room st c q ptr : st_ok st c q -> (length (c :: q) < MAX_TASKS)%nat ->
  exists st' id, claim_slot st ptr = Done (st', Some id) /\ id ∉ c :: q /\ st_ok st' c (q ++ [id]) /\
    TURNS st' = TURNS st /\ tasks (sched st') = <[id := Some (mkTask (Some ptr))]> (tasks (sched st)) /\
    (forall i, (i < id)%nat -> i ∈ c :: q).
Proof.
  intros Hok Hlen. pose proof Hok as [Ht Hu Hr Hc Hnd Hocc Hn]. unfold claim_slot.
  destruct (position _ _) as [id|] eqn:Hp.
  - apply position_Some in Hp as [(x & Hx & Hf) Hlow].
    assert (x = None) as -> by (by destruct x).
    pose proof (lookup_lt_Some _ _ _ Hx) as Hid. rewrite index_set_Done by done. cbn [mbind outcome_bind].
    assert (id ∉ c :: q) as Hni.
    { intros [t Ht']%Hocc. rewrite Hx in Ht'. done. }
    destruct (enqueue_spec {| (sched st) with tasks := <[id := Some (mkTask (Some ptr))]> (tasks (sched st)) |} q id)
      as (s' & -> & Hr' & Ht' & Hc'); [by destruct Hr|simpl in *; lia|]. cbn [mbind outcome_bind].
    eexists _, id. split; [done|]. split; [done|]. split; [|split_and!; [done|by simpl; rewrite Ht'|]].
    + assert (id :: c :: q ≡ₚ c :: q ++ [id]) as Hperm by (rewrite <-Permutation_cons_append; constructor).
      split; cbn [sched TASK_COUNT TURNS]; try done.
      * rewrite Ht'. cbn [tasks]. by rewrite length_insert.
      * rewrite Hc'. done.
      * rewrite <-Hperm. by constructor.
      * intros i. rewrite <-Hperm, Ht'. cbn [tasks]. rewrite elem_of_cons, Hocc.
        destruct (decide (i = id)) as [->|Hne].
        -- rewrite list_lookup_insert_eq by done. split; [intros _; by eexists|by left].
        -- rewrite list_lookup_insert_ne by done. split; [by intros [?|?]|by right].
      * rewrite Hn. simpl. rewrite length_app. simpl. lia.
    + intros i Hi. apply Hocc. destruct (lookup_lt_is_Some_2 (tasks (sched st)) i) as [y Hy]; [lia|].
      specialize (Hlow i y Hi Hy). destruct y as [t|]; [by exists t|done].
  - exfalso. rewrite position_None in Hp.
    assert (length (seq 0 MAX_TASKS) <= length (c :: q))%nat as Hle.
    { apply NoDup_incl_length; [apply NoDup_ListNoDup, NoDup_seq|].
      intros i Hi%in_seq. apply list_elem_of_In, Hocc.
      destruct (lookup_lt_is_Some_2 (tasks (sched st)) i) as [y Hy]; [lia|].
      specialize (Hp y (list_elem_of_lookup_2 _ _ _ Hy)). destruct y as [t|]; [by exists t|done]. }
    rewrite length_seq in Hle. lia.
Qed.

Lemma claim_full st c q ptr : st_ok st c q -> length (c :: q) = MAX_TASKS ->
  claim_slot st ptr = Done (st, None).
Proof.
  intros Hok Hlen. pose proof Hok as [Ht Hu Hr Hc Hnd Hocc Hn]. unfold claim_slot.
  destruct (position _ _) as [id|] eqn:Hp; [|done]. exfalso.
  apply position_Some in Hp as [(x & Hx & Hf) _]. assert (x = None) as -> by (by destruct x).
  assert (length (id :: c :: q) <= length (seq 0 MAX_TASKS))%nat as Hle.
  { apply NoDup_incl_length.
    - apply NoDup_ListNoDup. constructor; [|done]. intros [t Ht']%Hocc. by rewrite Hx in Ht'.
    - intros i [->|Hi]%in_inv; apply in_seq.
      + apply lookup_lt_Some in Hx. lia.
      + apply list_elem_of_In in Hi. pose proof (so_bound _ _ _ _ Hok Hi). lia. }
  rewrite length_seq in Hle. cbn [length] in *. lia.
Qed.

(** ** Any history of spawns and yields *)

Inductive op := Spawn (ptr : Z) | Yield.

Definition apply_op (st : State) (o : op) : outcome State :=
  match o with
  | Spawn ptr => '(st, _) ← claim_slot st ptr; Done st
  | Yield => '(st, _) ← pick_next st; Done st
  end.

Definition apply_ops (st : outcome State) (os : list op) : outcome State :=
  fold_left (fun st o => st ← st; apply_op st o) os st.

(** Spawns accepted so far never exceed the free slots. *)
Definition spawned (os : list op) : nat := length (List.filter (fun o => match o with Spawn _ => true | _ => false end) os).

Lemma op_ok st c q o : st_ok st c q ->
  exists st' c' q', apply_op st o = Done st' /\ st_ok st' c' q' /\
    length q' = match o with Spawn _ => Nat.min (S (length q)) (MAX_TASKS - 1) | Yield => length q end.
Proof.
  intros Hok. pose proof (so_length _ _ _ Hok) as Hlen. cbn [length] in Hlen. destruct o as [ptr|]; cbn [apply_op].
  - destruct (decide (length (c :: q) = MAX_TASKS)) as [Hf|Hf].
    + rewrite (claim_full _ _ _ ptr Hok Hf). cbn [length] in Hf. exists st, c, q. split_and!; [done..|lia].
    + destruct (claim_room st c q ptr Hok) as (st' & id & -> & _ & Hok' & _); [cbn [length] in *; lia|].
      eexists _, _, _. split_and!; [done|done|]. rewrite length_app. cbn [length] in *. lia.
  - destruct q as [|n q].
    + destruct (pick_sole st c Hok) as (st' & -> & Hok' & _). by eexists _, _, _.
    + destruct (pick_rotates st c n q Hok) as (st' & -> & Hok' & _). eexists _, _, _.
      split_and!; [done|done|]. rewrite length_app. cbn [length]. lia.
Qed.

(** C8: No history of spawns and yields breaks the scheduler: none of its
    assertions, indexings or [unwrap]s panics, the ready ring never overflows,
    the running task and the ring hold every existing task exactly once, and
    as many tasks exist as were spawned, up to the four slots. *)
Theorem scheduler_keeps_every_task (slot : nat -> Z) (m : mem) (os : list op) :
  exists st0 st c q, init slot boot m = Done (st0, m.[slot 0%nat <- 0]) /\
    apply_ops (Done st0) os = Done st /\
    current (sched st) = c /\ Ring.view (ready (sched st)) (ready_head (sched st)) (ready_len (sched st)) = q /\
    NoDup (c :: q) /\ (forall i, i ∈ c :: q <-> exists t, tasks (sched st) !! i = Some (Some t)) /\
    count st = length (c :: q) /\ length (c :: q) = Nat.min (1 + spawned os) MAX_TASKS.
Proof.
  destruct (init_ok slot m) as (st0 & Hi & Hok & _).
  assert (forall os st c q, st_ok st c q -> exists st' c' q', apply_ops (Done st) os = Done st' /\ st_ok st' c' q' /\
    length (c' :: q') = Nat.min (length (c :: q) + spawned os) MAX_TASKS) as Hall.
  { clear. induction os as [|o os IH]; intros st c q Hok.
    - exists st, c, q. split_and!; [done..|]. pose proof (so_length _ _ _ Hok). cbn [spawned List.filter length] in *. lia.
    - destruct (op_ok st c q o Hok) as (st1 & c1 & q1 & Hop & Hok1 & Hl1). cbn [apply_ops fold_left mbind outcome_bind].
      rewrite Hop. destruct (IH st1 c1 q1 Hok1) as (st' & c' & q' & Hr & Hok' & Hl').
      exists st', c', q'. split_and!; [exact Hr|done|]. rewrite Hl'. cbn [length]. rewrite Hl1.
      change (spawned (o :: os)) with (length (if match o with Spawn _ => true | _ => false end then o ::
        List.filter (fun o => match o with Spawn _ => true | _ => false end) os else
        List.filter (fun o => match o with Spawn _ => true | _ => false end) os)).
      fold (spawned os). destruct o; cbn [length]; fold (spawned os); unfold MAX_TASKS; lia. }
  destruct (Hall os st0 0%nat [] Hok) as (st & c & q & Hr & [Ht Hu [Hr1 Hr2 Hr3 Hr4] Hc Hnd Hocc Hn] & Hl).
  exists st0, st, c, q. split_and!; try done.
Qed.

(** ** Turns *)

(** [k] tasks, numbered in the order they were created. *)
Fixpoint yields (n : nat) (st : State) : outcome State :=
  match n with
  | O => Done st
  | S n => st ← yields n st; '(st, _) ← pick_next st; Done st
  end.

Fixpoint spawns (ptrs : list Z) (st : State) : outcome State :=
  match ptrs with
  | [] => Done st
  | ptr :: ptrs => '(st, _) ← claim_slot st ptr; spawns ptrs st
  end.

(** Whose turn comes [i] yields from now, and the waiting tasks. *)
Definition rotation (k n : nat) : list nat := (fun i => (n + i) mod k)%nat <$> seq 0 k.

Lemma rotation_step k n : (0 < k)%nat ->
  rotation k n = (n mod k)%nat :: ((fun i => (n + i) mod k)%nat <$> seq 1 (k - 1)) /\
  rotation k (S n) = ((fun i => (n + i) mod k)%nat <$> seq 1 (k - 1)) ++ [(n mod k)%nat].
Proof.
  intros Hk. unfold rotation. destruct k as [|k]; [lia|]. replace (S k - 1)%nat with k by lia. split.
  - cbn [seq]. by rewrite fmap_cons, Nat.add_0_r.
  - rewrite seq_S, fmap_app. f_equal.
    + rewrite <-seq_shift, <-list_fmap_compose. apply list_fmap_ext. intros i x Hx. unfold compose. f_equal. lia.
    + rewrite list_fmap_singleton. f_equal. replace (S n + (0 + k))%nat with (n + 1 * S k)%nat by lia. apply Nat.Div0.mod_add.
Qed.

(** Turns task [i] of [k] had after [n] yields. *)
Definition turns_after (k n i : nat) : nat :=
  (n / k + if (1 <=? i) && (i <=? n mod k) then 1 else 0)%nat.

Lemma div_mod_unique k a q r : (r < k)%nat -> a = (k * q + r)%nat -> (a / k = q /\ a mod k = r)%nat.
Proof.
  intros Hr Ha. split; symmetry; [by eapply Nat.div_unique|by eapply Nat.mod_unique].
Qed.

Lemma turns_after_step k n i : (1 < k)%nat -> (i < k)%nat ->
  turns_after k (S n) i = (turns_after k n i + if i =? S n mod k then 1 else 0)%nat.
Proof.
  intros Hk Hi. unfold turns_after.
  pose proof (Nat.div_mod n k ltac:(lia)) as Hn. pose proof (Nat.mod_upper_bound n k ltac:(lia)) as Hb.
  destruct (decide (n mod k = k - 1)%nat) as [He|He].
  - destruct (div_mod_unique k (S n) (S (n / k)) 0) as [-> ->]; [lia..|].
    destruct (Nat.leb_spec 1 i), (Nat.leb_spec i (n mod k)), (Nat.leb_spec i 0), (Nat.eqb_spec i 0);
      cbn [andb]; lia.
  - destruct (div_mod_unique k (S n) (n / k) (S (n mod k))) as [-> ->]; [lia..|].
    destruct (Nat.leb_spec 1 i), (Nat.leb_spec i (n mod k)), (Nat.leb_spec i (S (n mod k))),
      (Nat.eqb_spec i (S (n mod k))); cbn [andb]; lia.
Qed.

(** Spawning [k - 1] tasks after [init] gives them the ids [1 .. k - 1], queued
    in that order. *)
Lemma spawns_ok ptrs j st : st_ok st 0 (seq 1 j) -> (1 + j + length ptrs <= MAX_TASKS)%nat ->
  exists st', spawns ptrs st = Done st' /\ st_ok st' 0 (seq 1 (j + length ptrs)) /\ TURNS st' = TURNS st.
Proof.
  revert j st. induction ptrs as [|ptr ptrs IH]; intros j st Hok Hlen; cbn [length] in Hlen.
  { exists st. rewrite Nat.add_0_r. done. }
  destruct (claim_room st 0 (seq 1 j) ptr Hok) as (st1 & id & Hc & Hni & Hok1 & Hu & _ & Hlow).
  { cbn [length]. rewrite length_seq. lia. }
  assert (id = S j) as ->.
  { change (0%nat :: seq 1 j) with (seq 0 (S j)) in Hni, Hlow. rewrite elem_of_seq in Hni.
    destruct (decide (id = S j)) as [|Hne]; [done|]. specialize (Hlow (S j)). rewrite elem_of_seq in Hlow. lia. }
  cbn [spawns]. rewrite Hc. cbn [mbind outcome_bind].
  change (S j) with (1 + j)%nat in Hok1. rewrite <-seq_S in Hok1.
  destruct (IH (S j) st1 Hok1) as (st' & Hs & Hok' & Hu'); [lia|].
  exists st'. split; [done|]. split; [|congruence]. by replace (j + length (ptr :: ptrs))%nat with (S j + length ptrs)%nat by (simpl; lia).
Qed.

(** [k] tasks, [n] yields after the start: whose turn it is, who waits, and how
    often each was switched to. *)
Record turn_state (k n : nat) (st : State) : Prop := {
  ts_ok : st_ok st (n mod k) ((fun i => (n + i) mod k)%nat <$> seq 1 (k - 1));
  ts_turns : forall i, (i < k)%nat -> TURNS st !! i = Some (as_u32 (Z.of_nat (turns_after k n i)))
}.

Lemma turn_start k st : (1 < k <= MAX_TASKS)%nat -> st_ok st 0 (seq 1 (k - 1)) -> TURNS st = replicate MAX_TASKS 0 ->
  turn_state k 0 st.
Proof.
  intros Hk Hok Hu. split.
  - rewrite Nat.Div0.mod_0_l. replace (_ <$> _) with (seq 1 (k - 1)); [done|]. symmetry. rewrite <-list_fmap_id.
    apply list_fmap_ext. intros i x Hx. apply lookup_seq in Hx as [-> ?]. rewrite Nat.add_0_l. apply Nat.mod_small. unfold id. lia.
  - intros i Hi. rewrite Hu, lookup_replicate_2 by lia. do 2 f_equal. unfold turns_after.
    rewrite Nat.Div0.div_0_l, Nat.Div0.mod_0_l. destruct (Nat.leb_spec 1 i), (Nat.leb_spec i 0); cbn [andb]; done || lia.
Qed.

(** A yield rotates, and counts a turn for the task switched to. *)
Lemma turn_step k n st : (1 < k)%nat -> turn_state k n st ->
  exists st', pick_next st = Done (st', Some (n mod k, S n mod k)%nat) /\ turn_state k (S n) st' /\
    tasks (sched st') = tasks (sched st).
Proof.
  intros Hk [Hok1 Hu1]. destruct (rotation_step k n ltac:(lia)) as [Hr0 Hr1]. destruct (rotation_step k (S n) ltac:(lia)) as [Hr2 _].
  destruct (_ <$> seq 1 (k - 1)) as [|x q] eqn:Hq in Hr0, Hr1, Hok1.
  { apply (f_equal length) in Hq. rewrite length_fmap, length_seq in Hq. simpl in Hq. lia. }
  destruct (pick_rotates _ _ _ _ Hok1) as (st' & Hp & Hok' & Hu' & Htk). rewrite Hr2 in Hr1. injection Hr1 as <- Hrest.
  exists st'. split; [done|]. split; [|done]. split; [rewrite <-Hrest in Hok'; exact Hok'|].
  intros i Hi. rewrite Hu', turns_after_step by lia.
  assert (S n mod k < k)%nat as Hb by (apply Nat.mod_upper_bound; lia). pose proof (so_turns _ _ _ Hok1) as Hlen.
  destruct (Nat.eqb_spec i (S n mod k)) as [->|Hne].
  - rewrite list_lookup_insert_eq by (pose proof (so_bound _ _ _ (S n mod k)%nat Hok1
      ltac:(apply list_elem_of_further, list_elem_of_here)); lia).
    rewrite (list_lookup_total_correct _ _ _ (Hu1 _ Hb)).
    f_equal. unfold wrapping_add_u32, as_u32. rewrite Zplus_mod_idemp_l. f_equal. lia.
  - rewrite list_lookup_insert_ne by done. rewrite (Hu1 i Hi). do 3 f_equal. lia.
Qed.

Lemma yields_ok k n st : (1 < k <= MAX_TASKS)%nat -> st_ok st 0 (seq 1 (k - 1)) -> TURNS st = replicate MAX_TASKS 0 ->
  exists st', yields n st = Done st' /\ turn_state k n st'.
Proof.
  intros Hk Hok Hu. induction n as [|n (st1 & Hy & Ht)].
  - exists st. split; [done|by apply turn_start].
  - destruct (turn_step k n st1 ltac:(lia) Ht) as (st' & Hp & Ht' & _). exists st'. split; [|done].
    cbn [yields]. rewrite Hy. cbn [mbind outcome_bind]. by rewrite Hp.
Qed.

(** C15: Round robin. With [k] tasks, two to four, after [n] yields task [n mod k]
    runs, and every task has been switched to [n / k] times, those whose turn
    in the last, unfinished round has come once more: turn counts never differ
    by more than one (up to the wrap of the 32-bit counter). *)
Theorem round_robin_is_fair (slot : nat -> Z) (m : mem) (ptrs : list Z) (n : nat) :
  let k := S (length ptrs) in
  (2 <= k <= MAX_TASKS)%nat ->
  exists st0 st1 st, init slot boot m = Done (st0, m.[slot 0%nat <- 0]) /\
    spawns ptrs st0 = Done st1 /\ yields n st1 = Done st /\ count st = k /\
    current (sched st) = (n mod k)%nat /\
    forall i, (i < k)%nat ->
      turns st i = as_u32 (Z.of_nat (n / k + if (1 <=? i) && (i <=? n mod k) then 1 else 0)%nat).
Proof.
  intros k Hk. destruct (init_ok slot m) as (st0 & Hi & Hok0 & Hu0 & _).
  destruct (spawns_ok ptrs 0 st0 Hok0) as (st1 & Hs & Hok1 & Hu1); [unfold k in *; lia|].
  destruct (yields_ok k n st1) as (st & Hy & [Hok Hu]); [lia| |congruence|].
  { unfold k. by replace (S (length ptrs) - 1)%nat with (0 + length ptrs)%nat by lia. }
  exists st0, st1, st. split_and!; try done.
  - unfold count. rewrite (so_count _ _ _ Hok). cbn [length]. rewrite length_fmap, length_seq. lia.
  - apply (so_current _ _ _ Hok).
  - intros i Hik. unfold turns. destruct (Nat.leb_spec MAX_TASKS i); [lia|]. by rewrite (Hu i Hik).
Qed.

Lemma round_robin_is_fair_witness :
  exists st0 st1 st, init (fun i => 4 * Z.of_nat i) boot ∅ = Done (st0, ∅.[0 <- 0]) /\
    spawns [0x2000; 0x4000] st0 = Done st1 /\ yields 8 st1 = Done st /\
    turns st 0 = 2 /\ turns st 1 = 3 /\ turns st 2 = 3.
Proof.
  destruct (round_robin_is_fair (fun i => 4 * Z.of_nat i) ∅ [0x2000; 0x4000] 8) as
    (st0 & st1 & st & Hi & Hs & Hy & _ & _ & Ht).
  - unfold MAX_TASKS. simpl. lia.
  - exists st0, st1, st. split_and!; [exact Hi|exact Hs|exact Hy|..]; rewrite Ht by (simpl; lia); vm_compute; reflexivity.
Defined.

End TaskFacts.
