(* ===== verification/SwitchFacts.v ===== *)
(** * Context switches, at the level of registers and stack words

    What a parked task is in memory, that [spawn] makes one, that
    [context_switch] parks the caller and resumes a parked task, and what
    [yield_now] does to the interrupt flag. *)

From S2P Require Import Prelude.
From S2P Require Import Ring.
From S2P Require Import Machine.
From S2P Require Import Sync.
From S2P Require Import Heap.
From S2P Require Import Task.
From S2P Require Import TaskFacts.
#[local] Open Scope Z_scope.
#[local] Ltac Zify.zify_post_hook ::= Z.to_euclidean_division_equations.

Module SwitchFacts.
Import Machine Task TaskFacts.

(** ** Parked tasks *)

(** The registers a parked task will have when it runs again: the callee-saved
    ones, where it goes on, and its stack pointer there. *)
Record Saved := mkSaved { s_ebx : Z; s_esi : Z; s_edi : Z; s_ebp : Z; s_eip : Z; s_esp : Z }.

Definition resumed (r : Regs) : Saved := mkSaved (ebx r) (esi r) (edi r) (ebp r) (eip r) (esp r).

(** The task whose [context.esp] is the word at [slot] is parked as [p]. *)
Record parked (m : mem) (slot : Z) (p : Saved) : Prop := {
  pk_range : 20 <= s_esp p < 2 ^ 32;
  pk_slot : m.[slot] = s_esp p - 20;
  pk_ebx : m.[s_esp p - 20] = s_ebx p;
  pk_esi : m.[s_esp p - 16] = s_esi p;
  pk_edi : m.[s_esp p - 12] = s_edi p;
  pk_ebp : m.[s_esp p - 8] = s_ebp p;
  pk_eip : m.[s_esp p - 4] = s_eip p
}.

(** The words that hold it. *)
Definition area (slot : Z) (p : Saved) (a : Z) : Prop := a = slot \/ s_esp p - 20 <= a < s_esp p.

Lemma parked_agree m m' slot p :
  parked m slot p -> (forall a, area slot p a -> m'.[a] = m.[a]) -> parked m' slot p.
Proof.
  intros [Hr Hs H1 H2 H3 H4 H5] Hag. split; [done|..]; (rewrite Hag; [done|]); unfold area; lia.
Qed.

(** The caller of [context_switch] with [e = esp r], its return address at [e]. *)
Definition saved_by (r : Regs) (ret e : Z) : Saved := mkSaved (ebx r) (esi r) (edi r) (ebp r) ret e.

(** The four pushes and the store through [old_esp]. *)
Definition saved_mem (r : Regs) (m : mem) (old : Z) : mem :=
  let e := esp r in
  m.[e - 4 <- ebp r].[e - 8 <- edi r].[e - 12 <- esi r].[e - 16 <- ebx r].[old <- e - 16].

Lemma saved_mem_frame r m old a :
  ~ (esp r - 16 <= a < esp r) -> a <> old -> (saved_mem r m old).[a] = m.[a].
Proof. intros Ha Ho. unfold saved_mem. mem_simpl. Qed.

Lemma saved_mem_parks r m old :
  16 <= esp r -> esp r + 4 < 2 ^ 32 -> ~ (esp r - 16 <= old < esp r + 4) ->
  parked (saved_mem r m old) old (saved_by r (m.[esp r]) (esp r + 4)).
Proof.
  intros He He' Ho. unfold saved_mem, saved_by. split; cbn [s_ebx s_esi s_edi s_ebp s_eip s_esp]; [lia|..].
  - rewrite load_store_eq. lia.
  - replace (esp r + 4 - 20) with (esp r - 16) by lia. mem_simpl.
  - replace (esp r + 4 - 16) with (esp r - 12) by lia. mem_simpl.
  - replace (esp r + 4 - 12) with (esp r - 8) by lia. mem_simpl.
  - replace (esp r + 4 - 8) with (esp r - 4) by lia. mem_simpl.
  - replace (esp r + 4 - 4) with (esp r) by lia. mem_simpl.
Qed.

Lemma context_switch_swaps r m p :
  let old := m.[esp r + 4] in let new := m.[esp r + 8] in
  16 <= esp r -> esp r + 4 < 2 ^ 32 -> parked m new p ->
  (forall a, area new p a -> ~ (esp r - 16 <= a < esp r) /\ a <> old) ->
  exists r', context_switch r m = (r', saved_mem r m old) /\ resumed r' = p.
Proof.
  intros old new He He' Hp Hsep.
  assert (parked (saved_mem r m old) new p) as Hp'.
  { eapply parked_agree; [done|]. intros a Ha. apply saved_mem_frame; by apply Hsep. }
  destruct r as [ax bx cx dx si di bp e ip]. cbn [esp] in *. unfold old, new in *. clear old new.
  cbv beta iota zeta delta [context_switch pushl popl eax ebx ecx edx esi edi ebp esp eip].
  rewrite (as_u32_id (e - 4)), (as_u32_id (e - 4 - 4)), (as_u32_id (e - 4 - 4 - 4)),
    (as_u32_id (e - 4 - 4 - 4 - 4)) by lia.
  replace (e - 4 - 4) with (e - 8) by lia. replace (e - 8 - 4) with (e - 12) by lia.
  replace (e - 12 - 4) with (e - 16) by lia.
  change (m.[e - 4 <- bp].[e - 8 <- di].[e - 12 <- si].[e - 16 <- bx].[m.[e + 4] <- e - 16])
    with (saved_mem (mkRegs ax bx cx dx si di bp e ip) m (m.[e + 4])).
  set (m' := saved_mem _ _ _) in *. destruct Hp' as [Hr Hs H1 H2 H3 H4 H5]. rewrite Hs. destruct p as [pb ps pd pp pi x].
  cbn [s_ebx s_esi s_edi s_ebp s_eip s_esp] in *.
  rewrite (as_u32_id (x - 20 + 4)), (as_u32_id (x - 20 + 4 + 4)), (as_u32_id (x - 20 + 4 + 4 + 4)),
    (as_u32_id (x - 20 + 4 + 4 + 4 + 4)), (as_u32_id (x - 20 + 4 + 4 + 4 + 4 + 4)) by lia.
  replace (x - 20 + 4) with (x - 16) by lia. replace (x - 16 + 4) with (x - 12) by lia.
  replace (x - 12 + 4) with (x - 8) by lia. replace (x - 8 + 4) with (x - 4) by lia.
  replace (x - 4 + 4) with x by lia. rewrite H1, H2, H3, H4, H5. by eexists.
Qed.

(** ** [yield_now] *)

Lemma call_context_switch_spec ret r m old new p :
  28 <= esp r -> esp r < 2 ^ 32 -> parked m new p ->
  (forall a, area new p a -> ~ (esp r - 28 <= a < esp r) /\ a <> old) ->
  ~ (esp r - 28 <= old < esp r) ->
  exists r' m', call_context_switch ret r m old new = (r', m') /\ resumed r' = p /\
    parked m' old (saved_by r ret (esp r - 8)) /\
    (forall a, ~ (esp r - 28 <= a < esp r) -> a <> old -> m'.[a] = m.[a]).
Proof.
  intros He He' Hp Hsep Hold. unfold call_context_switch, pushl. cbn [esp].
  rewrite (as_u32_id (esp r - 4)) by lia. rewrite (as_u32_id (esp r - 4 - 4)) by lia.
  rewrite (as_u32_id (esp r - 4 - 4 - 4)) by lia.
  replace (esp r - 4 - 4) with (esp r - 8) by lia. replace (esp r - 8 - 4) with (esp r - 12) by lia.
  set (m1 := m.[esp r - 4 <- new].[esp r - 8 <- old].[esp r - 12 <- ret]).
  set (r1 := mkRegs _ _ _ _ _ _ _ (esp r - 12) _).
  assert (esp r1 = esp r - 12) as He1 by done.
  assert (m1.[esp r1 + 4] = old) as Ho1.
  { rewrite He1. replace (esp r - 12 + 4) with (esp r - 8) by lia. unfold m1. mem_simpl. }
  assert (m1.[esp r1 + 8] = new) as Hn1.
  { rewrite He1. replace (esp r - 12 + 8) with (esp r - 4) by lia. unfold m1. mem_simpl. }
  assert (m1.[esp r1] = ret) as Hr1 by (rewrite He1; unfold m1; mem_simpl).
  assert (forall a, ~ (esp r - 28 <= a < esp r) -> m1.[a] = m.[a]) as Hfr by (intros a Ha; unfold m1; mem_simpl).
  assert (parked m1 new p) as Hp1.
  { eapply parked_agree; [done|]. intros a Ha. by apply Hfr, Hsep. }
  destruct (context_switch_swaps r1 m1 p) as (r' & Hcs & Hres).
  - lia.
  - lia.
  - by rewrite Hn1.
  - intros a Ha. rewrite Hn1 in Ha. rewrite Ho1. destruct (Hsep a Ha). split; [lia|done].
  - rewrite Ho1 in Hcs. exists r', (saved_mem r1 m1 old). split; [exact Hcs|]. split; [done|]. split.
    + replace (saved_by r ret (esp r - 8)) with (saved_by r1 (m1.[esp r1]) (esp r1 + 4))
        by (unfold saved_by; rewrite Hr1, He1; f_equal; lia).
      apply saved_mem_parks; lia.
    + intros a Ha Hao. rewrite saved_mem_frame by lia. by apply Hfr.
Qed.

Lemma yield_spec (slot : nat -> Z) (ret : Z) (st st' : State) (cpu : Cpu) (r : Regs) (m : mem)
    (c n : nat) (q : list nat) (P : nat -> Saved) :
  pick_next st = Done (st', Some (c, n)) -> 28 <= esp r < 2 ^ 32 ->
  (forall i, i ∈ n :: q -> parked m (slot i) (P i)) ->
  (forall i a, i ∈ n :: q -> area (slot i) (P i) a -> ~ (esp r - 28 <= a < esp r) /\ a <> slot c) ->
  ~ (esp r - 28 <= slot c < esp r) ->
  exists r' m', yield_now slot ret st cpu r m = Done (st', Sync.cli cpu, r', m', Some (Sync.read_eflags cpu)) /\
    resumed r' = P n /\ parked m' (slot c) (saved_by r ret (esp r - 8)) /\
    (forall i, i ∈ q -> parked m' (slot i) (P i)) /\
    (forall a, ~ (esp r - 28 <= a < esp r) -> a <> slot c -> m'.[a] = m.[a]).
Proof.
  intros Hpick He Hp Hsep Hold.
  destruct (call_context_switch_spec ret r m (slot c) (slot n) (P n)) as (r' & m' & Hcs & Hres & Hpk & Hfr);
    [lia|lia|apply Hp, list_elem_of_here|intros a Ha; apply (Hsep n a); [apply list_elem_of_here|done]|done|].
  exists r', m'. unfold yield_now. rewrite Hpick. cbn [mbind outcome_bind]. rewrite Hcs.
  split_and!; [reflexivity|exact Hres|exact Hpk| |exact Hfr].
  intros i Hi. apply (parked_agree m); [exact (Hp i (list_elem_of_further _ _ _ Hi))|].
  intros a Ha. destruct (Hsep i a (list_elem_of_further _ _ _ Hi) Ha). by apply Hfr.
Qed.

(** C19: A yield, at machine level. With task [c] running and [n] first in the
    ready queue, [yield_now] leaves the CPU with exactly the callee-saved
    registers, stack pointer and instruction pointer with which [n] parked, [c]
    is parked so that it will return from its call of [context_switch], every
    other waiting task is still parked as it was, and interrupts are masked
    with the caller's flags kept for its return. *)
Theorem yield_resumes_next (slot : nat -> Z) (ret : Z) (st : State) (cpu : Cpu) (r : Regs) (m : mem)
    (c n : nat) (q : list nat) (P : nat -> Saved) :
  st_ok st c (n :: q) -> 28 <= esp r < 2 ^ 32 ->
  (forall i, i ∈ n :: q -> parked m (slot i) (P i)) ->
  (forall i a, i ∈ n :: q -> area (slot i) (P i) a -> ~ (esp r - 28 <= a < esp r) /\ a <> slot c) ->
  ~ (esp r - 28 <= slot c < esp r) ->
  exists st' r' m', yield_now slot ret st cpu r m =
      Done (st', Sync.cli cpu, r', m', Some (Sync.read_eflags cpu)) /\
    st_ok st' n (q ++ [c]) /\ resumed r' = P n /\
    parked m' (slot c) (saved_by r ret (esp r - 8)) /\
    (forall i, i ∈ q -> parked m' (slot i) (P i)) /\
    (forall a, ~ (esp r - 28 <= a < esp r) -> a <> slot c -> m'.[a] = m.[a]).
Proof.
  intros Hok He Hp Hsep Hold. destruct (pick_rotates st c n q Hok) as (st' & Hpick & Hok' & _).
  destruct (yield_spec slot ret st st' cpu r m c n q P Hpick He Hp Hsep Hold) as (r' & m' & Hy & Hr).
  exists st', r', m'. split; [exact Hy|]. split; [exact Hok'|exact Hr].
Qed.

(** ** [spawn] *)

Lemma prime_stack_spec m top entry tramp :
  24 <= top -> exists m', prime_stack m top entry tramp = Done (m', top - 24) /\
    m'.[top - 4] = entry /\ m'.[top - 8] = tramp /\
    (forall i, 0 <= i < 4 -> m'.[top - 24 + 4 * i] = 0) /\
    (forall a, ~ (top - 24 <= a < top) -> m'.[a] = m.[a]).
Proof.
  intros Ht. unfold prime_stack, sub_u32. cbn [zrange fold_left].
  destruct (Z.leb_spec 4 top); [|lia]. cbn [mbind outcome_bind].
  destruct (Z.leb_spec 4 (top - 4)); [|lia]. cbn [mbind outcome_bind].
  destruct (Z.leb_spec 4 (top - 4 - 4)); [|lia]. cbn [mbind outcome_bind].
  destruct (Z.leb_spec 4 (top - 4 - 4 - 4)); [|lia]. cbn [mbind outcome_bind].
  destruct (Z.leb_spec 4 (top - 4 - 4 - 4 - 4)); [|lia]. cbn [mbind outcome_bind].
  destruct (Z.leb_spec 4 (top - 4 - 4 - 4 - 4 - 4)); [|lia].
  replace (top - 4 - 4 - 4 - 4 - 4 - 4) with (top - 24) by lia. eexists. split; [reflexivity|]. split_and!.
  - mem_simpl.
  - replace (top - 8) with (top - 4 - 4) by lia. mem_simpl.
  - intros i Hi. assert (i = 0 \/ i = 1 \/ i = 2 \/ i = 3) as [Hi0|[Hi0|[Hi0|Hi0]]] by lia; subst i.
    + replace (top - 24 + 4 * 0) with (top - 24) by lia. mem_simpl.
    + replace (top - 24 + 4 * 1) with (top - 4 - 4 - 4 - 4 - 4) by lia. mem_simpl.
    + replace (top - 24 + 4 * 2) with (top - 4 - 4 - 4 - 4) by lia. mem_simpl.
    + replace (top - 24 + 4 * 3) with (top - 4 - 4 - 4) by lia. mem_simpl.
  - intros a Ha. mem_simpl.
Qed.

Lemma stack_top_eq ptr : 0 <= ptr -> ptr + STACK_SIZE < 2 ^ 32 ->
  stack_top ptr = (ptr + STACK_SIZE) / 16 * 16.
Proof.
  intros Hp Hb. unfold stack_top. change (Z.lxor U32_MAX 0xf) with (Z.ldiff (Z.ones 32) (Z.ones 4)).
  unfold STACK_SIZE in *. rewrite land_high; [done|lia|lia].
Qed.

(** A task that has not run yet. *)
Definition fresh (trampoline top : Z) : Saved := mkSaved 0 0 0 0 trampoline (top - 4).

Lemma trampoline_enters park r m top tramp :
  resumed r = fresh tramp top -> 16 <= top < 2 ^ 32 ->
  exists r', task_trampoline park r m = (r', m.[top - 16 <- park]) /\
    eip r' = m.[top - 4] /\ esp r' = top - 16 /\ ebx r' = 0 /\ esi r' = 0 /\ edi r' = 0 /\ ebp r' = 0.
Proof.
  intros Hr Ht. destruct r as [ax bx cx dx si di bp e ip]. injection Hr as -> -> -> -> -> ->.
  cbv beta iota zeta delta [task_trampoline pushl popl eax ebx ecx edx esi edi ebp esp eip].
  rewrite (as_u32_id (top - 4 + 4)), (as_u32_id (top - 4 + 4 - 12)), (as_u32_id (top - 4 + 4 - 12 - 4)) by lia.
  replace (top - 4 + 4 - 12 - 4) with (top - 16) by lia. by eexists.
Qed.

Lemma zero_words_frame l (m : mem) a : a ∉ l -> (fold_left (fun m x => m.[x <- 0]) l m).[a] = m.[a].
Proof.
  revert m. induction l as [|x l IH]; intros m Ha; [done|]. apply not_elem_of_cons in Ha as [Hne Ha].
  cbn [fold_left]. rewrite IH by done. apply load_store_ne. done.
Qed.

Lemma parked_fresh m slot trampoline top :
  24 <= top <= 2 ^ 32 -> m.[slot] = top - 24 -> m.[top - 8] = trampoline ->
  (forall i, 0 <= i < 4 -> m.[top - 24 + 4 * i] = 0) -> parked m slot (fresh trampoline top).
Proof.
  intros Ht Hs Hb Hz. unfold fresh. split; cbn [s_ebx s_esi s_edi s_ebp s_eip s_esp]; [lia|lia|..].
  - replace (top - 4 - 20) with (top - 24 + 4 * 0) by lia. apply Hz. lia.
  - replace (top - 4 - 16) with (top - 24 + 4 * 1) by lia. apply Hz. lia.
  - replace (top - 4 - 12) with (top - 24 + 4 * 2) by lia. apply Hz. lia.
  - replace (top - 4 - 8) with (top - 24 + 4 * 3) by lia. apply Hz. lia.
  - by replace (top - 4 - 4) with (top - 8) by lia.
Qed.

(** What [spawn] does with the block it was given: only that block and the
    context of the task's slot are written. *)
Lemma spawn_spec (slot : nat -> Z) (trampoline entry : Z) (st : State) (h h1 : Heap.Heap) (m m1 : mem) (ptr : Z)
    (c : nat) (q : list nat) :
  st_ok st c q -> (length (c :: q) < MAX_TASKS)%nat -> is_u32 trampoline -> is_u32 entry ->
  Heap.allocate h m (Heap.mkLayout STACK_SIZE 1) = Done (h1, m1, ptr) -> 0 < ptr -> ptr + STACK_SIZE < 2 ^ 32 ->
  exists st' mp id top, spawn slot trampoline st h m entry = Done (st', h1, mp.[slot id <- top - 24], Some id) /\
    top = (ptr + STACK_SIZE) / 16 * 16 /\ id ∉ c :: q /\ st_ok st' c (q ++ [id]) /\
    (forall i, (i < id)%nat -> i ∈ c :: q) /\ TURNS st' = TURNS st /\
    tasks (sched st') = <[id := Some (mkTask (Some ptr))]> (tasks (sched st)) /\
    mp.[top - 4] = entry /\ mp.[top - 8] = trampoline /\ (forall i, 0 <= i < 4 -> mp.[top - 24 + 4 * i] = 0) /\
    (forall a, ~ (ptr <= a < ptr + STACK_SIZE) -> mp.[a] = m1.[a]).
Proof.
  intros Hok Hlen Htr Hen Hal Hp0 Hpb. unfold is_u32 in *.
  destruct (claim_room st c q ptr Hok Hlen) as (st' & id & Hcl & Hni & Hok' & Hu & Htk & Hlow).
  pose proof (stack_top_eq ptr ltac:(lia) Hpb) as Htop. set (top := stack_top ptr) in *.
  assert (STACK_SIZE = 8192) as Hss by done.
  unfold spawn, alloc_stack. rewrite Hal. cbn [mbind outcome_bind].
  destruct (Z.eqb_spec ptr 0); [lia|]. cbn [mbind outcome_bind]. fold top.
  set (ws := (fun i => ptr + 4 * i) <$> _). set (mz := fold_left _ ws m1).
  destruct (prime_stack_spec mz top (as_u32 entry) (as_u32 trampoline)) as (mp & -> & He & Hb & Hz & Hfr); [lia|].
  cbn [mbind outcome_bind]. rewrite Hcl. cbn [mbind outcome_bind]. rewrite (as_u32_id (top - 24)) by lia.
  rewrite as_u32_id in He, Hb by lia.
  exists st', mp, id, top. split_and!; try done. intros a Ha. rewrite Hfr by lia. apply zero_words_frame.
  intros (i & -> & Hi)%list_elem_of_fmap. apply elem_of_range_list in Hi. change (STACK_SIZE / 4) with 2048 in Hi. lia.
Qed.

(** C20: A spawned task starts where it should. [spawn] gives it an unused slot
    at the end of the ready queue and parks it; whoever switches to it first,
    having left its stack alone, ends up in [task_trampoline], which calls the
    entry function with zeroed callee-saved registers on the top of the new
    stack. The stack pointer at that entry is a multiple of 16, so [esp + 4] -
    which the i386 ABI wants to be one - is not. *)
Theorem spawned_task_starts (slot : nat -> Z) (trampoline park entry : Z) (st : State) (h h1 : Heap.Heap)
    (m m1 : mem) (ptr : Z) (c : nat) (q : list nat) :
  st_ok st c q -> (length (c :: q) < MAX_TASKS)%nat -> is_u32 trampoline -> is_u32 entry ->
  Heap.allocate h m (Heap.mkLayout STACK_SIZE 1) = Done (h1, m1, ptr) -> 0 < ptr -> ptr + STACK_SIZE < 2 ^ 32 ->
  (forall i, (i < MAX_TASKS)%nat -> ~ (ptr <= slot i < ptr + STACK_SIZE)) ->
  exists st' m' id top, spawn slot trampoline st h m entry = Done (st', h1, m', Some id) /\
    id ∉ c :: q /\ st_ok st' c (q ++ [id]) /\ top = (ptr + STACK_SIZE) / 16 * 16 /\
    parked m' (slot id) (fresh trampoline top) /\ m'.[top - 4] = entry /\
    forall r m2, resumed r = fresh trampoline top -> m2.[top - 4] = m'.[top - 4] ->
      exists r', task_trampoline park r m2 = (r', m2.[top - 16 <- park]) /\ eip r' = entry /\
        ebx r' = 0 /\ esi r' = 0 /\ edi r' = 0 /\ ebp r' = 0 /\ ptr <= esp r' < ptr + STACK_SIZE /\
        esp r' mod 16 = 0 /\ (esp r' + 4) mod 16 <> 0.
Proof.
  intros Hok Hlen Htr Hen Hal Hp0 Hpb Hslot.
  destruct (spawn_spec slot trampoline entry st h h1 m m1 ptr c q Hok Hlen Htr Hen Hal Hp0 Hpb)
    as (st' & mp & id & top & Hspawn & Htop & Hni & Hok' & _ & _ & _ & He & Hb & Hz & _). unfold is_u32 in *.
  assert (STACK_SIZE = 8192) as Hss by done.
  exists st', (mp.[slot id <- top - 24]), id, top. split; [exact Hspawn|]. split; [exact Hni|]. split; [exact Hok'|]. split; [exact Htop|].
  specialize (Hslot id (so_bound _ _ _ id Hok' ltac:(by apply list_elem_of_further, elem_of_app; right; apply list_elem_of_singleton))).
  assert (forall a, ptr <= a < ptr + STACK_SIZE -> (mp.[slot id <- top - 24]).[a] = mp.[a]) as Hfr
    by (intros a Ha; mem_simpl).
  split; [|split; [rewrite Hfr by lia; exact He|]].
  - apply parked_fresh; [lia|by rewrite load_store_eq|..]; intros; rewrite Hfr by lia; auto.
  - intros r m2 Hr Hm2. destruct (trampoline_enters park r m2 top trampoline Hr) as (r' & Ht & Hip & Hsp & Hregs); [lia|].
    exists r'. rewrite Hfr in Hm2 by lia. rewrite Hip, Hsp, Hm2, He. destruct Hregs as (? & ? & ? & ?).
    split_and!; try done; lia.
Qed.

(** ** The interrupt flag *)

(** The scheduler, the CPU, and for each task that is inside [yield_now] the
    flags it keeps; [None] for a task that has not run yet. *)
Record Sys := mkSys { y_st : State; y_cpu : Cpu; y_flags : nat -> option Z }.

(** One yield, followed in the task it resumes to the end of its own
    [yield_now], or into its entry function if it is new. *)
Definition sys_yield (y : Sys) : outcome Sys :=
  '(st, sw) ← pick_next (y_st y);
  match sw with
  | None => Done (mkSys st (y_cpu y) (y_flags y))
  | Some (old, next) =>
      let flags := fun i => if (i =? old)%nat then Some (Sync.read_eflags (y_cpu y)) else y_flags y i in
      let cpu := Sync.cli (y_cpu y) in
      Done (mkSys st (match flags next with Some f => yield_return f cpu | None => cpu end) flags)
  end.

Fixpoint sys_yields (n : nat) (y : Sys) : outcome Sys :=
  match n with O => Done y | S n => y ← sys_yields n y; sys_yield y end.

(** Task 0 keeps flags with interrupts on, every other task none or flags with
    interrupts off. *)
Definition kept (fl : nat -> option Z) (i : nat) : Prop :=
  match fl i with
  | Some f => has_bits f Sync.EFLAGS_IF = (i =? 0)%nat
  | None => i <> 0%nat
  end.

Record masked_inv (y : Sys) (c : nat) (q : list nat) : Prop := {
  mi_ok : st_ok (y_st y) c q;
  mi_if : if_flag (y_cpu y) = (c =? 0)%nat;
  mi_kept : forall i, i ∈ q -> kept (y_flags y) i
}.

Lemma sys_yield_masked y c q : masked_inv y c q ->
  exists y' c' q', sys_yield y = Done y' /\ masked_inv y' c' q'.
Proof.
  intros [Hok Hif Hk]. unfold sys_yield. destruct q as [|n q].
  - destruct (pick_sole _ _ Hok) as (st' & -> & Hok' & _). eexists _, c, []. split; [done|]. by split.
  - destruct (pick_rotates _ _ _ _ Hok) as (st' & -> & Hok' & _). cbn [mbind outcome_bind].
    assert (n <> c) as Hne.
    { pose proof (so_nodup _ _ _ Hok) as [Hni _]%NoDup_cons. intros ->. apply Hni, list_elem_of_here. }
    pose proof (Hk n (list_elem_of_here _ _)) as Hkn. apply Nat.eqb_neq in Hne as Hb. rewrite Hb.
    eexists _, n, (q ++ [c]). split; [done|]. split; cbn [y_st y_cpu y_flags]; [done|..].
    + unfold kept in Hkn. destruct (y_flags y n) as [f|].
      * unfold yield_return. rewrite Hkn. by destruct (n =? 0)%nat.
      * by apply Nat.eqb_neq in Hkn as ->.
    + intros i Hi. unfold kept. destruct (Nat.eqb_spec i c) as [->|Hic].
      * by rewrite Sync.read_eflags_if.
      * apply elem_of_app in Hi as [Hi|Hi%list_elem_of_singleton]; [|done].
        by apply (Hk i), list_elem_of_further.
Qed.

(** Only the bootstrap task runs with interrupts enabled: a new task is
    entered under the [cli] of the yield that switched to it, nothing enables
    them there, and its own yields then save and restore the masked state.
    After any number of yields interrupts are on exactly when task 0 runs. *)
Theorem spawned_tasks_run_masked (slot : nat -> Z) (m : mem) (ptrs : list Z) (cpu : Cpu) (n : nat) :
  (1 + length ptrs <= MAX_TASKS)%nat -> if_flag cpu = true ->
  exists st0 st1 y, init slot boot m = Done (st0, m.[slot 0%nat <- 0]) /\ spawns ptrs st0 = Done st1 /\
    sys_yields n (mkSys st1 cpu (fun _ => None)) = Done y /\
    if_flag (y_cpu y) = (current (sched (y_st y)) =? 0)%nat.
Proof.
  intros Hk Hif. destruct (init_ok slot m) as (st0 & Hi & Hok0 & _).
  destruct (spawns_ok ptrs 0 st0 Hok0) as (st1 & Hs & Hok1 & _); [lia|].
  assert (exists y c q, sys_yields n (mkSys st1 cpu (fun _ => None)) = Done y /\ masked_inv y c q) as (y & c & q & Hy & Hinv).
  { clear Hi Hs. induction n as [|n (y & c & q & Hy & Hinv)].
    - eexists _, _, _. split; [done|]. split; [exact Hok1|done|]. intros i Hi. apply elem_of_seq in Hi.
      unfold kept. cbn [y_flags]. lia.
    - destruct (sys_yield_masked y c q Hinv) as (y' & c' & q' & Hy' & Hinv').
      exists y', c', q'. cbn [sys_yields]. rewrite Hy. done. }
  exists st0, st1, y. split_and!; [exact Hi|exact Hs|exact Hy|]. destruct Hinv as [Hok Hf _].
  rewrite (so_current _ _ _ Hok). exact Hf.
Qed.

Lemma spawned_tasks_run_masked_witness :
  exists st0 st1 y, init (fun i => 4 * Z.of_nat i) boot ∅ = Done (st0, ∅.[0 <- 0]) /\
    spawns [0x2000; 0x4000] st0 = Done st1 /\
    sys_yields 4 (mkSys st1 (Sync.sti boot_cpu) (fun _ => None)) = Done y /\
    current (sched (y_st y)) = 1%nat /\ if_flag (y_cpu y) = false.
Proof.
  destruct (spawned_tasks_run_masked (fun i => 4 * Z.of_nat i) ∅ [0x2000; 0x4000] (Sync.sti boot_cpu) 4)
    as (st0 & st1 & y & Hi & Hs & Hy & Hf).
  - unfold MAX_TASKS. simpl. lia.
  - reflexivity.
  - exists st0, st1, y. rewrite Hf. split; [exact Hi|]. split; [exact Hs|]. split; [exact Hy|].
    injection Hi as <-. vm_compute in Hs. injection Hs as <-. vm_compute in Hy. injection Hy as <-. by vm_compute.
Defined.

(** ** A machine with two tasks *)

Definition demo_state : State :=
  mkState (mkScheduler [Some (mkTask None); Some (mkTask (Some 0x2000)); None; None] [1; 0; 0; 0]%nat 0 1 0)
    2 (replicate MAX_TASKS 0).
Definition demo_slot (i : nat) : Z := 0x100 + 4 * Z.of_nat i.

Lemma demo_ok : st_ok demo_state 0 [1%nat].
Proof.
  split; try done.
  - split; try done. vm_compute. lia.
  - apply (bool_decide_unpack _). vm_compute. exact I.
  - intros i. rewrite elem_of_cons, list_elem_of_singleton.
    destruct i as [|[|[|[|i]]]]; simpl; split; try (by intros []); try (by intros [? [=]]); eauto.
Qed.

Definition demo_parked : Saved := mkSaved 11 22 33 44 0x500 0x3000.
Definition demo_mem : mem :=
  ∅.[demo_slot 1 <- 0x3000 - 20].[0x3000 - 20 <- 11].[0x3000 - 16 <- 22].[0x3000 - 12 <- 33]
   .[0x3000 - 8 <- 44].[0x3000 - 4 <- 0x500].
Definition demo_regs : Regs := mkRegs 1 2 3 4 5 6 7 0x9000 8.

Lemma yield_resumes_next_witness :
  exists st' r' m', yield_now demo_slot 0x777 demo_state (Sync.sti boot_cpu) demo_regs demo_mem =
      Done (st', boot_cpu, r', m', Some (Sync.read_eflags (Sync.sti boot_cpu))) /\
    resumed r' = demo_parked /\ parked m' (demo_slot 0) (mkSaved 2 5 6 7 0x777 (0x9000 - 8)).
Proof.
  destruct (yield_resumes_next demo_slot 0x777 demo_state (Sync.sti boot_cpu) demo_regs demo_mem 0 1 []
    (fun _ => demo_parked) demo_ok) as (st' & r' & m' & Hy & _ & Hr & Hp & _).
  - by vm_compute.
  - intros i ->%list_elem_of_singleton. split; vm_compute; done.
  - intros i a ->%list_elem_of_singleton. unfold area, demo_slot. simpl. lia.
  - unfold demo_slot. simpl. lia.
  - exists st', r', m'. split; [exact Hy|]. split; [exact Hr|exact Hp].
Defined.

Definition demo_heap : outcome (Heap.Heap * mem) := Heap.heap_init Heap.empty ∅ 0x100000 0x10000.

Lemma spawned_task_starts_witness :
  exists h m h1 m1 st' m' id top, demo_heap = Done (h, m) /\
    spawn demo_slot 0x600 demo_state h m 0x700 = Done (st', h1, m', Some id) /\
    Heap.allocate h m (Heap.mkLayout STACK_SIZE 1) = Done (h1, m1, 0x100008) /\
    parked m' (demo_slot id) (fresh 0x600 top).
Proof.
  destruct (spawned_task_starts demo_slot 0x600 0x650 0x700 demo_state
    (Heap.mkHeap 0x100000 0x110000 0x100000 0 0) (Heap.mkHeap 0x100000 0x110000 (0x100000 + 8200) 8200 1)
    (∅.[0x100000 <- 0x10000].[0x100004 <- 0])
    (∅.[0x100000 <- 0x10000].[0x100004 <- 0].[0x100000 + 8200 <- 0x10000 - 8200].[0x100000 + 8204 <- 0]
      .[0x100000 <- 8200].[0x100004 <- 0])
    0x100008 0 [1%nat] demo_ok) as (st' & m' & id & top & Hs & _ & _ & _ & Hp & _).
  - vm_compute. lia.
  - by vm_compute.
  - by vm_compute.
  - vm_compute. reflexivity.
  - done.
  - by vm_compute.
  - intros i Hi. unfold demo_slot, STACK_SIZE, MAX_TASKS in *. lia.
  - eexists _, _, _, _, st', m', id, top. split; [vm_compute; reflexivity|].
    split; [exact Hs|]. split; [vm_compute; reflexivity|]. exact Hp.
Defined.

End SwitchFacts.
