(* ===== verification/Ata.v ===== *)
(** * The disk ([ata.rs])

    The polling PIO driver over any port-I/O device, and the interface it
    offers to the filesystem. [Ok(x)] is [inl x], [Err(e)] is [inr e]. *)

From S2P Require Import Prelude.
From S2P Require Import Machine.
#[local] Open Scope Z_scope.

Module Ata.
Import Machine.

Definition DATA : Z := 0x1f0.
Definition SECTOR_COUNT : Z := 0x1f2.
Definition LBA_LO : Z := 0x1f3.
Definition LBA_MID : Z := 0x1f4.
Definition LBA_HI : Z := 0x1f5.
Definition DRIVE_HEAD : Z := 0x1f6.
Definition STATUS_CMD : Z := 0x1f7.
Definition STATUS_ERR : Z := Z.shiftl 1 0.
Definition STATUS_DRQ : Z := Z.shiftl 1 3.
Definition STATUS_DF : Z := Z.shiftl 1 5.
Definition STATUS_BSY : Z := Z.shiftl 1 7.
Definition CMD_READ_SECTORS : Z := 0x20.
Definition SECTOR_SIZE : nat := 512.
Definition SPIN_LIMIT : Z := 2000000.
Definition DRIVE_MASTER_LBA : Z := 0xe0.

Record AtaController := mkAta { present : bool }.

Inductive AtaError := NotPresent | Timeout | DriveError | BadArgument.

#[export] Instance AtaError_eq_dec : EqDecision AtaError.
Proof. solve_decision. Defined.

Definition AtaError_fmt (e : AtaError) : string :=
  match e with
  | NotPresent => "not present"
  | Timeout => "timeout"
  | DriveError => "drive error"
  | BadArgument => "bad argument"
  end.

Section driver.
Context {D : Type} `{PortIO D} `{WordIO D}.

(** The bodies of the two polling loops. *)
Definition wait_while_step (mask value : Z) (d : D) : D + D * (unit + AtaError) :=
  let '(status, d) := inb d STATUS_CMD in
  if status =? 0xff then inr (d, inr NotPresent)
  else if negb (Z.land status mask =? value) then inr (d, inl tt)
  else inl d.

Definition wait_for_drq_step (d : D) : D + D * (unit + AtaError) :=
  let '(status, d) := inb d STATUS_CMD in
  if status =? 0xff then inr (d, inr NotPresent)
  else if has_bits status STATUS_BSY then inl d
  else if has_bits status (Z.lor STATUS_ERR STATUS_DF) then inr (d, inr DriveError)
  else if has_bits status STATUS_DRQ then inr (d, inl tt)
  else inl d.

Definition spin (step : D -> D + D * (unit + AtaError)) (d : D) : D * (unit + AtaError) :=
  match for_loop (Z.to_nat SPIN_LIMIT) step d with
  | inl d => (d, inr Timeout)
  | inr r => r
  end.

Definition wait_while (d : D) (mask value : Z) : D * (unit + AtaError) := spin (wait_while_step mask value) d.
Definition wait_for_drq (d : D) : D * (unit + AtaError) := spin wait_for_drq_step d.

Fixpoint settle (n : nat) (d : D) : D :=
  match n with O => d | S n => settle n (snd (inb d STATUS_CMD)) end.

Definition init (d : D) : D * AtaController :=
  let d := outb d DRIVE_HEAD DRIVE_MASTER_LBA in
  let d := settle 4 d in
  let '(status, d) := inb d STATUS_CMD in
  if status =? 0xff then (d, mkAta false)
  else
    let '(d, r) := wait_while d STATUS_BSY STATUS_BSY in
    match r with
    | inr _ => (d, mkAta false)
    | inl _ => (d, mkAta true)
    end.

(** One sector's words into the bytes of [chunk]. *)
Fixpoint read_words (n : nat) (d : D) : D * list Z :=
  match n with
  | O => (d, [])
  | S n =>
      let '(value, d) := inw d DATA in
      let '(d, bytes) := read_words n d in
      (d, as_u8 value :: as_u8 (Z.shiftr value 8) :: bytes)
  end.

(** The loop over sectors. *)
Fixpoint read_sectors (d : D) (buf : list Z) (sectors : list nat) : outcome (D * list Z * (unit + AtaError)) :=
  match sectors with
  | [] => Done (d, buf, inl tt)
  | sector :: sectors =>
      let '(d, r) := wait_for_drq d in
      match r with
      | inr _ => Done (d, buf, inr Timeout)
      | inl _ =>
          let '(status, d) := inb d STATUS_CMD in
          if has_bits status (Z.lor STATUS_ERR STATUS_DF) then Done (d, buf, inr DriveError)
          else
            let start := (sector * SECTOR_SIZE)%nat in
            _ ← slice_get buf start SECTOR_SIZE;
            let '(d, chunk) := read_words (SECTOR_SIZE / 2) d in
            buf ← slice_set buf start chunk;
            read_sectors d buf sectors
      end
  end.

Definition read_pio (d : D) (lba : Z) (sector_count : nat) (buf : list Z)
  : outcome (D * list Z * (unit + AtaError)) :=
  let count_byte := if (sector_count =? 256)%nat then 0 else as_u8 (Z.of_nat sector_count) in
  let '(d, r) := wait_while d STATUS_BSY STATUS_BSY in
  match r with
  | inr _ => Done (d, buf, inr Timeout)
  | inl _ =>
      let d := outb d DRIVE_HEAD (Z.lor DRIVE_MASTER_LBA (Z.land (as_u8 (Z.shiftr lba 24)) 0x0f)) in
      let d := outb d SECTOR_COUNT count_byte in
      let d := outb d LBA_LO (as_u8 lba) in
      let d := outb d LBA_MID (as_u8 (Z.shiftr lba 8)) in
      let d := outb d LBA_HI (as_u8 (Z.shiftr lba 16)) in
      let d := outb d STATUS_CMD CMD_READ_SECTORS in
      read_sectors d buf (seq 0 sector_count)
  end.

Definition read_lba (d : D) (ata : AtaController) (lba : Z) (buf : list Z)
  : outcome (D * list Z * (unit + AtaError)) :=
  if (length buf =? 0)%nat || negb (length buf mod SECTOR_SIZE =? 0)%nat then Done (d, buf, inr BadArgument)
  else
    let sector_count := (length buf / SECTOR_SIZE)%nat in
    if (256 <? sector_count)%nat || negb (Z.land lba (Z.lxor U32_MAX 0x0fffffff) =? 0)
    then Done (d, buf, inr BadArgument)
    else if (sector_count =? 0)%nat then Done (d, buf, inr BadArgument)
    else if negb (present ata) then Done (d, buf, inr NotPresent)
    else read_pio d lba sector_count buf.

End driver.

(** ** What the filesystem uses of it *)

Class BlockDevice (B : Type) := block_read : B -> Z -> list Z -> outcome (B * list Z * (unit + AtaError)).

(** [disk] is what the sectors hold, 512 bytes each. A ready device reads any
    run of up to 256 sectors in the 28-bit range and stays ready. *)
Class BlockLaws (B : Type) `{BlockDevice B} (disk : Z -> list Z) := {
  bl_ready : B -> Prop;
  bl_read : forall b lba n buf, bl_ready b -> (0 < n <= 256)%nat -> 0 <= lba -> lba + Z.of_nat n <= 2 ^ 28 ->
    length buf = (n * SECTOR_SIZE)%nat ->
    exists b', block_read b lba buf = Done (b', mjoin (disk <$> zrange lba n), inl tt) /\ bl_ready b'
}.

(** The least one can ask of any device: a read returns, and what it leaves in
    the buffer are as many bytes as there were. *)
Class BlockReturns (B : Type) `{BlockDevice B} :=
  br_returns : forall b lba buf, Forall is_u8 buf ->
    exists b' buf' r, block_read b lba buf = Done (b', buf', r) /\ length buf' = length buf /\ Forall is_u8 buf'.

#[export] Instance ata_block {D} `{PortIO D} `{WordIO D} : BlockDevice (D * AtaController) := fun b lba buf =>
  '(d, buf, r) ← read_lba (fst b) (snd b) lba buf; Done (d, snd b, buf, r).

End Ata.
