(* ===== verification/AtaFacts.v ===== *)
(** * Reading sectors

    [AtaDevice] states how a drive answers the driver's PIO read, as the ATA
    standard documents it; on such a drive [read_lba] delivers the sectors
    asked for, and on any device at all it returns. *)

From S2P Require Import Prelude.
From S2P Require Import Machine.
From S2P Require Import Ata.
#[local] Open Scope Z_scope.
#[local] Ltac Zify.zify_post_hook ::= Z.to_euclidean_division_equations.

Module AtaDrive.
Import Machine Ata.

(** The registers the driver writes. *)
Record TaskFile := mkFile { f_head : Z; f_count : Z; f_lo : Z; f_mid : Z; f_hi : Z }.

Definition lba_of (f : TaskFile) : Z := f_head f mod 16 * 2 ^ 24 + f_hi f * 2 ^ 16 + f_mid f * 2 ^ 8 + f_lo f.
(** A count of 0 asks for 256 sectors. *)
Definition sectors_of (f : TaskFile) : nat := if f_count f =? 0 then 256%nat else Z.to_nat (f_count f).

(** A sector is transferred as little-endian words. *)
Fixpoint words (bytes : list Z) : list Z :=
  match bytes with
  | lo :: hi :: bytes => lo + 256 * hi :: words bytes
  | _ => []
  end.

Definition free (s : Z) : Prop := s <> 0xff /\ has_bits s STATUS_BSY = false.
Definition busy (s : Z) : Prop := s <> 0xff /\ has_bits s STATUS_BSY = true.
Definition data_ready (s : Z) : Prop :=
  free s /\ has_bits s (Z.lor STATUS_ERR STATUS_DF) = false /\ has_bits s STATUS_DRQ = true.

(** A healthy drive on the bus whose sectors are [disk]. It is idle, or busy
    for a bounded number of polls before the next sector, or transferring one.
    The bound is below the driver's patience. *)
Class AtaDevice (D : Type) `{PortIO D} `{WordIO D} (disk : Z -> list Z) := {
  Idle : D -> TaskFile -> Prop;
  Waiting : D -> nat -> list (list Z) -> Prop;
  Transfer : D -> list Z -> list (list Z) -> Prop;
  idle_status : forall d f, Idle d f -> free (fst (inb d STATUS_CMD)) /\ Idle (snd (inb d STATUS_CMD)) f;
  set_head : forall d f v, Idle d f -> Idle (outb d DRIVE_HEAD v) {| f with f_head := v |};
  set_count : forall d f v, Idle d f -> Idle (outb d SECTOR_COUNT v) {| f with f_count := v |};
  set_lo : forall d f v, Idle d f -> Idle (outb d LBA_LO v) {| f with f_lo := v |};
  set_mid : forall d f v, Idle d f -> Idle (outb d LBA_MID v) {| f with f_mid := v |};
  set_hi : forall d f v, Idle d f -> Idle (outb d LBA_HI v) {| f with f_hi := v |};
  read_command : forall d f, Idle d f -> f_head f / 16 = 0xe ->
    exists n, Z.of_nat n < SPIN_LIMIT /\
      Waiting (outb d STATUS_CMD CMD_READ_SECTORS) n ((fun s => words (disk s)) <$> zrange (lba_of f) (sectors_of f));
  still_busy : forall d n ss, Waiting d (S n) ss ->
    busy (fst (inb d STATUS_CMD)) /\ Waiting (snd (inb d STATUS_CMD)) n ss;
  sector_ready : forall d s ss, Waiting d 0 (s :: ss) ->
    data_ready (fst (inb d STATUS_CMD)) /\ Transfer (snd (inb d STATUS_CMD)) s ss;
  transfer_status : forall d ws ss, Transfer d ws ss ->
    data_ready (fst (inb d STATUS_CMD)) /\ Transfer (snd (inb d STATUS_CMD)) ws ss;
  transfer_word : forall d w ws ss, Transfer d (w :: ws) ss ->
    fst (inw d DATA) = w /\
    match ws, ss with
    | _ :: _, _ => Transfer (snd (inw d DATA)) ws ss
    | [], [] => exists f, Idle (snd (inw d DATA)) f
    | [], s :: ss => exists n, Z.of_nat n < SPIN_LIMIT /\ Waiting (snd (inw d DATA)) n (s :: ss)
    end
}.

(** *** A simple drive: three polls of delay for every sector *)

Inductive phase := PIdle | PWaiting (n : nat) (ss : list (list Z)) | PTransfer (ws : list Z) (ss : list (list Z)).
Record Drive (disk : Z -> list Z) := mkDrive { d_file : TaskFile; d_phase : phase }.
Arguments mkDrive {disk}.
Arguments d_file {disk}.
Arguments d_phase {disk}.

Section drive.
Context (disk : Z -> list Z).

#[export] Instance Drive_io : PortIO (Drive disk) := {|
  outb d port v :=
    if port =? STATUS_CMD then
      mkDrive (d_file d) (PWaiting 3 ((fun s => words (disk s)) <$> zrange (lba_of (d_file d)) (sectors_of (d_file d))))
    else
      mkDrive (let f := d_file d in
               if port =? DRIVE_HEAD then {| f with f_head := v |}
               else if port =? SECTOR_COUNT then {| f with f_count := v |}
               else if port =? LBA_LO then {| f with f_lo := v |}
               else if port =? LBA_MID then {| f with f_mid := v |}
               else if port =? LBA_HI then {| f with f_hi := v |} else f) (d_phase d);
  inb d port :=
    match d_phase d with
    | PIdle => (0x50, d)
    | PWaiting (S n) ss => (0xd0, mkDrive (d_file d) (PWaiting n ss))
    | PWaiting O [] => (0x50, d)
    | PWaiting O (s :: ss) => (0x58, mkDrive (d_file d) (PTransfer s ss))
    | PTransfer ws ss => (0x58, d)
    end
|}.

#[export] Instance Drive_word : WordIO (Drive disk) := fun d port =>
  match d_phase d with
  | PTransfer (w :: ws) ss =>
      (w, mkDrive (d_file d) match ws, ss with
                             | _ :: _, _ => PTransfer ws ss
                             | [], [] => PIdle
                             | [], s :: ss => PWaiting 3 (s :: ss)
                             end)
  | _ => (0, d)
  end.

#[export] Instance Drive_ata : AtaDevice (Drive disk) disk.
Proof.
  refine {|
    Idle d f := d = mkDrive f PIdle;
    Waiting d n ss := exists f, d = mkDrive f (PWaiting n ss);
    Transfer d ws ss := exists f, d = mkDrive f (PTransfer ws ss)
  |}; try (by intros d f v ->).
  - by intros d f ->.
  - intros d f -> _. exists 3%nat. split; [done|]. by exists f.
  - intros d n ss [f ->]. split; [done|]. by exists f.
  - intros d s ss [f ->]. split; [done|]. by exists f.
  - intros d ws ss [f ->]. split; [done|]. by exists f.
  - intros d w ws ss [f ->]. split; [done|]. destruct ws as [|w' ws]; [|by exists f].
    destruct ss as [|s ss]; [by exists f|]. exists 3%nat. split; [done|]. by exists f.
Defined.

End drive.
End AtaDrive.

Module AtaFacts.
Import Machine Ata AtaDrive.

(** ** Bytes and words *)

Definition bytes_of (ws : list Z) : list Z := ws ≫= fun v => [as_u8 v; as_u8 (Z.shiftr v 8)].

Lemma bytes_of_words n bs : length bs = (2 * n)%nat -> Forall is_u8 bs -> bytes_of (words bs) = bs.
Proof.
  revert bs. induction n as [|n IH]; intros bs Hl Hu; [by apply nil_length_inv in Hl as ->|].
  destruct bs as [|lo [|hi bs]]; simpl in Hl; try lia.
  apply Forall_cons in Hu as [Hlo Hu]. apply Forall_cons in Hu as [Hhi Hu]. unfold is_u8 in *.
  change (bytes_of (words (lo :: hi :: bs)))
    with (as_u8 (lo + 256 * hi) :: as_u8 (Z.shiftr (lo + 256 * hi) 8) :: bytes_of (words bs)).
  rewrite IH by (done || lia). unfold as_u8. rewrite Z.shiftr_div_pow2 by lia.
  change (2 ^ 8) with 256 in *. f_equal; [lia|]. f_equal. lia.
Qed.

Lemma length_words n bs : length bs = (2 * n)%nat -> length (words bs) = n.
Proof.
  revert bs. induction n as [|n IH]; intros bs Hl; [by apply nil_length_inv in Hl as ->|].
  destruct bs as [|lo [|hi bs]]; simpl in Hl; try lia. cbn [words length]. by rewrite IH by lia.
Qed.

(** Sectors of 512 bytes. *)
Definition disk_ok (disk : Z -> list Z) : Prop :=
  forall s, length (disk s) = SECTOR_SIZE /\ Forall is_u8 (disk s).

(** ** The transfer *)

Section device.
Context {D : Type} `{AtaDevice D disk}.

Definition after (d : D) (ss : list (list Z)) : Prop :=
  match ss with
  | [] => exists f, Idle d f
  | s :: ss => exists n, Z.of_nat n < SPIN_LIMIT /\ Waiting d n (s :: ss)
  end.

Lemma wait_while_idle d f : Idle d f ->
  exists d', wait_while d STATUS_BSY STATUS_BSY = (d', inl tt) /\ Idle d' f.
Proof.
  intros Hd. destruct (idle_status d f Hd) as [[Hff Hb] Hd'].
  exists (snd (inb d STATUS_CMD)). split; [|done]. unfold wait_while, spin.
  replace (Z.to_nat SPIN_LIMIT) with (S (Z.to_nat (SPIN_LIMIT - 1))) by (unfold SPIN_LIMIT; lia).
  cbn [for_loop]. unfold wait_while_step. destruct (inb d STATUS_CMD) as [s d']. cbn [fst snd] in *.
  apply Z.eqb_neq in Hff as ->. unfold has_bits in Hb. apply negb_false_iff, Z.eqb_eq in Hb. by rewrite Hb.
Qed.

Lemma wait_for_drq_waiting d n s ss : Waiting d n (s :: ss) -> Z.of_nat n < SPIN_LIMIT ->
  exists d', wait_for_drq d = (d', inl tt) /\ Transfer d' s ss.
Proof.
  intros Hd Hn. unfold wait_for_drq, spin.
  assert (n < Z.to_nat SPIN_LIMIT)%nat as Hk by lia. clear Hn. revert d n Hd Hk.
  induction (Z.to_nat SPIN_LIMIT) as [|k IH]; intros d n Hd Hk; [lia|]. cbn [for_loop]. unfold wait_for_drq_step at 1.
  destruct n as [|n].
  - destruct (sector_ready d s ss Hd) as [((Hff & Hb) & He & Hq) Hd'].
    destruct (inb d STATUS_CMD) as [st d']. cbn [fst snd] in *. apply Z.eqb_neq in Hff as ->.
    rewrite Hb, He, Hq. by exists d'.
  - destruct (still_busy d n (s :: ss) Hd) as [(Hff & Hb) Hd'].
    destruct (inb d STATUS_CMD) as [st d']. cbn [fst snd] in *. apply Z.eqb_neq in Hff as ->.
    rewrite Hb. apply (IH d' n Hd'). lia.
Qed.

Lemma read_words_spec ws d ss : Transfer d ws ss -> ws <> [] ->
  exists d', read_words (length ws) d = (d', bytes_of ws) /\ after d' ss.
Proof.
  revert d. induction ws as [|w ws IH]; intros d Hd Hne; [done|].
  destruct (transfer_word d w ws ss Hd) as [Hw Hnext]. cbn [length read_words].
  destruct (inw d DATA) as [v d1]. cbn [fst snd] in *. subst v.
  destruct ws as [|w' ws].
  - cbn [length read_words]. exists d1. split; [done|]. by destruct ss.
  - destruct (IH d1 Hnext) as (d' & Hr & Ha); [done|]. rewrite Hr. by exists d'.
Qed.

(** The loop over the sectors [j], [j + 1], ...: what is before sector [j] in
    the buffer stays, the rest is overwritten. *)
Lemma read_sectors_spec (ls : list Z) j d pre rest :
  disk_ok disk -> after d ((fun s => words (disk s)) <$> ls) ->
  length pre = (j * SECTOR_SIZE)%nat -> length rest = (length ls * SECTOR_SIZE)%nat ->
  exists d', read_sectors d (pre ++ rest) (seq j (length ls)) =
      Done (d', pre ++ mjoin (disk <$> ls), inl tt) /\ exists f, Idle d' f.
Proof.
  intros Hok. revert j d pre rest. induction ls as [|l ls IH]; intros j d pre rest Hd Hpre Hrest.
  { exists d. split; [|done]. apply nil_length_inv in Hrest. by subst. }
  destruct Hd as (n & Hn & Hw). cbn [length seq read_sectors].
  destruct (wait_for_drq_waiting _ _ _ _ Hw Hn) as (d1 & -> & Ht).
  destruct (transfer_status _ _ _ Ht) as [(_ & He & _) Ht2].
  destruct (inb d1 STATUS_CMD) as [st d2]. cbn [fst snd] in *. rewrite He.
  destruct (Hok l) as [Hlen Hu].
  assert (length (words (disk l)) = SECTOR_SIZE / 2)%nat as Hwl by (apply length_words; rewrite Hlen; done).
  destruct (read_words_spec _ _ _ Ht2) as (d3 & Hrw & Ha).
  { intros Hnil. rewrite Hnil in Hwl. done. }
  cbn [length] in Hrest.
  rewrite slice_get_Done by (rewrite length_app; lia). cbn [mbind outcome_bind].
  rewrite <-Hwl, Hrw, (bytes_of_words (SECTOR_SIZE / 2) (disk l)) by done.
  rewrite slice_set_Done by (rewrite length_app; lia). cbn [mbind outcome_bind].
  rewrite <-Hpre, take_app_length, <-drop_drop, drop_app_length. rewrite app_assoc, Hlen.
  destruct (IH (S j) d3 (pre ++ disk l) (drop SECTOR_SIZE rest)) as (d' & Hr & Hf).
  - done.
  - rewrite length_app, Hlen. lia.
  - rewrite length_drop. lia.
  - exists d'. split; [|done]. rewrite Hr. by rewrite <-app_assoc.
Qed.

(** The registers the driver programs address the sector asked for. *)
Lemma lba_registers lba count f :
  0 <= lba < 2 ^ 28 ->
  let g := mkFile (Z.lor DRIVE_MASTER_LBA (Z.land (as_u8 (Z.shiftr lba 24)) 0x0f)) count
             (as_u8 lba) (as_u8 (Z.shiftr lba 8)) (as_u8 (Z.shiftr lba 16)) in
  f = g -> lba_of f = lba /\ f_head f / 16 = 0xe.
Proof.
  intros Hl g ->. unfold lba_of, g, as_u8. cbn [f_head f_count f_lo f_mid f_hi].
  change 0x0f with (Z.ones 4). rewrite Z.land_ones, !Z.shiftr_div_pow2 by lia.
  rewrite (lor_low DRIVE_MASTER_LBA _ 4) by (done || lia). change DRIVE_MASTER_LBA with 224.
  change (2 ^ 24) with 16777216. change (2 ^ 16) with 65536. change (2 ^ 8) with 256. change (2 ^ 4) with 16.
  change (2 ^ 28) with 268435456 in Hl. split; lia.
Qed.

Lemma read_lba_reads d f ata lba n buf :
  disk_ok disk -> Idle d f -> present ata = true ->
  (0 < n <= 256)%nat -> 0 <= lba -> lba + Z.of_nat n <= 2 ^ 28 -> length buf = (n * SECTOR_SIZE)%nat ->
  exists d' f', read_lba d ata lba buf = Done (d', mjoin (disk <$> zrange lba n), inl tt) /\ Idle d' f'.
Proof.
  intros Hok Hd Hp Hn Hl Hlb Hbuf. unfold read_lba. rewrite Hbuf.
  rewrite Nat.Div0.mod_mul, Nat.div_mul by done.
  destruct (Nat.eqb_spec (n * SECTOR_SIZE) 0) as [Hz|_]; [unfold SECTOR_SIZE in Hz; lia|]. cbn [Nat.eqb negb orb].
  destruct (Nat.ltb_spec 256 n); [lia|]. cbn [orb].
  assert (Z.land lba (Z.lxor U32_MAX 0x0fffffff) = 0) as ->.
  { change (Z.lxor U32_MAX 0x0fffffff) with (Z.ldiff (Z.ones 32) (Z.ones 28)). rewrite land_high by lia.
    change (2 ^ 28) with 268435456 in *. lia. }
  cbn [Z.eqb negb]. destruct (Nat.eqb_spec n 0); [lia|]. rewrite Hp. cbn [negb]. unfold read_pio.
  destruct (wait_while_idle d f Hd) as (d1 & -> & Hd1).
  set (count := if (n =? 256)%nat then 0 else as_u8 (Z.of_nat n)).
  set (d2 := outb (outb (outb (outb (outb d1 _ _) _ _) _ _) _ _) _ _).
  assert (exists g, Idle d2 g /\ lba_of g = lba /\ f_head g / 16 = 0xe /\ f_count g = count) as (g & Hg & Hlg & Hh & Hc).
  { eexists. split; [by apply set_hi, set_mid, set_lo, set_count, set_head|]. destruct f.
    cbn [f_head f_count f_lo f_mid f_hi].
    destruct (lba_registers lba count _ ltac:(lia) eq_refl) as [Ha Hb]. by split_and!. }
  destruct (read_command d2 g Hg Hh) as (k & Hk & Hw). rewrite Hlg in Hw.
  assert (sectors_of g = n) as Hsn.
  { unfold sectors_of. rewrite Hc. unfold count, as_u8. change (2 ^ 8) with 256.
    destruct (Nat.eqb_spec n 256); [by subst|]. rewrite Z.mod_small by lia. destruct (Z.eqb_spec (Z.of_nat n) 0); lia. }
  rewrite Hsn in Hw.
  destruct (read_sectors_spec (zrange lba n) 0 (outb d2 STATUS_CMD CMD_READ_SECTORS) [] buf) as (d' & Hr & f' & Hf');
    [done| |done|by rewrite length_zrange|].
  { destruct n as [|n]; [lia|]. by exists k. }
  rewrite length_zrange in Hr. exists d', f'. done.
Qed.

(** C18: On a healthy drive [read_lba] fills the buffer with exactly the sectors
    asked for - any run of 1 to 256 sectors within the 28-bit range, the
    256-sector one with its count byte of 0 - and leaves the drive idle. *)
Theorem read_lba_delivers_sectors (d : D) (f : TaskFile) (ata : AtaController) (lba : Z) (n : nat) (buf : list Z) :
  disk_ok disk -> Idle d f -> present ata = true ->
  (0 < n <= 256)%nat -> 0 <= lba -> lba + Z.of_nat n <= 2 ^ 28 -> length buf = (n * SECTOR_SIZE)%nat ->
  exists d' f', read_lba d ata lba buf = Done (d', mjoin (disk <$> zrange lba n), inl tt) /\ Idle d' f'.
Proof. apply read_lba_reads. Qed.

(** The driver implements the filesystem's view of a disk. *)
Definition ata_laws (Hok : disk_ok disk) : BlockLaws (D * AtaController) disk.
Proof.
  refine {| bl_ready (b : D * AtaController) := (exists f, Idle (fst b) f) /\ present (snd b) = true |}.
  intros [d ata] lba n buf [[f Hd] Hp] Hn Hl Hb Hlen.
  destruct (read_lba_reads d f ata lba n buf Hok Hd Hp Hn Hl Hb Hlen) as (d' & f' & Hr & Hd').
  exists (d', ata). unfold block_read, ata_block. cbn [fst snd] in *. rewrite Hr. split; [done|]. split; [by exists f'|done].
Defined.

Lemma init_probes d f : Idle d f -> exists d' f', init d = (d', mkAta true) /\ Idle d' f'.
Proof.
  intros Hd. unfold init. apply (set_head _ _ DRIVE_MASTER_LBA) in Hd.
  assert (forall n d f, Idle d f -> Idle (settle n d) f) as Hs.
  { clear. induction n as [|n IH]; intros d f Hd; [done|]. apply IH. by apply idle_status. }
  apply (Hs 4%nat) in Hd. destruct (idle_status _ _ Hd) as [[Hff _] Hd'].
  destruct (inb _ STATUS_CMD) as [st d1]. cbn [fst snd] in *. apply Z.eqb_neq in Hff as ->.
  destruct (wait_while_idle d1 _ Hd') as (d2 & -> & Hd2). by eexists _, _.
Qed.

End device.

(** ** Any device *)

Section any.
Context {D : Type} `{PortIO D} `{WordIO D}.

Lemma length_read_words n (d : D) : length (snd (read_words n d)) = (2 * n)%nat.
Proof.
  revert d. induction n as [|n IH]; intros d; [done|]. cbn [read_words]. destruct (inw d DATA) as [v d1].
  specialize (IH d1). destruct (read_words n d1) as [d2 bs]. cbn [snd length] in *. lia.
Qed.

Lemma read_words_u8 n (d : D) : Forall is_u8 (snd (read_words n d)).
Proof.
  revert d. induction n as [|n IH]; intros d; [done|]. cbn [read_words]. destruct (inw d DATA) as [v d1].
  specialize (IH d1). destruct (read_words n d1) as [d2 bs]. cbn [snd] in *.
  repeat constructor; [..|done]; unfold is_u8, as_u8; lia.
Qed.

Lemma read_sectors_returns (d : D) buf j n :
  ((j + n) * SECTOR_SIZE <= length buf)%nat ->
  exists d' buf' r, read_sectors d buf (seq j n) = Done (d', buf', r) /\ length buf' = length buf /\
    (Forall is_u8 buf -> Forall is_u8 buf').
Proof.
  revert d buf j. induction n as [|n IH]; intros d buf j Hlen; [by eexists _, _, _|].
  cbn [seq read_sectors]. destruct (wait_for_drq d) as [d1 [[]|e]]; [|by eexists _, _, _].
  destruct (inb d1 STATUS_CMD) as [st d2]. destruct (has_bits st _); [by eexists _, _, _|].
  rewrite slice_get_Done by lia. cbn [mbind outcome_bind].
  pose proof (length_read_words (SECTOR_SIZE / 2) d2) as Hc. pose proof (read_words_u8 (SECTOR_SIZE / 2) d2) as Hu.
  destruct (read_words (SECTOR_SIZE / 2) d2) as [d3 chunk]. cbn [snd] in Hc, Hu.
  change (2 * (SECTOR_SIZE / 2))%nat with SECTOR_SIZE in Hc.
  rewrite slice_set_Done by lia. cbn [mbind outcome_bind].
  assert (length (take (j * SECTOR_SIZE) buf ++ chunk ++ drop (j * SECTOR_SIZE + length chunk) buf) = length buf) as Hl.
  { rewrite !length_app, length_take, length_drop. lia. }
  destruct (IH d3 (take (j * SECTOR_SIZE) buf ++ chunk ++ drop (j * SECTOR_SIZE + length chunk) buf) (S j))
    as (d' & buf' & r & Hr & Hl' & Hu'); [lia|]. rewrite Hr. eexists _, _, _. split; [done|]. split; [lia|].
  intros Hb. apply Hu', Forall_app. split; [by apply Forall_take|]. apply Forall_app. split; [done|by apply Forall_drop].
Qed.

Lemma read_lba_returns (d : D) (ata : AtaController) lba buf :
  exists d' buf' r, read_lba d ata lba buf = Done (d', buf', r) /\ length buf' = length buf /\
    (Forall is_u8 buf -> Forall is_u8 buf').
Proof.
  pose proof (Nat.div_mod (length buf) SECTOR_SIZE ltac:(done)) as Hdm. unfold read_lba.
  destruct (_ || _); [by eexists _, _, _|]. destruct (_ || _); [by eexists _, _, _|].
  destruct (_ =? 0)%nat; [by eexists _, _, _|]. destruct (negb _); [by eexists _, _, _|].
  unfold read_pio. destruct (wait_while d _ _) as [d1 [[]|e]]; [|by eexists _, _, _].
  apply read_sectors_returns. lia.
Qed.

#[export] Instance ata_returns : BlockReturns (D * AtaController).
Proof.
  intros [d ata] lba buf Hu. destruct (read_lba_returns d ata lba buf) as (d' & buf' & r & Hr & Hl & Hu').
  exists (d', ata), buf', r. unfold block_read, ata_block. cbn [fst snd]. rewrite Hr. auto.
Qed.

(** C36: Whatever is (or is not) on the bus - a drive that never becomes ready, a
    floating bus, garbage - [read_lba] returns, without a panic and with the
    buffer's length unchanged; an empty or unaligned buffer, more than 256
    sectors or an address beyond 28 bits is rejected before the device is
    touched. *)
Theorem read_lba_always_returns (d : D) (ata : AtaController) (lba : Z) (buf : list Z) :
  (exists d' buf' r, read_lba d ata lba buf = Done (d', buf', r) /\ length buf' = length buf) /\
  (is_u32 lba -> length buf = 0%nat \/ (length buf mod SECTOR_SIZE <> 0)%nat \/ (256 * SECTOR_SIZE < length buf)%nat \/ 2 ^ 28 <= lba ->
   read_lba d ata lba buf = Done (d, buf, inr BadArgument)).
Proof.
  split.
  - destruct (read_lba_returns d ata lba buf) as (d' & buf' & r & Hr & Hl & _). by exists d', buf', r.
  - pose proof (Nat.div_mod (length buf) SECTOR_SIZE ltac:(done)) as Hdm. unfold read_lba. intros Hl Hbad. destruct (Nat.eqb_spec (length buf) 0) as [|Hn0]; [done|].
    destruct (Nat.eqb_spec (length buf mod SECTOR_SIZE) 0) as [Hm|]; [|done]. cbn [orb negb].
    destruct (Nat.ltb_spec 256 (length buf / SECTOR_SIZE)) as [|Hle]; [done|].
    destruct Hbad as [?|[?|[Hbig|Hlba]]]; [done|done|unfold SECTOR_SIZE in *; lia|].
    change (Z.lxor U32_MAX 0x0fffffff) with (Z.ldiff (Z.ones 32) (Z.ones 28)). unfold is_u32 in Hl. rewrite land_high by lia.
    destruct (Z.eqb_spec (lba / 2 ^ 28 * 2 ^ 28) 0); [|done]. change (2 ^ 28) with 268435456 in *. lia.
Qed.

(** A drive that answers the read with ERR or DF is reported as a timeout:
    [wait_for_drq] notices the drive error, but its caller turns every failure
    of the wait into [Timeout]. *)
Theorem drive_error_becomes_timeout (d d' : D) (buf : list Z) (sector : nat) (sectors : list nat) :
  wait_for_drq d = (d', inr DriveError) ->
  read_sectors d buf (sector :: sectors) = Done (d', buf, inr Timeout).
Proof. intros Hw. cbn [read_sectors]. by rewrite Hw. Qed.

End any.

(** ** A disk with numbered sectors *)

Definition demo_disk (s : Z) : list Z := replicate SECTOR_SIZE (s mod 256).

Lemma demo_disk_ok : disk_ok demo_disk.
Proof.
  intros s. split; [apply length_replicate|]. apply Forall_replicate. unfold is_u8. lia.
Qed.

Definition demo_drive : Drive demo_disk := mkDrive (mkFile 0 0 0 0 0) PIdle.

Lemma read_lba_delivers_sectors_witness :
  exists d' f', read_lba demo_drive (mkAta true) 0x0abcde (replicate 1024 0) =
    Done (d', demo_disk 0x0abcde ++ demo_disk 0x0abcdf ++ [], inl tt) /\ Idle d' f'.
Proof.
  apply (read_lba_delivers_sectors (disk := demo_disk) demo_drive (mkFile 0 0 0 0 0) (mkAta true) 0x0abcde 2 (replicate 1024 0)).
  - exact demo_disk_ok.
  - reflexivity.
  - reflexivity.
  - lia.
  - done.
  - done.
  - reflexivity.
Defined.

(** A drive with nothing but its error bit. *)
Definition Broken := unit.
#[local] Instance Broken_io : PortIO Broken := {| outb d _ _ := d; inb d _ := (0x51, d) |}.
#[local] Instance Broken_word : WordIO Broken := fun d _ => (0, d).

Lemma drive_error_becomes_timeout_witness :
  read_sectors (tt : Broken) [1; 2] [0%nat] = Done (tt, [1; 2], inr Timeout).
Proof.
  apply (drive_error_becomes_timeout (tt : Broken) tt [1; 2] 0 []). unfold wait_for_drq, spin.
  replace (Z.to_nat SPIN_LIMIT) with (S (Z.to_nat (SPIN_LIMIT - 1))) by (unfold SPIN_LIMIT; lia). reflexivity.
Defined.

End AtaFacts.
