(* ===== verification/GoatFs.v ===== *)
(** * The filesystem ([fs.rs]) and the tool that packs it ([build-goatfs.py])

    Mounting and reading over any [BlockDevice]; bytes are [Z] in [0, 256),
    names are the bytes of the [&str]. *)

From S2P Require Import Prelude.
From S2P Require Import Fmt.
From S2P Require Import Ata.
#[local] Open Scope Z_scope.

Module GoatFs.
Import Ata.

Definition FS_BASE_LBA : Z := 2048.
Definition MAGIC : list Z := Fmt.bytes "GOATFS01".
Definition VERSION : Z := 1.
Definition MAX_FILES : nat := 8.
Definition MAX_FILE_SIZE : nat := 4096.
Definition NAME_LEN : nat := 32.
Definition DIR_ENTRY_SIZE : nat := 64.
Definition SUPERBLOCK_SECTOR : Z := 0.
Definition DIRECTORY_SECTOR : Z := 1.
Definition HELLO_TXT_NAME : string := "hello.txt".
Definition HELLO_TXT_CONTENTS : string := "GOATos says hello from disk!" +:+ Fmt.newline.

Record DirEntry := mkEntry { name : list Z; name_len : nat; size : Z; lba_off : Z }.
Record Mount := mkMount { files : list DirEntry; file_count : nat }.

(** The statics [MOUNTED] and [FS]. *)
Record Fs := mkFs { MOUNTED : bool; FS : Mount }.
Definition boot : Fs := mkFs false (mkMount (replicate MAX_FILES (mkEntry (replicate NAME_LEN 0) 0 0 0)) 0).

Inductive FsError := Ata_ (e : AtaError) | BadSuperblock | BadDirectory | NotMounted | NotFound | TooLarge.

Definition FsError_fmt (e : FsError) : string :=
  match e with
  | Ata_ e => "ata: " +:+ AtaError_fmt e
  | BadSuperblock => "bad superblock"
  | BadDirectory => "bad directory"
  | NotMounted => "not mounted"
  | NotFound => "not found"
  | TooLarge => "file too large"
  end.

Record Banner := mkBanner { mounted : bool; b_file_count : nat; detail : string }.

Definition Banner_fmt (b : Banner) : string :=
  if mounted b then
    "FS: GOATFS at LBA " +:+ Fmt.dec FS_BASE_LBA +:+ " (" +:+ Fmt.dec (Z.of_nat (b_file_count b)) +:+ " file"
      +:+ (if (b_file_count b =? 1)%nat then "" else "s") +:+ "), " +:+ detail b
  else "FS: GOATFS at LBA " +:+ Fmt.dec FS_BASE_LBA +:+ " UNAVAILABLE (" +:+ detail b +:+ ")".

(** [u32::from_le_bytes] *)
Fixpoint from_le_bytes (bs : list Z) : Z :=
  match bs with [] => 0 | b :: bs => b + 256 * from_le_bytes bs end.

(** [matches!(b, b'!'..=b'~')] *)
Definition is_graphic (b : Z) : bool := (33 <=? b) && (b <=? 126).

(** One turn of the directory loop, up to the store into the table. *)
Definition parse_entry (sector : list Z) (i : nat) : outcome (DirEntry + FsError) :=
  let off := (i * DIR_ENTRY_SIZE)%nat in
  raw ← slice_get sector off DIR_ENTRY_SIZE;
  name_bytes ← slice_get raw 0 NAME_LEN;
  let name_len := default NAME_LEN (position (fun b => b =? 0) name_bytes) in
  if (name_len =? 0)%nat then Done (inr BadDirectory)
  else
    used ← slice_get name_bytes 0 name_len;
    if negb (forallb is_graphic used) then Done (inr BadDirectory)
    else
      size_bytes ← slice_get raw 32 4;
      lba_bytes ← slice_get raw 36 4;
      let size := from_le_bytes size_bytes in
      let lba_off := from_le_bytes lba_bytes in
      if (Z.of_nat MAX_FILE_SIZE <? size) || (lba_off <? 2) then Done (inr BadDirectory)
      else
        name ← slice_set (replicate NAME_LEN 0) 0 used;
        Done (inl (mkEntry name name_len size lba_off)).

Fixpoint mount_entries (sector : list Z) (mt : Mount) (ids : list nat) : outcome (Mount * (unit + FsError)) :=
  match ids with
  | [] => Done (mt, inl tt)
  | i :: ids =>
      r ← parse_entry sector i;
      match r with
      | inr e => Done (mt, inr e)
      | inl entry =>
          files ← index_set (files mt) i entry;
          mount_entries sector (mkMount files (S (file_count mt))) ids
      end
  end.

Section device.
Context {B : Type} `{BlockDevice B}.

Definition mount (b : B) (mt : Mount) : outcome (B * Mount * (nat + FsError)) :=
  let sector := replicate SECTOR_SIZE 0 in
  lba ← add_u32 FS_BASE_LBA SUPERBLOCK_SECTOR;
  '(b, sector, r) ← block_read b lba sector;
  match r with
  | inr e => Done (b, mt, inr (Ata_ e))
  | inl _ =>
      magic ← slice_get sector 0 8;
      if negb (bool_decide (magic = MAGIC)) then Done (b, mt, inr BadSuperblock)
      else
        version_bytes ← slice_get sector 8 4;
        count_bytes ← slice_get sector 12 4;
        let version := from_le_bytes version_bytes in
        let count := from_le_bytes count_bytes in
        if negb (version =? VERSION) || (Z.of_nat MAX_FILES <? count) then Done (b, mt, inr BadSuperblock)
        else
          lba ← add_u32 FS_BASE_LBA DIRECTORY_SECTOR;
          '(b, sector, r) ← block_read b lba sector;
          match r with
          | inr e => Done (b, mt, inr (Ata_ e))
          | inl _ =>
              '(mt, r) ← mount_entries sector (mkMount (files mt) 0) (seq 0 (Z.to_nat count));
              match r with
              | inr e => Done (b, mt, inr e)
              | inl _ => Done (b, mt, inl (file_count mt))
              end
          end
  end.

Definition init (b : B) (fs : Fs) : outcome (B * Fs * Banner) :=
  '(b, mt, r) ← mount b (FS fs);
  match r with
  | inl count => Done (b, mkFs true mt, mkBanner true count "mounted")
  | inr (Ata_ NotPresent) => Done (b, mkFs false mt, mkBanner false 0 "no ata drive")
  | inr (Ata_ Timeout) => Done (b, mkFs false mt, mkBanner false 0 "ata timeout")
  | inr BadSuperblock => Done (b, mkFs false mt, mkBanner false 0 "bad superblock")
  | inr _ => Done (b, mkFs false mt, mkBanner false 0 "mount failed")
  end.

Definition matches_name (n : list Z) (e : DirEntry) : bool :=
  (name_len e =? length n)%nat && bool_decide (take (name_len e) (name e) = n).

Definition div_ceil (a b : nat) : nat := ((a + b - 1) / b)%nat.

Definition read_file (b : B) (fs : Fs) (n : list Z) (buf : list Z) : outcome (B * list Z * (nat + FsError)) :=
  if negb (MOUNTED fs) then Done (b, buf, inr NotMounted)
  else if (length n =? 0)%nat || (NAME_LEN <? length n)%nat then Done (b, buf, inr NotFound)
  else
    live ← slice_get (files (FS fs)) 0 (file_count (FS fs));
    match List.find (matches_name n) live with
    | None => Done (b, buf, inr NotFound)
    | Some entry =>
        let size := Z.to_nat (size entry) in
        if (length buf <? size)%nat || (MAX_FILE_SIZE <? size)%nat then Done (b, buf, inr TooLarge)
        else if (size =? 0)%nat then Done (b, buf, inl 0%nat)
        else
          let sectors := div_ceil size SECTOR_SIZE in
          let scratch := replicate MAX_FILE_SIZE 0 in
          let transfer := (sectors * SECTOR_SIZE)%nat in
          lba ← add_u32 FS_BASE_LBA (lba_off entry);
          part ← slice_get scratch 0 transfer;
          '(b, part, r) ← block_read b lba part;
          match r with
          | inr e => Done (b, buf, inr (Ata_ e))
          | inl _ =>
              scratch ← slice_set scratch 0 part;
              bytes ← slice_get scratch 0 size;
              buf ← slice_set buf 0 bytes;
              Done (b, buf, inl size)
          end
    end.

Record SelfTest := mkSelfTest { ok : bool; t_detail : string }.

Definition SelfTest_fmt (t : SelfTest) : string :=
  if ok t then "FS: self-test ok (" +:+ t_detail t +:+ ")" else "FS: self-test FAILED (" +:+ t_detail t +:+ ")".

Definition self_test (b : B) (fs : Fs) : outcome (B * SelfTest) :=
  '(b, buf, r) ← read_file b fs (Fmt.bytes HELLO_TXT_NAME) (replicate MAX_FILE_SIZE 0);
  match r with
  | inl n =>
      let expected := Fmt.bytes HELLO_TXT_CONTENTS in
      got ← slice_get buf 0 n;
      if (n =? length expected)%nat && bool_decide (got = expected)
      then Done (b, mkSelfTest true "hello.txt ok")
      else Done (b, mkSelfTest false "hello.txt contents mismatch")
  | inr NotMounted => Done (b, mkSelfTest false "not mounted")
  | inr NotFound => Done (b, mkSelfTest false "hello.txt missing")
  | inr _ => Done (b, mkSelfTest false "read failed")
  end.

End device.
End GoatFs.

(** ** [scripts/build-goatfs.py] *)
Module Packer.

Definition MAGIC : list Z := Fmt.bytes "GOATFS01".
Definition VERSION : Z := 1.
Definition SECTOR : nat := 512.
Definition NAME_LEN : nat := 32.
Definition DIR_ENTRY : nat := 64.
Definition MAX_FILES : nat := 8.

Definition FILES : list (list Z * list Z) :=
  [(Fmt.bytes "hello.txt", Fmt.bytes ("GOATos says hello from disk!" +:+ Fmt.newline))].

(** One little-endian word of [struct.pack("<I")]. *)
Definition le32 (v : Z) : list Z := [v mod 256; v / 256 mod 256; v / 65536 mod 256; v / 16777216 mod 256].

(** The loop over [FILES]: directory, data and next sector so far. [None] is
    [SystemExit]. *)
Fixpoint pack_files (i : nat) (files : list (list Z * list Z)) (data_lba : Z) (dir_bytes : list Z)
    (data_blobs : list (list Z)) : option (list Z * list (list Z)) :=
  match files with
  | [] => Some (dir_bytes, data_blobs)
  | (name_b, contents) :: files =>
      if (length name_b =? 0)%nat || (NAME_LEN <=? length name_b)%nat then None
      else if (4096 <? length contents)%nat then None
      else
        let entry := replicate DIR_ENTRY 0 in
        let entry := name_b ++ drop (length name_b) entry in
        let fields := le32 (Z.of_nat (length contents)) ++ le32 data_lba in
        let entry := take 32 entry ++ fields ++ drop 40 entry in
        let dir_bytes := take (i * DIR_ENTRY) dir_bytes ++ entry ++ drop ((i + 1) * DIR_ENTRY) dir_bytes in
        let sectors := ((length contents + SECTOR - 1) / SECTOR)%nat in
        let blob := contents ++ replicate (sectors * SECTOR - length contents) 0 in
        pack_files (i + 1) files (data_lba + Z.of_nat sectors) dir_bytes (data_blobs ++ [blob])
  end.

Definition pack (files : list (list Z * list Z)) : option (list Z) :=
  if (MAX_FILES <? length files)%nat then None
  else
    '(dir_bytes, data_blobs) ← pack_files 0 files 2 (replicate SECTOR 0) [];
    let superblock := replicate SECTOR 0 in
    let superblock := MAGIC ++ drop 8 superblock in
    let fields := le32 VERSION ++ le32 (Z.of_nat (length files)) in
    let superblock := take 8 superblock ++ fields ++ drop 16 superblock in
    Some (superblock ++ dir_bytes ++ mjoin data_blobs).

End Packer.
