(* ===== verification/GoatFsFacts.v ===== *)
(** * What is packed is what is read

    An image made by the packing tool, on any lawful disk, mounts and gives
    back every file. *)

From S2P Require Import Prelude.
From S2P Require Import Fmt.
From S2P Require Import Machine.
From S2P Require Import Ata.
From S2P Require Import AtaFacts.
From S2P Require Import GoatFs.
#[local] Open Scope Z_scope.

Module GoatFsFacts.
Import Ata GoatFs.

(** ** The packed layout *)

Abbreviation file := (list Z * list Z)%type.

Definition pad32 (n : list Z) : list Z := n ++ replicate (NAME_LEN - length n) 0.
Definition sectors (c : list Z) : nat := div_ceil (length c) SECTOR_SIZE.
Definition blob (c : list Z) : list Z := c ++ replicate (sectors c * SECTOR_SIZE - length c) 0.

(** The directory entries of [fs], data from sector [lba] on. *)
Fixpoint entries (lba : Z) (fs : list file) : list DirEntry :=
  match fs with
  | [] => []
  | (n, c) :: fs =>
      mkEntry (pad32 n) (length n) (Z.of_nat (length c)) lba :: entries (lba + Z.of_nat (sectors c)) fs
  end.

Definition entry_bytes (e : DirEntry) : list Z :=
  name e ++ Packer.le32 (size e) ++ Packer.le32 (lba_off e) ++ replicate 24 0.
Definition dir_of (es : list DirEntry) : list Z := mjoin (entry_bytes <$> es).
Definition data_of (fs : list file) : list Z := mjoin ((fun f => blob f.2) <$> fs).

Definition file_ok (f : file) : Prop := (0 < length f.1 < NAME_LEN)%nat /\ (length f.2 <= MAX_FILE_SIZE)%nat.

Definition superblock (n : nat) : list Z :=
  MAGIC ++ Packer.le32 VERSION ++ Packer.le32 (Z.of_nat n) ++ replicate 496 0.
Definition image (fs : list file) : list Z :=
  superblock (length fs) ++
  (dir_of (entries 2 fs) ++ replicate ((MAX_FILES - length fs) * DIR_ENTRY_SIZE) 0) ++ data_of fs.

Lemma length_pad32 n : (length n < NAME_LEN)%nat -> length (pad32 n) = NAME_LEN.
Proof. intros Hn. unfold pad32. rewrite length_app, length_replicate. lia. Qed.

Lemma sectors_bounds c :
  (length c <= sectors c * SECTOR_SIZE /\ (0 < length c -> 0 < sectors c) /\
   (length c <= MAX_FILE_SIZE -> sectors c <= 8))%nat.
Proof.
  unfold sectors, div_ceil, SECTOR_SIZE, MAX_FILE_SIZE.
  pose proof (Nat.div_mod (length c + 512 - 1) 512 ltac:(done)).
  pose proof (Nat.mod_upper_bound (length c + 512 - 1) 512 ltac:(done)).
  repeat split; intros; lia.
Qed.

Lemma length_blob c : length (blob c) = (sectors c * SECTOR_SIZE)%nat.
Proof. unfold blob. rewrite length_app, length_replicate. pose proof (sectors_bounds c). lia. Qed.

(** *** The tool produces it *)

Lemma packed_entry n size lba : (0 < length n < NAME_LEN)%nat ->
  let entry := n ++ drop (length n) (replicate Packer.DIR_ENTRY 0) in
  take 32 entry ++ (Packer.le32 size ++ Packer.le32 lba) ++ drop 40 entry =
    entry_bytes (mkEntry (pad32 n) (length n) size lba).
Proof.
  intros Hn entry. unfold entry, entry_bytes, pad32, NAME_LEN, Packer.DIR_ENTRY in *. cbn [name GoatFs.size lba_off].
  rewrite drop_replicate, take_app, drop_app, take_ge, drop_ge, take_replicate, drop_replicate by lia.
  replace ((32 - length n) `min` (64 - length n))%nat with (32 - length n)%nat by lia.
  replace (64 - length n - (40 - length n))%nat with 24%nat by lia.
  cbn [app]. by rewrite <-!app_assoc.
Qed.

Lemma pack_files_spec fs i lba pre blobs dir data :
  Packer.pack_files i fs lba (pre ++ replicate ((MAX_FILES - i) * DIR_ENTRY_SIZE) 0) blobs = Some (dir, data) ->
  length pre = (i * DIR_ENTRY_SIZE)%nat -> (i + length fs <= MAX_FILES)%nat ->
  Forall file_ok fs /\
  dir = pre ++ dir_of (entries lba fs) ++ replicate ((MAX_FILES - i - length fs) * DIR_ENTRY_SIZE) 0 /\
  mjoin data = mjoin blobs ++ data_of fs.
Proof.
  revert i lba pre blobs. induction fs as [|[n c] fs IH]; intros i lba pre blobs Hp Hpre Hi.
  { injection Hp as <- <-. split; [done|]. cbn [length entries dir_of data_of]. rewrite Nat.sub_0_r. split; [done|].
    by rewrite app_nil_r. }
  cbn [Packer.pack_files] in Hp. change Packer.NAME_LEN with NAME_LEN in Hp. cbn [length] in Hi.
  destruct (Nat.eqb_spec (length n) 0) as [|Hn0]; [done|].
  destruct (Nat.leb_spec NAME_LEN (length n)) as [|Hn1]; [done|].
  destruct (Nat.ltb_spec 4096 (length c)) as [|Hc]; [done|]. cbn [orb] in Hp.
  rewrite packed_entry in Hp by lia. set (e := mkEntry _ _ _ _) in Hp.
  assert (length (entry_bytes e) = DIR_ENTRY_SIZE) as Hle.
  { unfold entry_bytes, e. cbn [name]. rewrite !length_app, length_pad32 by done. done. }
  rewrite take_app_le, take_ge in Hp by (rewrite Hpre; done).
  rewrite drop_app_ge, drop_replicate in Hp by (rewrite Hpre; unfold DIR_ENTRY_SIZE, Packer.DIR_ENTRY; lia).
  replace ((MAX_FILES - i) * DIR_ENTRY_SIZE - ((i + 1) * Packer.DIR_ENTRY - length pre))%nat
    with ((MAX_FILES - (i + 1)) * DIR_ENTRY_SIZE)%nat in Hp
    by (rewrite Hpre; unfold MAX_FILES, DIR_ENTRY_SIZE, Packer.DIR_ENTRY; lia).
  rewrite app_assoc in Hp.
  destruct (IH (i + 1)%nat _ (pre ++ entry_bytes e) _ Hp) as (Hok & Hdir & Hdata).
  - rewrite length_app. lia.
  - lia.
  - split; [constructor; [split; simpl; unfold MAX_FILE_SIZE; lia|done]|]. split.
    + rewrite Hdir. rewrite <-app_assoc. f_equal. cbn [entries length].
      change (dir_of (?a :: ?b)) with (entry_bytes a ++ dir_of b).
      rewrite <-app_assoc. f_equal. f_equal. f_equal. lia.
    + rewrite Hdata, join_app. rewrite <-app_assoc. f_equal. cbn [mjoin list_join]. by rewrite app_nil_r.
Qed.

Lemma pack_spec fs img : Packer.pack fs = Some img ->
  (length fs <= MAX_FILES)%nat /\ Forall file_ok fs /\ img = image fs.
Proof.
  unfold Packer.pack. change Packer.MAX_FILES with MAX_FILES. destruct (Nat.ltb_spec MAX_FILES (length fs)) as [|Hn]; [done|].
  destruct (Packer.pack_files 0 fs 2 _ []) as [[dir data]|] eqn:Hp; [|done]. intros Himg.
  change (replicate Packer.SECTOR 0) with ([] ++ replicate ((MAX_FILES - 0) * DIR_ENTRY_SIZE) 0) in Hp.
  destruct (pack_files_spec fs 0 2 [] [] dir data Hp) as (Hok & Hdir & Hdata); [done|lia|].
  split; [done|]. split; [done|]. cbn [mjoin list_join app] in Hdata, Hdir.
  injection Himg as <-. unfold image. rewrite Hdata, Hdir. rewrite Nat.sub_0_r. reflexivity.
Qed.

(** ** Parsing a packed entry *)

Lemma le32_roundtrip v : 0 <= v < 2 ^ 32 -> from_le_bytes (Packer.le32 v) = v.
Proof.
  intros Hv. change (2 ^ 32) with 4294967296 in Hv. unfold Packer.le32. cbn [from_le_bytes].
  pose proof (Z.div_mod v 256 ltac:(lia)). pose proof (Z.div_mod (v / 256) 256 ltac:(lia)).
  pose proof (Z.div_mod (v / 65536) 256 ltac:(lia)).
  replace (v / 256 / 256) with (v / 65536) in * by (rewrite Z.div_div by lia; done).
  replace (v / 65536 / 256) with (v / 16777216) in * by (rewrite Z.div_div by lia; done).
  assert (v / 16777216 < 256) by (apply Z.div_lt_upper_bound; lia).
  assert (0 <= v / 16777216) by (apply Z.div_pos; lia).
  rewrite (Z.mod_small (v / 16777216)) by lia. lia.
Qed.

(** A name the kernel accepts. *)
Definition name_ok (n : list Z) : Prop := (0 < length n < NAME_LEN)%nat /\ Forall (fun b => is_graphic b = true) n.

Lemma name_position n : name_ok n -> position (fun b => b =? 0) (pad32 n) = Some (length n).
Proof.
  intros [Hl Hg]. apply position_Some. split.
  - exists 0. split; [|done]. unfold pad32. rewrite lookup_app_r by lia. rewrite Nat.sub_diag.
    apply lookup_replicate_2. unfold NAME_LEN in *. lia.
  - intros j y Hj Hy. unfold pad32 in Hy. rewrite lookup_app_l in Hy by done.
    rewrite Forall_lookup in Hg. specialize (Hg j y Hy). unfold is_graphic in Hg. apply Z.eqb_neq. lia.
Qed.

Definition entry_ok (e : DirEntry) (n : list Z) : Prop :=
  name_ok n /\ name e = pad32 n /\ name_len e = length n /\
  0 <= size e <= Z.of_nat MAX_FILE_SIZE /\ 2 <= lba_off e < 2 ^ 32.

Lemma length_entry_bytes e n : entry_ok e n -> length (entry_bytes e) = DIR_ENTRY_SIZE.
Proof.
  intros ([Hl _] & Hn & _). unfold entry_bytes. rewrite Hn, !length_app, length_pad32 by lia. done.
Qed.

Lemma take_drop_app {A} (pre x post : list A) a b :
  a = length pre -> b = length x -> take b (drop a (pre ++ x ++ post)) = x.
Proof. intros -> ->. by rewrite drop_app_length, take_app_length. Qed.

Lemma parse_entry_packed pre e n post i :
  entry_ok e n -> length pre = (i * DIR_ENTRY_SIZE)%nat ->
  parse_entry (pre ++ entry_bytes e ++ post) i = Done (inl e).
Proof.
  intros He Hpre. pose proof (length_entry_bytes _ _ He) as Hle. destruct He as (Hno & Hn & Hnl & Hs & Hl).
  pose proof Hno as [Hlen Hg]. unfold parse_entry.
  rewrite slice_get_Done by (rewrite !length_app; lia). cbn [mbind outcome_bind].
  rewrite (take_drop_app pre (entry_bytes e) post) by congruence.
  rewrite (slice_get_Done (entry_bytes e) 0 NAME_LEN) by (rewrite Hle; unfold NAME_LEN, DIR_ENTRY_SIZE; lia). cbn [mbind outcome_bind].
  assert (take NAME_LEN (drop 0 (entry_bytes e)) = pad32 n) as ->.
  { unfold entry_bytes. rewrite Hn. apply (take_drop_app []); [done|by rewrite length_pad32 by lia]. }
  rewrite (name_position n Hno). change (default NAME_LEN (Some (length n))) with (length n). destruct (Nat.eqb_spec (length n) 0); [lia|].
  rewrite (slice_get_Done (pad32 n)) by (rewrite length_pad32; lia). cbn [mbind outcome_bind].
  assert (take (length n) (drop 0 (pad32 n)) = n) as -> by (apply (take_drop_app []); done).
  assert (forallb is_graphic n = true) as ->.
  { apply forallb_forall. intros x Hx. rewrite Forall_forall in Hg. by apply Hg, list_elem_of_In. }
  cbn [negb]. rewrite !slice_get_Done by (rewrite Hle; unfold DIR_ENTRY_SIZE; lia). cbn [mbind outcome_bind].
  assert (length (name e) = 32%nat) as Hne by (rewrite Hn; apply length_pad32; lia).
  assert (take 4 (drop 32 (entry_bytes e)) = Packer.le32 (size e)) as ->
    by (unfold entry_bytes; by apply take_drop_app).
  assert (take 4 (drop 36 (entry_bytes e)) = Packer.le32 (lba_off e)) as ->.
  { unfold entry_bytes. rewrite app_assoc. apply take_drop_app; [|done]. rewrite length_app, Hne. done. }
  unfold MAX_FILE_SIZE in Hs. rewrite !le32_roundtrip by lia.
  destruct (Z.ltb_spec (Z.of_nat MAX_FILE_SIZE) (size e)); [unfold MAX_FILE_SIZE in *; lia|].
  destruct (Z.ltb_spec (lba_off e) 2); [lia|]. cbn [orb].
  rewrite slice_set_Done by (rewrite length_replicate; lia). cbn [mbind outcome_bind firstn app].
  rewrite drop_replicate. rewrite Nat.add_0_l. fold (pad32 n). rewrite <-Hn, <-Hnl. by destruct e.
Qed.

Lemma insert_split {A} (l : list A) i x : (i < length l)%nat ->
  <[i := x]> l = take i l ++ x :: drop (S i) l.
Proof. intros Hi. by rewrite insert_take_drop. Qed.

(** The directory loop stores the packed entries in order. *)
Lemma mount_entries_packed (es : list DirEntry) (ns : list (list Z)) pre post fl i :
  Forall2 entry_ok es ns -> length pre = (i * DIR_ENTRY_SIZE)%nat -> (i + length es <= length fl)%nat ->
  mount_entries (pre ++ dir_of es ++ post) (mkMount fl i) (seq i (length es)) =
    Done (mkMount (take i fl ++ es ++ drop (i + length es) fl) (i + length es), inl tt).
Proof.
  intros Hes. revert pre fl i. induction Hes as [|e n es ns He _ IH]; intros pre fl i Hpre Hi.
  { cbn [length seq mount_entries app]. by rewrite Nat.add_0_r, take_drop. }
  cbn [length] in Hi. cbn [length seq mount_entries]. change (dir_of (e :: es)) with (entry_bytes e ++ dir_of es).
  rewrite <-app_assoc, (parse_entry_packed _ _ _ _ _ He Hpre). cbn [mbind outcome_bind files file_count].
  rewrite index_set_Done by lia. cbn [mbind outcome_bind]. rewrite app_assoc.
  rewrite IH; [|rewrite length_app, (length_entry_bytes _ _ He); lia|rewrite length_insert; lia].
  f_equal. f_equal. rewrite insert_split by lia.
  assert (length (take i fl) = i) as Ht by (rewrite length_take; lia).
  f_equal; [|lia].
  rewrite (take_app_ge _ _ (S i)) by lia. rewrite (drop_app_ge _ _ (S i + length es)) by lia. rewrite Ht.
  replace (S i - i)%nat with 1%nat by lia. replace (S i + length es - i)%nat with (S (length es)) by lia.
  cbn [take drop]. rewrite take_0, <-!app_assoc. cbn [app]. do 3 f_equal. rewrite drop_drop. f_equal. lia.
Qed.

Lemma entries_ok fs lba : Forall file_ok fs -> Forall (fun f => name_ok f.1) fs ->
  2 <= lba -> lba + 8 * Z.of_nat (length fs) < 2 ^ 32 ->
  Forall2 entry_ok (entries lba fs) (fst <$> fs) /\ length (entries lba fs) = length fs.
Proof.
  intros Hok. revert lba. induction Hok as [|[n c] fs [Hn Hc] Hok IH]; intros lba Hno H2 Hb; [done|].
  apply Forall_cons in Hno as [Hno1 Hno]. cbn [length] in Hb. cbn [fst snd] in *.
  pose proof (sectors_bounds c) as (_ & _ & Hs). specialize (Hs Hc).
  destruct (IH (lba + Z.of_nat (sectors c)) Hno) as [IH1 IH2]; [lia|lia|]. split.
  - cbn [entries]. rewrite fmap_cons. constructor; [|done]. split_and!; cbn; try done; try lia.
  - cbn [entries length]. lia.
Qed.

(** ** Finding a file *)

Lemma matches_entry n n' sz lba : (length n' < NAME_LEN)%nat ->
  matches_name n (mkEntry (pad32 n') (length n') sz lba) = bool_decide (n' = n).
Proof.
  intros Hn. unfold matches_name, pad32. cbn [name name_len]. rewrite take_app_length.
  destruct (Nat.eqb_spec (length n') (length n)) as [|Hne]; [done|]. cbn [andb]. symmetry. apply bool_decide_eq_false.
  by intros ->.
Qed.

(** The entry found for a packed name, and where its data is. *)
Lemma find_packed fs lba n c :
  Forall file_ok fs -> NoDup (fst <$> fs) -> (n, c) ∈ fs ->
  exists pre post, List.find (matches_name n) (entries lba fs) =
      Some (mkEntry (pad32 n) (length n) (Z.of_nat (length c)) (lba + Z.of_nat pre)) /\
    take (sectors c * SECTOR_SIZE) (drop (pre * SECTOR_SIZE) (data_of fs)) = blob c /\
    ((pre + sectors c) * SECTOR_SIZE + post = length (data_of fs))%nat /\ (pre + sectors c <= 8 * length fs)%nat.
Proof.
  intros Hok. revert lba. induction Hok as [|[n' c'] fs [Hn Hc] Hok IH]; intros lba Hnd Hin.
  { by apply elem_of_nil in Hin. }
  rewrite fmap_cons in Hnd. apply NoDup_cons in Hnd as [Hni Hnd]. cbn [fst snd] in *.
  change (data_of ((n', c') :: fs)) with (blob c' ++ data_of fs). cbn [entries List.find length].
  rewrite matches_entry by lia. pose proof (sectors_bounds c') as (_ & _ & Hs'). specialize (Hs' Hc).
  apply elem_of_cons in Hin as [Heq|Hin].
  - injection Heq as <- <-. rewrite bool_decide_true by done. exists 0%nat, (length (data_of fs)).
    rewrite Z.add_0_r. split_and!; [done| |rewrite length_app, length_blob; lia|lia].
    apply (take_drop_app []); [done|by rewrite length_blob].
  - rewrite bool_decide_false.
    + destruct (IH (lba + Z.of_nat (sectors c')) Hnd Hin) as (pre & post & Hf & Hd & Hl & Hb).
      exists (sectors c' + pre)%nat, post. rewrite Hf. split_and!.
      * do 2 f_equal. lia.
      * rewrite Nat.mul_add_distr_r, <-(length_blob c'), <-drop_drop, drop_app_length. done.
      * rewrite length_app, length_blob. lia.
      * lia.
    + intros ->. apply Hni. apply list_elem_of_fmap. by exists (n, c).
Qed.

Lemma find_absent fs lba n :
  Forall file_ok fs -> n ∉ fst <$> fs -> List.find (matches_name n) (entries lba fs) = None.
Proof.
  intros Hok. revert lba. induction Hok as [|[n' c'] fs [Hn Hc] Hok IH]; intros lba Hni; [done|].
  rewrite fmap_cons, not_elem_of_cons in Hni. destruct Hni as [Hne Hni]. cbn [fst] in *. cbn [entries List.find].
  rewrite matches_entry, bool_decide_false by (lia || congruence). by apply IH.
Qed.

(** ** On a disk *)

(** The image starts at [FS_BASE_LBA]. *)
Definition installed (disk : Z -> list Z) (img : list Z) : Prop :=
  forall k, ((k + 1) * SECTOR_SIZE <= length img)%nat ->
    disk (FS_BASE_LBA + Z.of_nat k) = take SECTOR_SIZE (drop (k * SECTOR_SIZE) img).

Lemma installed_run disk img k n : installed disk img -> ((k + n) * SECTOR_SIZE <= length img)%nat ->
  mjoin (disk <$> zrange (FS_BASE_LBA + Z.of_nat k) n) = take (n * SECTOR_SIZE) (drop (k * SECTOR_SIZE) img).
Proof.
  intros Hi. revert k. induction n as [|n IH]; intros k Hl; [done|].
  cbn [zrange]. rewrite fmap_cons. cbn [mjoin list_join]. rewrite Hi by (unfold SECTOR_SIZE in *; lia).
  replace (FS_BASE_LBA + Z.of_nat k + 1) with (FS_BASE_LBA + Z.of_nat (k + 1)) by lia.
  change (list_join (disk <$> ?l)) with (mjoin (disk <$> l)).
  rewrite IH by (unfold SECTOR_SIZE in *; lia).
  replace (S n * SECTOR_SIZE)%nat with (SECTOR_SIZE + n * SECTOR_SIZE)%nat by lia.
  replace ((k + 1) * SECTOR_SIZE)%nat with (k * SECTOR_SIZE + SECTOR_SIZE)%nat by lia.
  rewrite <-drop_drop. set (l := drop _ img). rewrite <-(take_drop SECTOR_SIZE l) at 3.
  rewrite take_app_ge; [|rewrite length_take; lia]. f_equal. f_equal.
  assert (SECTOR_SIZE <= length l)%nat by (unfold l; rewrite length_drop; unfold SECTOR_SIZE in *; lia).
  rewrite length_take. lia.
Qed.

Section device.
Context {B : Type} `{BlockLaws B disk}.

Lemma read_run b img k n buf :
  bl_ready b -> installed disk img -> (0 < n <= 256)%nat -> Z.of_nat (k + n) <= 2 ^ 20 ->
  ((k + n) * SECTOR_SIZE <= length img)%nat -> length buf = (n * SECTOR_SIZE)%nat ->
  exists b', block_read b (FS_BASE_LBA + Z.of_nat k) buf =
    Done (b', take (n * SECTOR_SIZE) (drop (k * SECTOR_SIZE) img), inl tt) /\ bl_ready b'.
Proof.
  intros Hb Hi Hn Hk Hl Hbuf.
  destruct (bl_read b (FS_BASE_LBA + Z.of_nat k) n buf) as (b' & Hr & Hb'); try done;
    [unfold FS_BASE_LBA; lia..|].
  exists b'. split; [|done]. rewrite Hr. by rewrite (installed_run disk img k n Hi Hl).
Qed.

Lemma length_superblock n : length (superblock n) = SECTOR_SIZE.
Proof. done. Qed.

Lemma length_dir es ns : Forall2 entry_ok es ns -> length (dir_of es) = (length es * DIR_ENTRY_SIZE)%nat.
Proof.
  induction 1 as [|e n es ns He _ IH]; [done|]. change (dir_of (e :: es)) with (entry_bytes e ++ dir_of es).
  rewrite length_app, IH, (length_entry_bytes _ _ He). cbn [length]. lia.
Qed.

(** [mount] on an installed image. *)
Lemma mount_packed b mt fs :
  bl_ready b -> installed disk (image fs) -> (length fs <= MAX_FILES)%nat -> length (files mt) = MAX_FILES ->
  Forall file_ok fs -> Forall (fun f => name_ok f.1) fs ->
  exists b', mount b mt = Done (b', mkMount (entries 2 fs ++ drop (length fs) (files mt)) (length fs), inl (length fs)) /\
    bl_ready b'.
Proof.
  intros Hb Hi Hn Hfl Hok Hno.
  destruct (entries_ok fs 2 Hok Hno) as [Hes Hle]; [lia|unfold MAX_FILES in Hn; lia|].
  pose proof (length_dir _ _ Hes) as Hld. rewrite Hle in Hld.
  set (dir := dir_of (entries 2 fs) ++ replicate ((MAX_FILES - length fs) * DIR_ENTRY_SIZE) 0).
  assert (length dir = SECTOR_SIZE) as Hdir.
  { unfold dir. rewrite length_app, length_replicate, Hld. unfold MAX_FILES, DIR_ENTRY_SIZE, SECTOR_SIZE in *. lia. }
  assert (image fs = superblock (length fs) ++ dir ++ data_of fs) as Himg by done.
  assert (2 * SECTOR_SIZE <= length (image fs))%nat as Hl.
  { rewrite Himg, !length_app, length_superblock, Hdir. lia. }
  unfold mount. change (add_u32 FS_BASE_LBA SUPERBLOCK_SECTOR) with (Done (FS_BASE_LBA + Z.of_nat 0)).
  cbn [mbind outcome_bind].
  destruct (read_run b (image fs) 0 1 (replicate SECTOR_SIZE 0)) as (b1 & -> & Hb1);
    [done|done|lia|lia|lia|done|]. cbn [mbind outcome_bind].
  assert (take (1 * SECTOR_SIZE) (drop (0 * SECTOR_SIZE) (image fs)) = superblock (length fs)) as ->.
  { rewrite Himg. apply (take_drop_app []); done. }
  rewrite (slice_get_Done _ 0 8) by (rewrite length_superblock; unfold SECTOR_SIZE; lia). cbn [mbind outcome_bind].
  change (take 8 (drop 0 (superblock (length fs)))) with MAGIC.
  rewrite bool_decide_true by done. cbn [negb].
  rewrite (slice_get_Done _ 8 4) by (rewrite length_superblock; unfold SECTOR_SIZE; lia). cbn [mbind outcome_bind].
  rewrite (slice_get_Done _ 12 4) by (rewrite length_superblock; unfold SECTOR_SIZE; lia). cbn [mbind outcome_bind].
  change (take 4 (drop 8 (superblock (length fs)))) with (Packer.le32 VERSION).
  change (take 4 (drop 12 (superblock (length fs)))) with (Packer.le32 (Z.of_nat (length fs))).
  rewrite !le32_roundtrip by (unfold VERSION, MAX_FILES in *; lia). rewrite Z.eqb_refl, Nat2Z.id. cbn [negb orb].
  destruct (Z.ltb_spec (Z.of_nat MAX_FILES) (Z.of_nat (length fs))); [lia|].
  change (add_u32 FS_BASE_LBA DIRECTORY_SECTOR) with (Done (FS_BASE_LBA + Z.of_nat 1)). cbn [mbind outcome_bind].
  destruct (read_run b1 (image fs) 1 1 (superblock (length fs))) as (b2 & -> & Hb2);
    [done|done|lia|lia|lia|done|]. cbn [mbind outcome_bind].
  assert (take (1 * SECTOR_SIZE) (drop (1 * SECTOR_SIZE) (image fs)) = dir) as ->.
  { rewrite Himg. apply take_drop_app; [done|]. rewrite Hdir. lia. }
  unfold dir. replace (seq 0 (length fs)) with (seq 0 (length (entries 2 fs))) by (by rewrite Hle).
  pose proof (mount_entries_packed (entries 2 fs) (fst <$> fs) []
    (replicate ((MAX_FILES - length fs) * DIR_ENTRY_SIZE) 0) (files mt) 0 Hes eq_refl ltac:(lia)) as Hm.
  cbn [app take Nat.add] in Hm. rewrite Hm. cbn [mbind outcome_bind file_count]. rewrite Hle. by eexists.
Qed.

(** [read_file] of a packed file. *)
Lemma read_packed b fs fl n c buf :
  bl_ready b -> installed disk (image fs) -> (length fs <= MAX_FILES)%nat ->
  Forall file_ok fs -> Forall (fun f => name_ok f.1) fs -> NoDup (fst <$> fs) -> (n, c) ∈ fs ->
  (length c <= length buf)%nat ->
  exists b', read_file b (mkFs true (mkMount (entries 2 fs ++ fl) (length fs))) n buf =
    Done (b', c ++ drop (length c) buf, inl (length c)) /\ bl_ready b'.
Proof.
  intros Hb Hi Hn Hok Hno Hnd Hin Hbuf.
  destruct (entries_ok fs 2 Hok Hno) as [Hes Hle]; [lia|unfold MAX_FILES in Hn; lia|].
  destruct (find_packed fs 2 n c Hok Hnd Hin) as (pre & post & Hf & Hd & Hl & Hpre).
  assert (file_ok (n, c)) as [Hnl Hcl] by (rewrite Forall_forall in Hok; by apply Hok).
  cbn [fst snd] in *. unfold read_file. cbn [MOUNTED negb FS files file_count].
  destruct (Nat.eqb_spec (length n) 0); [lia|]. destruct (Nat.ltb_spec NAME_LEN (length n)); [lia|]. cbn [orb].
  rewrite slice_get_Done by (rewrite length_app; lia). cbn [mbind outcome_bind].
  assert (take (length fs) (drop 0 (entries 2 fs ++ fl)) = entries 2 fs) as ->
    by (rewrite <-Hle; apply take_app_length).
  rewrite Hf. cbn [size lba_off]. rewrite Nat2Z.id.
  destruct (Nat.ltb_spec (length buf) (length c)); [lia|]. destruct (Nat.ltb_spec MAX_FILE_SIZE (length c)); [lia|].
  cbn [orb]. destruct (Nat.eqb_spec (length c) 0) as [Hz|Hnz].
  { apply nil_length_inv in Hz as ->. by exists b. }
  fold (sectors c). pose proof (sectors_bounds c) as (Hs1 & Hs2 & Hs3). specialize (Hs3 Hcl).
  unfold add_u32, FS_BASE_LBA. destruct (Z.leb_spec (2048 + (2 + Z.of_nat pre)) U32_MAX) as [_|Hov];
    [|unfold U32_MAX, MAX_FILES in *; lia]. cbn [mbind outcome_bind].
  rewrite slice_get_Done by (rewrite length_replicate; unfold SECTOR_SIZE, MAX_FILE_SIZE; lia). cbn [mbind outcome_bind skipn].
  replace (2048 + (2 + Z.of_nat pre)) with (FS_BASE_LBA + Z.of_nat (2 + pre)) by (unfold FS_BASE_LBA; lia).
  pose proof (length_dir _ _ Hes) as Hld. rewrite Hle in Hld.
  set (head := superblock (length fs) ++ dir_of (entries 2 fs) ++ replicate ((MAX_FILES - length fs) * DIR_ENTRY_SIZE) 0).
  assert (image fs = head ++ data_of fs) as Himg by (unfold head; by rewrite <-app_assoc).
  assert (length head = 2 * SECTOR_SIZE)%nat as Hhead.
  { unfold head. rewrite !length_app, length_superblock, length_replicate, Hld.
    unfold MAX_FILES, DIR_ENTRY_SIZE, SECTOR_SIZE in *. lia. }
  assert (drop ((2 + pre) * SECTOR_SIZE) (image fs) = drop (pre * SECTOR_SIZE) (data_of fs)) as Hdrop.
  { rewrite Himg, Nat.mul_add_distr_r, <-Hhead, <-drop_drop, drop_app_length. done. }
  destruct (read_run b (image fs) (2 + pre) (sectors c) (take (sectors c * SECTOR_SIZE) (drop 0 (replicate MAX_FILE_SIZE 0))))
    as (b' & -> & Hb'); [done|done|lia| | | |].
  { unfold MAX_FILES in *. lia. }
  { rewrite Himg, length_app, Hhead. lia. }
  { rewrite length_take, length_drop, length_replicate. unfold SECTOR_SIZE, MAX_FILE_SIZE. lia. }
  cbn [mbind outcome_bind]. rewrite Hdrop, Hd.
  rewrite slice_set_Done by (rewrite length_blob, length_replicate; unfold SECTOR_SIZE, MAX_FILE_SIZE; lia).
  cbn [mbind outcome_bind]. rewrite slice_get_Done by (rewrite !length_app, length_blob; lia).
  cbn [mbind outcome_bind].
  assert (take (length c) (drop 0 (take 0 (replicate MAX_FILE_SIZE 0) ++ blob c ++ drop (0 + length (blob c)) (replicate MAX_FILE_SIZE 0))) = c) as ->.
  { rewrite drop_0, take_0. cbn [app]. unfold blob at 1. rewrite <-app_assoc. apply take_app_length. }
  rewrite slice_set_Done by lia. cbn [mbind outcome_bind firstn app Nat.add]. by exists b'.
Qed.

End device.
End GoatFsFacts.
