(* ===== verification/GoatFsSpec.v ===== *)
(** * The filesystem's guarantees

    Round trip through the packing tool, the boot self-test on the shipped
    image, and what a corrupt disk can and cannot do. *)

From S2P Require Import Prelude.
From S2P Require Import Fmt.
From S2P Require Import Machine.
From S2P Require Import Ata.
From S2P Require Import AtaFacts.
From S2P Require Import GoatFs.
From S2P Require Import GoatFsFacts.
#[local] Open Scope Z_scope.

Module GoatFsSpec.
Import Ata GoatFs GoatFsFacts.

Definition printable (n : list Z) : Prop := Forall (fun b => is_graphic b = true) n.

Section lawful.
Context {B : Type} `{BlockLaws B disk}.

Lemma packed_mounts files img b :
  Packer.pack files = Some img -> Forall (fun f => printable f.1) files -> installed disk img -> bl_ready b ->
  Forall file_ok files /\ Forall (fun f => name_ok f.1) files /\ (length files <= MAX_FILES)%nat /\ img = image files /\
  exists b' fl, init b boot = Done (b', mkFs true (mkMount (entries 2 files ++ fl) (length files)),
      mkBanner true (length files) "mounted") /\ bl_ready b'.
Proof.
  intros Hp Hpr Hi Hb. destruct (pack_spec _ _ Hp) as (Hn & Hok & ->).
  assert (Forall (fun f => name_ok f.1) files) as Hno.
  { rewrite Forall_forall in *. intros f Hf. split; [by apply (Hok f Hf)|by apply Hpr]. }
  split_and!; [done..|]. destruct (mount_packed b (FS boot) files Hb Hi Hn eq_refl Hok Hno) as (b' & Hm & Hb').
  exists b', (drop (length files) (GoatFs.files (FS boot))). split; [|done]. unfold init. by rewrite Hm.
Qed.

(** A name that is not in the table. *)
Lemma read_absent (files : list file) fl b n buf :
  Forall file_ok files -> Forall (fun f => name_ok f.1) files -> (length files <= MAX_FILES)%nat -> n ∉ fst <$> files ->
  read_file b (mkFs true (mkMount (entries 2 files ++ fl) (length files))) n buf = Done (b, buf, inr NotFound).
Proof.
  intros Hok Hno Hn Hni. unfold read_file. cbn [MOUNTED negb FS GoatFs.files file_count].
  destruct (_ || _); [done|]. destruct (entries_ok files 2 Hok Hno) as [_ Hle]; [lia|unfold MAX_FILES in *; lia|].
  rewrite slice_get_Done by (rewrite length_app; lia). cbn [mbind outcome_bind].
  assert (take (length files) (drop 0 (entries 2 files ++ fl)) = entries 2 files) as ->
    by (rewrite <-Hle; apply take_app_length).
  by rewrite find_absent.
Qed.

(** C9: Pack, mount, read. Any set of files the packing tool accepts, with
    distinct printable names, on a disk that holds the image at sector 2048:
    the kernel mounts it with the right count; reading any of the files, in any
    order and any number of times, delivers its exact contents and length into
    the front of the buffer; and any other name is not found. *)
Theorem goatfs_roundtrip (files : list file) (img : list Z) (b : B) :
  Packer.pack files = Some img -> Forall (fun f => printable f.1) files -> NoDup (fst <$> files) ->
  installed disk img -> bl_ready b ->
  exists b' st, init b boot = Done (b', st, mkBanner true (length files) "mounted") /\ bl_ready b' /\
    (forall b1 n c buf, bl_ready b1 -> (n, c) ∈ files -> (length c <= length buf)%nat ->
       exists b2, read_file b1 st n buf = Done (b2, c ++ drop (length c) buf, inl (length c)) /\ bl_ready b2) /\
    (forall b1 n buf, n ∉ fst <$> files -> read_file b1 st n buf = Done (b1, buf, inr NotFound)).
Proof.
  intros Hp Hpr Hnd Hi Hb. destruct (packed_mounts files img b Hp Hpr Hi Hb) as (Hok & Hno & Hn & -> & b' & fl & Hm & Hb').
  exists b', (mkFs true (mkMount (entries 2 files ++ fl) (length files))). split; [exact Hm|]. split; [done|]. split.
  - intros b1 n c buf Hb1 Hin Hbuf. by apply read_packed.
  - intros b1 n buf Hni. by apply read_absent.
Qed.

(** The known file, read into the buffer the self-test and the banner use. *)
Definition reads_hello (st : Fs) (b b' : B) : Prop :=
  read_file b st (Fmt.bytes HELLO_TXT_NAME) (replicate MAX_FILE_SIZE 0) =
    Done (b', Fmt.bytes HELLO_TXT_CONTENTS ++ drop (length (Fmt.bytes HELLO_TXT_CONTENTS)) (replicate MAX_FILE_SIZE 0),
          inl (length (Fmt.bytes HELLO_TXT_CONTENTS))).

(** A table that was mounted from the shipped image. *)
Definition shipped_fs (st : Fs) : Prop :=
  exists fl, st = mkFs true (mkMount (entries 2 Packer.FILES ++ fl) (length Packer.FILES)).

Lemma shipped_mounts (img : list Z) (b : B) :
  Packer.pack Packer.FILES = Some img -> installed disk img -> bl_ready b ->
  exists b1 st, init b boot = Done (b1, st, mkBanner true 1 "mounted") /\ bl_ready b1 /\ shipped_fs st.
Proof.
  intros Hp Hi Hb. destruct (packed_mounts _ _ b Hp ltac:(repeat constructor) Hi Hb) as (_ & _ & _ & _ & b1 & fl & Hm & Hb1).
  exists b1. eexists. split; [exact Hm|]. split; [done|by exists fl].
Qed.

(** The one file it has is read; no other name is found. *)
Lemma shipped_reads (img : list Z) (st : Fs) (b : B) :
  Packer.pack Packer.FILES = Some img -> installed disk img -> shipped_fs st -> bl_ready b ->
  (exists b', reads_hello st b b' /\ bl_ready b') /\
  forall n buf, n <> Fmt.bytes HELLO_TXT_NAME -> read_file b st n buf = Done (b, buf, inr NotFound).
Proof.
  intros Hp Hi [fl ->] Hb. destruct (packed_mounts _ _ b Hp ltac:(repeat constructor) Hi Hb) as (Hok & Hno & Hn & -> & _).
  split.
  - apply read_packed; try done; [apply NoDup_singleton|apply list_elem_of_here|].
    rewrite length_replicate. apply Nat.leb_le. vm_compute. reflexivity.
  - intros n buf Hne. apply read_absent; try done. intros Hin. apply Hne. by apply list_elem_of_singleton in Hin.
Qed.

Lemma hello_passes (st : Fs) (b b' : B) : reads_hello st b b' -> self_test b st = Done (b', mkSelfTest true "hello.txt ok").
Proof.
  intros Hr. unfold self_test. rewrite Hr. cbn [mbind outcome_bind].
  rewrite slice_get_Done by (rewrite length_app; lia). cbn [mbind outcome_bind].
  rewrite drop_0, take_app_length, Nat.eqb_refl, bool_decide_true by done. done.
Qed.

(** On the image the build ships, mounted on any working disk, the boot
    self-test reads [hello.txt] and passes. *)
Theorem shipped_image_self_test (img : list Z) (b : B) :
  Packer.pack Packer.FILES = Some img -> installed disk img -> bl_ready b ->
  exists b1 st b2, init b boot = Done (b1, st, mkBanner true 1 "mounted") /\
    self_test b1 st = Done (b2, mkSelfTest true "hello.txt ok").
Proof.
  intros Hp Hi Hb. destruct (shipped_mounts img b Hp Hi Hb) as (b1 & st & Hm & Hb1 & Hs).
  destruct (shipped_reads img st b1 Hp Hi Hs Hb1) as [(b2 & H2 & _) _]. exists b1, st, b2. split; [done|]. by apply hello_passes.
Qed.

End lawful.

(** ** A corrupt disk *)

(** What a mounted table may contain. *)
Definition entry_sane (e : DirEntry) : Prop :=
  length (name e) = NAME_LEN /\ (0 < name_len e <= NAME_LEN)%nat /\
  Forall (fun b => is_graphic b = true) (take (name_len e) (name e)) /\
  0 <= size e <= Z.of_nat MAX_FILE_SIZE /\ 2 <= lba_off e < 2 ^ 32.

Definition mount_sane (mt : Mount) : Prop :=
  length (files mt) = MAX_FILES /\ (file_count mt <= MAX_FILES)%nat /\
  Forall entry_sane (take (file_count mt) (files mt)).

Lemma from_le_bytes_bound bs : Forall is_u8 bs -> 0 <= from_le_bytes bs < 256 ^ Z.of_nat (length bs).
Proof.
  induction 1 as [|b bs Hb _ IH]; [done|]. cbn [from_le_bytes length]. unfold is_u8 in Hb.
  rewrite Nat2Z.inj_succ, Z.pow_succ_r by lia. change (2 ^ 8) with 256 in Hb. lia.
Qed.

Lemma le4_bound sector s : Forall is_u8 sector -> (s + 4 <= length sector)%nat ->
  0 <= from_le_bytes (take 4 (drop s sector)) < 2 ^ 32.
Proof.
  intros Hu Hs. pose proof (from_le_bytes_bound (take 4 (drop s sector)) ltac:(by apply Forall_take, Forall_drop)) as Hb.
  rewrite length_take, length_drop in Hb. replace (4 `min` (length sector - s))%nat with 4%nat in Hb by lia. exact Hb.
Qed.

Lemma parse_entry_returns sector i : length sector = SECTOR_SIZE -> Forall is_u8 sector -> (i < MAX_FILES)%nat ->
  exists r, parse_entry sector i = Done r /\ forall e, r = inl e -> entry_sane e.
Proof.
  intros Hl Hu Hi. unfold parse_entry.
  assert ((i * DIR_ENTRY_SIZE + DIR_ENTRY_SIZE <= length sector)%nat) as Hb
    by (rewrite Hl; unfold DIR_ENTRY_SIZE, SECTOR_SIZE, MAX_FILES in *; lia).
  rewrite slice_get_Done by done. cbn [mbind outcome_bind]. set (raw := take DIR_ENTRY_SIZE _).
  assert (length raw = DIR_ENTRY_SIZE) as Hraw by (unfold raw; rewrite length_take, length_drop; lia).
  assert (Forall is_u8 raw) as Hru by (by apply Forall_take, Forall_drop).
  rewrite (slice_get_Done raw 0 NAME_LEN) by (rewrite Hraw; unfold NAME_LEN, DIR_ENTRY_SIZE; lia). cbn [mbind outcome_bind].
  rewrite drop_0. set (nb := take NAME_LEN raw).
  assert (length nb = NAME_LEN) as Hnb by (unfold nb; rewrite length_take, Hraw; done).
  set (nl := default NAME_LEN (position (fun b => b =? 0) nb)).
  assert (nl <= NAME_LEN)%nat as Hnl.
  { unfold nl. destruct (position _ nb) as [p|] eqn:Hp; [|done]. apply position_Some in Hp as [(x & Hx & _) _].
    apply lookup_lt_Some in Hx. simpl. lia. }
  destruct (Nat.eqb_spec nl 0) as [|Hnz]; [by eexists|].
  rewrite (slice_get_Done nb) by lia. cbn [mbind outcome_bind]. rewrite drop_0.
  destruct (forallb is_graphic (take nl nb)) eqn:Hg; [|by eexists]. cbn [negb].
  rewrite !slice_get_Done by (rewrite Hraw; unfold DIR_ENTRY_SIZE; lia). cbn [mbind outcome_bind].
  pose proof (le4_bound raw 32 Hru ltac:(rewrite Hraw; unfold DIR_ENTRY_SIZE; lia)) as Hsz.
  pose proof (le4_bound raw 36 Hru ltac:(rewrite Hraw; unfold DIR_ENTRY_SIZE; lia)) as Hlb.
  destruct (Z.ltb_spec (Z.of_nat MAX_FILE_SIZE) (from_le_bytes (take 4 (drop 32 raw)))); [by eexists|].
  destruct (Z.ltb_spec (from_le_bytes (take 4 (drop 36 raw))) 2); [by eexists|]. cbn [orb].
  assert (length (take nl nb) = nl) as Htl by (rewrite length_take; lia).
  rewrite slice_set_Done by (rewrite length_replicate; lia). cbn [mbind outcome_bind].
  rewrite take_0. cbn [app].
  remember (take nl nb ++ drop (0 + length (take nl nb)) (replicate NAME_LEN 0)) as nm eqn:Hnm.
  eexists. split; [reflexivity|]. intros e [= <-]. split_and!; cbn [name name_len size lba_off].
  - rewrite Hnm, length_app, length_drop, length_replicate. lia.
  - lia.
  - done.
  - rewrite Hnm, take_app_le, take_ge by lia. apply Forall_forall. intros x Hx.
    by eapply forallb_forall in Hg; [|apply list_elem_of_In].
  - lia.
  - lia.
  - lia.
  - lia.
Qed.

Lemma mount_entries_returns sector n mt i :
  length sector = SECTOR_SIZE -> Forall is_u8 sector -> mount_sane mt -> file_count mt = i -> (i + n <= MAX_FILES)%nat ->
  exists mt' r, mount_entries sector mt (seq i n) = Done (mt', r) /\ mount_sane mt'.
Proof.
  intros Hl Hu. revert mt i. induction n as [|n IH]; intros mt i (Hfl & Hfc & Hes) Hi Hn; [by eexists _, _|].
  cbn [seq mount_entries]. destruct (parse_entry_returns sector i Hl Hu ltac:(lia)) as ([e|err] & -> & He);
    cbn [mbind outcome_bind]; [|by eexists _, _].
  rewrite index_set_Done by lia. cbn [mbind outcome_bind].
  apply IH; [|cbn [file_count]; lia|lia]. split_and!; cbn [files file_count]; [by rewrite length_insert|lia|].
  rewrite Hi. rewrite insert_split by lia. rewrite take_app_ge by (rewrite length_take; lia).
  rewrite length_take. replace (S i - i `min` length (files mt))%nat with 1%nat by lia. cbn [firstn].
  rewrite Hi in Hes. apply Forall_app. split; [done|]. constructor; [by apply He|]. by rewrite take_0.
Qed.

Section any.
Context {B : Type} `{BlockReturns B}.

Lemma zeros_u8 n : Forall is_u8 (replicate n 0).
Proof. apply Forall_replicate. done. Qed.

Lemma mount_returns (b : B) mt : mount_sane mt ->
  exists b' mt' r, mount b mt = Done (b', mt', r) /\ mount_sane mt'.
Proof.
  intros Hs. unfold mount. change (add_u32 FS_BASE_LBA SUPERBLOCK_SECTOR) with (Done FS_BASE_LBA). cbn [mbind outcome_bind].
  destruct (br_returns b FS_BASE_LBA (replicate SECTOR_SIZE 0) (zeros_u8 _)) as (b1 & s1 & r1 & -> & Hl1 & Hu1).
  rewrite length_replicate in Hl1. cbn [mbind outcome_bind]. destruct r1 as [_|e]; [|by eexists _, _, _].
  rewrite (slice_get_Done s1 0 8) by (rewrite Hl1; unfold SECTOR_SIZE; lia). cbn [mbind outcome_bind].
  destruct (negb _); [by eexists _, _, _|].
  rewrite (slice_get_Done s1 8 4) by (rewrite Hl1; unfold SECTOR_SIZE; lia). cbn [mbind outcome_bind].
  rewrite (slice_get_Done s1 12 4) by (rewrite Hl1; unfold SECTOR_SIZE; lia). cbn [mbind outcome_bind].
  destruct (negb _); [by eexists _, _, _|]. cbn [orb].
  destruct (Z.ltb_spec (Z.of_nat MAX_FILES) (from_le_bytes (take 4 (drop 12 s1)))) as [|Hc]; [by eexists _, _, _|].
  change (add_u32 FS_BASE_LBA DIRECTORY_SECTOR) with (Done (FS_BASE_LBA + 1)). cbn [mbind outcome_bind].
  destruct (br_returns b1 (FS_BASE_LBA + 1) s1 Hu1) as (b2 & s2 & r2 & -> & Hl2 & Hu2).
  cbn [mbind outcome_bind]. destruct r2 as [_|e]; [|by eexists _, _, _].
  destruct Hs as (Hfl & _ & _).
  destruct (mount_entries_returns s2 (Z.to_nat (from_le_bytes (take 4 (drop 12 s1)))) (mkMount (files mt) 0) 0)
    as (mt' & r & -> & Hs'); [congruence|done| |done|lia|].
  { split_and!; cbn [files file_count]; [done|unfold MAX_FILES; lia|]. by rewrite take_0. }
  cbn [mbind outcome_bind]. destruct r as [_|e]; by eexists _, _, _.
Qed.

Lemma boot_sane : mount_sane (FS boot).
Proof. split_and!; try done. unfold MAX_FILES. simpl. lia. Qed.

(** C26: A corrupt disk is contained. Whatever a device returns for the
    superblock and the directory, mounting returns, and what it accepts has at
    most eight entries with printable names of 1 to 32 bytes, sizes of at most
    4096 bytes and data behind the directory. Reading a file then returns too -
    except that an accepted entry with a data sector within 2048 of [u32::MAX]
    overflows the address computation and panics the kernel. *)
Theorem corrupt_disk_contained (b : B) :
  exists b' st banner, init b boot = Done (b', st, banner) /\ mount_sane (FS st) /\ MOUNTED st = mounted banner /\
  forall b1 n buf,
    (exists b2 buf' r, read_file b1 st n buf = Done (b2, buf', r) /\ length buf' = length buf) \/
    (read_file b1 st n buf = Panicked /\
     exists e, e ∈ take (file_count (FS st)) (files (FS st)) /\ U32_MAX < FS_BASE_LBA + lba_off e).
Proof.
  destruct (mount_returns b (FS boot) boot_sane) as (b' & mt & r & Hm & Hs).
  assert (exists st banner, init b boot = Done (b', st, banner) /\ FS st = mt /\ MOUNTED st = mounted banner)
    as (st & banner & Hi & <- & Hmt).
  { unfold init. rewrite Hm. cbn [mbind outcome_bind].
    destruct r as [c|[[]| | | | |]]; by eexists _, _. }
  exists b', st, banner. split_and!; [done..|]. intros b1 n buf. destruct Hs as (Hfl & Hfc & Hes). unfold read_file.
  destruct (negb _); [left; by eexists _, _, _|]. destruct (_ || _); [left; by eexists _, _, _|].
  rewrite slice_get_Done by lia. cbn [mbind outcome_bind]. rewrite drop_0.
  destruct (List.find _ _) as [e|] eqn:Hf; [|left; by eexists _, _, _].
  apply List.find_some in Hf as [Hin%list_elem_of_In _].
  rewrite Forall_forall in Hes. destruct (Hes e Hin) as (_ & _ & _ & Hsz & _).
  destruct (Nat.ltb_spec (length buf) (Z.to_nat (size e))); [left; by eexists _, _, _|].
  destruct (Nat.ltb_spec MAX_FILE_SIZE (Z.to_nat (size e))); [left; by eexists _, _, _|]. cbn [orb].
  destruct (Nat.eqb_spec (Z.to_nat (size e)) 0); [left; by eexists _, _, _|].
  unfold add_u32. destruct (Z.leb_spec (FS_BASE_LBA + lba_off e) U32_MAX) as [Hle|Hgt]; [left|right; split; [done|by exists e]].
  cbn [mbind outcome_bind].
  assert (div_ceil (Z.to_nat (size e)) SECTOR_SIZE * SECTOR_SIZE <= MAX_FILE_SIZE /\
          Z.to_nat (size e) <= div_ceil (Z.to_nat (size e)) SECTOR_SIZE * SECTOR_SIZE)%nat as [Ht1 Ht2].
  { pose proof (sectors_bounds (replicate (Z.to_nat (size e)) 0)) as (H1' & _ & H3'). unfold sectors in *.
    rewrite length_replicate in *. unfold SECTOR_SIZE, MAX_FILE_SIZE in *. split; [|lia]. specialize (H3' ltac:(lia)). lia. }
  rewrite slice_get_Done by (rewrite length_replicate; lia). cbn [mbind outcome_bind]. rewrite drop_0.
  destruct (br_returns b1 (FS_BASE_LBA + lba_off e)
    (take (div_ceil (Z.to_nat (size e)) SECTOR_SIZE * SECTOR_SIZE) (replicate MAX_FILE_SIZE 0)))
    as (b2 & part & r2 & -> & Hpl & _); [apply Forall_take, zeros_u8|].
  cbn [mbind outcome_bind]. destruct r2 as [_|err]; [|by eexists _, _, _].
  rewrite length_take, length_replicate in Hpl.
  rewrite slice_set_Done by (rewrite length_replicate; lia). cbn [mbind outcome_bind].
  rewrite slice_get_Done by (rewrite !length_app, length_drop, length_replicate; lia). cbn [mbind outcome_bind].
  set (got := take (Z.to_nat (size e)) _).
  assert (length got = Z.to_nat (size e)) as Hg.
  { unfold got. rewrite length_take, length_drop, !length_app, length_take, length_drop, length_replicate. lia. }
  rewrite slice_set_Done by lia. cbn [mbind outcome_bind]. eexists _, _, _. split; [done|].
  rewrite !length_app, length_take, length_drop. lia.
Qed.

End any.

(** ** The shipped image on an ATA drive *)
Import AtaDrive AtaFacts.

Definition shipped : list Z := default [] (Packer.pack Packer.FILES).

Definition shipped_disk (s : Z) : list Z :=
  if (FS_BASE_LBA <=? s) && (s <? FS_BASE_LBA + 3)
  then take SECTOR_SIZE (drop (Z.to_nat (s - FS_BASE_LBA) * SECTOR_SIZE) shipped)
  else replicate SECTOR_SIZE 0.

Definition is_u8b (b : Z) : bool := (0 <=? b) && (b <? 256).

Lemma shipped_bytes : length shipped = (3 * SECTOR_SIZE)%nat /\ Forall is_u8 shipped.
Proof.
  split; [vm_compute; reflexivity|]. assert (forallb is_u8b shipped = true) as Hb by (vm_compute; reflexivity).
  apply Forall_forall. intros x Hx%list_elem_of_In. eapply forallb_forall in Hb; [|done].
  unfold is_u8b, is_u8 in *. change (2 ^ 8) with 256. lia.
Qed.

Lemma shipped_disk_ok : disk_ok shipped_disk.
Proof.
  destruct shipped_bytes as [Hl Hu]. intros s. unfold shipped_disk.
  destruct (Z.leb_spec FS_BASE_LBA s), (Z.ltb_spec s (FS_BASE_LBA + 3)); cbn [andb];
    try (split; [apply length_replicate|apply Forall_replicate; done]).
  split; [|by apply Forall_take, Forall_drop]. rewrite length_take, length_drop, Hl. unfold SECTOR_SIZE, FS_BASE_LBA in *. lia.
Qed.

Lemma shipped_installed : installed shipped_disk shipped.
Proof.
  intros k Hk. destruct shipped_bytes as [Hl _]. rewrite Hl in Hk. unfold shipped_disk.
  destruct (Z.leb_spec FS_BASE_LBA (FS_BASE_LBA + Z.of_nat k)); [|lia].
  destruct (Z.ltb_spec (FS_BASE_LBA + Z.of_nat k) (FS_BASE_LBA + 3)); [|unfold SECTOR_SIZE in *; lia]. cbn [andb].
  by replace (Z.to_nat (FS_BASE_LBA + Z.of_nat k - FS_BASE_LBA)) with k by lia.
Qed.

Definition shipped_drive : Drive shipped_disk * AtaController := (mkDrive (mkFile 0 0 0 0 0) PIdle, mkAta true).

#[export] Instance shipped_laws : BlockLaws (Drive shipped_disk * AtaController) shipped_disk :=
  ata_laws shipped_disk_ok.

Lemma shipped_ready : bl_ready shipped_drive.
Proof. split; [by exists (mkFile 0 0 0 0 0)|done]. Qed.

Lemma goatfs_roundtrip_witness :
  exists b' st b2, init shipped_drive boot = Done (b', st, mkBanner true 1 "mounted") /\
    read_file b' st (Fmt.bytes "hello.txt") (replicate 100 7) =
      Done (b2, Fmt.bytes HELLO_TXT_CONTENTS ++ drop 29 (replicate 100 7), inl 29%nat).
Proof.
  destruct (goatfs_roundtrip (disk := shipped_disk) Packer.FILES shipped shipped_drive) as (b' & st & Hi & Hb' & Hr & _).
  - vm_compute. reflexivity.
  - repeat constructor.
  - apply NoDup_singleton.
  - exact shipped_installed.
  - exact shipped_ready.
  - destruct (Hr b' (Fmt.bytes "hello.txt") (Fmt.bytes HELLO_TXT_CONTENTS) (replicate 100 7) Hb') as (b2 & Hf & _).
    + apply list_elem_of_here.
    + apply Nat.leb_le. vm_compute. reflexivity.
    + exists b', st, b2. split; [exact Hi|exact Hf].
Defined.

Lemma shipped_image_self_test_witness :
  exists b1 st b2, init shipped_drive boot = Done (b1, st, mkBanner true 1 "mounted") /\
    self_test b1 st = Done (b2, mkSelfTest true "hello.txt ok").
Proof.
  apply (shipped_image_self_test (disk := shipped_disk) shipped shipped_drive).
  - vm_compute. reflexivity.
  - exact shipped_installed.
  - exact shipped_ready.
Defined.

Lemma corrupt_disk_contained_witness :
  exists b' st banner, init (demo_drive, mkAta true) boot = Done (b', st, banner) /\ mount_sane (FS st).
Proof.
  destruct (corrupt_disk_contained (demo_drive, mkAta true)) as (b' & st & banner & Hi & Hs & _).
  exists b', st, banner. split; [exact Hi|exact Hs].
Defined.

End GoatFsSpec.
