(* ===== verification/Vga.v ===== *)
(** * The text console ([vga.rs])

    The writer and the 80x25 text buffer it writes through a raw pointer. The
    buffer is a list of cells; an access outside it, which the hardware would
    let through to other memory, is [Panicked] here, so that theorems that an
    operation is [Done] include that it stays inside. *)

From S2P Require Import Prelude.
From S2P Require Import Fmt.
#[local] Open Scope Z_scope.

Module Vga.

Definition BUFFER_WIDTH : nat := 80.
Definition BUFFER_HEIGHT : nat := 25.

(** [ColorCode::new(White, Black)] *)
Definition color_new (foreground background : Z) : Z := Z.lor (Z.shiftl background 4) foreground.
Definition WHITE_ON_BLACK : Z := color_new 15 0.

Record ScreenChar := mkChar { ascii_character : Z; color_code : Z }.
Record Writer := mkWriter { column : nat; row : nat; w_color : Z }.

(** The static [WRITER] with the buffer. *)
Record Vga := mkVga { writer : Writer; buffer : list ScreenChar }.

Definition boot_writer : Writer := mkWriter 0 0 WHITE_ON_BLACK.

Definition put_char (r c : nat) (ch : ScreenChar) (buf : list ScreenChar) : outcome (list ScreenChar) :=
  let index := (r * BUFFER_WIDTH + c)%nat in index_set buf index ch.
Definition get_char (r c : nat) (buf : list ScreenChar) : outcome ScreenChar :=
  let index := (r * BUFFER_WIDTH + c)%nat in index_get buf index.

Definition clear_row (color : Z) (r : nat) (buf : list ScreenChar) : outcome (list ScreenChar) :=
  let blank := mkChar 32 color in
  for_each (seq 0 BUFFER_WIDTH) (fun c buf => put_char r c blank buf) buf.

(** The loops of [new_line] that scroll. *)
Definition scroll_row (r : nat) (buf : list ScreenChar) : outcome (list ScreenChar) :=
  for_each (seq 0 BUFFER_WIDTH) (fun c buf => ch ← get_char r c buf; put_char (r - 1) c ch buf) buf.

Definition new_line (v : Vga) : outcome Vga :=
  let w := writer v in
  if (row w + 1 <? BUFFER_HEIGHT)%nat
  then Done (mkVga (mkWriter 0 (row w + 1) (w_color w)) (buffer v))
  else
    buf ← for_each (seq 1 (BUFFER_HEIGHT - 1)) scroll_row (buffer v);
    buf ← clear_row (w_color w) (BUFFER_HEIGHT - 1) buf;
    Done (mkVga (mkWriter 0 (row w) (w_color w)) buf).

Definition write_byte (byte : Z) (v : Vga) : outcome Vga :=
  if byte =? 10 then new_line v
  else
    v ← (if (BUFFER_WIDTH <=? column (writer v))%nat then new_line v else Done v);
    let w := writer v in
    buf ← put_char (row w) (column w) (mkChar byte (w_color w)) (buffer v);
    Done (mkVga (mkWriter (column w + 1) (row w) (w_color w)) buf).

(** [write_string], which [_print] calls for every fragment. *)
Definition write_string (s : list Z) (v : Vga) : outcome Vga :=
  for_each s (fun byte v =>
    if ((0x20 <=? byte) && (byte <=? 0x7e)) || (byte =? 10) then write_byte byte v else write_byte 0xfe v) v.

Definition clear_screen (v : Vga) : outcome Vga :=
  buf ← for_each (seq 0 BUFFER_HEIGHT) (clear_row (w_color (writer v))) (buffer v);
  Done (mkVga (mkWriter 0 0 (w_color (writer v))) buf).

Definition backspace (v : Vga) : outcome Vga :=
  let w := writer v in
  if (column w =? 0)%nat then Done v
  else
    let c := (column w - 1)%nat in
    buf ← put_char (row w) c (mkChar 32 (w_color w)) (buffer v);
    Done (mkVga (mkWriter c (row w) (w_color w)) buf).

End Vga.
