(* ===== verification/VgaFacts.v ===== *)
(** * The console shows the last lines

    The text printed so far, as lines; the screen is a window on the last
    twenty-five of them. *)

From S2P Require Import Prelude.
From S2P Require Import Vga.
#[local] Open Scope nat_scope.

Module VgaFacts.
Import Vga.

(** ** The text *)

(** Lines, the newest last; the cursor is at its end. *)
Inductive action := Byte (b : Z) | Erase | Clear.

Definition split_last (ls : list (list Z)) : list (list Z) * list Z :=
  (removelast ls, List.last ls []).

Definition text_byte (ls : list (list Z)) (b : Z) : list (list Z) :=
  let '(front, cur) := split_last ls in
  if (b =? 10)%Z then ls ++ [[]]
  else if length cur <? BUFFER_WIDTH then front ++ [cur ++ [b]] else ls ++ [[b]].

(** Bytes code page 437 text mode does not show as themselves are replaced. *)
Definition shown (b : Z) : Z := if (((0x20 <=? b) && (b <=? 0x7e)) || (b =? 10))%Z then b else 0xfe%Z.

Definition text_act (ls : list (list Z)) (a : action) : list (list Z) :=
  match a with
  | Byte b => text_byte ls (shown b)
  | Erase => let '(front, cur) := split_last ls in front ++ [removelast cur]
  | Clear => [[]]
  end.

(** The last twenty-five lines, or all of them and empty ones below. *)
Definition window (ls : list (list Z)) : list (list Z) :=
  drop (length ls - BUFFER_HEIGHT) ls ++ replicate (BUFFER_HEIGHT - length ls) [].

Definition blank (color : Z) : ScreenChar := mkChar 32 color.
Definition pad (color : Z) (l : list Z) : list ScreenChar :=
  ((fun b => mkChar b color) <$> l) ++ replicate (BUFFER_WIDTH - length l) (blank color).

(** The console [v] shows the text [ls]. *)
Record shows (v : Vga) (ls : list (list Z)) : Prop := {
  sh_some : ls <> [];
  sh_width : Forall (fun l => length l <= BUFFER_WIDTH) ls;
  sh_row : row (writer v) = min (length ls - 1) (BUFFER_HEIGHT - 1);
  sh_column : column (writer v) = length (List.last ls []);
  sh_buffer : buffer v = mjoin (pad (w_color (writer v)) <$> window ls)
}.

(** ** Rows of the buffer *)

Definition rows_ok (R : list (list ScreenChar)) : Prop := Forall (fun r => length r = BUFFER_WIDTH) R.

Lemma mjoin_cons (r : list ScreenChar) R : mjoin (r :: R) = r ++ mjoin R.
Proof. done. Qed.

Lemma length_mjoin R : rows_ok R -> length (mjoin R) = length R * BUFFER_WIDTH.
Proof.
  induction 1 as [|r R Hr _ IH]; [done|].
  rewrite mjoin_cons, length_app. cbn [length]. lia.
Qed.

Lemma insert_middle {A} (pre post : list A) x y k :
  k = length pre -> <[k := y]> (pre ++ x :: post) = pre ++ y :: post.
Proof. intros ->. by rewrite insert_app_r_alt, Nat.sub_diag by done. Qed.

Lemma put_char_row X r Y c ch : rows_ok X -> length r = BUFFER_WIDTH -> c < BUFFER_WIDTH ->
  put_char (length X) c ch (mjoin (X ++ r :: Y)) = Done (mjoin (X ++ <[c := ch]> r :: Y)).
Proof.
  intros HX Hr Hc. unfold put_char. rewrite !join_app, !mjoin_cons. pose proof (length_mjoin X HX) as Hl.
  rewrite index_set_Done by (rewrite !length_app; lia). f_equal.
  rewrite insert_app_r_alt by lia. f_equal. replace (_ - _) with c by lia. by rewrite insert_app_l by lia.
Qed.

Lemma get_char_row X r Y c ch : rows_ok X -> length r = BUFFER_WIDTH -> r !! c = Some ch ->
  get_char (length X) c (mjoin (X ++ r :: Y)) = Done ch.
Proof.
  intros HX Hr Hc. unfold get_char. rewrite join_app, mjoin_cons. pose proof (length_mjoin X HX) as Hl.
  pose proof (lookup_lt_Some _ _ _ Hc). apply index_get_Done. rewrite lookup_app_r by lia.
  replace (_ - _) with c by lia. by rewrite lookup_app_l by lia.
Qed.

Lemma seq_prefix i n dn x rest : seq i n = dn ++ x :: rest -> x = i + length dn /\ length dn < n.
Proof.
  intros Hs. assert (seq i n !! length dn = Some x) as Hx by (rewrite Hs; by apply list_lookup_middle).
  apply lookup_seq in Hx as [-> ?]. done.
Qed.

Lemma clear_row_spec color X r Y : rows_ok X -> length r = BUFFER_WIDTH ->
  clear_row color (length X) (mjoin (X ++ r :: Y)) = Done (mjoin (X ++ pad color [] :: Y)).
Proof.
  intros HX Hr. unfold clear_row.
  destruct (for_each_inv (fun c buf => put_char (length X) c (mkChar 32 color) buf)
    (fun dn buf => buf = mjoin (X ++ (replicate (length dn) (blank color) ++ drop (length dn) r) :: Y))
    (seq 0 BUFFER_WIDTH)) with (s := mjoin (X ++ r :: Y)) as (s' & -> & ->).
  - intros dn x rest s Hs ->. apply seq_prefix in Hs as [-> Hlt]. simpl Nat.add.
    rewrite put_char_row; [|done|rewrite length_app, length_replicate, length_drop; lia|lia].
    eexists. split; [done|]. do 3 f_equal. rewrite length_app. simpl length. rewrite Nat.add_1_r, replicate_S_end, <-app_assoc.
    destruct (lookup_lt_is_Some_2 r (length dn)) as [y Hy]; [lia|]. rewrite (drop_S r y) by done.
    rewrite insert_middle by (by rewrite length_replicate). done.
  - done.
  - rewrite length_seq, drop_ge by lia. rewrite app_nil_r. done.
Qed.

Lemma scroll_row_spec X a b Y : rows_ok X -> length a = BUFFER_WIDTH -> length b = BUFFER_WIDTH ->
  scroll_row (S (length X)) (mjoin (X ++ a :: b :: Y)) = Done (mjoin (X ++ b :: b :: Y)).
Proof.
  intros HX Ha Hb. unfold scroll_row.
  destruct (for_each_inv (fun c buf => ch ← get_char (S (length X)) c buf; put_char (S (length X) - 1) c ch buf)
    (fun dn buf => buf = mjoin (X ++ (take (length dn) b ++ drop (length dn) a) :: b :: Y))
    (seq 0 BUFFER_WIDTH)) with (s := mjoin (X ++ a :: b :: Y)) as (s' & -> & ->).
  - intros dn x rest s Hs ->. apply seq_prefix in Hs as [-> Hlt]. simpl Nat.add.
    destruct (lookup_lt_is_Some_2 b (length dn)) as [y Hy]; [lia|].
    destruct (lookup_lt_is_Some_2 a (length dn)) as [z Hz]; [lia|].
    set (mid := take (length dn) b ++ drop (length dn) a).
    assert (length mid = BUFFER_WIDTH) as Hm by (unfold mid; rewrite length_app, length_take, length_drop; lia).
    assert (get_char (S (length X)) (length dn) (mjoin (X ++ mid :: b :: Y)) = Done y) as ->.
    { replace (X ++ mid :: b :: Y) with ((X ++ [mid]) ++ b :: Y) by (by rewrite <-app_assoc).
      replace (S (length X)) with (length (X ++ [mid])) by (rewrite length_app; simpl; lia).
      apply get_char_row; [|done|done]. apply Forall_app. split; [done|]. by repeat constructor. }
    cbn [mbind outcome_bind]. rewrite Nat.sub_succ, Nat.sub_0_r, put_char_row by (done || lia).
    eexists. split; [done|]. do 3 f_equal. unfold mid. rewrite length_app. simpl length. rewrite Nat.add_1_r.
    rewrite (drop_S a z) by done. rewrite insert_middle by (rewrite length_take; lia).
    rewrite (take_S_r b (length dn) y) by done. by rewrite <-app_assoc.
  - done.
  - rewrite length_seq, drop_ge, take_ge by lia. by rewrite app_nil_r.
Qed.

(** The scroll moves every row up one. *)
Lemma scroll_spec R : length R = BUFFER_HEIGHT -> rows_ok R ->
  exists b, for_each (seq 1 (BUFFER_HEIGHT - 1)) scroll_row (mjoin R) = Done (mjoin (drop 1 R ++ [b])) /\ length b = BUFFER_WIDTH.
Proof.
  intros HR Hok.
  destruct (for_each_inv scroll_row
    (fun dn buf => buf = mjoin (take (length dn) (drop 1 R) ++ drop (length dn) R))
    (seq 1 (BUFFER_HEIGHT - 1))) with (s := mjoin R) as (s' & -> & ->).
  - intros dn x rest s Hs ->. apply seq_prefix in Hs as [-> Hlt].
    destruct (lookup_lt_is_Some_2 R (length dn)) as [a Ha]; [lia|].
    destruct (lookup_lt_is_Some_2 R (S (length dn))) as [b Hb]; [lia|].
    rewrite (drop_S R a (length dn)) by done. rewrite (drop_S R b (S (length dn))) by done.
    unfold rows_ok in Hok. rewrite Forall_lookup in Hok.
    replace (1 + length dn) with (S (length (take (length dn) (drop 1 R)))) by (rewrite length_take, length_drop; lia).
    rewrite scroll_row_spec; [| |by eapply Hok|by eapply Hok].
    + eexists. split; [done|]. f_equal. rewrite length_app. simpl length. rewrite Nat.add_1_r.
      rewrite (take_S_r (drop 1 R) (length dn) b) by (by rewrite lookup_drop). rewrite <-app_assoc.
      rewrite (drop_S R b (S (length dn))) by done. done.
    + apply Forall_take, Forall_drop, Forall_lookup. done.
  - done.
  - rewrite length_seq. destruct (lookup_lt_is_Some_2 R (BUFFER_HEIGHT - 1)) as [b Hb]; [rewrite HR; unfold BUFFER_HEIGHT; lia|].
    exists b. rewrite take_ge by (rewrite length_drop; lia). rewrite (drop_S R b (BUFFER_HEIGHT - 1)) by done.
    rewrite (drop_ge R (S (BUFFER_HEIGHT - 1))) by (rewrite HR; unfold BUFFER_HEIGHT; lia). split; [done|]. unfold rows_ok in Hok. rewrite Forall_lookup in Hok. by eapply Hok.
Qed.

(** ** The window *)

Lemma length_pad color l : length l <= BUFFER_WIDTH -> length (pad color l) = BUFFER_WIDTH.
Proof. intros Hl. unfold pad. rewrite length_app, length_fmap, length_replicate. lia. Qed.

Lemma length_window ls : length (window ls) = BUFFER_HEIGHT.
Proof. unfold window. rewrite length_app, length_drop, length_replicate. lia. Qed.

Lemma window_width ls : Forall (fun l => length l <= BUFFER_WIDTH) ls ->
  Forall (fun l => length l <= BUFFER_WIDTH) (window ls).
Proof.
  intros Hw. apply Forall_app. split; [by apply Forall_drop|]. apply Forall_replicate. simpl. lia.
Qed.

Lemma padded_rows color ls : Forall (fun l => length l <= BUFFER_WIDTH) ls -> rows_ok (pad color <$> window ls).
Proof.
  intros Hw. apply Forall_fmap. apply (Forall_impl _ _ _ (window_width ls Hw)). intros l Hl. by apply length_pad.
Qed.

(** A new line at the bottom of a window that is not full changes nothing on
    the screen; one that is full moves up. *)
Lemma window_new_line ls :
  window (ls ++ [[]]) = if length ls <? BUFFER_HEIGHT then window ls else drop 1 (window ls) ++ [[]].
Proof.
  assert (0 < BUFFER_HEIGHT) as Hpos by (unfold BUFFER_HEIGHT; lia).
  unfold window. rewrite length_app. cbn [length]. destruct (Nat.ltb_spec (length ls) BUFFER_HEIGHT) as [Hl|Hl].
  - replace (length ls + 1 - BUFFER_HEIGHT) with 0 by lia. replace (length ls - BUFFER_HEIGHT) with 0 by lia.
    rewrite !drop_0, <-app_assoc. f_equal. replace (BUFFER_HEIGHT - length ls) with (S (BUFFER_HEIGHT - (length ls + 1))) by lia.
    done.
  - replace (BUFFER_HEIGHT - (length ls + 1)) with 0 by lia. replace (BUFFER_HEIGHT - length ls) with 0 by lia.
    cbn [replicate]. rewrite !app_nil_r, drop_drop, drop_app_le by lia. f_equal. f_equal. lia.
Qed.

(** Changing the last line changes one row of the window. *)
Lemma window_last front cur cur' :
  window (front ++ [cur']) = <[min (length front) (BUFFER_HEIGHT - 1) := cur']> (window (front ++ [cur])) /\
  window (front ++ [cur]) !! min (length front) (BUFFER_HEIGHT - 1) = Some cur.
Proof.
  assert (0 < BUFFER_HEIGHT) as Hpos by (unfold BUFFER_HEIGHT; lia).
  unfold window. rewrite !length_app. cbn [length]. rewrite !drop_app_le by lia.
  set (k := length front + 1 - BUFFER_HEIGHT). assert (length (drop k front) = min (length front) (BUFFER_HEIGHT - 1)) as Hk.
  { rewrite length_drop. lia. }
  rewrite <-!app_assoc. cbn [app]. split.
  - by rewrite insert_middle.
  - rewrite <-Hk. by apply list_lookup_middle.
Qed.

Lemma split_last_spec ls : ls <> [] ->
  exists front cur, ls = front ++ [cur] /\ split_last ls = (front, cur) /\ List.last ls [] = cur.
Proof.
  intros Hne. destruct (exists_last Hne) as (front & cur & ->). exists front, cur. unfold split_last.
  by rewrite removelast_last, last_last.
Qed.

Lemma pad_snoc color l b : length l < BUFFER_WIDTH ->
  pad color (l ++ [b]) = <[length l := mkChar b color]> (pad color l).
Proof.
  intros Hl. unfold pad. rewrite fmap_app, length_app. cbn [length fmap list_fmap]. rewrite <-app_assoc.
  replace (BUFFER_WIDTH - length l) with (S (BUFFER_WIDTH - (length l + 1))) by lia. cbn [replicate].
  by rewrite insert_middle by (by rewrite length_fmap).
Qed.

Lemma pad_erase color l b : length l < BUFFER_WIDTH ->
  pad color l = <[length l := blank color]> (pad color (l ++ [b])).
Proof.
  intros Hl. unfold pad. rewrite fmap_app, length_app. cbn [length fmap list_fmap]. rewrite <-app_assoc. cbn [app].
  rewrite insert_middle by (by rewrite length_fmap).
  replace (BUFFER_WIDTH - length l) with (S (BUFFER_WIDTH - (length l + 1))) by lia. done.
Qed.

(** One cell of the current line. *)
Lemma put_current v front cur cur' c ch :
  shows v (front ++ [cur]) -> c < BUFFER_WIDTH -> length cur' <= BUFFER_WIDTH ->
  pad (w_color (writer v)) cur' = <[c := ch]> (pad (w_color (writer v)) cur) ->
  put_char (row (writer v)) c ch (buffer v) = Done (mjoin (pad (w_color (writer v)) <$> window (front ++ [cur']))).
Proof.
  intros [_ Hw Hr _ Hb] Hc Hl Hp. set (color := w_color (writer v)) in *.
  destruct (window_last front cur cur') as [-> Hcur]. rewrite length_app in Hr. cbn [length] in Hr.
  replace (length front + 1 - 1) with (length front) in Hr by lia. rewrite <-Hr in *.
  pose proof (padded_rows color _ Hw) as Hrows. rewrite Hb.
  pose proof (take_drop_middle _ _ _ Hcur) as Hmid. pose proof (lookup_lt_Some _ _ _ Hcur) as Hlt.
  set (W := window (front ++ [cur])) in *. rewrite (insert_take_drop W) by done. rewrite <-Hmid at 1.
  rewrite !fmap_app, !fmap_cons.
  assert (length (pad color <$> take (row (writer v)) W) = row (writer v)) as HX by (rewrite length_fmap, length_take; lia).
  rewrite <-HX at 1. rewrite put_char_row; [by rewrite Hp| | |done].
  - rewrite fmap_take. by apply Forall_take.
  - apply length_pad. apply Forall_app in Hw as [_ Hw]. by apply Forall_cons in Hw as [? _].
Qed.

(** ** The operations *)

Lemma new_line_shows v ls : shows v ls ->
  exists v', new_line v = Done v' /\ shows v' (ls ++ [[]]) /\ w_color (writer v') = w_color (writer v).
Proof.
  intros [Hne Hw Hr Hc Hb]. assert (0 < length ls) as Hlen by (destruct ls; [done|simpl; lia]).
  assert (Forall (fun l => length l <= BUFFER_WIDTH) (ls ++ [[]])) as Hw'
    by (apply Forall_app; split; [done|]; apply Forall_singleton; simpl; lia).
  assert (ls ++ [[]] <> []) as Hne' by (by destruct ls).
  unfold new_line. destruct (Nat.ltb_spec (row (writer v) + 1) BUFFER_HEIGHT) as [Hlt|Hge].
  - eexists. split; [done|]. split; [|done]. split; cbn [writer row column w_color buffer]; try done.
    + rewrite length_app. cbn [length]. lia.
    + by rewrite last_last.
    + rewrite window_new_line. destruct (Nat.ltb_spec (length ls) BUFFER_HEIGHT); [done|lia].
  - set (color := w_color (writer v)) in *. rewrite Hb.
    destruct (scroll_spec (pad color <$> window ls)) as (b & -> & Hbl);
      [by rewrite length_fmap, length_window|by apply padded_rows|]. cbn [mbind outcome_bind].
    assert (BUFFER_HEIGHT - 1 = length (drop 1 (pad color <$> window ls))) as ->
      by (rewrite length_drop, length_fmap, length_window; done).
    rewrite clear_row_spec; [|by apply Forall_drop, padded_rows|done]. cbn [mbind outcome_bind].
    eexists. split; [done|]. split; [|done]. split; cbn [writer row column w_color buffer]; try done.
    + rewrite length_app. cbn [length]. lia.
    + by rewrite last_last.
    + rewrite window_new_line. destruct (Nat.ltb_spec (length ls) BUFFER_HEIGHT); [lia|].
      rewrite fmap_app. by rewrite fmap_drop.
Qed.

(** A character at the end of a line that has room. *)
Lemma write_room v front cur b :
  shows v (front ++ [cur]) -> length cur < BUFFER_WIDTH ->
  exists buf, put_char (row (writer v)) (column (writer v)) (mkChar b (w_color (writer v))) (buffer v) = Done buf /\
    shows (mkVga (mkWriter (column (writer v) + 1) (row (writer v)) (w_color (writer v))) buf) (front ++ [cur ++ [b]]).
Proof.
  intros Hs Hl. pose proof Hs as [Hne Hw Hr Hc Hb]. rewrite last_last in Hc.
  assert (length (cur ++ [b]) <= BUFFER_WIDTH) as Hl' by (rewrite length_app; simpl; lia).
  eexists. split; [eapply (put_current v front cur (cur ++ [b])); [done|lia|done|]|].
  - rewrite Hc. by apply pad_snoc.
  - split; cbn [writer row column w_color buffer]; try done.
    + by destruct front.
    + apply Forall_app in Hw as [Hw _]. apply Forall_app. split; [done|]. by apply Forall_singleton.
    + rewrite Hr, !length_app. done.
    + rewrite last_last, Hc, length_app. done.
Qed.

Lemma write_byte_shows v ls b : shows v ls ->
  exists v', write_byte b v = Done v' /\ shows v' (text_byte ls b) /\ w_color (writer v') = w_color (writer v).
Proof.
  intros Hs. pose proof Hs as [Hne Hw Hr Hc Hb]. unfold write_byte, text_byte.
  destruct (split_last_spec ls Hne) as (front & cur & Hls & -> & Hcur). rewrite Hcur in Hc.
  destruct (b =? 10)%Z; [by apply new_line_shows|]. rewrite Hc. destruct (Nat.leb_spec BUFFER_WIDTH (length cur)) as [Hf|Hf].
  - destruct (Nat.ltb_spec (length cur) BUFFER_WIDTH); [lia|].
    destruct (new_line_shows v ls Hs) as (v1 & -> & Hs1 & Hcol). cbn [mbind outcome_bind].
    destruct (write_room v1 ls [] b Hs1) as (buf & -> & Hs2); [unfold BUFFER_WIDTH; simpl; lia|].
    cbn [mbind outcome_bind]. eexists. split; [done|]. split; [exact Hs2|done].
  - destruct (Nat.ltb_spec (length cur) BUFFER_WIDTH); [|lia]. cbn [mbind outcome_bind]. rewrite Hls in Hs.
    destruct (write_room v front cur b Hs Hf) as (buf & -> & Hs2). cbn [mbind outcome_bind].
    eexists. split; [done|]. split; [exact Hs2|done].
Qed.

Lemma backspace_shows v ls : shows v ls ->
  exists v', backspace v = Done v' /\ shows v' (text_act ls Erase) /\ w_color (writer v') = w_color (writer v).
Proof.
  intros Hs. pose proof Hs as [Hne Hw Hr Hc Hb]. unfold backspace. cbn [text_act].
  destruct (split_last_spec ls Hne) as (front & cur & Hls & -> & Hcur). rewrite Hcur in Hc. rewrite Hc. subst ls.
  destruct (Nat.eqb_spec (length cur) 0) as [Hz|Hnz].
  { apply nil_length_inv in Hz as ->. by exists v. }
  destruct (exists_last (l := cur)) as (cur' & b & ->); [by intros ->|]. rewrite removelast_last.
  apply Forall_app in Hw as Hw'. destruct Hw' as [Hwf Hwc]. apply Forall_cons in Hwc as [Hwc _].
  rewrite length_app in *. cbn [length] in *. replace (length cur' + 1 - 1) with (length cur') by lia.
  rewrite (put_current v front (cur' ++ [b]) cur'); [|done|lia|lia|by apply pad_erase; lia]. cbn [mbind outcome_bind].
  eexists. split; [done|]. split; [|done]. split; cbn [writer row column w_color buffer]; try done.
  - by destruct front.
  - apply Forall_app. split; [done|]. apply Forall_singleton. lia.
  - rewrite Hr, !length_app. done.
  - by rewrite last_last.
Qed.

Lemma clear_screen_shows v : length (buffer v) = BUFFER_WIDTH * BUFFER_HEIGHT ->
  exists v', clear_screen v = Done v' /\ shows v' [[]] /\ w_color (writer v') = w_color (writer v).
Proof.
  intros Hl. unfold clear_screen. set (color := w_color (writer v)).
  destruct (for_each_inv (clear_row color)
    (fun dn buf => exists R, buf = mjoin (replicate (length dn) (pad color []) ++ R) /\ rows_ok R /\
       length R = BUFFER_HEIGHT - length dn) (seq 0 BUFFER_HEIGHT)) with (s := buffer v) as (buf & -> & R & -> & _ & HR).
  - intros dn x rest s Hs (R & -> & HR & HRl). apply seq_prefix in Hs as [-> Hlt]. simpl Nat.add.
    destruct R as [|r R]; [simpl in HRl; lia|]. apply Forall_cons in HR as [Hr HR].
    pose proof (clear_row_spec color (replicate (length dn) (pad color [])) r R) as Hcr.
    rewrite length_replicate in Hcr. rewrite Hcr; [|by apply Forall_replicate, length_pad, Nat.le_0_l|done].
    eexists. split; [done|]. exists R. rewrite length_app. cbn [length] in *. split_and!; [|done|lia].
    by rewrite Nat.add_1_r, replicate_S_end, <-app_assoc.
  - (* any buffer of that length is rows *)
    cbn [length replicate app]. rewrite Nat.sub_0_r. clear -Hl. generalize dependent (buffer v).
    rewrite Nat.mul_comm. generalize BUFFER_HEIGHT. intros n. induction n as [|n IH]; intros buf Hl.
    + exists []. split_and!; [by apply nil_length_inv|constructor|done].
    + destruct (IH (drop BUFFER_WIDTH buf)) as (R & HR & Hok & Hn); [rewrite length_drop; lia|].
      exists (take BUFFER_WIDTH buf :: R). rewrite mjoin_cons, <-HR, take_drop.
      split_and!; [done|constructor; [rewrite length_take; lia|done]|simpl; lia].
  - cbn [mbind outcome_bind]. rewrite length_seq in *. rewrite Nat.sub_diag in HR. apply nil_length_inv in HR as ->.
    rewrite app_nil_r. eexists. split; [done|]. split; [|done].
    split; cbn [writer row column w_color buffer]; try done. apply Forall_singleton. simpl. lia.
Qed.

Definition act (a : action) (v : Vga) : outcome Vga :=
  match a with
  | Byte b => write_string [b] v
  | Erase => backspace v
  | Clear => clear_screen v
  end.

Lemma buffer_length v ls : shows v ls -> length (buffer v) = BUFFER_WIDTH * BUFFER_HEIGHT.
Proof.
  intros [_ Hw _ _ ->]. rewrite length_mjoin by (by apply padded_rows). rewrite length_fmap, length_window. lia.
Qed.

Lemma act_shows a v ls : shows v ls ->
  exists v', act a v = Done v' /\ shows v' (text_act ls a) /\ w_color (writer v') = w_color (writer v).
Proof.
  intros Hs. destruct a as [b| |]; cbn [act text_act].
  - unfold write_string, shown. cbn [for_each].
    destruct (_ || _); edestruct (write_byte_shows v ls) as (v' & -> & Hs'); try done; by exists v'.
  - by apply backspace_shows.
  - by apply clear_screen_shows, (buffer_length v ls).
Qed.

(** C21: The console is a window on the text. Whatever was in the text buffer at
    boot, after the screen is cleared and after any sequence of printed bytes,
    backspaces and clears, each of the 25 x 80 cells shows exactly the last
    twenty-five lines of the text so far - broken at newlines and after 80
    characters, short lines and missing lines blank - the cursor is at the end
    of the last of them, and no write ever falls outside the buffer. *)
Theorem console_shows_last_lines (v : Vga) (acts : list action) :
  length (buffer v) = BUFFER_WIDTH * BUFFER_HEIGHT ->
  exists v0 v', clear_screen v = Done v0 /\ for_each acts act v0 = Done v' /\
    let ls := fold_left text_act acts [[]] in
    buffer v' = mjoin (pad (w_color (writer v)) <$> window ls) /\
    row (writer v') = min (length ls - 1) (BUFFER_HEIGHT - 1) /\ column (writer v') = length (List.last ls []).
Proof.
  intros Hl. destruct (clear_screen_shows v Hl) as (v0 & Hc & Hs & Hcol). exists v0.
  assert (forall ls v0, shows v0 ls -> exists v', for_each acts act v0 = Done v' /\
    shows v' (fold_left text_act acts ls) /\ w_color (writer v') = w_color (writer v0)) as Hall.
  { clear. induction acts as [|a acts IH]; intros ls v Hs; [by exists v|].
    destruct (act_shows a v ls Hs) as (v1 & Ha & Hs1 & Hc1). cbn [for_each fold_left]. rewrite Ha.
    destruct (IH _ v1 Hs1) as (v' & Hr & Hs' & Hc'). exists v'. split_and!; [done|done|congruence]. }
  destruct (Hall [[]] v0 Hs) as (v' & Hr & [_ _ Hrow Hcolumn Hb] & Hc'). exists v'.
  rewrite Hc', Hcol in Hb. by split_and!.
Qed.

Lemma console_shows_last_lines_witness :
  exists v0 v', clear_screen (mkVga boot_writer (replicate 2000 (mkChar 1 1))) = Done v0 /\
    for_each [Byte 72; Byte 105; Erase; Byte 10; Byte 200] act v0 = Done v' /\
    row (writer v') = 1 /\ column (writer v') = 1 /\ buffer v' !! 0 = Some (mkChar 72 15) /\
    buffer v' !! 1 = Some (mkChar 32 15) /\ buffer v' !! 80 = Some (mkChar 254 15).
Proof.
  destruct (console_shows_last_lines (mkVga boot_writer (replicate 2000 (mkChar 1 1)))
    [Byte 72; Byte 105; Erase; Byte 10; Byte 200]) as (v0 & v' & Hc & Hr & Hb & Hrow & Hcol).
  - apply length_replicate.
  - exists v0, v'. rewrite Hb, Hrow, Hcol. split; [exact Hc|]. split; [exact Hr|].
    split_and!; vm_compute; reflexivity.
Defined.

End VgaFacts.
