(* ===== verification/Shell.v ===== *)
(** * The shell ([shell.rs])

    The line editor and the built-in commands. What the shell prints is the
    list of the calls it makes to the console and the serial port, in order;
    text is the list of its bytes. *)

From S2P Require Import Prelude.
From S2P Require Import Fmt.
From S2P Require Import Machine.
From S2P Require Import Sync.
From S2P Require Import Input.
From S2P Require Import Ata.
From S2P Require Import GoatFs.
#[local] Open Scope Z_scope.

Module Shell.
Import Machine Sync Input Ata.

Definition LINE_CAPACITY : nat := 72.
Definition PROMPT : list Z := Fmt.bytes "> ".

Inductive effect :=
| VgaPrint (s : list Z)
| VgaBackspace
| VgaClear
| SerialPrint (s : list Z).

Definition nl : list Z := [10].

(** [vga_println!] then [serial_println!] of the same line; [vga_print!] then
    [serial_print!] of the same text. *)
Definition println_both (s : list Z) : list effect := [VgaPrint (s ++ nl); SerialPrint (s ++ nl)].
Definition print_both (s : list Z) : list effect := [VgaPrint s; SerialPrint s].

(** ** Text *)

(** [core::str::from_utf8(..).is_ok()]: well-formed UTF-8. *)
Definition between (lo hi b : Z) : bool := (lo <=? b) && (b <=? hi).
Definition cont (b : Z) : bool := between 0x80 0xbf b.

Fixpoint valid_utf8 (bs : list Z) : bool :=
  match bs with
  | [] => true
  | a :: bs =>
      if between 0 0x7f a then valid_utf8 bs
      else match bs with
      | [] => false
      | b :: bs =>
          if between 0xc2 0xdf a then cont b && valid_utf8 bs
          else match bs with
          | [] => false
          | c :: bs =>
              if between 0xe0 0xef a then
                (if a =? 0xe0 then between 0xa0 0xbf b else if a =? 0xed then between 0x80 0x9f b else cont b)
                && cont c && valid_utf8 bs
              else match bs with
              | [] => false
              | d :: bs =>
                  between 0xf0 0xf4 a &&
                  (if a =? 0xf0 then between 0x90 0xbf b else if a =? 0xf4 then between 0x80 0x8f b else cont b)
                  && cont c && cont d && valid_utf8 bs
              end
          end
      end
  end.

(** [char::is_whitespace] on ASCII, which is all an input line contains. *)
Definition is_whitespace (b : Z) : bool := between 9 13 b || (b =? 32).

Fixpoint trim_start (s : list Z) : list Z :=
  match s with
  | [] => []
  | b :: s' => if is_whitespace b then trim_start s' else s
  end.
Definition trim_end (s : list Z) : list Z := rev (trim_start (rev s)).
Definition trim (s : list Z) : list Z := trim_end (trim_start s).

Definition split_command (line : list Z) : list Z * list Z :=
  let trimmed := trim_start line in
  match position is_whitespace trimmed with
  | Some idx => let cmd := take idx trimmed in let rest := drop idx trimmed in (cmd, trim_start rest)
  | None => (trimmed, [])
  end.

(** ** Commands *)

Definition cmd_help : list effect :=
  let lines := ["Built-in commands:"; "  help   - list commands"; "  clear  - clear the VGA screen";
                "  echo   - print arguments"; "  about  - about GOATos"; "  cat    - print a file from disk"] in
  ((fun l => VgaPrint (Fmt.bytes l ++ nl)) <$> lines) ++ ((fun l => SerialPrint (Fmt.bytes l ++ nl)) <$> lines).

Definition cmd_clear : list effect := [VgaClear; SerialPrint (Fmt.bytes "(screen cleared)" ++ nl)].

Definition cmd_echo (args : list Z) : list effect := println_both args.

Definition cmd_about : list effect :=
  let lines := ["GOATos - a from-scratch 32-bit x86 OS in Rust"; "Booted via a hand-written MBR bootloader."] in
  ((fun l => VgaPrint (Fmt.bytes l ++ nl)) <$> lines) ++ ((fun l => SerialPrint (Fmt.bytes l ++ nl)) <$> lines).

Definition ends_with_newline (s : list Z) : bool :=
  match last s with Some b => b =? 10 | None => false end.

Section device.
Context {B : Type} `{BlockDevice B}.

Definition cmd_cat (b : B) (fs : GoatFs.Fs) (args : list Z) : outcome (B * list effect) :=
  let path := trim args in
  if (length path =? 0)%nat then Done (b, println_both (Fmt.bytes "usage: cat <file>"))
  else if existsb is_whitespace path then Done (b, println_both (Fmt.bytes "usage: cat <file>"))
  else
    '(b, buf, r) ← GoatFs.read_file b fs path (replicate GoatFs.MAX_FILE_SIZE 0);
    match r with
    | inl n =>
        text ← slice_get buf 0 n;
        if valid_utf8 text then
          Done (b, if ends_with_newline text then print_both text else println_both text)
        else
          Done (b, println_both (Fmt.bytes "cat: " ++ path ++ Fmt.bytes ": not valid UTF-8 (" ++
                                 Fmt.bytes (Fmt.dec (Z.of_nat n)) ++ Fmt.bytes " bytes)"))
    | inr GoatFs.NotFound => Done (b, println_both (Fmt.bytes "cat: " ++ path ++ Fmt.bytes ": not found"))
    | inr GoatFs.NotMounted => Done (b, println_both (Fmt.bytes "cat: filesystem not mounted"))
    | inr e => Done (b, println_both (Fmt.bytes "cat: " ++ path ++ Fmt.bytes ": " ++ Fmt.bytes (GoatFs.FsError_fmt e)))
    end.

Definition run_line (b : B) (fs : GoatFs.Fs) (line : list Z) : outcome (B * list effect) :=
  let line := trim line in
  if (length line =? 0)%nat then Done (b, [])
  else
    let '(cmd, rest) := split_command line in
    if bool_decide (cmd = Fmt.bytes "help") then Done (b, cmd_help)
    else if bool_decide (cmd = Fmt.bytes "clear") then Done (b, cmd_clear)
    else if bool_decide (cmd = Fmt.bytes "echo") then Done (b, cmd_echo rest)
    else if bool_decide (cmd = Fmt.bytes "about") then Done (b, cmd_about)
    else if bool_decide (cmd = Fmt.bytes "cat") then cmd_cat b fs rest
    else Done (b, println_both (Fmt.bytes "unknown command: " ++ cmd)).

(** ** The line editor *)

Record LineEditor := mkEditor { buf : list Z; len : nat }.

(** [LineEditor::new] *)
Definition new : LineEditor := mkEditor (replicate LINE_CAPACITY 0) 0.

Definition clear (e : LineEditor) : LineEditor := {| e with len := 0%nat |}.

Definition as_str (e : LineEditor) : outcome (list Z) :=
  s ← slice_get (buf e) 0 (len e);
  Done (if valid_utf8 s then s else []).

Definition push_char (e : LineEditor) (c : Z) : outcome (LineEditor * bool) :=
  if (LINE_CAPACITY <=? len e)%nat then Done (e, false)
  else if negb (between 32 126 c) then Done (e, false)
  else
    buf ← index_set (buf e) (len e) (as_u8 c);
    Done (mkEditor buf (S (len e)), true).

Definition pop_char (e : LineEditor) : LineEditor * bool :=
  if (len e =? 0)%nat then (e, false) else ({| e with len := pred (len e) |}, true).

Definition print_prompt : list effect := print_both PROMPT.

Definition handle_event (b : B) (fs : GoatFs.Fs) (e : LineEditor) (event : KeyEvent)
  : outcome (B * LineEditor * list effect * bool) :=
  match event with
  | Char c =>
      '(e, pushed) ← push_char e c;
      Done (b, e, if (pushed : bool) then print_both [c] else [], false)
  | Backspace =>
      let '(e, popped) := pop_char e in
      Done (b, e, if (popped : bool) then [VgaBackspace; SerialPrint [8; 32; 8]] else [], false)
  | Enter =>
      line ← as_str e;
      '(b, effects) ← run_line b fs line;
      Done (b, clear e, [VgaPrint nl; SerialPrint nl] ++ effects ++ print_prompt, true)
  end.

(** [shell::init] *)
Definition init : list effect := print_prompt.

(** [drain_input]: the queue holds at most [CAPACITY] events, so that many
    turns and one more that finds it empty. *)
Fixpoint drain_loop (fuel : nat) (b : B) (fs : GoatFs.Fs) (mx : IrqMutex Queue) (cpu : Cpu) (e : LineEditor)
  : outcome (B * IrqMutex Queue * Cpu * LineEditor * list effect) :=
  match fuel with
  | O => Spinning
  | S fuel =>
      '(mx, cpu, event) ← Input.pop mx cpu;
      match event with
      | None => Done (b, mx, cpu, e, [])
      | Some event =>
          '(b, e, out, _) ← handle_event b fs e event;
          '(b, mx, cpu, e, outs) ← drain_loop fuel b fs mx cpu e;
          Done (b, mx, cpu, e, out ++ outs)
      end
  end.
Definition drain_input (b : B) (fs : GoatFs.Fs) (mx : IrqMutex Queue) (cpu : Cpu) (e : LineEditor)
  : outcome (B * IrqMutex Queue * Cpu * LineEditor * list effect) :=
  drain_loop (S CAPACITY) b fs mx cpu e.

End device.
End Shell.
