(* ===== verification/ShellFacts.v ===== *)
(** * What you type is what you see and what runs

    The line editor against plain list editing and against the console; [cat]
    against the packed filesystem. *)

From S2P Require Import Prelude.
From S2P Require Import Fmt.
From S2P Require Import Machine.
From S2P Require Import Sync.
From S2P Require Import Input.
From S2P Require Import Ata.
From S2P Require Import AtaFacts.
From S2P Require Import GoatFs.
From S2P Require Import GoatFsFacts.
From S2P Require Import GoatFsSpec.
From S2P Require Import Vga.
From S2P Require Import VgaFacts.
From S2P Require Import Shell.
#[local] Open Scope Z_scope.

Module ShellFacts.
Import Machine Sync Input Ata Shell.

(** ** The line editor *)

(** Editing a line of at most 72 printable characters. *)
Definition edit (line : list Z) (ev : KeyEvent) : list Z :=
  match ev with
  | Char c => if (length line <? LINE_CAPACITY)%nat && between 32 126 c then line ++ [c] else line
  | Backspace => removelast line
  | Enter => []
  end.

Record holds_line (e : LineEditor) (line : list Z) : Prop := {
  hl_buf : length (buf e) = LINE_CAPACITY;
  hl_len : len e = length line;
  hl_fit : (length line <= LINE_CAPACITY)%nat;
  hl_line : take (len e) (buf e) = line;
  hl_print : Forall (fun b => between 32 126 b = true) line
}.

Lemma new_holds : holds_line new [].
Proof. split; try done. unfold LINE_CAPACITY. simpl. lia. Qed.

Lemma holds_unique e l l' : holds_line e l -> holds_line e l' -> l = l'.
Proof. intros [_ _ _ <- _] [_ _ _ <- _]. done. Qed.

Lemma ascii_valid s : Forall (fun b => between 32 126 b = true) s -> valid_utf8 s = true.
Proof.
  induction 1 as [|b s Hb _ IH]; [done|]. cbn [valid_utf8]. unfold between in *.
  destruct (Z.leb_spec 0 b), (Z.leb_spec b 0x7f); cbn [andb]; [done|lia..].
Qed.

Lemma as_str_holds e line : holds_line e line -> as_str e = Done line.
Proof.
  intros [Hb Hl Hf Ht Hp]. unfold as_str. rewrite slice_get_Done by lia. cbn [mbind outcome_bind].
  rewrite drop_0, Ht, ascii_valid by done. done.
Qed.

Lemma push_holds e line c : holds_line e line ->
  exists e', push_char e c = Done (e', bool_decide (edit line (Char c) <> line)) /\ holds_line e' (edit line (Char c)).
Proof.
  intros [Hb Hl Hf Ht Hp]. unfold push_char, edit. rewrite Hl.
  destruct (Nat.leb_spec LINE_CAPACITY (length line)) as [Hfull|Hroom].
  { destruct (Nat.ltb_spec (length line) LINE_CAPACITY); [lia|]. cbn [andb].
    rewrite bool_decide_false by auto. by exists e. }
  destruct (Nat.ltb_spec (length line) LINE_CAPACITY); [|lia]. cbn [andb].
  destruct (between 32 126 c) eqn:Hc; cbn [negb].
  - rewrite index_set_Done by lia. cbn [mbind outcome_bind]. rewrite bool_decide_true.
    + eexists. split; [done|].
      assert (as_u8 c = c) as -> by (unfold as_u8, between in *; apply Z.mod_small; lia).
      split; cbn [buf len].
      * by rewrite length_insert.
      * rewrite length_app. simpl. lia.
      * rewrite length_app. simpl. lia.
      * rewrite <-Hl in Hroom. rewrite <-Hl, GoatFsFacts.insert_split by lia.
        rewrite take_app_ge by (rewrite length_take; lia). rewrite length_take.
        replace (S (len e) - len e `min` length (buf e))%nat with 1%nat by lia. cbn [firstn]. by rewrite Ht.
      * apply Forall_app. split; [done|]. by apply Forall_singleton.
    + intros Heq. apply (f_equal length) in Heq. rewrite length_app in Heq. simpl in Heq. lia.
  - rewrite bool_decide_false by auto. by exists e.
Qed.

Lemma pop_holds e line : holds_line e line ->
  (pop_char e).2 = negb (length line =? 0)%nat /\ holds_line (pop_char e).1 (removelast line).
Proof.
  intros Hh. pose proof Hh as [Hb Hl Hf Ht Hp]. unfold pop_char. rewrite Hl.
  destruct (Nat.eqb_spec (length line) 0) as [Hz|Hz]; cbn [fst snd negb].
  - apply nil_length_inv in Hz as ->. done.
  - split; [done|]. destruct (exists_last (l := line)) as (l & c & ->); [by intros ->|]. rewrite removelast_last.
    rewrite length_app in *. cbn [length] in *. apply Forall_app in Hp as [Hp _]. split; cbn [buf len]; [done|lia|lia| |done].
    replace (pred (length l + 1)) with (length l) by lia. apply (f_equal (take (length l))) in Ht.
    rewrite take_take, take_app_length, Nat.min_l in Ht by lia. exact Ht.
Qed.

(** ** The console *)

(** What an effect of the shell does to the text on the console. *)
Definition actions (ef : effect) : list VgaFacts.action :=
  match ef with
  | VgaPrint s => VgaFacts.Byte <$> s
  | VgaBackspace => [VgaFacts.Erase]
  | VgaClear => [VgaFacts.Clear]
  | SerialPrint _ => []
  end.
Definition on_console (ls : list (list Z)) (out : list effect) : list (list Z) :=
  fold_left VgaFacts.text_act (out ≫= actions) ls.

Lemma on_console_app ls o1 o2 : on_console ls (o1 ++ o2) = on_console (on_console ls o1) o2.
Proof. unfold on_console. by rewrite bind_app, fold_left_app. Qed.

Lemma console_print ls s : on_console ls (print_both s) = fold_left VgaFacts.text_act (VgaFacts.Byte <$> s) ls.
Proof. unfold on_console, print_both. cbn [mbind list_bind actions]. by rewrite !app_nil_r. Qed.

Lemma console_char front cur c :
  between 32 126 c = true -> (length cur < Vga.BUFFER_WIDTH)%nat ->
  VgaFacts.text_act (front ++ [cur]) (VgaFacts.Byte c) = front ++ [cur ++ [c]].
Proof.
  intros Hc Hl. cbn [VgaFacts.text_act]. unfold VgaFacts.text_byte, VgaFacts.split_last, VgaFacts.shown.
  rewrite removelast_last, last_last. unfold between in Hc. change 0x20 with 32. change 0x7e with 126. rewrite Hc. cbn [orb].
  destruct (Z.eqb_spec c 10); [lia|]. by apply Nat.ltb_lt in Hl as ->.
Qed.

Lemma console_erase front cur : VgaFacts.text_act (front ++ [cur]) VgaFacts.Erase = front ++ [removelast cur].
Proof. cbn [VgaFacts.text_act]. unfold VgaFacts.split_last. by rewrite removelast_last, last_last. Qed.

Section device.
Context {B : Type} `{BlockDevice B}.

Fixpoint handle_events (b : B) (fs : GoatFs.Fs) (e : LineEditor) (evs : list KeyEvent)
  : outcome (B * LineEditor * list effect) :=
  match evs with
  | [] => Done (b, e, [])
  | ev :: evs =>
      '(b, e, out, _) ← handle_event b fs e ev;
      '(b, e, outs) ← handle_events b fs e evs;
      Done (b, e, out ++ outs)
  end.

(** One keystroke keeps the editor and the console line in step. *)
Lemma event_in_step b fs e line front ev : holds_line e line -> ev <> Enter ->
  exists e' out, handle_event b fs e ev = Done (b, e', out, false) /\ holds_line e' (edit line ev) /\
    on_console (front ++ [PROMPT ++ line]) out = front ++ [PROMPT ++ edit line ev].
Proof.
  intros Hh Hne. pose proof Hh as [Hb Hl Hf Ht Hp]. destruct ev as [c| |]; [|done|]; cbn [handle_event].
  - destruct (push_holds e line c Hh) as (e' & -> & Hh'). cbn [mbind outcome_bind].
    eexists e', _. split; [done|]. split; [done|]. case_bool_decide as Hch.
    + unfold edit in *. destruct (_ && _) eqn:Hok; [|done]. apply andb_true_iff in Hok as [Hroom%Nat.ltb_lt Hc].
      rewrite console_print. cbn [fmap list_fmap fold_left].
      rewrite console_char; [by rewrite <-app_assoc|done|].
      rewrite length_app. unfold LINE_CAPACITY, Vga.BUFFER_WIDTH in *. simpl. lia.
    + unfold on_console. cbn [mbind list_bind fold_left]. by rewrite Hch.
  - destruct (pop_holds e line Hh) as [Hpop Hh']. destruct (pop_char e) as [e' popped]. cbn [fst snd] in *. subst popped.
    eexists e', _. split; [done|]. split; [done|]. destruct (Nat.eqb_spec (length line) 0) as [Hz|Hz]; cbn [negb].
    + apply nil_length_inv in Hz as ->. done.
    + unfold on_console. cbn [mbind list_bind actions app fold_left]. rewrite console_erase.
      cbn [edit]. rewrite removelast_app; [done|by intros ->].
Qed.

(** C22: The line editor, from a fresh prompt on. Whatever is typed before Enter,
    the editor holds the result of plain editing - printable characters
    appended up to 72, backspaces removing the last one - the console's last
    line shows the prompt and exactly that text, with nothing else on the
    screen changed, and Enter then runs exactly that line, empties the editor
    and prints a new prompt. *)
Theorem typed_line_is_shown_and_run (b : B) (fs : GoatFs.Fs) (front : list (list Z)) (evs : list KeyEvent) :
  Forall (fun ev => ev <> Enter) evs ->
  let line := fold_left edit evs [] in
  exists e out, handle_events b fs new evs = Done (b, e, out) /\
    on_console (front ++ [[]]) (Shell.init ++ out) = front ++ [PROMPT ++ line] /\
    (length line <= LINE_CAPACITY)%nat /\
    forall b' effects, run_line b fs line = Done (b', effects) ->
      handle_event b fs e Enter = Done (b', clear e, [VgaPrint nl; SerialPrint nl] ++ effects ++ print_prompt, true) /\
      as_str (clear e) = Done [].
Proof.
  intros Hev line.
  assert (forall e0 line0, holds_line e0 line0 -> exists e out, handle_events b fs e0 evs = Done (b, e, out) /\
    holds_line e (fold_left edit evs line0) /\
    on_console (front ++ [PROMPT ++ line0]) out = front ++ [PROMPT ++ fold_left edit evs line0]) as Hall.
  { clear line. induction Hev as [|ev evs Hne _ IH]; intros e0 line0 Hh; [by exists e0, []|].
    destruct (event_in_step b fs e0 line0 front ev Hh Hne) as (e1 & o1 & Hr1 & Hh1 & Hc1).
    destruct (IH e1 _ Hh1) as (e & o & Hr & He & Hc). exists e, (o1 ++ o). cbn [handle_events fold_left].
    rewrite Hr1. cbn [mbind outcome_bind]. rewrite Hr. cbn [mbind outcome_bind]. split; [done|]. split; [done|].
    by rewrite on_console_app, Hc1, Hc. }
  destruct (Hall new [] new_holds) as (e & out & Hr & He & Hc). exists e, out. split; [done|]. split.
  - rewrite on_console_app.
    transitivity (on_console (front ++ [PROMPT ++ []]) out); [f_equal|exact Hc]. unfold Shell.init, print_prompt. rewrite console_print.
    change PROMPT with [62; 32]. cbn [fmap list_fmap fold_left]. rewrite (console_char front [] 62); [|done|unfold Vga.BUFFER_WIDTH; simpl; lia].
    rewrite (console_char front ([] ++ [62]) 32); [done|done|unfold Vga.BUFFER_WIDTH; simpl; lia].
  - fold line in He. pose proof He as [Hb Hl Hf Ht Hp]. split; [done|]. intros b' effects Hrun. cbn [handle_event].
    rewrite (as_str_holds e line He). cbn [mbind outcome_bind]. rewrite Hrun. cbn [mbind outcome_bind]. split; [done|].
    apply (as_str_holds (clear e) []). split; cbn [buf len clear]; try done. simpl. lia.
Qed.

End device.

(** ** [cat] *)

Lemma graphic_not_space b : GoatFs.is_graphic b = true -> is_whitespace b = false.
Proof.
  unfold GoatFs.is_graphic, is_whitespace, between. intros Hg.
  apply orb_false_iff. split; [|apply Z.eqb_neq; lia]. apply andb_false_iff.
  destruct (Z.leb_spec b 13); [lia|]. by right.
Qed.

Lemma trim_start_word b s : is_whitespace b = false -> trim_start (b :: s) = b :: s.
Proof. intros Hb. cbn [trim_start]. by rewrite Hb. Qed.

Lemma trim_end_word s b : is_whitespace b = false -> trim_end (s ++ [b]) = s ++ [b].
Proof. intros Hb. unfold trim_end. rewrite rev_unit, trim_start_word by done. cbn [rev]. by rewrite rev_involutive. Qed.

(** A line that starts and ends with a printed character is its own trim. *)
Lemma trim_graphic s b c mid : s = b :: mid -> last s = Some c -> is_whitespace b = false -> is_whitespace c = false ->
  trim s = s.
Proof.
  intros -> Hl Hb Hc. unfold trim. rewrite trim_start_word by done.
  apply last_Some in Hl as [s' ->]. by apply trim_end_word.
Qed.

Lemma name_not_space n b : GoatFsFacts.name_ok n -> b ∈ n -> is_whitespace b = false.
Proof. intros [_ Hg] Hb. rewrite Forall_forall in Hg. by apply graphic_not_space, Hg. Qed.

Section cat.
Context {B : Type} `{BlockDevice B}.

(** [cat] of a name, once the file is read. *)
Lemma run_cat (b b' : B) fs n c rest :
  GoatFsFacts.name_ok n ->
  GoatFs.read_file b fs n (replicate GoatFs.MAX_FILE_SIZE 0) = Done (b', c ++ rest, inl (length c)) ->
  valid_utf8 c = true ->
  run_line b fs (Fmt.bytes "cat " ++ n) =
    Done (b', if ends_with_newline c then print_both c else println_both c).
Proof.
  intros Hn Hr Hv. pose proof Hn as [[Hl _] _]. change (Fmt.bytes "cat ") with ([99; 97; 116] ++ [32]).
  destruct (last n) as [z|] eqn:Hz; [|apply last_None in Hz; subst; simpl in Hl; lia].
  assert (is_whitespace z = false) as Hzw by (apply (name_not_space n); [done|]; by apply last_Some_elem_of).
  destruct n as [|a n]; [simpl in Hl; lia|].
  assert (is_whitespace a = false) as Haw by (apply (name_not_space (a :: n)); [done|apply list_elem_of_here]).
  unfold run_line. rewrite (trim_graphic _ 99 z ([97; 116; 32] ++ a :: n)); [|done| |done|done].
  2: { by rewrite last_app, Hz. }
  cbn [app length Nat.eqb]. unfold split_command. rewrite trim_start_word by done.
  replace (position is_whitespace (99 :: 97 :: 116 :: 32 :: a :: n)) with (Some 3%nat) by reflexivity.
  cbn [firstn skipn]. replace (trim_start (32 :: a :: n)) with (a :: n) by (symmetry; cbn [trim_start]; by rewrite Haw).
  rewrite !bool_decide_false by (by vm_compute). rewrite bool_decide_true by done.
  unfold cmd_cat. rewrite (trim_graphic (a :: n) a z n) by done. cbn [length Nat.eqb].
  assert (existsb is_whitespace (a :: n) = false) as ->.
  { apply not_true_is_false. intros (x & Hx%list_elem_of_In & Hw)%existsb_exists. by rewrite (name_not_space (a :: n)) in Hw. }
  rewrite Hr. cbn [mbind outcome_bind]. rewrite slice_get_Done by (rewrite length_app; lia). cbn [mbind outcome_bind].
  by rewrite drop_0, take_app_length, Hv.
Qed.

End cat.

(** [cat] end to end. On a disk that holds an image made by the packing tool,
    after the kernel has mounted it, the command line [cat name] prints exactly
    the contents of that file - with a newline added only when it does not end
    in one - on the console and on the serial port. *)
Theorem cat_prints_packed_file {B : Type} `{BlockLaws B disk} (files : list (list Z * list Z)) (img : list Z) (b : B) :
  Packer.pack files = Some img -> Forall (fun f => GoatFsSpec.printable f.1) files -> NoDup (fst <$> files) ->
  GoatFsFacts.installed disk img -> bl_ready b ->
  exists b' st, GoatFs.init b GoatFs.boot = Done (b', st, GoatFs.mkBanner true (length files) "mounted") /\
    forall n c, (n, c) ∈ files -> valid_utf8 c = true ->
      exists b2, run_line b' st (Fmt.bytes "cat " ++ n) =
        Done (b2, if ends_with_newline c then print_both c else println_both c).
Proof.
  intros Hp Hpr Hnd Hi Hb.
  destruct (GoatFsSpec.packed_mounts files img b Hp Hpr Hi Hb) as (Hok & Hno & Hn & -> & b' & fl & Hm & Hb').
  eexists b', _. split; [exact Hm|]. intros n c Hin Hv.
  assert (GoatFsFacts.file_ok (n, c)) as [_ Hc] by (rewrite Forall_forall in Hok; by apply Hok).
  destruct (GoatFsFacts.read_packed b' files fl n c (replicate GoatFs.MAX_FILE_SIZE 0)) as (b2 & Hr & _); try done.
  exists b2. eapply run_cat; [|exact Hr|done]. rewrite Forall_forall in Hno. apply (Hno (n, c) Hin).
Qed.

(** ** What the shell answers with the shipped image mounted *)

Definition cat_answer (args : list Z) : list effect :=
  let path := trim args in
  if (length path =? 0)%nat || existsb is_whitespace path then println_both (Fmt.bytes "usage: cat <file>")
  else if bool_decide (path = Fmt.bytes GoatFs.HELLO_TXT_NAME) then print_both (Fmt.bytes GoatFs.HELLO_TXT_CONTENTS)
  else println_both (Fmt.bytes "cat: " ++ path ++ Fmt.bytes ": not found").

(** The reply to a line: the drive is out of the picture. *)
Definition answer (line : list Z) : list effect :=
  let line := trim line in
  if (length line =? 0)%nat then []
  else
    let '(cmd, rest) := split_command line in
    if bool_decide (cmd = Fmt.bytes "help") then cmd_help
    else if bool_decide (cmd = Fmt.bytes "clear") then cmd_clear
    else if bool_decide (cmd = Fmt.bytes "echo") then cmd_echo rest
    else if bool_decide (cmd = Fmt.bytes "about") then cmd_about
    else if bool_decide (cmd = Fmt.bytes "cat") then cat_answer rest
    else println_both (Fmt.bytes "unknown command: " ++ cmd).

(** The reply to a key when the line so far is [line]. *)
Definition respond (line : list Z) (ev : KeyEvent) : list effect :=
  match ev with
  | Char c => if bool_decide (edit line ev <> line) then print_both [c] else []
  | Backspace => if bool_decide (line = []) then [] else [VgaBackspace; SerialPrint [8; 32; 8]]
  | Enter => [VgaPrint nl; SerialPrint nl] ++ answer line ++ print_prompt
  end.

Section serving.
Context {B : Type} `{BlockLaws B disk} (img : list Z).
Context (Himg : Packer.pack Packer.FILES = Some img) (Hin : GoatFsFacts.installed disk img).

Lemma cat_answers (b : B) st args : GoatFsSpec.shipped_fs st -> bl_ready b ->
  exists b', cmd_cat b st args = Done (b', cat_answer args) /\ bl_ready b'.
Proof.
  intros Hs Hb. unfold cmd_cat, cat_answer. destruct (_ =? _)%nat; [by eexists _|]. destruct (existsb _ _); [by eexists _|]. cbn [orb].
  destruct (GoatFsSpec.shipped_reads img st b Himg Hin Hs Hb) as [(b' & Hr & Hb') Hother]. case_bool_decide as Hp.
  - rewrite Hp, Hr. cbn [mbind outcome_bind]. rewrite slice_get_Done by (rewrite length_app; lia). cbn [mbind outcome_bind].
    rewrite drop_0, take_app_length. by exists b'.
  - rewrite Hother by done. cbn [mbind outcome_bind]. by eexists _.
Qed.

Lemma run_line_answers (b : B) st line : GoatFsSpec.shipped_fs st -> bl_ready b ->
  exists b', run_line b st line = Done (b', answer line) /\ bl_ready b'.
Proof.
  intros Hs Hb. unfold run_line, answer. destruct (_ =? _)%nat; [by eexists _|].
  destruct (split_command _) as [cmd rest]. do 4 (destruct (bool_decide _); [by eexists _|]).
  destruct (bool_decide _); [by apply cat_answers|by eexists _].
Qed.

Lemma event_answered (b : B) st e line ev : GoatFsSpec.shipped_fs st -> bl_ready b -> holds_line e line ->
  exists b' e' fl, handle_event b st e ev = Done (b', e', respond line ev, fl) /\ bl_ready b' /\ holds_line e' (edit line ev).
Proof.
  intros Hs Hb Hl. destruct ev as [c| |]; cbn [handle_event respond].
  - destruct (push_holds e line c Hl) as (e' & -> & Hl'). cbn [mbind outcome_bind]. by eexists _, _, _.
  - rewrite (as_str_holds _ _ Hl). cbn [mbind outcome_bind].
    destruct (run_line_answers b st line Hs Hb) as (b' & -> & Hb'). cbn [mbind outcome_bind].
    eexists _, _, _. split; [done|]. split; [done|]. destruct Hl as [Hbuf _ _ _ _]. split; try done. cbn. lia.
  - destruct (pop_holds e line Hl) as [Hp Hl']. destruct (pop_char e) as [e' popped]. cbn [fst snd] in *. subst popped.
    eexists _, _, _. split; [|done]. do 3 f_equal. destruct line; [done|]. by rewrite bool_decide_false.
Qed.

End serving.

Import AtaDrive GoatFsSpec.

Lemma cat_prints_packed_file_witness :
  exists b' st b2, GoatFs.init GoatFsSpec.shipped_drive GoatFs.boot = Done (b', st, GoatFs.mkBanner true 1 "mounted") /\
    run_line b' st (Fmt.bytes "cat hello.txt") = Done (b2, print_both (Fmt.bytes GoatFs.HELLO_TXT_CONTENTS)).
Proof.
  destruct (cat_prints_packed_file (disk := GoatFsSpec.shipped_disk) Packer.FILES GoatFsSpec.shipped
    GoatFsSpec.shipped_drive) as (b' & st & Hi & Hc).
  - vm_compute. reflexivity.
  - repeat constructor.
  - apply NoDup_singleton.
  - exact GoatFsSpec.shipped_installed.
  - exact GoatFsSpec.shipped_ready.
  - destruct (Hc (Fmt.bytes "hello.txt") (Fmt.bytes GoatFs.HELLO_TXT_CONTENTS)) as (b2 & Hr).
    + apply list_elem_of_here.
    + vm_compute. reflexivity.
    + exists b', st, b2. split; [exact Hi|exact Hr].
Defined.

(** A machine without a disk. *)
#[local] Instance no_disk : BlockDevice unit := fun b _ buf => Done (b, buf, inr NotPresent).

Lemma typed_line_is_shown_and_run_witness :
  exists e out, handle_events tt GoatFs.boot new [Char 104; Char 105; Backspace; Char 33] = Done (tt, e, out) /\
    on_console [[]] (Shell.init ++ out) = [[62; 32; 104; 33]].
Proof.
  destruct (typed_line_is_shown_and_run tt GoatFs.boot [] [Char 104; Char 105; Backspace; Char 33])
    as (e & out & Hr & Hc & _).
  - repeat constructor; done.
  - exists e, out. split; [exact Hr|exact Hc].
Defined.

End ShellFacts.
