(* ===== verification/Layout.v ===== *)
(** * The layout check ([memory/layout.rs])

    Reading back where the stacks, the guard page and the heap are, and what
    the check's answer means. *)

From S2P Require Import Prelude.
From S2P Require Import Fmt.
From S2P Require Import MemMap.
From S2P Require Import FrameAlloc.
From S2P Require Import FramePool.
From S2P Require Import FrameNew.
From S2P Require Import FrameSource.
From S2P Require Import Heap.
From S2P Require Import Machine.
From S2P Require Import Descriptors.
From S2P Require Import Paging.
#[local] Open Scope Z_scope.

Module Layout.
Import Machine Image.

Definition KERNEL_STACK_SIZE : Z := 64 * 1024.
Definition DOUBLE_FAULT_STACK_SIZE : Z := 4096.
Definition GUARD_PAGE_SIZE : Z := 4096.

(** The linker and assembly symbols it takes the addresses of. *)
Record Symbols := mkSymbols {
  stack_bottom : Z; stack_top : Z; stack_guard_page : Z; kernel_start : Z; kernel_end : Z
}.

Record Range := mkRange { start : Z; end_ : Z }.

Definition len (r : Range) : Z := saturating_sub (end_ r) (start r).
Definition is_empty (r : Range) : bool := end_ r <=? start r.
Definition overlaps (r other : Range) : bool :=
  if is_empty r || is_empty other then false
  else (start r <? end_ other) && (start other <? end_ r).
Definition contains_range (r other : Range) : bool :=
  negb (is_empty other) && (start r <=? start other) && (end_ other <=? end_ r).

Definition Range_fmt (r : Range) : string := Fmt.hex 10 (start r) +:+ "-" +:+ Fmt.hex 10 (end_ r).

Record Report := mkReport {
  kernel_image : Range;
  kernel_stack : Range;
  double_fault_stack : Range;
  guard_page : Range;
  heap : Range;
  failure : option string
}.

Definition ok (r : Report) : bool := match failure r with None => true | Some _ => false end.

Definition kib (r : Range) : string := Fmt.dec (len r / 1024).

Definition Report_fmt (r : Report) : string :=
  match failure r with
  | Some reason => "Layout: OVERLAP/MISMATCH - " +:+ reason
  | None =>
      "Layout: DF stack " +:+ Range_fmt (double_fault_stack r) +:+ " (" +:+ kib (double_fault_stack r)
        +:+ " KiB), guard " +:+ Range_fmt (guard_page r) +:+ " (" +:+ kib (guard_page r)
        +:+ " KiB, unmapped), kernel stack " +:+ Range_fmt (kernel_stack r) +:+ " (" +:+ kib (kernel_stack r)
        +:+ " KiB), heap " +:+ Range_fmt (heap r) +:+ " (" +:+ kib (heap r) +:+ " KiB) - ok"
  end.

Definition check (im : Image) (sy : Symbols) (cpu : Cpu) (m : mem) (hr : Heap.Report) : outcome Report :=
  let image := mkRange (kernel_start sy) (kernel_end sy) in
  let stack := mkRange (stack_bottom sy) (stack_top sy) in
  let guard_start := stack_guard_page sy in
  guard_end ← add_u32 guard_start GUARD_PAGE_SIZE;
  let guard := mkRange guard_start guard_end in
  let '(df_bottom, df_top) := Tss.double_fault_stack_range im in
  let df := mkRange df_bottom df_top in
  let heap_range := if Heap.r_ready hr then mkRange (Heap.r_start hr) (Heap.report_end hr) else mkRange 0 0 in
  let report := mkReport image stack df guard heap_range in
  let fail reason := Done (report (Some reason)) in
  if negb (len stack =? KERNEL_STACK_SIZE) then fail "kernel stack size does not match KERNEL_STACK_SIZE"
  else if negb (len df =? DOUBLE_FAULT_STACK_SIZE)
  then fail "double-fault stack size does not match DOUBLE_FAULT_STACK_SIZE"
  else if negb (len guard =? GUARD_PAGE_SIZE) then fail "guard page size does not match GUARD_PAGE_SIZE"
  else if negb (contains_range image stack) then fail "kernel stack is outside the kernel image"
  else if negb (contains_range image df) then fail "double-fault stack is outside the kernel image"
  else if negb (contains_range image guard) then fail "guard page is outside the kernel image"
  else if negb (end_ df =? start guard) then fail "double-fault stack is not immediately below the guard page"
  else if negb (end_ guard =? start stack) then fail "guard page is not immediately below the kernel stack"
  else if overlaps stack df then fail "kernel stack and double-fault stack overlap"
  else if overlaps stack guard || overlaps df guard then fail "guard page overlaps a stack"
  else
    present ← Paging.is_present cpu m (as_u32 (start guard));
    if (present : bool) then fail "stack guard page is still mapped"
    else if negb (Heap.r_ready hr) then Done (report None)
    else if negb (len heap_range =? Heap.HEAP_SIZE) then fail "heap size does not match HEAP_SIZE"
    else if overlaps image heap_range then fail "heap overlaps the kernel image (and therefore a stack)"
    else if overlaps stack heap_range then fail "kernel stack and heap overlap"
    else if overlaps df heap_range then fail "double-fault stack and heap overlap"
    else if overlaps guard heap_range then fail "guard page and heap overlap"
    else Done (report None).

End Layout.

Module LayoutFacts.
Import Machine Image Layout.

(** ** Ranges as sets of bytes *)

Definition byte_in (a : Z) (r : Range) : Prop := start r <= a < end_ r.

Lemma overlaps_spec r s : overlaps r s = true <-> exists a, byte_in a r /\ byte_in a s.
Proof.
  unfold overlaps, is_empty, byte_in.
  destruct (Z.leb_spec (end_ r) (start r)), (Z.leb_spec (end_ s) (start s)); cbn [orb];
    try (split; [done|]; intros (a & ? & ?); lia).
  rewrite andb_true_iff, !Z.ltb_lt. split; [|intros (a & ? & ?); lia].
  intros [? ?]. exists (Z.max (start r) (start s)). lia.
Qed.

Lemma overlaps_bool r s : overlaps r s =
  negb (end_ r <=? start r) && negb (end_ s <=? start s) && (start r <? end_ s) && (start s <? end_ r).
Proof. unfold overlaps, is_empty. by destruct (end_ r <=? start r), (end_ s <=? start s). Qed.

Lemma contains_range_spec r s : contains_range r s = true <->
  (exists a, byte_in a s) /\ forall a, byte_in a s -> byte_in a r.
Proof.
  unfold contains_range, is_empty, byte_in. rewrite !andb_true_iff, negb_true_iff, Z.leb_gt, !Z.leb_le. split.
  - intros [[He Hs] Hl]. split; [exists (start s); lia|]. intros a Ha. lia.
  - intros [[a Ha] Hall]. pose proof (Hall (start s) ltac:(lia)). pose proof (Hall (end_ s - 1) ltac:(lia)). lia.
Qed.

(** The entry code's stacks: double-fault stack, guard page and kernel stack
    next to each other inside the image. *)
Record stacks_ok (im : Image) (sy : Symbols) : Prop := {
  sk_df : double_fault_stack_top im = double_fault_stack_bottom im + DOUBLE_FAULT_STACK_SIZE;
  sk_guard : stack_guard_page sy = double_fault_stack_top im;
  sk_bottom : stack_bottom sy = stack_guard_page sy + GUARD_PAGE_SIZE;
  sk_top : stack_top sy = stack_bottom sy + KERNEL_STACK_SIZE;
  sk_start : kernel_start sy <= double_fault_stack_bottom im;
  sk_end : stack_top sy <= kernel_end sy
}.

(** A heap of the right size that shares no byte with the kernel image. *)
Definition heap_ok (sy : Symbols) (hr : Heap.Report) : Prop :=
  Heap.report_end hr = Heap.r_start hr + Heap.HEAP_SIZE /\
  forall a, ~ (kernel_start sy <= a < kernel_end sy /\ Heap.r_start hr <= a < Heap.report_end hr).

Lemma apart_spec a b c d :
  (forall x, ~ (a <= x < b /\ c <= x < d)) <-> (b <= a \/ d <= c \/ b <= c \/ d <= a).
Proof.
  split; [|intros; lia]. intros Hx. destruct (Z_lt_le_dec a b); [|lia]. destruct (Z_lt_le_dec c d); [|lia].
  specialize (Hx (Z.max a c)). lia.
Qed.

(** The facts of [stacks_ok] as linear arithmetic. *)
Ltac open_stacks H :=
  destruct H as [? ? ? ? ? ?];
  cbn [double_fault_stack_bottom double_fault_stack_top stack_bottom stack_top stack_guard_page kernel_start kernel_end] in *;
  unfold DOUBLE_FAULT_STACK_SIZE, GUARD_PAGE_SIZE, KERNEL_STACK_SIZE in *.

(** Takes the next test of the chain: where it fails, the report is not "ok"
    and the fact it tests is what the right-hand side denies. *)
Ltac next_check :=
  match goal with
  | |- exists r, (if ?b then _ else _) = _ /\ _ =>
      let E := fresh "E" in destruct b eqn:E;
      [eexists; split; [reflexivity|]; cbn [ok failure]; split; [done|];
       let Hs := fresh "Hs" in let Hh := fresh "Hh" in
       intros (Hs & ? & Hh); exfalso; open_stacks Hs;
       first [congruence | lia | specialize (Hh eq_refl); lia]|]
  end.

(** C27: What the layout check certifies. It answers "ok" exactly when the
    double-fault stack, guard page and kernel stack have their sizes, lie next
    to each other in that order inside the kernel image, the guard page is not
    mapped, and - if there is a heap - the heap has its size and shares no byte
    with the image. The five overlap tests after that are implied. *)
Theorem layout_check_exact (im : Image) (sy : Symbols) (cpu : Cpu) (m : mem) (hr : Heap.Report) (p : bool) :
  stack_guard_page sy + GUARD_PAGE_SIZE <= U32_MAX -> 0 <= stack_guard_page sy ->
  Paging.is_present cpu m (stack_guard_page sy) = Done p ->
  exists r, check im sy cpu m hr = Done r /\
    (ok r = true <-> stacks_ok im sy /\ p = false /\ (Heap.r_ready hr = true -> heap_ok sy hr)).
Proof.
  intros Hg Hg0 Hp. unfold check, add_u32. unfold U32_MAX in Hg.
  destruct (Z.leb_spec (stack_guard_page sy + GUARD_PAGE_SIZE) U32_MAX); [|unfold U32_MAX in *; lia].
  cbn [mbind outcome_bind Tss.double_fault_stack_range start end_]. rewrite as_u32_id by (unfold GUARD_PAGE_SIZE in *; lia).
  rewrite Hp. cbn [mbind outcome_bind].
  rewrite !overlaps_bool. unfold len, contains_range, is_empty, saturating_sub, heap_ok. setoid_rewrite apart_spec.
  destruct im as [? ? ? ? dfb dft], sy as [sb st sg ks ke], hr as [hs hz []];
    cbn [start end_ double_fault_stack_bottom double_fault_stack_top stack_bottom stack_top stack_guard_page kernel_start
         kernel_end Heap.r_ready Heap.r_start] in *; set (he := Heap.report_end _); clearbody he;
    unfold DOUBLE_FAULT_STACK_SIZE, GUARD_PAGE_SIZE, KERNEL_STACK_SIZE in *; change Heap.HEAP_SIZE with 1048576;
    cbn [negb].
  - do 16 next_check.
    eexists. split; [reflexivity|]. cbn [ok failure]. split; [intros _|done].
    split; [split; cbn; unfold DOUBLE_FAULT_STACK_SIZE, GUARD_PAGE_SIZE, KERNEL_STACK_SIZE; lia|]. split; [done|]. intros _. lia.
  - do 11 next_check.
    eexists. split; [reflexivity|]. cbn [ok failure]. split; [intros _|done].
    split; [split; cbn; unfold DOUBLE_FAULT_STACK_SIZE, GUARD_PAGE_SIZE, KERNEL_STACK_SIZE; lia|]. split; [done|]. done.
Qed.

Lemma layout_check_exact_witness :
  exists r, check (mkImage 0 0 0 0 0x20000 0x21000) (mkSymbols 0x22000 0x32000 0x21000 0x10000 0x40000) boot_cpu ∅
      (Heap.mkReport 0x100000 Heap.HEAP_SIZE true) = Done r /\ ok r = true.
Proof.
  destruct (layout_check_exact (mkImage 0 0 0 0 0x20000 0x21000) (mkSymbols 0x22000 0x32000 0x21000 0x10000 0x40000)
    boot_cpu ∅ (Heap.mkReport 0x100000 Heap.HEAP_SIZE true) false ltac:(done) ltac:(done) eq_refl) as (r & Hc & Hok).
  exists r. split; [exact Hc|]. apply Hok. split; [|split; [reflexivity|]].
  - split; cbn; unfold DOUBLE_FAULT_STACK_SIZE, GUARD_PAGE_SIZE, KERNEL_STACK_SIZE; lia.
  - intros _. split; [reflexivity|]. cbn. change (Heap.report_end _) with 0x200000. lia.
Defined.

End LayoutFacts.
