(* ===== verification/Serial.v ===== *)
(** * The serial port ([serial.rs])

    The driver over the [uart_16550] crate, which is a parameter: a type of
    devices with the four calls the driver makes and, in [UartLaws], what the
    crate documents of them. *)

From S2P Require Import Prelude.
From S2P Require Import Machine.
#[local] Open Scope Z_scope.

Module Serial.
Import Machine.

Definition COM1_PORT : Z := 0x3f8.
Definition TRANSMIT_SPIN_LIMIT : Z := 1000000.

(** [ByteSendError] of the crate. *)
Inductive ByteSendError := NoCapacity | RemoteNotClearToSend.

(** [Uart16550]: [new_port] and [init] (as one step, [None] when either fails),
    [ready_to_send] and [send_bytes]; and the raw [outb] to the data port. *)
Class Uart (U : Type) := {
  uart_open : U -> Z -> option U;
  ready_to_send : U -> U * (unit + ByteSendError);
  send_bytes : U -> list Z -> U * nat;
  uart_outb : U -> Z -> Z -> U
}.

Section driver.
Context {U : Type} `{Uart U}.

(** [SERIAL1]: [None] until [init] succeeds. The device itself exists either
    way. *)
Record Port := mkPort { uart : U; opened : bool }.

Definition init (p : Port) : Port :=
  match uart_open (uart p) COM1_PORT with
  | None => p
  | Some u => mkPort u true
  end.

(** The body of the loop in [send], on [(uart, remaining, spins)]; [inr] is
    leaving it. *)
Definition send_step (s : U * list Z * Z) : U * list Z * Z + U * list Z :=
  let '(u, remaining, spins) := s in
  match remaining with
  | [] => inr (u, [])
  | first :: rest =>
      let '(u, r) := ready_to_send u in
      match r with
      | inl _ =>
          let '(u, sent) := send_bytes u remaining in
          if (sent =? 0)%nat then inr (u, remaining)
          else inl (u, drop sent remaining, 0)
      | inr NoCapacity =>
          let spins := spins + 1 in
          if TRANSMIT_SPIN_LIMIT <? spins then inr (u, remaining) else inl (u, remaining, spins)
      | inr RemoteNotClearToSend =>
          let u := uart_outb u COM1_PORT first in
          inl (u, rest, 0)
      end
  end.

(** Every turn either gives up, sends at least a byte, or uses up one of the
    spins allowed before the next byte. *)
Definition send_fuel (bytes : list Z) : nat := (S (length bytes) * S (S (Z.to_nat TRANSMIT_SPIN_LIMIT)))%nat.

(** The bytes not sent are returned beside the device. *)
Definition send (u : U) (bytes : list Z) : outcome (U * list Z) :=
  run_loop (send_fuel bytes) send_step (u, bytes, 0).

(** [UartWriter::write_str]: the bytes [send] gave up on are dropped. *)
Definition write_str (u : U) (s : list Z) : outcome U :=
  '(u, _) ← send u s; Done u.

(** [write_fmt] calls [write_str] once for every piece of the format string
    and every formatted argument, in order. *)
Fixpoint write_fmt (u : U) (pieces : list (list Z)) : outcome U :=
  match pieces with
  | [] => Done u
  | s :: pieces => u ← write_str u s; write_fmt u pieces
  end.

(** [_print] *)
Definition print (p : Port) (pieces : list (list Z)) : outcome Port :=
  if opened p then u ← write_fmt (uart p) pieces; Done (mkPort u true) else Done p.

End driver.

(** ** What the crate documents *)

(** [line] is what has been transmitted. [ready_to_send] transmits nothing,
    [send_bytes] transmits a prefix of its argument and returns its length, a
    write to the data port while the holding register is empty transmits the
    byte. *)
Class UartLaws (U : Type) `{Uart U} := {
  line : U -> list Z;
  ready_keeps : forall u, line (fst (ready_to_send u)) = line u;
  sent_prefix : forall u bytes, (snd (send_bytes u bytes) <= length bytes)%nat /\
    line (fst (send_bytes u bytes)) = line u ++ take (snd (send_bytes u bytes)) bytes;
  raw_byte : forall u u' b, ready_to_send u = (u', inr RemoteNotClearToSend) ->
    line (uart_outb u' COM1_PORT b) = line u' ++ [b]
}.

End Serial.

Module SerialFacts.
Import Machine Serial.

Section laws.
Context {U : Type} `{UartLaws U}.

(** The spins left before the driver gives up, for every byte still to send. *)
Definition measure (s : U * list Z * Z) : nat :=
  let '(_, remaining, spins) := s in
  (length remaining * S (S (Z.to_nat TRANSMIT_SPIN_LIMIT)) + Z.to_nat (TRANSMIT_SPIN_LIMIT + 1 - spins))%nat.

(** Between turns, what was transmitted and what remains make up the message. *)
Definition loop_inv (u0 : U) (bytes : list Z) (s : U * list Z * Z) : Prop :=
  let '(u, remaining, spins) := s in
  0 <= spins <= TRANSMIT_SPIN_LIMIT /\ exists sent, line u = line u0 ++ sent /\ sent ++ remaining = bytes.

Lemma send_step_inv u0 bytes s s' : loop_inv u0 bytes s -> send_step s = inl s' ->
  loop_inv u0 bytes s' /\ (measure s' < measure s)%nat.
Proof.
  destruct s as [[u remaining] spins]. intros [Hsp (sent & Hl & Hb)] Hstep. unfold send_step in Hstep.
  destruct remaining as [|b rest]; [done|]. pose proof (ready_keeps u) as Hk.
  destruct (ready_to_send u) as [u1 r] eqn:Hr. cbn [fst] in Hk. destruct r as [[]|[]].
  - destruct (sent_prefix u1 (b :: rest)) as [Hle Hpre]. destruct (send_bytes u1 (b :: rest)) as [u2 n]. cbn [fst snd] in *.
    destruct (Nat.eqb_spec n 0) as [|Hn]; [done|]. injection Hstep as <-. split.
    + split; [unfold TRANSMIT_SPIN_LIMIT; lia|]. exists (sent ++ take n (b :: rest)).
      rewrite Hpre, Hk, Hl, <-!app_assoc. split; [done|]. by rewrite take_drop.
    + unfold measure. rewrite length_drop. cbn [length] in *. unfold TRANSMIT_SPIN_LIMIT in *. nia.
  - destruct (Z.ltb_spec TRANSMIT_SPIN_LIMIT (spins + 1)); [done|]. injection Hstep as <-. split.
    + split; [lia|]. exists sent. by rewrite Hk, Hl.
    + unfold measure. lia.
  - injection Hstep as <-. split.
    + split; [unfold TRANSMIT_SPIN_LIMIT; lia|]. exists (sent ++ [b]).
      rewrite (raw_byte u u1 b Hr), Hk, Hl, <-!app_assoc. done.
    + unfold measure. cbn [length]. unfold TRANSMIT_SPIN_LIMIT in *. lia.
Qed.

(** A device that always drains: it is never still busy with the last byte, and
    takes something whenever it says it is ready. The UART of v86, which never
    asserts CTS, is one. *)
Definition drains : Prop :=
  (forall u, snd (ready_to_send u) <> inr NoCapacity) /\
  (forall u u' bytes, ready_to_send u = (u', inl ()) -> bytes <> [] -> snd (send_bytes u' bytes) <> 0%nat).

(** What a call of [send] leaves: a prefix transmitted, all of it on a device
    that drains. *)
Definition delivered (u0 : U) (bytes : list Z) (r : U * list Z) : Prop :=
  exists sent, line (fst r) = line u0 ++ sent /\ sent ++ snd r = bytes /\ (drains -> snd r = []).

Lemma send_step_exit u0 bytes s r : loop_inv u0 bytes s -> send_step s = inr r -> delivered u0 bytes r.
Proof.
  destruct s as [[u remaining] spins]. intros [Hsp (sent & Hl & Hb)] Hstep. unfold send_step in Hstep.
  destruct remaining as [|b rest]; [injection Hstep as <-; by exists sent|]. pose proof (ready_keeps u) as Hk.
  destruct (ready_to_send u) as [u1 r'] eqn:Hr. cbn [fst] in Hk. destruct r' as [[]|[]]; [| |done].
  - destruct (sent_prefix u1 (b :: rest)) as [Hle Hpre].
    destruct (send_bytes u1 (b :: rest)) as [u2 n] eqn:Hn. cbn [fst snd] in *.
    destruct (Nat.eqb_spec n 0) as [Hz|Hz]; [|done]. injection Hstep as <-. exists sent. cbn [fst snd].
    rewrite Hpre, Hz, Hk, Hl, take_0, app_nil_r. split_and!; [done|done|].
    intros [_ Hd]. specialize (Hd u u1 (b :: rest) Hr). rewrite Hn in Hd. by destruct Hd.
  - destruct (Z.ltb_spec TRANSMIT_SPIN_LIMIT (spins + 1)); [|done]. injection Hstep as <-. exists sent. cbn [fst snd].
    rewrite Hk. split_and!; [done|done|]. intros [Hd _]. specialize (Hd u). by rewrite Hr in Hd.
Qed.

Lemma send_returns u bytes : exists r, send u bytes = Done r /\ delivered u bytes r.
Proof.
  apply (run_loop_total send_step (loop_inv u bytes) (delivered u bytes) measure
    (send_step_inv u bytes) (send_step_exit u bytes) (send_fuel bytes) (u, bytes, 0)).
  - split; [unfold TRANSMIT_SPIN_LIMIT; lia|]. exists []. by rewrite app_nil_r.
  - unfold measure, send_fuel. cbn [Nat.mul Nat.add]. nia.
Qed.

Lemma write_fmt_returns pieces u : exists u' sent, write_fmt u pieces = Done u' /\
  line u' = line u ++ concat sent /\ Forall2 prefix sent pieces /\ (drains -> sent = pieces).
Proof.
  revert u. induction pieces as [|s pieces IH]; intros u; cbn [write_fmt].
  - exists u, []. cbn [concat]. by rewrite app_nil_r.
  - unfold write_str. destruct (send_returns u s) as ([u1 rest] & -> & sent & Hl & Hs & Hd). cbn in *.
    destruct (IH u1) as (u' & sents & -> & Hl' & Hp & Hd'). exists u', (sent :: sents). cbn [concat]. split_and!.
    + done.
    + by rewrite Hl', Hl, app_assoc.
    + constructor; [by exists rest|done].
    + intros Hdr. rewrite (Hd' Hdr), <-Hs, (Hd Hdr), app_nil_r. done.
Qed.

(** C37: a serial print always returns, whatever the device does: on any UART
    the loop of [send] ends, each piece of the message has put a prefix of
    itself on the line, in order and with nothing between, and on a device
    that drains - v86's, which never asserts CTS, or one whose FIFO is never
    full - the whole message is transmitted. A port that was never opened
    prints nothing. *)
Theorem serial_print_returns (p : Port) pieces :
  exists p' sent, print p pieces = Done p' /\ opened p' = opened p /\
    line (uart p') = line (uart p) ++ concat sent /\
    if opened p then Forall2 prefix sent pieces /\ (drains -> sent = pieces) else sent = [].
Proof.
  unfold print. destruct p as [u []]; cbn [opened uart].
  - destruct (write_fmt_returns pieces u) as (u' & sent & -> & Hl & Hp & Hd). by exists (mkPort u' true), sent.
  - exists (mkPort u false), []. cbn [concat]. by rewrite app_nil_r.
Qed.

End laws.

Definition hello : list (list Z) := [[72; 105]; [33]; [10]].

(** ** Two devices that obey the laws *)

(** v86: the holding register is always empty and CTS never arrives. *)
Module V86.

#[export] Instance v86_uart : Uart (list Z) := {|
  uart_open u _ := Some u;
  ready_to_send u := (u, inr RemoteNotClearToSend);
  send_bytes u _ := (u, 0%nat);
  uart_outb u _ b := u ++ [b]
|}.

#[export] Program Instance v86_laws : UartLaws (list Z) := {| line u := u |}.
Next Obligation. done. Qed.
Next Obligation. intros u bytes. cbn [send_bytes v86_uart fst snd]. rewrite take_0, app_nil_r. split; [lia|done]. Qed.
Next Obligation. done. Qed.

(** The message arrives whole. *)
Lemma serial_print_on_v86 : print (mkPort [] true) hello = Done (mkPort [72; 105; 33; 10] true).
Proof. vm_compute. reflexivity. Qed.

Lemma v86_drains : drains.
Proof. by split; cbn. Qed.

Lemma serial_print_returns_witness :
  drains /\ exists p', print (mkPort [] true) hello = Done p' /\ line (uart p') = concat hello.
Proof.
  split; [exact v86_drains|].
  destruct (serial_print_returns (mkPort [] true) hello) as (p' & sent & Hp & _ & Hl & _ & Hd).
  exists p'. split; [exact Hp|]. rewrite Hl, (Hd v86_drains). reflexivity.
Defined.

End V86.

(** A port whose transmitter takes one byte and never empties again. *)
Module Stuck.

#[export] Instance stuck_uart : Uart (list Z) := {|
  uart_open u _ := Some u;
  ready_to_send u := (u, match u with [] => inl tt | _ => inr NoCapacity end);
  send_bytes u bytes := (u ++ take 1 bytes, length (take 1 bytes));
  uart_outb u _ _ := u
|}.

#[export] Program Instance stuck_laws : UartLaws (list Z) := {| line u := u |}.
Next Obligation. done. Qed.
Next Obligation.
  intros u bytes. change (length (take 1 bytes) <= length bytes /\ u ++ take 1 bytes = u ++ take (length (take 1 bytes)) bytes)%nat.
  rewrite length_take. destruct bytes; cbn [length]; split; auto with lia.
Qed.
Next Obligation. intros [|b u] u'; cbn; by intros ? [= ]. Qed.

(** The print still returns, with a prefix on the line. *)
Lemma serial_print_on_stuck : exists p' sent, print (mkPort [] true) hello = Done p' /\
  line (uart p') = concat sent /\ Forall2 prefix sent hello.
Proof.
  destruct (write_fmt_returns hello []) as (u' & sent & Hp & Hl & Hpre & _).
  exists (mkPort u' true), sent. split; [|by split].
  unfold print. cbn [opened uart]. rewrite Hp. reflexivity.
Qed.

End Stuck.

End SerialFacts.
