(* ===== verification/Pit.v ===== *)
(** * The timer ([pit.rs])

    [Pit] is the driver, [Pit8254] how channel 0 of an 8254 takes the words the
    driver sends, [PitFacts] that the channel ends up at 100 Hz with its line
    open, and that ticks and seconds count the interrupts. *)

From S2P Require Import Prelude.
From S2P Require Import Machine.
From S2P Require Import Descriptors.
From S2P Require Import DescriptorFacts.
From S2P Require Import Pic.
#[local] Open Scope Z_scope.

Module Pit.
Import Machine.

Definition IRQ : Z := 0.
Definition VECTOR : Z := Pic.IRQ_VECTOR_BASE + IRQ.
Definition FREQUENCY_HZ : Z := 100.
Definition PIT_OSCILLATOR_HZ : Z := 1193182.
Definition DIVISOR : Z := as_u16 (PIT_OSCILLATOR_HZ / FREQUENCY_HZ).
Definition CHANNEL0_DATA : Z := 0x40.
Definition COMMAND : Z := 0x43.
Definition CMD_CHANNEL0_MODE3 : Z := 0x36.

(** [ticks] and [seconds] of the static [TICKS]. *)
Definition ticks (TICKS : Z) : Z := TICKS.
Definition seconds (TICKS : Z) : Z := ticks TICKS / FREQUENCY_HZ.

Section device.
Context {D : Type} `{PortIO D}.

(** [init]: the device, the IDT and [TICKS] after it. [handler] is the address
    of [timer_interrupt]. *)
Definition init (d : D) (idt : list Idt.Gate) (handler : Z) : D * list Idt.Gate * Z :=
  let TICKS := 0 in
  let idt := Idt.set_gate idt VECTOR handler in
  let d := outb d COMMAND CMD_CHANNEL0_MODE3 in
  let d := outb d CHANNEL0_DATA (as_u8 (Z.land DIVISOR 0xff)) in
  let d := outb d CHANNEL0_DATA (as_u8 (Z.shiftr DIVISOR 8)) in
  let d := Pic.unmask d IRQ in
  (d, idt, TICKS).

Definition timer_interrupt (d : D) (TICKS : Z) : D * Z :=
  let TICKS := wrapping_add_u32 TICKS 1 in
  let '(d, _) := Pic.end_of_interrupt d IRQ in
  (d, TICKS).

End device.
End Pit.

(** ** Channel 0 of an 8254, as documented *)
Module Pit8254.
Import Machine Pit.

(** [latch] is the low byte of a pair whose high byte is awaited. *)
Record Channel := mkChannel { ch_mode : Z; access : Z; latch : option Z; reload : option Z }.

(** A control word for channel 0 (bits 7-6) with an access mode (bits 5-4)
    other than "latch count" sets mode and access and stops the channel until
    a count is written. *)
Definition control (c : Channel) (v : Z) : Channel :=
  if negb (Z.land v 0xc0 =? 0) then c
  else if Z.land v 0x30 =? 0 then c
  else mkChannel (Z.shiftr (Z.land v 0x0e) 1) (Z.shiftr (Z.land v 0x30) 4) None None.

(** A count: one byte, or the low and then the high byte. *)
Definition count (c : Channel) (v : Z) : Channel :=
  if access c =? 1 then {| c with reload := Some v |}
  else if access c =? 2 then {| c with reload := Some (v * 256) |}
  else match latch c with
  | None => {| c with latch := Some v |}
  | Some low => {| c with latch := None; reload := Some (v * 256 + low) |}
  end.

Class PitDevice (D : Type) `{PortIO D} := {
  channel0 : D -> Channel;
  pit_out : forall d port v, channel0 (outb d port v) =
    if port =? COMMAND then control (channel0 d) v
    else if port =? CHANNEL0_DATA then count (channel0 d) v
    else channel0 d;
  pit_in : forall d port, port <> CHANNEL0_DATA -> channel0 (snd (inb d port)) = channel0 d
}.

(** A machine with a timer beside the two interrupt controllers. *)
Import PicHw.
Record Board := mkBoard { timer : Channel; pair : Pair }.

#[export] Instance Board_io : PortIO Board := {|
  outb b port v :=
    mkBoard (if port =? COMMAND then control (timer b) v
             else if port =? CHANNEL0_DATA then count (timer b) v else timer b)
            (outb (pair b) port v);
  inb b port := let '(v, p) := inb (pair b) port in (v, mkBoard (timer b) p)
|}.

#[export] Instance Board_pit : PitDevice Board.
Proof. refine {| channel0 := timer |}; done. Defined.

#[export] Instance Board_pic : PicDevice Board.
Proof.
  refine {| chips b := chips (pair b) |}.
  - intros d port v s. exact (pic_out (pair d) port v s).
  - done.
  - intros d s. exact (pic_in_command (pair d) s).
  - intros d s. exact (pic_in_data (pair d) s).
Defined.

End Pit8254.

Module PitFacts.
Import Machine Idt Pit Pit8254 PicHw PicFacts Hw.

Section device.
Context {D : Type} `{Hio : PortIO D} `{!PicDevice D} `{!PitDevice D}.

(** The words sent to the timer's ports do not reach the controllers. *)
Lemma pic_untouched (d : D) port v s : port = COMMAND \/ port = CHANNEL0_DATA -> chips (outb d port v) s = chips d s.
Proof. intros [->| ->]; rewrite pic_out; by destruct s. Qed.

Lemma timer_set (d : D) :
  channel0 (outb (outb (outb d COMMAND CMD_CHANNEL0_MODE3) CHANNEL0_DATA (as_u8 (Z.land DIVISOR 0xff)))
    CHANNEL0_DATA (as_u8 (Z.shiftr DIVISOR 8))) = mkChannel 3 3 None (Some DIVISOR).
Proof. rewrite !pit_out. vm_compute. reflexivity. Qed.

(** Unmasking a master line and acknowledging IRQ0 do not reach the timer. *)
Lemma unmask_keeps_timer (d : D) irq : irq < 8 -> channel0 (Pic.unmask d irq) = channel0 d.
Proof.
  intros Hi. unfold Pic.unmask, Pic.mask, Pic.set_mask. destruct (_ <=? irq); [done|].
  destruct (Z.ltb_spec irq 8); [|lia]. rewrite (inb_pair d). cbn [Pic.data Pic.master].
  by rewrite pit_out, pit_in.
Qed.

Lemma eoi_keeps_timer (d : D) : channel0 (fst (Pic.end_of_interrupt d IRQ)) = channel0 d.
Proof. cbn [Pic.end_of_interrupt IRQ]. apply (pit_out d Pic.MASTER_COMMAND). Qed.

(** ** [init] *)

Lemma init_spec (d : D) idt handler : operating d -> length idt = 256%nat -> is_u32 handler ->
  exists d', init d idt handler = (d', <[32%nat := Idt.interrupt handler Tss.KERNEL_CODE_SELECTOR]> idt, 0) /\
    channel0 d' = mkChannel 3 3 None (Some DIVISOR) /\
    chips d' Master = {| (chips d Master) with imr := Z.clearbit (imr (chips d Master)) 0 |} /\
    chips d' Slave = chips d Slave.
Proof.
  intros Hop Hlen Hh. unfold init. set (d1 := outb (outb (outb _ _ _) _ _) _ _).
  assert (forall s, chips d1 s = chips d s) as Hd1 by (intros s; unfold d1; rewrite !pic_untouched; auto).
  assert (operating d1) as Hop1 by (intros s; rewrite Hd1; apply Hop).
  destruct (unmask_master d1 IRQ Hop1 ltac:(unfold IRQ; lia)) as [Hm Hs]. rewrite !Hd1 in *.
  eexists. split; [|split_and!; [|exact Hm|exact Hs]].
  - unfold Idt.set_gate. by rewrite as_u32_id.
  - rewrite unmask_keeps_timer by (unfold IRQ; lia). apply timer_set.
Qed.

(** C35: After [pit::init] channel 0 runs in mode 3 with a divisor that gives 100
    interrupts a second to within a ten-thousandth; vector 32 leads to the timer
    handler and no other vector has changed; of the interrupt controllers
    exactly the mask bit of IRQ0 is cleared; and no tick has been counted. *)
Theorem pit_init_runs_at_100_hz (d : D) idt handler :
  operating d -> length idt = 256%nat -> is_u32 handler ->
  let '(d', idt', t) := init d idt handler in
  (exists n, channel0 d' = mkChannel 3 3 None (Some n) /\ 0 < n < 2 ^ 16 /\
     Z.abs (PIT_OSCILLATOR_HZ - 100 * n) * 10000 <= PIT_OSCILLATOR_HZ) /\
  (forall v, 0 <= v < 256 -> gate_target (idt' !!! Z.to_nat v) =
     if v =? 32 then ToOffset Tss.KERNEL_CODE_SELECTOR handler else gate_target (idt !!! Z.to_nat v)) /\
  chips d' Master = {| (chips d Master) with imr := Z.clearbit (imr (chips d Master)) 0 |} /\
  chips d' Slave = chips d Slave /\ ticks t = 0.
Proof.
  intros Hop Hlen Hh. destruct (init_spec d idt handler Hop Hlen Hh) as (d' & -> & Hch & Hm & Hs).
  split_and!; [|  |done|done|done].
  - exists DIVISOR. split; [done|]. vm_compute. split; [done|]. done.
  - intros v Hv. destruct (Z.eqb_spec v 32) as [->|Hne].
    + rewrite list_lookup_total_insert_eq by (rewrite Hlen; vm_compute; lia).
      rewrite DescriptorFacts.gate_target_interrupt by done. done.
    + by rewrite list_lookup_total_insert_ne by lia.
Qed.

(** ** Counting *)

(** [n] timer interrupts in a row. *)
Definition tick (s : D * Z) : D * Z := timer_interrupt s.1 s.2.

Lemma timer_interrupt_spec (d : D) t :
  exists d', timer_interrupt d t = (d', wrapping_add_u32 t 1) /\ channel0 d' = channel0 d /\
    isr (chips d' Master) = clear_highest (isr (chips d Master)) /\
    isr (chips d' Slave) = isr (chips d Slave) /\ forall s, same_setup (chips d s) (chips d' s).
Proof.
  destruct (eoi_cases d IRQ ltac:(unfold IRQ; lia)) as (_ & Hsame & Hm & Hs).
  unfold timer_interrupt. pose proof (eoi_keeps_timer d) as Hk.
  destruct (Pic.end_of_interrupt d IRQ) as [d' a]. by exists d'.
Qed.

Lemma ticks_from (d : D) n : ticks (Nat.iter n tick (d, 0)).2 = as_u32 (Z.of_nat n).
Proof.
  induction n as [|n IH]; [done|]. cbn [Nat.iter nat_rect]. change (nat_rect _ _ _ n) with (Nat.iter n tick (d, 0)).
  unfold tick at 1. destruct (timer_interrupt_spec (Nat.iter n tick (d, 0)).1 (Nat.iter n tick (d, 0)).2)
    as (d' & -> & _). unfold ticks in *. cbn [snd]. rewrite IH. unfold wrapping_add_u32, as_u32.
  rewrite Zplus_mod_idemp_l. f_equal. lia.
Qed.

(** The clock counts interrupts: after [n] of them, [ticks] is [n] modulo
    2^32 and, until it wraps, [seconds] is the number of whole hundreds. Each
    one also takes IRQ0 out of service - when it is in service, which is
    always the highest priority - and leaves the masks, the vectors and the
    timer's programming alone, so the next one can arrive. *)
Theorem clock_counts_interrupts (d : D) n :
  let '(d', t) := Nat.iter n tick (d, 0) in
  ticks t = Z.of_nat n mod 2 ^ 32 /\ (Z.of_nat n < 2 ^ 32 -> seconds t = Z.of_nat n / 100) /\
  channel0 d' = channel0 d /\ (forall s, same_setup (chips d s) (chips d' s)) /\
  let '(d'', _) := timer_interrupt d' t in
  Z.testbit (isr (chips d' Master)) 0 = true -> isr (chips d'' Master) = Z.clearbit (isr (chips d' Master)) 0.
Proof.
  pose proof (ticks_from d n) as Ht.
  assert (channel0 (Nat.iter n tick (d, 0)).1 = channel0 d /\
          forall s, same_setup (chips d s) (chips (Nat.iter n tick (d, 0)).1 s)) as [Hc Hs].
  { clear Ht. induction n as [|n [IHc IHs]]; [by split; [|intros s; split_and!]|].
    cbn [Nat.iter nat_rect]. change (nat_rect _ _ _ n) with (Nat.iter n tick (d, 0)). unfold tick at 1 3.
    destruct (timer_interrupt_spec (Nat.iter n tick (d, 0)).1 (Nat.iter n tick (d, 0)).2)
      as (d' & -> & Hc & _ & _ & Hs). cbn [fst]. split; [by rewrite Hc|].
    intros s. specialize (IHs s). specialize (Hs s). unfold same_setup in *. intuition congruence. }
  destruct (Nat.iter n tick (d, 0)) as [d' t]. cbn [fst snd] in *.
  split_and!; [done| |done|done|].
  - intros Hn. unfold seconds, FREQUENCY_HZ. rewrite Ht, as_u32_id; [done|lia].
  - destruct (timer_interrupt_spec d' t) as (d'' & -> & _ & Hi & _). intros Hb. rewrite Hi.
    apply clear_highest_spec. split_and!; [lia|lia|done|]. intros j Hj. lia.
Qed.

End device.

(** ** On the concrete board *)

Definition demo_board : Board := mkBoard (mkChannel 2 3 None (Some 65536)) (Pic.init bios_pair).

Lemma pit_init_runs_at_100_hz_witness :
  let '(d, idt, t) := init demo_board (replicate 256 Idt.MISSING) 0x12345 in
  (exists n, timer d = mkChannel 3 3 None (Some n)) /\ imr (chips d Master) = 0xfe /\ ticks t = 0.
Proof.
  pose proof (pit_init_runs_at_100_hz demo_board (replicate 256 Idt.MISSING) 0x12345
    ltac:(unfold operating; intros []; vm_compute; repeat split; congruence)
    ltac:(reflexivity) ltac:(vm_compute; split; congruence)) as H.
  destruct (init demo_board (replicate 256 Idt.MISSING) 0x12345) as [[d idt] t].
  destruct H as ((n & Hch & _) & _ & Hm & _ & Ht).
  split; [exists n; exact Hch|]. rewrite Hm. split; [reflexivity|exact Ht].
Defined.

Lemma clock_counts_interrupts_witness :
  let '(d, t) := Nat.iter 250 tick (demo_board, 0) in
  ticks t = 250 /\ seconds t = 2 /\ timer d = timer demo_board.
Proof.
  pose proof (clock_counts_interrupts demo_board 250) as H.
  destruct (Nat.iter 250 tick (demo_board, 0)) as [d t]. destruct H as (Ht & Hs & Hc & _).
  split; [exact Ht|]. split; [exact (Hs eq_refl)|exact Hc].
Defined.

End PitFacts.
