(* ===== verification/Graphics.v ===== *)
(** * The graphics screen ([framebuffer.rs], [graphics.rs])

    Both files paint the mode 13h screen. [video] is the memory the VGA maps
    there, byte by byte. *)

From S2P Require Import Prelude.
From S2P Require Import Fmt.
#[local] Open Scope Z_scope.

(** Bytes of video memory, by physical address. *)
Abbreviation video := (gmap Z Z).

Module Framebuffer.

Definition MODE : Z := 0x13.
Definition BUFFER_ADDR : Z := 0xa0000.
Definition WIDTH : Z := 320.
Definition HEIGHT : Z := 200.
Definition BUFFER_LEN : Z := WIDTH * HEIGHT.
Definition SOLID_COLOR : Z := 0x01.

Definition fill (m : video) (color : Z) : video :=
  fold_left (fun m i => <[BUFFER_ADDR + i := color]> m) (range_list 0 BUFFER_LEN) m.

End Framebuffer.

Module Graphics.

Definition MODE : Z := 0x13.
Definition WIDTH : Z := 320.
Definition HEIGHT : Z := 200.
Definition FRAMEBUFFER : Z := 0xa0000.
Definition FILL_COLOR : Z := 1.
Definition FRAMEBUFFER_LEN : Z := WIDTH * HEIGHT.

Definition fill_solid (m : video) (color : Z) : video :=
  fold_left (fun m i => <[FRAMEBUFFER + i := color]> m) (range_list 0 FRAMEBUFFER_LEN) m.

Record Report := mkReport { fill_color : Z }.

Definition Report_fmt (r : Report) : string :=
  ("Graphics: VGA mode " +:+ Fmt.hex 4 MODE +:+ " " +:+ Fmt.dec WIDTH +:+ "x" +:+ Fmt.dec HEIGHT +:+ " @ "
    +:+ Fmt.hex 10 FRAMEBUFFER +:+ ", fill color " +:+ Fmt.dec (fill_color r) +:+ " (solid)")%string.

Definition init (m : video) : video * Report :=
  let m := fill_solid m FILL_COLOR in
  (m, mkReport FILL_COLOR).

End Graphics.

Module GraphicsFacts.
Import Framebuffer.

(** Storing one value at every address of a run. *)
Lemma fold_store b c l (m : video) x :
  fold_left (fun m i => <[b + i := c]> m) l m !! x = if decide (x - b ∈ l) then Some c else m !! x.
Proof.
  revert m. induction l as [|i l IH]; intros m; cbn [fold_left].
  - by rewrite decide_False by (intros []%elem_of_nil).
  - rewrite IH. destruct (decide (x - b ∈ l)) as [Hin|Hni].
    + by rewrite decide_True by (apply list_elem_of_further; done).
    + destruct (decide (x = b + i)) as [->|Hne].
      * rewrite lookup_insert_eq, decide_True; [done|]. replace (b + i - b) with i by lia. apply list_elem_of_here.
      * rewrite lookup_insert_ne by lia. rewrite decide_False; [done|].
        intros [Hx|Hx]%elem_of_cons; [lia|done].
Qed.

(** C38: [framebuffer::fill] paints exactly the screen: the pixel in column [x] of
    row [y], for all 320 by 200 of them, has the color, and no other byte of
    video memory - the text buffer at [0xb8000] in particular - changes. The
    fill of [graphics.rs] does the same. *)
Theorem fill_paints_the_screen (m : video) (color : Z) :
  (forall x y, 0 <= x < 320 -> 0 <= y < 200 -> fill m color !! (0xa0000 + y * 320 + x) = Some color) /\
  (forall a, a < 0xa0000 \/ 0xafa00 <= a -> fill m color !! a = m !! a) /\
  (Graphics.init m).1 = fill m SOLID_COLOR.
Proof.
  unfold fill. split_and!; [| |done].
  - intros x y Hx Hy. rewrite fold_store, decide_True; [done|].
    apply elem_of_range_list. unfold BUFFER_ADDR. change BUFFER_LEN with 64000. lia.
  - intros a Ha. rewrite fold_store, decide_False; [done|].
    rewrite elem_of_range_list. unfold BUFFER_ADDR. change BUFFER_LEN with 64000. lia.
Qed.

Lemma fill_paints_the_screen_witness : fill ∅ SOLID_COLOR !! 0xaf9ff = Some 1 /\ fill ∅ 1 !! 0xb8000 = None.
Proof.
  destruct (fill_paints_the_screen ∅ SOLID_COLOR) as (Hin & Hout & _). split.
  - apply (Hin 319 199); lia.
  - apply (Hout 0xb8000). lia.
Defined.

End GraphicsFacts.
