(* ===== verification/Boot.v ===== *)
(** * Boot ([main.rs])

    [kernel_main] up to where it becomes the shell task, in the stages its
    comments mark. [Kernel] is the machine and the statics of all components;
    what is printed is the list of the calls made to console and serial port,
    each under its writer's lock. [Booting] lets interrupts come between the
    stages. *)

From S2P Require Import Prelude.
From S2P Require Import Fmt.
From S2P Require Import MemMap.
From S2P Require Import FrameAlloc.
From S2P Require Import FrameSource.
From S2P Require Import FrameTest.
From S2P Require Import Heap.
From S2P Require Import HeapTest.
From S2P Require Import Machine.
From S2P Require Import Descriptors.
From S2P Require Import Pic.
From S2P Require Import Interrupts.
From S2P Require Import Paging.
From S2P Require Import Sync.
From S2P Require Import Input.
From S2P Require Import Keyboard.
From S2P Require Import Task.
From S2P Require Import Ata.
From S2P Require Import GoatFs.
From S2P Require Import Shell.
From S2P Require Import Pit.
From S2P Require Import Graphics.
#[local] Open Scope Z_scope.

Module Boot.
Import FrameSource Machine Sync Ata Shell.

(** Addresses the linker chooses. *)
Record Program := mkProgram {
  image : Image.Image;
  kernel_image : Z * Z;            (** [__kernel_start], [__kernel_end] *)
  guard_page : Z;                  (** [stack_guard_page] *)
  entries : Exceptions.Entries;
  timer_interrupt : Z;
  keyboard_interrupt : Z;
  task_trampoline : Z;
  context_of : nat -> Z;           (** [esp] of a task's [context] in the scheduler's table *)
  demo_a_task : Z;
  demo_b_task : Z
}.

Record Kernel {D : Type} := mkKernel {
  dev : D;
  cpu : Cpu;
  memory : mem;
  screen : video;
  gdt : list Z;
  idt : list Idt.Gate;
  tss : Tss.TssState;
  ints : Interrupts.IState;
  frames : Frame.FrameAllocator;
  heap : Heap.Heap;
  TICKS : Z;
  kbd : Keyboard.State;
  queue : IrqMutex Input.Queue;
  ata : AtaController;
  fs : GoatFs.Fs;
  sched : Task.State;
  WRITER : IrqMutex unit;          (** of [vga.rs]; what is written shows in [log] *)
  SERIAL1 : IrqMutex unit;         (** of [serial.rs], likewise *)
  log : list effect
}.
Arguments Kernel D : clear implicits.
Arguments mkKernel {D}.

(** ** Printing *)

Definition vga_println (s : string) : list effect := [VgaPrint (Fmt.bytes s ++ nl)].
Definition serial_println (s : string) : list effect := [SerialPrint (Fmt.bytes s ++ nl)].
Definition diag_println (s : string) : list effect := vga_println s ++ serial_println s.

Definition flag (b : bool) : string := if b then "1" else "0".

Definition framebuffer_line : string :=
  "Framebuffer: VGA mode " +:+ Fmt.hex 4 Framebuffer.MODE +:+ " " +:+ Fmt.dec Framebuffer.WIDTH +:+ "x"
    +:+ Fmt.dec Framebuffer.HEIGHT +:+ "x256 at " +:+ Fmt.hex 0 Framebuffer.BUFFER_ADDR +:+ ", solid fill "
    +:+ Fmt.hex 4 Framebuffer.SOLID_COLOR.

Definition gdt_line (g : Gdt.Loaded) : string :=
  "GDT: kernel-owned at " +:+ Fmt.hex 10 (Gdt.g_base g) +:+ " (limit " +:+ Fmt.hex 0 (Gdt.g_limit g) +:+ "), cs="
    +:+ Fmt.hex 4 (Gdt.g_cs g) +:+ " ds=" +:+ Fmt.hex 4 (Gdt.g_ds g) +:+ " tr=" +:+ Fmt.hex 4 (Gdt.g_tr g).

Definition idt_line (l : Idt.Loaded) : string :=
  "IDT: " +:+ Fmt.dec (Idt.loaded_entries l) +:+ " entries at " +:+ Fmt.hex 10 (Idt.l_base l) +:+ " (limit "
    +:+ Fmt.hex 0 (Idt.l_limit l) +:+ "), " +:+ Fmt.dec (Z.of_nat (Idt.l_handlers l)) +:+ " handlers".

Definition double_fault_line (im : Image.Image) : string :=
  let '(bottom, top) := Tss.double_fault_stack_range im in
  "Double fault: task gate -> TSS " +:+ Fmt.hex 4 Gdt.DOUBLE_FAULT_TSS_SELECTOR +:+ ", stack " +:+ Fmt.hex 10 bottom
    +:+ ".." +:+ Fmt.hex 10 top.

Definition masks (p : Pic.State) : string := Fmt.hex 4 (Pic.master_mask p) +:+ "/" +:+ Fmt.hex 4 (Pic.slave_mask p).

Definition pic_line (p : Pic.State) : string :=
  "PIC: IRQ0-15 -> vectors " +:+ Fmt.dec (Pic.vector_base p) +:+ "-" +:+ Fmt.dec (Pic.vector_last p) +:+ ", IMR "
    +:+ masks p +:+ " (" +:+ (if Pic.all_masked p then "all masked" else "SOME IRQS UNMASKED") +:+ ")".

Definition catch_all_line (spare_vectors : nat) : string :=
  "Interrupts: catch-all on " +:+ Fmt.dec (Z.of_nat spare_vectors) +:+ " spare vectors, "
    +:+ Fmt.dec (Z.of_nat (Idt.ENTRY_COUNT - spare_vectors)) +:+ " owned".

Definition region_line (r : Map.Region) : string :=
  "E820:   " +:+ Fmt.hex 12 (Map.base r) +:+ "-" +:+ Fmt.hex 12 (Map.end_ r) +:+ " "
    +:+ Fmt.right 9 (Fmt.dec (Map.length_ r / 1024)) +:+ " KiB  " +:+ Map.RegionKind_fmt (Map.kind r).

Section device.
Context {D : Type} `{PortIO D} `{WordIO D}.
Context (p : Program).

Abbreviation K := (Kernel D).

Definition print (k : K) (es : list effect) : K := {| k with log := log k ++ es |}.

(** [vga::_print], [vga::clear_screen] and [vga::backspace] are critical sections
    on [WRITER], [serial::_print] is one on [SERIAL1]. *)
Definition locked_print (k : K) (e : effect) : outcome K :=
  let section lock := with_ (on_value (fun w => Done (w, log k ++ [e]))) lock (cpu k) in
  match e with
  | SerialPrint _ =>
      '(lock, c, l) ← section (SERIAL1 k); Done {| k with SERIAL1 := lock; cpu := c; log := l |}
  | VgaPrint _ | VgaClear | VgaBackspace =>
      '(lock, c, l) ← section (WRITER k); Done {| k with WRITER := lock; cpu := c; log := l |}
  end.

(** Prints in a row. *)
Fixpoint prints (k : K) (es : list effect) : outcome K :=
  match es with
  | [] => Done k
  | e :: es => k ← locked_print k e; prints k es
  end.

(** Whoever holds the locks, every print comes through, and leaves locks and
    interrupt flag as they were: [print] is all there is to see of it. The
    stages below, which hold no lock, are written with [print]; the handlers,
    which may have interrupted a print, with [prints]. *)
Lemma locked_print_done (k : K) e : locked_print k e = Done (print k [e]).
Proof.
  unfold locked_print. cbv zeta.
  assert (forall lock, with_ (on_value (fun w : unit => Done (w, log k ++ [e]))) lock (cpu k) =
    Done (lock, cpu k, log k ++ [e])) as Hw.
  { intros lock. rewrite (with_value _ lock (cpu k) (value lock) (log k ++ [e])) by done. by destruct lock. }
  destruct e; rewrite Hw; by destruct k.
Qed.

Lemma prints_done (k : K) es : prints k es = Done (print k es).
Proof.
  revert k. induction es as [|e es IH]; intros k; cbn [prints].
  - unfold print. rewrite app_nil_r. by destruct k.
  - rewrite locked_print_done. cbn [mbind outcome_bind]. rewrite IH. unfold print. cbn [log]. by rewrite <-app_assoc.
Qed.

(** ** The stages of [kernel_main] *)

(** The display. [serial::init] has no effect the model shows: what the port
    prints is in the log either way. *)
Definition start_display (k : K) : K :=
  let k := {| k with screen := Framebuffer.fill (screen k) Framebuffer.SOLID_COLOR |} in
  print k (serial_println framebuffer_line ++ [VgaClear] ++ vga_println "GOATos" ++ vga_println "------" ++
           vga_println "Booted successfully via a from-scratch bootloader." ++
           vga_println "Display: VGA mode 13h (graphics), text buffer unused.").

(** TSSes and GDT. *)
Definition start_segments (k : K) : K :=
  let k := {| k with tss := Tss.init (image p) (tss k) (Exceptions.double_fault_entry (entries p)) |} in
  let '(gdt, cpu) := Gdt.init (image p) (gdt k) (cpu k) in
  let k := {| k with gdt := gdt; cpu := cpu |} in
  print k (vga_println "" ++ vga_println (gdt_line (Gdt.loaded cpu))).

(** IDT and exception vectors. *)
Definition start_exceptions (k : K) : K :=
  let '(idt, cpu) := Idt.init (image p) (idt k) (cpu k) in
  let idt := Exceptions.init (entries p) idt in
  let k := {| k with idt := idt; cpu := cpu |} in
  print k (vga_println (idt_line (Idt.loaded cpu idt)) ++ vga_println Exceptions.INSTALLED_SUMMARY ++
           vga_println (double_fault_line (image p))).

(** The interrupt controllers, remapped and masked. *)
Definition start_pic (k : K) : K * Pic.State :=
  let d := Pic.init (dev k) in
  let '(pic, d) := Pic.state d in
  (print {| k with dev := d |} (vga_println (pic_line pic)), pic).

(** The catch-all on every vector left. *)
Definition start_catch_all (k : K) : K * nat :=
  let '(s, idt, spare_vectors) := Interrupts.init (entries p) (ints k) (idt k) in
  (print {| k with ints := s; idt := idt |} (vga_println (catch_all_line spare_vectors)), spare_vectors).

(** Memory map, frames and their self-test. *)
Definition start_frames (k : K) : outcome (K * Map.MemoryMap * Frame.Report * FrameTest.SelfTest) :=
  let map := Map.load (memory k) in
  let k := print k (vga_println (Map.MemoryMap_fmt map)) in
  let '(fa, report) := Frame.init (kernel_image p) map in
  let k := print {| k with frames := fa |} (vga_println (Frame.Report_fmt report)) in
  '(fa, m, test) ← FrameTest.self_test (frames k) (memory k);
  let k := {| k with frames := fa; memory := m |} in
  Done (print k ([VgaPrint (Fmt.bytes "Frames:")] ++
                 ((fun f => VgaPrint (Fmt.bytes (" " +:+ Fmt.hex_plain 8 (Frame.start_address f)))) <$> FrameTest.frames test) ++
                 vga_println "" ++ vga_println (FrameTest.SelfTest_fmt test)), map, report, test).

(** The same facts on the serial port, with the details the screen has no room
    for. [gdt], [idt] and [pic] were read back above. *)
Definition report_serial (k : K) (gdt : Gdt.Loaded) (idt : Idt.Loaded) (pic : Pic.State) (spare_vectors : nat)
    (map : Map.MemoryMap) (report : Frame.Report) (test : FrameTest.SelfTest) : K :=
  print k (
    serial_println (gdt_line gdt) ++ serial_println (idt_line idt) ++ serial_println Exceptions.INSTALLED_SUMMARY ++
    serial_println (double_fault_line (image p)) ++ serial_println (pic_line pic) ++
    serial_println (catch_all_line spare_vectors) ++
    mjoin ((fun r => serial_println (region_line r)) <$> Map.regions map) ++ serial_println (Map.MemoryMap_fmt map) ++
    mjoin ((fun r => serial_println ("Frames: reserved " +:+ Frame.Reservation_fmt r)) <$> Frame.r_reservations report) ++
    serial_println (Frame.Report_fmt report) ++
    mjoin (imap (fun i f => serial_println ("Frame:  #" +:+ Fmt.dec (Z.of_nat i + 1) +:+ " at " +:+ Frame.Frame_fmt f))
             (FrameTest.frames test)) ++
    mjoin ((fun f => serial_println ("Frame:  freed " +:+ Frame.Frame_fmt f)) <$> FrameTest.freed test) ++
    (match FrameTest.reused test with
     | Some f => serial_println ("Frame:  reused " +:+ Frame.Frame_fmt f +:+ " for the next allocation")
     | None => []
     end) ++
    serial_println (FrameTest.SelfTest_fmt test)).

Definition start_paging (k : K) (map : Map.MemoryMap) : outcome K :=
  '(fa, m, cpu, tss, report) ← Paging.init map (guard_page p) (frames k) (memory k) (cpu k) (tss k);
  Done (print {| k with frames := fa; memory := m; cpu := cpu; tss := tss |} (diag_println (Paging.Report_fmt report))).

Definition start_heap (k : K) : outcome K :=
  '(fa, h, m, report) ← Heap.init (frames k) (heap k) (memory k);
  let k := print {| k with frames := fa; heap := h; memory := m |} (diag_println (Heap.Report_fmt report)) in
  '(h, m, test) ← HeapTest.self_test (heap k) (memory k);
  Done (print {| k with heap := h; memory := m |} (diag_println (HeapTest.SelfTest_fmt test))).

(** The first moment the kernel can be interrupted. *)
Definition enable_interrupts (k : K) : K :=
  let k := {| k with cpu := Interrupts.enable (cpu k) |} in
  let '(pic, d) := Pic.state (dev k) in
  print {| k with dev := d |}
    (diag_println ("Interrupts: enabled (IF=" +:+ flag (Interrupts.enabled (cpu k)) +:+ "), IMR " +:+ masks pic +:+ ", "
                   +:+ Fmt.dec (Interrupts.unhandled_count (ints k)) +:+ " unhandled") ++
     serial_println "GOATos booted successfully! (32-bit, from a hand-written bootloader)").

Definition start_timer (k : K) : K :=
  let '(d, idt, t) := Pit.init (dev k) (idt k) (timer_interrupt p) in
  let '(pic, d) := Pic.state d in
  print {| k with dev := d; idt := idt; TICKS := t |}
    (diag_println ("PIT: channel 0 at " +:+ Fmt.dec Pit.FREQUENCY_HZ +:+ " Hz (IRQ0 -> vector " +:+ Fmt.dec Pit.VECTOR
                   +:+ ", divisor " +:+ Fmt.dec Pit.DIVISOR +:+ "), IMR " +:+ masks pic)).

Definition start_keyboard (k : K) : K :=
  let '(d, idt, s) := Keyboard.init (dev k) (idt k) (keyboard_interrupt p) in
  let '(pic, d) := Pic.state d in
  print {| k with dev := d; idt := idt; kbd := s |}
    (diag_println ("Keyboard: PS/2 on IRQ1 -> vector " +:+ Fmt.dec Keyboard.VECTOR +:+ ", IMR " +:+ masks pic) ++
     diag_println ("Input: " +:+ Fmt.dec (Z.of_nat Input.CAPACITY) +:+ "-event ring buffer (IRQ pushes, idle loop drains)")).

(** Disk and filesystem; the known file is printed when the test found it. *)
Definition start_disk (k : K) : outcome K :=
  let '(d, a) := Ata.init (dev k) in
  let k := print {| k with dev := d; ata := a |}
    (diag_println ("ATA: PIO " +:+ (if present a then "primary master ready" else "primary master missing"))) in
  '(b, fs, banner) ← GoatFs.init (dev k, ata k) (fs k);
  let k := print {| k with dev := b.1; fs := fs |} (diag_println (GoatFs.Banner_fmt banner)) in
  '(b, test) ← GoatFs.self_test (dev k, ata k) fs;
  let k := print {| k with dev := b.1 |} (diag_println (GoatFs.SelfTest_fmt test)) in
  if GoatFs.ok test then
    '(b, buf, r) ← GoatFs.read_file (dev k, ata k) fs (Fmt.bytes GoatFs.HELLO_TXT_NAME) (replicate GoatFs.MAX_FILE_SIZE 0);
    let k := {| k with dev := b.1 |} in
    match r with
    | inl n =>
        text ← slice_get buf 0 n;
        if valid_utf8 text
        then Done (print k (diag_println ("FS: cat " +:+ GoatFs.HELLO_TXT_NAME +:+ " =>") ++ print_both text))
        else Done k
    | inr _ => Done k
    end
  else Done k.

(** The [expect] panics when the table is full. *)
Definition spawn_task (k : K) (entry : Z) : outcome (K * nat) :=
  '(st, h, m, id) ← Task.spawn (context_of p) (task_trampoline p) (sched k) (heap k) (memory k) entry;
  id ← outcome_of_option id;
  Done ({| k with sched := st; heap := h; memory := m |}, id).

Definition start_tasks (k : K) : outcome K :=
  let k := print k (diag_println ("Shell: line editor (" +:+ Fmt.dec (Z.of_nat LINE_CAPACITY)
                                  +:+ " chars) + builtins (help/clear/echo/about/cat)")) in
  '(st, m) ← Task.init (context_of p) (sched k) (memory k);
  let k := {| k with sched := st; memory := m |} in
  '(k, demo_a) ← spawn_task k (demo_a_task p);
  '(k, demo_b) ← spawn_task k (demo_b_task p);
  Done (print k (diag_println ("Tasks: round-robin ready-queue (" +:+ Fmt.dec (Z.of_nat (Task.count (sched k)))
                               +:+ " tasks, shell + demo-a " +:+ Fmt.dec (Z.of_nat demo_a) +:+ " + demo-b "
                               +:+ Fmt.dec (Z.of_nat demo_b) +:+ ")"))).

(** [kernel_main] from its first line to the first [sti] ... *)
Definition start_core (k : K) : outcome K :=
  let k := start_display k in
  let k := start_segments k in
  let gdt := Gdt.loaded (cpu k) in
  let k := start_exceptions k in
  let idt := Idt.loaded (cpu k) (idt k) in
  let '(k, pic) := start_pic k in
  let '(k, spare_vectors) := start_catch_all k in
  '(k, map, report, test) ← start_frames k;
  let k := report_serial k gdt idt pic spare_vectors map report test in
  k ← start_paging k map;
  k ← start_heap k;
  Done (enable_interrupts k).

(** ... and on to its call of [shell_task]. *)
Definition start_services (k : K) : outcome K :=
  let k := start_timer k in
  let k := start_keyboard k in
  k ← start_disk k;
  k ← start_tasks k;
  Done (print k Shell.init).

Definition kernel_main (k : K) : outcome K := k ← start_core k; start_services k.

End device.
End Boot.
