(* ===== verification/BootMachine.v ===== *)
(** * The machine of the boot theorem

    One device state that is at once a pair of interrupt controllers, a timer,
    a keyboard controller and a drive ([BootMachine]); what the disk driver
    does to the other three: nothing; and a concrete machine. *)

From S2P Require Import Prelude.
From S2P Require Import Machine.
From S2P Require Import Descriptors.
From S2P Require Import Pic.
From S2P Require Import Pit.
From S2P Require Import Sync.
From S2P Require Import Input.
From S2P Require Import Keyboard.
From S2P Require Import Ata.
From S2P Require Import AtaFacts.
#[local] Open Scope Z_scope.

Module BootMachine.
Import Machine Ata AtaDrive AtaFacts PicHw Pit8254 Kbd8042.

(** The drive's ports. *)
Definition ata_port (port : Z) : Prop := 0x1f0 <= port <= 0x1f7.

(** The drive does not answer to the others' ports, nor they to its. *)
Class BootMachine (D : Type) `{PortIO D} `{WordIO D} (disk : Z -> list Z)
    `{!PicDevice D} `{!PitDevice D} `{!AtaDevice D disk} := {
  bm_idle_out : forall d f port v, Idle d f -> ~ ata_port port -> Idle (outb d port v) f;
  bm_idle_in : forall d f port, Idle d f -> ~ ata_port port -> Idle (snd (inb d port)) f;
  bm_pic_word : forall d port s, chips (snd (inw d port)) s = chips d s;
  bm_pit_word : forall d port, channel0 (snd (inw d port)) = channel0 d
}.

(** ** What the disk driver keeps *)
Section keeps.
Context {D : Type} `{PortIO D} `{WordIO D}.
Context (P : D -> Prop).
Context (Hout : forall d port v, ata_port port -> P d -> P (outb d port v)).
Context (Hin : forall d port, ata_port port -> P d -> P (snd (inb d port))).
Context (Hword : forall d port, P d -> P (snd (inw d port))).

Definition step_keeps {R} (step : D -> D + D * R) : Prop :=
  forall d, P d -> match step d with inl d' => P d' | inr (d', _) => P d' end.

Lemma status_keeps d : P d -> P (snd (inb d STATUS_CMD)).
Proof. apply Hin. unfold ata_port, STATUS_CMD. lia. Qed.

Lemma spin_keeps step d : step_keeps step -> P d -> P (fst (spin step d)).
Proof.
  intros Hs Hd. unfold spin.
  pose proof (for_loop_inv step (fun _ d => P d) (fun r : D * (unit + AtaError) => P (fst r))) as Hl.
  specialize (Hl ltac:(intros k s s' Hp He; specialize (Hs s Hp); by rewrite He in Hs)).
  specialize (Hl ltac:(intros k s [d' r] Hp He; specialize (Hs s Hp); by rewrite He in Hs)).
  specialize (Hl (Z.to_nat SPIN_LIMIT) 0%nat d Hd). destruct (for_loop _ step d) as [d'|r]; done.
Qed.

Lemma wait_while_keeps d mask v : P d -> P (fst (wait_while d mask v)).
Proof.
  apply spin_keeps. intros d' Hd. unfold wait_while_step. pose proof (status_keeps d' Hd) as Hs.
  destruct (inb d' STATUS_CMD) as [s d1]. repeat destruct (_ =? _); done.
Qed.

Lemma wait_for_drq_keeps d : P d -> P (fst (wait_for_drq d)).
Proof.
  apply spin_keeps. intros d' Hd. unfold wait_for_drq_step. pose proof (status_keeps d' Hd) as Hs.
  destruct (inb d' STATUS_CMD) as [s d1]. destruct (_ =? _); [done|]. repeat destruct (has_bits s _); done.
Qed.

Lemma settle_keeps n d : P d -> P (settle n d).
Proof. revert d. induction n as [|n IH]; intros d Hd; [done|]. by apply IH, status_keeps. Qed.

Lemma init_keeps d : P d -> P (fst (init d)).
Proof.
  intros Hd. unfold init.
  assert (P (settle 4 (outb d DRIVE_HEAD DRIVE_MASTER_LBA))) as H4.
  { apply settle_keeps, Hout; [|done]. unfold ata_port, DRIVE_HEAD. lia. }
  pose proof (status_keeps _ H4) as Hs. destruct (inb _ STATUS_CMD) as [s d1]. destruct (_ =? _); [done|].
  pose proof (wait_while_keeps d1 STATUS_BSY STATUS_BSY Hs) as Hw. destruct (wait_while d1 _ _) as [d2 [|]]; done.
Qed.

Lemma read_words_keeps n d : P d -> P (fst (read_words n d)).
Proof.
  revert d. induction n as [|n IH]; intros d Hd; [done|]. cbn [read_words].
  pose proof (Hword d DATA Hd) as Hw. destruct (inw d DATA) as [v d1]. specialize (IH d1 Hw).
  destruct (read_words n d1). done.
Qed.

Lemma read_sectors_keeps ls d buf d' buf' r :
  P d -> read_sectors d buf ls = Done (d', buf', r) -> P d'.
Proof.
  revert d buf. induction ls as [|s ls IH]; intros d buf Hd; cbn [read_sectors]; [by intros [= <- _ _]|].
  pose proof (wait_for_drq_keeps d Hd) as Hw. destruct (wait_for_drq d) as [d1 [|]]; [|by intros [= <- _ _]].
  pose proof (status_keeps d1 Hw) as Hs. destruct (inb d1 STATUS_CMD) as [st d2].
  destruct (has_bits _ _); [by intros [= <- _ _]|].
  destruct (slice_get buf _ _); [|done..]. cbn [mbind outcome_bind].
  pose proof (read_words_keeps (SECTOR_SIZE / 2) d2 Hs) as Hr. destruct (read_words _ d2) as [d3 c].
  destruct (slice_set buf _ c); [|done..]. cbn [mbind outcome_bind]. by apply IH.
Qed.

Lemma read_lba_keeps d ata lba buf d' buf' r : P d -> read_lba d ata lba buf = Done (d', buf', r) -> P d'.
Proof.
  intros Hd. unfold read_lba. destruct (_ || _); [by intros [= <- _ _]|]. destruct (_ || _); [by intros [= <- _ _]|].
  destruct (_ =? _)%nat; [by intros [= <- _ _]|]. destruct (negb _); [by intros [= <- _ _]|]. unfold read_pio.
  pose proof (wait_while_keeps d STATUS_BSY STATUS_BSY Hd) as Hw. destruct (wait_while d _ _) as [d1 [|]]; [|by intros [= <- _ _]].
  apply read_sectors_keeps. repeat apply Hout; try done;
    unfold ata_port, DRIVE_HEAD, SECTOR_COUNT, LBA_LO, LBA_MID, LBA_HI, STATUS_CMD; lia.
Qed.

(** The driver as a block device that, besides, keeps [P]. *)
Definition keeping_laws (disk : Z -> list Z) `{!AtaDevice D disk} (Hok : disk_ok disk) : BlockLaws (D * AtaController) disk.
Proof.
  refine {| bl_ready (b : D * AtaController) := (exists f, Idle (fst b) f) /\ present (snd b) = true /\ P (fst b) |}.
  intros [d ata] lba n buf ([f Hd] & Hp & HP) Hn Hl Hb Hlen.
  destruct (read_lba_reads d f ata lba n buf Hok Hd Hp Hn Hl Hb Hlen) as (d' & f' & Hr & Hd').
  exists (d', ata). unfold block_read, ata_block. cbn [fst snd] in *. rewrite Hr. split; [done|].
  split; [by exists f'|]. split; [done|]. by eapply read_lba_keeps.
Defined.

End keeps.

(** ** What the other drivers keep *)
Section boot.
Context {D : Type} `{PortIO D} `{WordIO D} {disk : Z -> list Z}.
Context `{!PicDevice D} `{!PitDevice D} `{!AtaDevice D disk} `{!BootMachine D disk}.

Ltac not_ata := unfold ata_port; vm_compute; intros [? ?]; congruence.

Lemma idle_pic_init d f : Idle d f -> Idle (Pic.init d) f.
Proof.
  intros Hd. unfold Pic.init, Pic.initialize, Pic.set_mask, Pic.io_delay. repeat (apply bm_idle_out; [|not_ata]). done.
Qed.

Lemma idle_pic_state d f : Idle d f -> Idle (snd (Pic.state d)) f.
Proof.
  intros Hd. destruct (PicFacts.state_reads d) as (d' & -> & -> & _). cbn [snd]. repeat (apply bm_idle_in; [|not_ata]). done.
Qed.

Lemma idle_eoi d f irq : irq < 8 -> Idle d f -> Idle (fst (Pic.end_of_interrupt d irq)) f.
Proof.
  intros Hi Hd. assert (forall d v, Idle d f -> Idle (outb d Pic.MASTER_COMMAND v) f) as Hout by (intros; apply bm_idle_out; [done|not_ata]).
  unfold Pic.end_of_interrupt. destruct (Z.leb_spec 8 irq); [lia|]. cbv iota zeta. destruct (_ =? _); [|by apply Hout].
  pose proof (bm_idle_in _ f Pic.MASTER_COMMAND (Hout d Pic.OCW3_READ_IN_SERVICE Hd) ltac:(not_ata)) as Hr.
  destruct (inb _ Pic.MASTER_COMMAND) as [w d1]. destruct (negb _); [done|by apply Hout].
Qed.

Lemma idle_unmask d f irq : irq < 8 -> Idle d f -> Idle (Pic.unmask d irq) f.
Proof.
  intros Hi Hd. unfold Pic.unmask, Pic.mask, Pic.set_mask. destruct (_ <=? irq); [done|].
  destruct (Z.ltb_spec irq 8); [|lia]. rewrite (PicFacts.inb_pair d). apply bm_idle_out; [|not_ata]. apply bm_idle_in; [done|not_ata].
Qed.

Lemma idle_pit_init d f idt handler : Idle d f -> Idle (Pit.init d idt handler).1.1 f.
Proof.
  intros Hd. unfold Pit.init. cbn [fst]. apply idle_unmask; [done|]. repeat (apply bm_idle_out; [|not_ata]). done.
Qed.

(** Draining the keyboard's buffer only reads its two ports. *)
Lemma drain_keeps (P : D -> Prop) d : (forall d port, port = Keyboard.DATA_PORT \/ port = Keyboard.STATUS_PORT -> P d -> P (snd (inb d port))) ->
  P d -> P (Keyboard.drain_output_buffer d).
Proof.
  intros Hin Hd. unfold Keyboard.drain_output_buffer.
  assert (forall d, P d -> match Keyboard.drain_step d with inl d' => P d' | inr d' => P d' end) as Hs.
  { clear d Hd. intros d Hd. unfold Keyboard.drain_step. pose proof (Hin d Keyboard.STATUS_PORT ltac:(by right) Hd) as H1.
    destruct (inb d Keyboard.STATUS_PORT) as [s d1]. destruct (negb _); [done|].
    pose proof (Hin d1 Keyboard.DATA_PORT ltac:(by left) H1) as H2. by destruct (inb d1 Keyboard.DATA_PORT). }
  pose proof (for_loop_inv Keyboard.drain_step (fun _ d => P d) P) as Hl.
  specialize (Hl ltac:(intros n s s' Hp He; specialize (Hs s Hp); by rewrite He in Hs)).
  specialize (Hl ltac:(intros n s s' Hp He; specialize (Hs s Hp); by rewrite He in Hs)).
  specialize (Hl 256%nat 0%nat d Hd). destruct (for_loop _ _ d); done.
Qed.

(** Drive idle, controllers and timer in a known state. *)
Record settled (c : side -> Chip) (t : Channel) (d : D) : Prop := {
  st_idle : exists f, Idle d f;
  st_chips : forall s, chips d s = c s;
  st_timer : channel0 d = t
}.

Lemma settled_drain c t d : settled c t d -> settled c t (Keyboard.drain_output_buffer d).
Proof.
  apply drain_keeps. clear d. intros d port Hp [[f Hf] Hc Ht]. split.
  - exists f. apply bm_idle_in; [done|]. destruct Hp as [->| ->]; not_ata.
  - intros s. by rewrite pic_in.
  - rewrite pit_in; [done|]. by destruct Hp as [->| ->].
Qed.

(** The disk driver, as the filesystem sees it, on a machine that stays so. *)
Definition quiet (c : side -> Chip) (t : Channel) (d : D) : Prop := (forall s, chips d s = c s) /\ channel0 d = t.

Lemma quiet_out c t d port v : ata_port port -> quiet c t d -> quiet c t (outb d port v).
Proof.
  intros Hp [Hc Ht]. unfold ata_port in Hp. split.
  - intros s. rewrite pic_out. assert (port <> command_port s /\ port <> data_port s) as [H1%Z.eqb_neq H2%Z.eqb_neq]
      by (destruct s; vm_compute command_port; vm_compute data_port; lia). by rewrite H1, H2.
  - rewrite pit_out. assert (port <> Pit.COMMAND /\ port <> Pit.CHANNEL0_DATA) as [H1%Z.eqb_neq H2%Z.eqb_neq]
      by (unfold Pit.COMMAND, Pit.CHANNEL0_DATA; lia). by rewrite H1, H2.
Qed.

Lemma quiet_in c t d port : ata_port port -> quiet c t d -> quiet c t (snd (inb d port)).
Proof.
  intros Hp [Hc Ht]. unfold ata_port in Hp. split; [intros s; by rewrite pic_in|].
  rewrite pit_in; [done|]. unfold Pit.CHANNEL0_DATA. lia.
Qed.

Lemma quiet_word c t d port : quiet c t d -> quiet c t (snd (inw d port)).
Proof. intros [Hc Ht]. split; [intros s; by rewrite bm_pic_word|by rewrite bm_pit_word]. Qed.

Definition settled_laws (c : side -> Chip) (t : Channel) (Hok : disk_ok disk) : BlockLaws (D * AtaController) disk :=
  keeping_laws (quiet c t) (quiet_out c t) (quiet_in c t) (quiet_word c t) disk Hok.

Lemma settled_init c t d : settled c t d -> exists d', init d = (d', mkAta true) /\ settled c t d'.
Proof.
  intros [[f Hf] Hc Ht]. pose proof (init_keeps (quiet c t) (quiet_out c t) (quiet_in c t) d (conj Hc Ht)) as [Hc' Ht'].
  destruct (init_probes d f Hf) as (d' & f' & He & Hi). rewrite He in *. exists d'. split; [done|].
  split; [by exists f'|exact Hc'|exact Ht'].
Qed.

End boot.

(** ** A concrete machine *)

Section board.
Context (disk : Z -> list Z).

Record PC := mkPC { p_board : Board; p_wire : Wire; p_drive : Drive disk }.

Definition is_ata_port (port : Z) : bool := (0x1f0 <=? port) && (port <=? 0x1f7).
Definition is_kbd_port (port : Z) : bool := (port =? Keyboard.DATA_PORT) || (port =? Keyboard.STATUS_PORT).

#[export] Instance PC_io : PortIO PC := {|
  outb c port v :=
    mkPC (outb (p_board c) port v) (p_wire c) (if is_ata_port port then outb (p_drive c) port v else p_drive c);
  inb c port :=
    if is_ata_port port then let '(v, d) := inb (p_drive c) port in (v, mkPC (p_board c) (p_wire c) d)
    else if is_kbd_port port then let '(v, w) := inb (p_wire c) port in (v, mkPC (p_board c) w (p_drive c))
    else let '(v, b) := inb (p_board c) port in (v, mkPC b (p_wire c) (p_drive c))
|}.

#[export] Instance PC_word : WordIO PC := fun c port =>
  let '(v, d) := inw (p_drive c) port in (v, mkPC (p_board c) (p_wire c) d).

Lemma board_same (b : Board) port : snd (inb b port) = b.
Proof. destruct b as [t pr]. reflexivity. Qed.

Lemma pc_board (c : PC) port : p_board (snd (inb c port)) = p_board c.
Proof.
  cbn [inb PC_io]. destruct (is_ata_port port); [by destruct (inb (p_drive c) port)|].
  destruct (is_kbd_port port); [by destruct (inb (p_wire c) port)|].
  pose proof (board_same (p_board c) port) as Hb. destruct (inb (p_board c) port). exact Hb.
Qed.

#[export] Instance PC_pic : PicDevice PC.
Proof.
  refine {| chips c := chips (p_board c) |}.
  - intros c port v s. exact (pic_out (p_board c) port v s).
  - intros c port s. by rewrite pc_board.
  - intros c s. rewrite <-(pic_in_command (p_board c) s). by destruct s.
  - intros c s. rewrite <-(pic_in_data (p_board c) s). by destruct s.
Defined.

#[export] Instance PC_pit : PitDevice PC.
Proof.
  refine {| channel0 c := channel0 (p_board c) |}.
  - intros c port v. exact (pit_out (p_board c) port v).
  - intros c port _. by rewrite pc_board.
Defined.

#[export] Instance PC_keyboard : KeyboardDevice PC.
Proof.
  refine {| pending c := pending (p_wire c) |}.
  - intros c. exact (kb_status (p_wire c)).
  - done.
  - intros c b bs Hp. exact (kb_data (p_wire c) b bs Hp).
  - done.
  - intros c port H1 H2. cbn [inb PC_io]. destruct (is_ata_port port); [by destruct (inb (p_drive c) port)|].
    unfold is_kbd_port. apply Z.eqb_neq in H1, H2. rewrite H1, H2. cbn [orb]. by destruct (inb (p_board c) port).
Defined.

(** The drive sees its own ports only. *)
Lemma pc_drive_in (c : PC) : fst (inb c STATUS_CMD) = fst (inb (p_drive c) STATUS_CMD) /\
  p_drive (snd (inb c STATUS_CMD)) = snd (inb (p_drive c) STATUS_CMD).
Proof. cbn [inb PC_io]. change (is_ata_port STATUS_CMD) with true. by destruct (inb (p_drive c) STATUS_CMD). Qed.

Lemma pc_drive_word (c : PC) : fst (inw c DATA) = fst (inw (p_drive c) DATA) /\ p_drive (snd (inw c DATA)) = snd (inw (p_drive c) DATA).
Proof. unfold inw at 1 3, PC_word. by destruct (inw (p_drive c) DATA). Qed.

#[export] Instance PC_ata : AtaDevice PC disk.
Proof.
  refine {| Idle c f := Idle (p_drive c) f; Waiting c n ss := Waiting (p_drive c) n ss; Transfer c ws ss := Transfer (p_drive c) ws ss |}.
  - intros c f Hi. destruct (pc_drive_in c) as [-> ->]. by apply idle_status.
  - intros c f v. apply set_head.
  - intros c f v. apply set_count.
  - intros c f v. apply set_lo.
  - intros c f v. apply set_mid.
  - intros c f v. apply set_hi.
  - intros c f. apply (read_command (p_drive c)).
  - intros c n ss Hw. destruct (pc_drive_in c) as [-> ->]. by apply still_busy.
  - intros c s ss Hw. destruct (pc_drive_in c) as [-> ->]. by apply sector_ready.
  - intros c ws ss Hw. destruct (pc_drive_in c) as [-> ->]. by apply transfer_status.
  - intros c w ws ss Hw. destruct (pc_drive_word c) as [-> ->]. exact (transfer_word (p_drive c) w ws ss Hw).
Defined.

Lemma ata_port_spec port : ~ ata_port port -> is_ata_port port = false.
Proof.
  unfold ata_port, is_ata_port. intros Hn. destruct (Z.leb_spec 0x1f0 port), (Z.leb_spec port 0x1f7); try done. lia.
Qed.

#[export] Instance PC_machine : BootMachine PC disk.
Proof.
  split.
  - intros c f port v Hi Hn. cbn [Idle PC_ata outb PC_io p_drive]. by rewrite (ata_port_spec port Hn).
  - intros c f port Hi Hn. cbn [Idle PC_ata inb PC_io]. rewrite (ata_port_spec port Hn).
    destruct (is_kbd_port port); [by destruct (inb (p_wire c) port)|by destruct (inb (p_board c) port)].
  - intros c port s. unfold inw at 1, PC_word. by destruct (inw (p_drive c) port).
  - intros c port. unfold inw at 1, PC_word. by destruct (inw (p_drive c) port).
Qed.

End board.
Arguments mkPC {disk}.
Arguments p_board {disk}.
Arguments p_wire {disk}.
Arguments p_drive {disk}.

End BootMachine.
