(* ===== verification/BootMemory.v ===== *)
(** * Memory during boot

    From the BIOS map to page tables, heap and task stacks: which frames each
    stage of [kernel_main] takes, that the next one still finds what it needs,
    and that none disturbs what an earlier one has built. *)

From S2P Require Import Prelude.
From S2P Require Import MemMap.
From S2P Require Import FrameAlloc.
From S2P Require Import FramePool.
From S2P Require Import FrameNew.
From S2P Require Import FrameSource.
From S2P Require Import FrameTest.
From S2P Require Import Heap.
From S2P Require Import HeapTiles.
From S2P Require Import HeapFacts.
From S2P Require Import HeapFrame.
From S2P Require Import HeapSpec.
From S2P Require Import HeapTest.
From S2P Require Import Machine.
From S2P Require Import Descriptors.
From S2P Require Import Paging.
From S2P Require Import PagingFacts.
From S2P Require Import Task.
From S2P Require Import TaskFacts.
From S2P Require Import SwitchFacts.
#[local] Open Scope Z_scope.

Module BootMemory.
Import Frame Pool FrameFacts NewFacts FrameSource.

(** ** What boot asks of the machine's memory *)

(** Frames [x, x + n) are RAM of one usable region that nothing is reserved in. *)
Definition free_run (ki : Z * Z) (map : Map.MemoryMap) (n : nat) (x : Z) : Prop :=
  exists r, r ∈ usable map /\ forall i, x <= i < x + Z.of_nat n ->
    frame_inside i (Map.base r) (Map.end_ r) /\ Forall (fun rng => ~ frame_touches i rng.1 rng.2) (reserved_ranges ki).

(** Eight frames for the frame test, up to 1024 for the page directory and its
    tables, 256 for the heap. *)
Definition BOOT_FRAMES : nat := 1288.

Record memory_ok (ki : Z * Z) (guard : Z) (map : Map.MemoryMap) : Prop := {
  mk_map : map_ok map;
  mk_image : 0 <= ki.1 < ki.2;
  mk_mapped : ki.2 <= Paging.identity_map_end map;     (** the image lies in RAM that gets mapped *)
  mk_guard : guard mod 4096 = 0 /\ ki.1 <= guard < ki.2;
  mk_below : forall r, r ∈ usable map -> Map.end_ r <= 2 ^ 32 - 2 ^ 22;
  mk_run : exists x, 0 <= x /\ free_run ki map BOOT_FRAMES x
}.

(** ** A run that is still there *)

Lemma range_split lo hi x n : lo <= x -> x + Z.of_nat n <= hi ->
  range_list lo hi = range_list lo x ++ zrange x n ++ range_list (x + Z.of_nat n) hi.
Proof.
  intros H1 H2. unfold range_list. replace (Z.to_nat (hi - lo)) with (Z.to_nat (x - lo) + (n + Z.to_nat (hi - (x + Z.of_nat n))))%nat by lia.
  rewrite !zrange_app. repeat f_equal; lia.
Qed.

Section frames.
Context (ki : Z * Z) (map : Map.MemoryMap).
Context (Hmap : map_ok map) (Hk1 : 0 <= ki.1 < ki.2) (Hk2 : ki.2 <= 2 ^ 32).

Definition pool0 : pool := mkPool (managed (new ki map)) [] (managed (new ki map)).

Lemma unreserved_new i : Forall (fun rng => ~ frame_touches i rng.1 rng.2) (reserved_ranges ki) ->
  is_reserved (new ki map) i = false.
Proof.
  destruct (new_layout ki map (mo_len _ Hmap)) as (_ & _ & Hres & _). rewrite (is_reserved_ranges _ _ _ Hres).
  intros Hf. apply not_true_iff_false. rewrite existsb_exists. intros (x & Hx%list_elem_of_In & Hc).
  rewrite Forall_forall in Hf. apply (Hf x Hx). apply covering_spec in Hc; [done| |]; clear Hf Hc;
    repeat (apply elem_of_cons in Hx as [->|Hx]; [simpl; try lia; try done|]); by apply elem_of_nil in Hx.
Qed.

(** The run lies in one of the allocator's regions and stands in one piece in
    the list of frames never handed out. *)
Lemma run_in_pool n x : (0 < n)%nat -> 0 <= x -> x + Z.of_nat n <= MAX_FRAME_INDEX -> free_run ki map n x ->
  (forall i, x <= i < x + Z.of_nat n -> is_reserved (new ki map) i = false) /\
  (exists k r, live_regions (new ki map) !! k = Some r /\ start r <= x /\ x + Z.of_nat n <= end_ r) /\
  exists pre post, managed (new ki map) = pre ++ zrange x n ++ post.
Proof.
  intros Hn Hx Hxn (r & Hr & Hin).
  assert (forall i, x <= i < x + Z.of_nat n -> is_reserved (new ki map) i = false) as Hun.
  { intros i Hi. by apply unreserved_new, Hin. }
  split; [done|]. destruct (new_layout ki map (mo_len _ Hmap)) as (_ & Hl & _).
  pose proof (mo_u64 _ Hmap) as Hu. rewrite Forall_forall in Hu.
  assert (forall i, x <= i < x + Z.of_nat n -> contains (inside (Map.base r) (Map.end_ r)) i = true) as Hc.
  { intros i Hi. apply inside_spec; [apply (Hu r Hr)|by apply region_end_u64, Hu|]. split; [by apply Hin|lia]. }
  pose proof (Hc x ltac:(lia)) as Hc0. pose proof (Hc (x + Z.of_nat n - 1) ltac:(lia)) as Hc1.
  apply contains_spec in Hc0, Hc1. set (rg := inside _ _) in *.
  assert (rg ∈ live_regions (new ki map)) as Hrg.
  { rewrite Hl. apply list_elem_of_filter. split; [unfold nonempty, is_empty; lia|]. apply list_elem_of_fmap. by exists r. }
  apply list_elem_of_lookup in Hrg as [k Hk]. split; [exists k, rg; split_and!; [done|lia|lia]|].
  set (L := live_regions (new ki map)) in *.
  assert (mjoin (frames_of <$> L) = (mjoin (frames_of <$> take k L) ++ range_list (start rg) x) ++ zrange x n ++
    range_list (x + Z.of_nat n) (end_ rg) ++ mjoin (frames_of <$> drop (S k) L)) as HL.
  { rewrite <-(take_drop_middle _ _ _ Hk) at 1. rewrite fmap_app, join_app, fmap_cons. cbn [mjoin list_join].
    unfold frames_of at 2. rewrite (range_split _ _ x n) by lia. by rewrite <-!app_assoc. }
  eexists _, _. unfold managed. fold L. rewrite HL, filter_app, (filter_app _ (zrange x n)). f_equal. f_equal.
  apply filter_id, Forall_forall. intros i Hi%elem_of_zrange. by apply Hun.
Qed.

(** After [j] of the fresh frames are spent the rest of the run is a candidate. *)
Lemma run_candidate n x j count a m p : (0 < count)%nat -> (j + count <= n)%nat ->
  0 <= x -> x + Z.of_nat n <= MAX_FRAME_INDEX -> free_run ki map n x ->
  same_layout (new ki map) a -> represents a m p -> spent j pool0 p -> candidate count a (x + Z.of_nat j).
Proof.
  intros Hc Hj Hx Hxn Hrun Hlay Hrep (tk & Htk & Hlen).
  destruct (run_in_pool n x ltac:(lia) Hx Hxn Hrun) as (Hun & (k & r & Hk & Hs & He) & pre & post & Hm).
  split; [intros i Hi; rewrite (same_layout_reserved _ _ _ Hlay); apply Hun; lia|].
  exists k, r. rewrite (same_layout_live _ _ Hlay). split_and!; [done|lia|lia|].
  assert (x + Z.of_nat j ∈ fresh a) as Hin.
  { rewrite <-(rp_fresh _ _ _ Hrep). unfold pool0 in Htk. cbn [p_fresh] in Htk. rewrite Hm in Htk.
    apply (f_equal (fun l => l !! (length pre + j)%nat)) in Htk.
    rewrite lookup_app_r in Htk by lia. replace (length pre + j - length pre)%nat with j in Htk by lia.
    rewrite lookup_app_l in Htk by (rewrite length_zrange; lia). rewrite lookup_zrange in Htk by lia.
    symmetry in Htk. rewrite lookup_app_r in Htk by lia. by apply list_elem_of_lookup_2 in Htk. }
  apply elem_of_fresh in Hin as [_ Hin]. apply (elem_of_remaining a _ (rp_wf _ _ _ Hrep)) in Hin as (k' & r' & Hk' & Hc' & Hcur).
  rewrite (same_layout_live _ _ Hlay) in Hk'.
  assert (k' = k) as ->; [|done]. pose proof (new_wf ki map Hmap) as Hwf.
  apply (wf_disjoint _ Hwf k' k r' r (x + Z.of_nat j)); try done. apply contains_spec. lia.
Qed.

(** ** The frame test *)

Lemma frames_tested m : (8 <= length (managed (new ki map)))%nat ->
  exists fa m' p t, FrameTest.self_test (new ki map) m = Done (fa, m', t) /\
    FrameTest.SelfTest_fmt t = "Frames: self-test ok - 8 distinct, LIFO reuse, double free refused" /\
    FrameTest.frames t = from_index <$> take 8 (managed (new ki map)) /\
    represents fa m' p /\ same_layout (new ki map) fa /\ spent 8 pool0 p /\
    length (avail p) = length (managed (new ki map)).
Proof.
  intros Hn. destruct (new_represents ki map m Hmap) as [Hrep _].
  destruct (FrameTestFacts.self_test_ok (new ki map) m pool0 Hrep Hn)
    as (fa & m' & p & t & Hrun & Hrep' & Hperm & _ & Hf & Hfr & _ & Hc & Hsp & Hlay).
  exists fa, m', p, t. split_and!; try done; [|by rewrite Hperm].
  unfold FrameTest.SelfTest_fmt. by rewrite Hf, Hc.
Qed.

(** ** The page tables *)

(** At most [N] fresh frames are gone once none is available any more. *)
Definition tracked (N : nat) (a : FrameAllocator) (p : pool) : Prop :=
  same_layout (new ki map) a /\ exists j, spent j pool0 p /\ (j + length (avail p) <= N)%nat.

Lemma tracked_alloc N a b p : same_layout a b -> tracked N a p -> tracked N b (pool_alloc p).2.
Proof.
  intros Hab (Hlay & j & Hsp & Hle). split; [by eapply same_layout_trans|].
  destruct (avail p) as [|i l] eqn:Hav; [rewrite (pool_alloc_nil p Hav); exists j; cbn [snd]; by rewrite Hav|].
  pose proof (pool_alloc_spent p) as H1. destruct (pool_alloc_cons p i l Hav) as (p' & Hp & Hav' & _).
  rewrite Hp in *. cbn [snd] in *. exists (j + 1)%nat. split; [by eapply spent_trans|]. rewrite Hav'. simpl in Hle. lia.
Qed.

Lemma spent_le j k p p' : (j <= k)%nat -> spent j p p' -> spent k p p'.
Proof. intros Hjk (tk & ? & ?). exists tk. split; [done|lia]. Qed.

Lemma same_layout_all a m p : same_layout (new ki map) a -> represents a m p -> p_all p = managed (new ki map).
Proof. intros Hlay Hrep. by rewrite (rp_all _ _ _ Hrep), (same_layout_managed _ _ Hlay). Qed.

Lemma tables_built fa m p guard cpu t : let E := Paging.identity_map_end map in
  represents fa m p -> same_layout (new ki map) fa -> spent 8 pool0 p ->
  length (avail p) = length (managed (new ki map)) -> (1024 <= length (avail p))%nat ->
  guard mod 4096 = 0 -> 0 <= guard < E ->
  (forall i, i ∈ managed (new ki map) -> (i + 1) * FRAME_SIZE <= E) -> guard / 4096 ∉ managed (new ki map) ->
  exists fa' m' dir ts held p', Paging.init map guard fa m cpu t =
      Done (fa', m', Paging.enable cpu (start_address dir), Tss.set_page_directory t (start_address dir),
            Paging.mkReport (start_address dir) E (E / 2 ^ 22) true guard) /\
    0 < start_address dir /\ PagingFacts.tree m' dir guard held ts /\ Z.of_nat (length ts) = E / 2 ^ 22 /\
    (forall i, i ∈ held -> i ∈ managed (new ki map) /\ i ∉ avail p') /\
    represents fa' m' p' /\ same_layout (new ki map) fa' /\ spent 1032 pool0 p'.
Proof.
  intros E Hrep Hlay Hsp Hlen Hn Hg Hgr Hlow Hgm. destruct (PagingFacts.identity_map_end_spec map) as (HE & _). fold E in HE.
  assert (0 <= E / 2 ^ 22 <= 1023) as HEd.
  { change (2 ^ 22) with 4194304 in *. change (2 ^ 32) with 4294967296 in *. clearbody E. Z.div_mod_to_equations. lia. }
  set (N := (8 + length (avail p))%nat).
  pose proof (PagingFacts.init_builds (H0 := allocator_laws_with (eq (guard / 4096)) (tracked N) (tracked_alloc N))
    fa m E {[guard / 4096]} (length (avail p)) map guard cpu t) as Hb. cbn zeta in Hb. fold E in Hb.
  destruct Hb as (fa' & m' & dir & ts & Hrun & Htk & Hts & Htree & _ & Hok); try done; try lia.
  { split; [lia|]. exists p. rewrite (same_layout_all fa m p) by done. split_and!; try done.
    - intros i Hi. split; [by apply (PagingFacts.managed_bounds_new ki map)|by apply Hlow].
    - intros i ->%elem_of_singleton. split; [by right|]. intros Hi.
      apply (avail_managed fa m p _ Hrep) in Hi. by rewrite (same_layout_all fa m p) in Hi.
    - split; [done|]. exists 8%nat. by split. }
  { by apply elem_of_singleton. }
  destruct Hok as (_ & p' & Hrep' & Hav & _ & Hheld & Hlay' & j & Hj & Hjn).
  exists fa', m', dir, ts, (PagingFacts.frames (dir :: ts)), p'. split_and!; try done.
  - destruct (PagingFacts.tk_frame _ _ _ Htk dir (list_elem_of_here _ _)) as (_ & Hpos & _).
    rewrite (PagingFacts.start_address_eq dir (PagingFacts.tr_dir_ok _ _ _ _ _ Htree)). lia.
  - by eapply PagingFacts.tree_tight.
  - intros i Hi. rewrite <-(same_layout_all fa' m' p') by done.
    destruct (Hheld i) as [[Hi'|Hi'] Hnav]; [by apply elem_of_union_l|done|exfalso].
    apply PagingFacts.elem_of_frames in Hi as (f & Hf & ->).
    destruct (PagingFacts.tk_frame _ _ _ Htk f Hf) as [Hn' _]. by apply Hn', elem_of_singleton.
  - apply (spent_le j); [|done]. unfold N in Hjn. lia.
Qed.

(** ** The heap *)

(** The frames of the heap are taken from the fresh ones; no other word is
    written. *)
Lemma heap_started fa m p x h : represents fa m p -> same_layout (new ki map) fa -> spent 1032 pool0 p ->
  (forall r, r ∈ usable map -> Map.end_ r <= 2 ^ 32 - 2 ^ 22) -> 0 <= x -> free_run ki map BOOT_FRAMES x ->
  exists fa' h' m' s, Heap.init fa h m = Done (fa', h', m', Heap.mkReport (s * 4096) Heap.HEAP_SIZE true) /\
    HeapFacts.heap_rep h' m' (HeapSpec.one_hole (s * 4096) Heap.HEAP_SIZE) /\
    Heap.heap_start h' = s * 4096 /\ Heap.heap_end h' = s * 4096 + Heap.HEAP_SIZE /\ Heap.allocations h' = 0 /\
    (forall i, s <= i < s + 256 -> i ∈ avail p) /\
    (exists p', represents fa' m' p' /\ p_all p' = p_all p /\
       forall i, i ∈ avail p' -> i ∈ avail p /\ ~ (s <= i < s + 256)) /\
    (forall a, a < s * 4096 \/ s * 4096 + Heap.HEAP_SIZE <= a -> m'.[a] = m.[a]).
Proof.
  intros Hrep Hlay Hsp Hbelow Hx Hrun.
  assert (forall i, i ∈ p_all p -> 0 < i < MAX_FRAME_INDEX - 1) as Hb.
  { intros i. rewrite (same_layout_all fa m p) by done. intros Hi.
    pose proof (PagingFacts.managed_bounds_new ki map i Hmap Hk1 Hk2 Hi).
    apply new_managed in Hi as ((r & Hr & _ & Hi) & _); [|done..]. specialize (Hbelow r Hr).
    change MAX_FRAME_INDEX with 1048576. lia. }
  assert (x + Z.of_nat BOOT_FRAMES <= MAX_FRAME_INDEX) as Hxn.
  { destruct Hrun as (r & Hr & Hin). specialize (Hbelow r Hr).
    destruct (Hin (x + Z.of_nat BOOT_FRAMES - 1)) as [[_ Hi] _]; [unfold BOOT_FRAMES; lia|].
    change MAX_FRAME_INDEX with 1048576. lia. }
  destruct (HeapSpec.heap_init_run fa m p h Hrep) as (fa' & h' & m' & r & Hi & Hr).
  { intros Hi. specialize (Hb _ Hi). lia. }
  { intros Hi. specialize (Hb _ Hi). lia. }
  destruct r as [s sz [|]]; cbn [Heap.r_ready Heap.r_start Heap.r_size] in Hr.
  - destruct Hr as (f & -> & -> & _ & Hrep' & Hst & Hen & Hal & Hpl & Hfr & Hsub & Hout).
    exists fa', h', m', (index f). split_and!; try done; [intros i Hi'; apply elem_of_app; right; by apply Hfr|].
    eexists. split; [exact Hpl|]. split; [done|]. intros i Hi'. split.
    + apply elem_of_app in Hi' as [Hi'|Hi']; apply elem_of_app; [by left|right; by apply Hsub].
    + intros Hr. by apply (Hfr i Hr).
  - destruct Hr as (_ & _ & Hno). exfalso. apply (Hno (x + Z.of_nat 1032)).
    apply (run_candidate BOOT_FRAMES x 1032 _ fa m p); try done; change (Z.to_nat Heap.HEAP_FRAMES) with 256%nat; unfold BOOT_FRAMES; lia.
Qed.

End frames.

Lemma memory_bounds ki guard map : memory_ok ki guard map ->
  ki.2 <= 2 ^ 32 /\ 0 <= guard < Paging.identity_map_end map /\ (BOOT_FRAMES <= length (managed (new ki map)))%nat.
Proof.
  intros [Hmap Hk Hmp [Hg1 Hg2] Hbelow (x & Hx & Hrun)].
  destruct (PagingFacts.identity_map_end_spec map) as (HE & _). split; [lia|]. split; [lia|].
  destruct (run_in_pool ki map Hmap Hk ltac:(lia) BOOT_FRAMES x) as (_ & _ & pre & post & ->); try done.
  - unfold BOOT_FRAMES. lia.
  - pose proof Hrun as (r & Hr & Hin). specialize (Hbelow r Hr).
    destruct (Hin (x + Z.of_nat BOOT_FRAMES - 1)) as [[_ Hi] _]; [unfold BOOT_FRAMES; lia|].
    change MAX_FRAME_INDEX with 1048576. lia.
  - rewrite !length_app, length_zrange. lia.
Qed.

(** No frame of the pool has a byte of the kernel image. *)
Lemma image_unmanaged ki guard map a : memory_ok ki guard map -> ki.1 <= a < ki.2 -> a / 4096 ∉ managed (new ki map).
Proof.
  intros Hok Ha Hi. destruct (memory_bounds _ _ _ Hok) as (Hk & _). destruct Hok as [Hmap Hk1 _ _ _ _].
  apply new_managed in Hi as (_ & _ & Hres); [|done..]. rewrite Forall_forall in Hres.
  apply (Hres ki); [unfold reserved_ranges; do 2 apply list_elem_of_further; apply list_elem_of_here|].
  exists a. split; [done|]. clear. Z.div_mod_to_equations. lia.
Qed.

(** Every frame of the pool is mapped. *)
Lemma managed_mapped ki guard map a : memory_ok ki guard map -> a / 4096 ∈ managed (new ki map) ->
  (a <? Paging.identity_map_end map) && negb (a / 4096 * 4096 =? guard) = true.
Proof.
  intros Hok Hi. destruct (memory_bounds _ _ _ Hok) as (Hk & _).
  assert (a / 4096 * 4096 <> guard) as Hg%Z.eqb_neq.
  { intros Hg. apply (image_unmanaged ki guard map guard Hok); [apply (mk_guard _ _ _ Hok)|].
    rewrite <-Hg, Z.div_mul by done. exact Hi. }
  rewrite Hg. destruct Hok as [Hmap Hk1 _ _ Hbelow _].
  apply new_managed in Hi as ((r & Hr & Hin) & Hb & _); [|done..].
  destruct (PagingFacts.identity_map_end_spec map) as (_ & _ & Hall). specialize (Hbelow r Hr).
  unfold frame_inside in Hin. specialize (Hall r (proj1 (list_elem_of_In _ _) Hr) ltac:(lia)).
  pose proof (Z.mul_succ_div_gt a 4096 ltac:(lia)).
  assert (a < Paging.identity_map_end map) as Hlt by lia. apply Z.ltb_lt in Hlt. by rewrite Hlt.
Qed.

(** So every frame ends below the end of the map, and none of them is the guard
    page's. *)
Lemma managed_low ki guard map : memory_ok ki guard map ->
  (forall i, i ∈ managed (new ki map) -> (i + 1) * FRAME_SIZE <= Paging.identity_map_end map) /\
  guard / 4096 ∉ managed (new ki map).
Proof.
  intros Hok. split; [|apply (image_unmanaged ki guard map); [done|apply Hok]]. intros i Hi.
  pose proof (managed_mapped ki guard map (i * 4096) Hok) as Hm. rewrite Z.div_mul in Hm by done.
  apply andb_prop in Hm as [Hlt%Z.ltb_lt _]; [|done]. change FRAME_SIZE with 4096.
  destruct (PagingFacts.identity_map_end_spec map) as (_ & Hmod & _). change (2 ^ 22) with 4194304 in Hmod.
  revert Hlt Hmod. generalize (Paging.identity_map_end map). clear. intros. Z.div_mod_to_equations. lia.
Qed.

(** ** Task stacks *)
Section spawning.
Import Task TaskFacts SwitchFacts Tiles HeapFacts HeapFrame.
Context (slot : nat -> Z) (trampoline : Z).

(** A task with the stack at [ptr] that has not run: the trampoline will find
    its entry. *)
Definition waits_fresh (m : mem) (id : nat) (ptr entry : Z) : Prop :=
  let top := (ptr + STACK_SIZE) / 16 * 16 in parked m (slot id) (fresh trampoline top) /\ m.[top - 4] = entry.

Lemma waits_fresh_agree m m' id ptr entry : waits_fresh m id ptr entry -> m'.[slot id] = m.[slot id] ->
  (forall a, ptr <= a < ptr + STACK_SIZE -> m'.[a] = m.[a]) -> waits_fresh m' id ptr entry.
Proof.
  intros [Hp He] Hs Ha. assert (STACK_SIZE = 8192) as Hss by done.
  assert (ptr + 24 <= (ptr + STACK_SIZE) / 16 * 16 <= ptr + STACK_SIZE) as Ht by (rewrite Hss; clear; Z.div_mod_to_equations; lia).
  split; [|rewrite Ha by lia; exact He]. apply (parked_agree m); [exact Hp|]. intros a [->|Hr]; [done|]. apply Ha. cbn in Hr. lia.
Qed.

(** A new task on a heap with room for its stack: it is parked at its entry, on
    a block of its own, and no word of the heap's other clients, or outside the
    heap, has changed - but for its own saved stack pointer. *)
Record spawned (entry R : Z) (c : nat) (q : list nat) (st : State) (h : Heap.Heap) (m : mem) (ts : list tile)
    (st' : State) (h' : Heap.Heap) (m' : mem) (ts' : list tile) (id : nat) (ptr : Z) : Prop := {
  sp_run : spawn slot trampoline st h m entry = Done (st', h', m', Some id);
  sp_heap : heap_rep h' m' ts' /\ room R ts' /\ Heap.allocations h' = Heap.allocations h + 1;
  sp_bounds : Heap.heap_start h' = Heap.heap_start h /\ Heap.heap_end h' = Heap.heap_end h;
  sp_others : forall a, payload ts a -> payload ts' a;
  sp_stack : forall a, ptr <= a < ptr + STACK_SIZE -> payload ts' a /\ ~ payload ts a;
  sp_slot : id ∉ c :: q /\ forall i, (i < id)%nat -> i ∈ c :: q;
  sp_queue : st_ok st' c (q ++ [id]) /\ TURNS st' = TURNS st;
  sp_table : tasks (sched st') = <[id := Some (mkTask (Some ptr))]> (tasks (sched st));
  sp_fresh : waits_fresh m' id ptr entry;
  sp_frame : forall a, foreign h ts a -> a <> slot id -> m'.[a] = m.[a]
}.

Lemma spawn_client st h m ts entry c q R :
  heap_rep h m ts -> 8 <= R -> room (STACK_SIZE + 16 + R) ts -> Heap.allocations h < U32_MAX ->
  st_ok st c q -> (length (c :: q) < MAX_TASKS)%nat -> is_u32 trampoline -> is_u32 entry ->
  (forall i, (i < MAX_TASKS)%nat -> outside h (slot i)) ->
  exists st' h' m' ts' id ptr, spawned entry R c q st h m ts st' h' m' ts' id ptr.
Proof.
  intros Hrep HR Hroom Hal Hok Hlen Htr Hen Hslot. assert (STACK_SIZE = 8192) as Hss by done.
  destruct (allocate_client h m ts STACK_SIZE R Hrep ltac:(lia) ltac:(change U32_MAX with 4294967295; lia) HR Hroom Hal)
    as (h1 & m1 & pre & t & post & Ha & Hrep1 & Htl & Hts & Hsame & _ & Hal1 & Hroom1 & Hst & Hend & Hfor).
  pose proof Hrep1 as [Htt _ H0 Hlo _ Hhi _ _]. change U32_MAX with 4294967295 in Hhi.
  assert (t ∈ pre ++ t :: post) as Ht by (apply elem_of_app; right; apply list_elem_of_here).
  destruct (tiled_elem _ _ _ _ Htt Hlo Ht) as (Hlow & Hup & _).
  destruct (spawn_spec slot trampoline entry st h h1 m m1 (t_addr t + 8) c q Hok Hlen Htr Hen Ha ltac:(lia) ltac:(lia))
    as (st' & mp & id & top & Hspawn & Htop & Hni & Hok' & Hmin & Hu & Htk & He & Hb & Hz & Hfr).
  assert (outside h (slot id)) as Hout.
  { apply Hslot. eapply (so_bound _ _ _ id Hok'). apply list_elem_of_further, elem_of_app. right. apply list_elem_of_singleton. done. }
  unfold outside in Hout. rewrite <-Hst, <-Hend in Hout.
  assert (t_addr t + 8 + 24 <= top <= t_addr t + 8 + STACK_SIZE) as Htb.
  { rewrite Hss in *. clear - Htop. Z.div_mod_to_equations. lia. }
  assert (forall a, payload ts a -> payload (pre ++ t :: post) a /\ ~ (t_addr t + 8 <= a < t_addr t + 8 + STACK_SIZE)) as Hpay.
  { intros a (y & Hy & Hyl & Hya). apply (Hsame y Hyl) in Hy. apply (others _ _ _ _ _ y Htt Hlo) in Hy as [Hy Hne].
    split; [by exists y|]. destruct (tiled_disjoint _ _ _ _ _ Htt Hlo Ht Hy) as [->|Hd]; [done|lia]. }
  exists st', h1, (mp.[slot id <- top - 24]), (pre ++ t :: post), id, (t_addr t + 8). split; try done.
  - split_and!; [|done..]. apply (heap_rep_foreign h1 m1); [done|]. intros x Hx. rewrite load_store_ne.
    + apply Hfr. intros Hr. apply Hx. left. exists t. split; [done|]. split; [done|lia].
    + intros <-. apply Hx. right. unfold outside. lia.
  - intros a Ha'. by apply Hpay.
  - intros a Ha'. split; [exists t; split; [done|]; split; [done|lia]|]. intros Hp%Hpay. by destruct Hp.
  - unfold waits_fresh. rewrite <-Htop. split.
    + apply parked_fresh; [lia|by rewrite load_store_eq|..]; intros; rewrite load_store_ne by lia; auto.
    + rewrite load_store_ne by lia. exact He.
  - intros a [Hp|Ho] Hne; (rewrite load_store_ne by done); (rewrite Hfr; [apply Hfor|]).
    + by left.
    + by apply Hpay.
    + by right.
    + unfold outside in Ho. lia.
Qed.

End spawning.
End BootMemory.
