(* ===== verification/BootFacts.v ===== *)
(** * The kernel boots

    Each stage of [kernel_main] as an update of the kernel's state, and their
    composition: from the state the boot sector leaves, on a machine with
    enough memory and a drive with the shipped image, to the shell's prompt. *)

From S2P Require Import Prelude.
From S2P Require Import Fmt.
From S2P Require Import MemMap.
From S2P Require Import FrameAlloc.
From S2P Require Import FramePool.
From S2P Require Import FrameNew.
From S2P Require Import FrameTest.
From S2P Require Import Heap.
From S2P Require Import HeapTiles.
From S2P Require Import HeapFacts.
From S2P Require Import HeapFrame.
From S2P Require Import HeapSpec.
From S2P Require Import HeapTest.
From S2P Require Import Machine.
From S2P Require Import Descriptors.
From S2P Require Import DescriptorFacts.
From S2P Require Import Pic.
From S2P Require Import Interrupts.
From S2P Require Import InterruptFacts.
From S2P Require Import Paging.
From S2P Require Import PagingFacts.
From S2P Require Import Keyboard.
From S2P Require Import Task.
From S2P Require Import TaskFacts.
From S2P Require Import SwitchFacts.
From S2P Require Import Ata.
From S2P Require Import AtaFacts.
From S2P Require Import GoatFs.
From S2P Require Import GoatFsFacts.
From S2P Require Import GoatFsSpec.
From S2P Require Import Shell.
From S2P Require Import Pit.
From S2P Require Import Graphics.
From S2P Require Import Boot.
From S2P Require Import BootMachine.
From S2P Require Import BootMemory.
#[local] Open Scope Z_scope.

Module BootFacts.
Import Machine Ata AtaDrive AtaFacts PicHw Pit8254 BootMachine BootMemory Shell Boot.
#[local] Existing Instance Idt.Gate_inhabited.

(** Projections of the kernel state are unfolded before what they project. *)
#[local] Strategy expand [dev cpu memory screen gdt idt tss ints frames heap TICKS kbd queue ata fs sched WRITER SERIAL1 log].

(** ** Lines on the serial port *)

Definition line (s : string) : effect := SerialPrint (Fmt.bytes s ++ nl).
Definition says (es : list effect) (s : string) : Prop := line s ∈ es.

Lemma says_serial s : says (serial_println s) s.
Proof. apply list_elem_of_here. Qed.
Lemma says_diag s : says (diag_println s) s.
Proof. apply list_elem_of_further, list_elem_of_here. Qed.
Lemma says_l es es' s : says es s -> says (es ++ es') s.
Proof. intros Hs. apply elem_of_app. by left. Qed.
Lemma says_r es es' s : says es' s -> says (es ++ es') s.
Proof. intros Hs. apply elem_of_app. by right. Qed.

Lemma says_lines ls : Forall (says (mjoin (serial_println <$> ls))) ls.
Proof.
  apply Forall_forall. intros l Hl. apply list_elem_of_join. exists (serial_println l).
  split; [apply says_serial|by apply list_elem_of_fmap_2].
Qed.
Lemma all_says_l es es' ls : Forall (says es) ls -> Forall (says (es ++ es')) ls.
Proof. intros Hl. apply (Forall_impl _ _ _ Hl). intros l. apply says_l. Qed.
Lemma all_says_r es es' ls : Forall (says es') ls -> Forall (says (es ++ es')) ls.
Proof. intros Hl. apply (Forall_impl _ _ _ Hl). intros l. apply says_r. Qed.

Create HintDb boot.
#[local] Hint Resolve says_serial says_diag says_l says_r : boot.

(** Runs the straight-line part of a stage on an explicit state. *)
Tactic Notation "run" reference(f) :=
  cbv beta iota zeta delta [f print dev cpu memory screen gdt idt tss ints frames heap TICKS kbd queue ata fs sched WRITER SERIAL1 log].

Section boot.
Context {D : Type} `{PortIO D} `{WordIO D} {disk : Z -> list Z}.
Context `{!PicDevice D} `{!PitDevice D} `{!AtaDevice D disk} `{!BootMachine D disk}.
Context (p : Program).

Abbreviation K := (Kernel D).

(** ** Tables and controllers *)

Definition table_cpu (k : K) : Cpu :=
  {| (Gdt.load (cpu k) (mkPointer 39 (Image.gdt_addr (image p)))) with tr := Gdt.MAIN_TSS_SELECTOR;
     idtr := Idt.for_table (image p) |}.

Definition table_gdt : list Z :=
  [Gdt.NULL; Gdt.flat Gdt.ACCESS_KERNEL_CODE; Gdt.flat Gdt.ACCESS_KERNEL_DATA;
   Z.lor (Gdt.tss_descriptor (Tss.main_task (image p))) (Z.shiftl 1 41);
   Gdt.tss_descriptor (Tss.double_fault_task (image p))].

(** What [gdt::loaded] reads back. *)
Lemma segments_loaded (k : K) : length (gdt k) = 5%nat ->
  Gdt.loaded (cpu (start_segments p (start_display k))) = Gdt.mkLoaded (Image.gdt_addr (image p)) 39 0x08 0x10 0x18.
Proof.
  intros Hg. destruct k. cbn [gdt] in Hg. run start_display. run start_segments.
  by rewrite InterruptFacts.gdt_contents.
Qed.

(** Four vectors have handlers by then. *)
Lemma exceptions_loaded c : idtr c = Idt.for_table (image p) ->
  Idt.loaded c (Exceptions.init (entries p) (replicate 256 Idt.MISSING)) = Idt.mkLoaded (Image.idt_addr (image p)) 2047 4.
Proof. intros Hc. unfold Idt.loaded. rewrite Hc. reflexivity. Qed.

Lemma tables_up (k : K) : length (gdt k) = 5%nat -> length (idt k) = 256%nat ->
  exists es, start_exceptions p (start_segments p (start_display k)) =
    {| k with screen := Framebuffer.fill (screen k) Framebuffer.SOLID_COLOR;
              tss := Tss.init (image p) (tss k) (Exceptions.double_fault_entry (entries p));
              gdt := table_gdt; cpu := table_cpu k;
              idt := Exceptions.init (entries p) (replicate 256 Idt.MISSING); log := log k ++ es |} /\
    says es framebuffer_line.
Proof.
  intros Hg Hi. destruct k. cbn [gdt idt] in Hg, Hi. run start_display. run start_segments.
  rewrite InterruptFacts.gdt_contents by done. run start_exceptions. unfold Idt.init at 1.
  rewrite InterruptFacts.missing_table by done. cbv iota. eexists. rewrite <-!app_assoc. split; [reflexivity|].
  auto with boot.
Qed.

(** The controllers after [pic::init], with mask [m] on the master; [c] is what
    the BIOS left. *)
Definition lines (m : Z) (c : side -> Chip) (s : side) : Chip :=
  {| (c s) with icw := 0; imr := (match s with Master => m | Slave => 0xff end); mode := 1;
     base := (match s with Master => 32 | Slave => 40 end);
     cascade := (match s with Master => 4 | Slave => 2 end) |}.

(** Initialization lets the command port read requests again. *)
Definition cleared (c : side -> Chip) (s : side) : Chip := {| (c s) with read_isr := false |}.

Lemma lines_operating m c (d : D) : 0 <= m < 256 -> (forall s, chips d s = lines m c s) -> PicFacts.operating d.
Proof. intros Hm Hc s. rewrite Hc. destruct s; cbn [lines icw imr]; split; lia. Qed.

Lemma pic_up (k : K) f : Idle (dev k) f ->
  exists d es, start_pic k = ({| k with dev := d; log := log k ++ es |}, Pic.mkState 32 47 0xff 0xff) /\ Idle d f /\
    (forall s, chips d s = lines 0xff (cleared (chips (dev k))) s).
Proof.
  intros Hf. unfold start_pic. pose proof (idle_pic_state _ f (idle_pic_init _ f Hf)) as Hi.
  destruct (PicFacts.state_reads (Pic.init (dev k))) as (d & He & _ & Hc). rewrite He in *. rewrite !PicFacts.init_chips.
  exists d. eexists. split; [reflexivity|]. split; [done|]. intros s. rewrite Hc, PicFacts.init_chips. by destruct s.
Qed.

Lemma catch_all_up (k : K) : idt k = Exceptions.init (entries p) (replicate 256 Idt.MISSING) ->
  InterruptFacts.entries_u32 (entries p) ->
  exists t es, start_catch_all p k =
      ({| k with ints := Interrupts.mkIState 0 ((fun _ => 0) <$> Interrupts.reported (ints k)); idt := t;
                 log := log k ++ es |}, 252%nat) /\
    length t = 256%nat /\
    (forall v, 0 <= v < 256 -> Hw.gate_target (t !!! Z.to_nat v) = InterruptFacts.expected (entries p) v).
Proof.
  intros Hi He. unfold start_catch_all. rewrite Hi.
  destruct (InterruptFacts.catch_all_ok (entries p) (ints k) He) as (t & -> & Hl & Ht).
  exists t. eexists. split; [reflexivity|done].
Qed.

(** ** Memory *)

Section memory.
Context (map : Map.MemoryMap) (Hmem : memory_ok (kernel_image p) (guard_page p) map).

Let ki := kernel_image p.
Let pool0 := pool0 ki map.

Lemma frames_up (k : K) : Map.load (memory k) = map ->
  exists fa m t pl es, start_frames p k =
      Done ({| k with frames := fa; memory := m; log := log k ++ es |}, map, Frame.report (Frame.new ki map), t) /\
    FrameTest.SelfTest_fmt t = "Frames: self-test ok - 8 distinct, LIFO reuse, double free refused" /\
    FrameTest.frames t = Frame.from_index <$> take 8 (FrameFacts.managed (Frame.new ki map)) /\
    FrameFacts.represents fa m pl /\ FrameFacts.same_layout (Frame.new ki map) fa /\ FrameFacts.spent 8 pool0 pl /\
    length (FrameFacts.avail pl) = length (FrameFacts.managed (Frame.new ki map)).
Proof.
  intros Hl. destruct (memory_bounds _ _ _ Hmem) as (Hk2 & _ & Hn). destruct Hmem as [Hmap Hk1 _ _ _ _].
  destruct k. cbn [memory] in Hl. run start_frames. rewrite Hl. unfold Frame.init. cbv iota beta zeta.
  destruct (frames_tested ki map Hmap memory0) as (fa & m & pl & t & Hrun & Ht & Hfr & Hrep & Hlay & Hsp & Hlen);
    [unfold BOOT_FRAMES in Hn; unfold ki; lia|].
  fold ki. rewrite Hrun. cbn [mbind outcome_bind]. exists fa, m, t, pl. eexists. rewrite <-!app_assoc. split; [reflexivity|].
  done.
Qed.

(** The lines of [report_serial]. *)
Definition serial_lines (g : Gdt.Loaded) (i : Idt.Loaded) (pic : Pic.State) (spare : nat) (report : Frame.Report)
    (test : FrameTest.SelfTest) : list string :=
  [gdt_line g; idt_line i; Exceptions.INSTALLED_SUMMARY; double_fault_line (image p); pic_line pic; catch_all_line spare] ++
  (region_line <$> Map.regions map) ++ [Map.MemoryMap_fmt map] ++
  ((fun r => "Frames: reserved " +:+ Frame.Reservation_fmt r) <$> Frame.r_reservations report) ++ [Frame.Report_fmt report] ++
  imap (fun i f => "Frame:  #" +:+ Fmt.dec (Z.of_nat i + 1) +:+ " at " +:+ Frame.Frame_fmt f) (FrameTest.frames test) ++
  ((fun f => "Frame:  freed " +:+ Frame.Frame_fmt f) <$> FrameTest.freed test) ++
  match FrameTest.reused test with
  | Some f => ["Frame:  reused " +:+ Frame.Frame_fmt f +:+ " for the next allocation"]
  | None => []
  end ++ [FrameTest.SelfTest_fmt test].

Lemma reported (k : K) g i pic spare report test : exists es,
  report_serial p k g i pic spare map report test = {| k with log := log k ++ es |} /\
  Forall (says es) (serial_lines g i pic spare report test).
Proof.
  exists (mjoin (serial_println <$> serial_lines g i pic spare report test)). split; [|apply says_lines].
  unfold report_serial, print, serial_lines. rewrite !fmap_app, !join_app, <-!list_fmap_compose, fmap_imap.
  do 2 f_equal. by destruct (FrameTest.reused test).
Qed.

(** The test script's lines on paging and heap. *)
Definition paging_line (cr3 : Z) : string :=
  let E := Paging.identity_map_end map in
  "Paging: identity-mapped 0x00000000-" +:+ Fmt.hex 10 E +:+ " (" +:+ Fmt.dec (E / (1024 * 1024)) +:+ " MiB) via "
    +:+ Fmt.dec (E / 2 ^ 22) +:+ " page tables, CR3=" +:+ Fmt.hex 10 cr3 +:+ ", PG=1"
    +:+ (if guard_page p =? 0 then ""
         else Fmt.newline +:+ "Paging: stack guard page " +:+ Fmt.hex 10 (guard_page p) +:+ "-"
                +:+ Fmt.hex 10 (guard_page p + 4096) +:+ " unmapped").
Definition heap_line (start : Z) : string :=
  "Heap: " +:+ Fmt.hex 10 start +:+ "-" +:+ Fmt.hex 10 (start + 0x100000) +:+ " (1024 KiB), free-list allocator ready".

Lemma paging_line_eq cr3 : 0 < cr3 -> let E := Paging.identity_map_end map in
  Paging.Report_fmt (Paging.mkReport cr3 E (E / 2 ^ 22) true (guard_page p)) = paging_line cr3.
Proof.
  intros Hc. unfold Paging.Report_fmt. cbn [Paging.r_cr3]. destruct (Z.eqb_spec cr3 0); [lia|]. reflexivity.
Qed.

Lemma heap_line_eq s : 0 <= s * 4096 -> s * 4096 + Heap.HEAP_SIZE <= U32_MAX ->
  Heap.Report_fmt (Heap.mkReport (s * 4096) Heap.HEAP_SIZE true) = heap_line (s * 4096).
Proof.
  intros H1 H2. unfold Heap.Report_fmt, Heap.report_end, saturating_add_u32. cbn [Heap.r_ready Heap.r_start Heap.r_size negb].
  rewrite Z.min_l by lia. reflexivity.
Qed.

Lemma paging_up (k : K) pl : FrameFacts.represents (frames k) (memory k) pl ->
  FrameFacts.same_layout (Frame.new ki map) (frames k) -> FrameFacts.spent 8 pool0 pl ->
  length (FrameFacts.avail pl) = length (FrameFacts.managed (Frame.new ki map)) ->
  exists fa m dir ts held pl' es, let E := Paging.identity_map_end map in start_paging p k map =
      Done {| k with frames := fa; memory := m; cpu := Paging.enable (cpu k) (Frame.start_address dir);
                     tss := Tss.set_page_directory (tss k) (Frame.start_address dir); log := log k ++ es |} /\
    says es (paging_line (Frame.start_address dir)) /\
    PagingFacts.tree m dir (guard_page p) held ts /\ Z.of_nat (length ts) = E / 2 ^ 22 /\
    (forall i, i ∈ held -> i ∈ FrameFacts.managed (Frame.new ki map) /\ i ∉ FrameFacts.avail pl') /\
    FrameFacts.represents fa m pl' /\ FrameFacts.same_layout (Frame.new ki map) fa /\ FrameFacts.spent 1032 pool0 pl'.
Proof.
  intros Hrep Hlay Hsp Hlen. destruct (memory_bounds _ _ _ Hmem) as (Hk2 & Hg & Hn).
  destruct (managed_low _ _ _ Hmem) as [Hlow Hgm]. destruct Hmem as [Hmap Hk1 _ [Hg1 _] _ _].
  destruct (tables_built ki map Hmap Hk1 Hk2 (frames k) (memory k) pl (guard_page p) (cpu k) (tss k) Hrep Hlay Hsp Hlen)
    as (fa & m & dir & ts & held & pl' & Hrun & Hdir & Ht); [unfold BOOT_FRAMES in Hn; rewrite Hlen; unfold ki; lia|done|done|exact Hlow|exact Hgm|].
  exists fa, m, dir, ts, held, pl'. eexists. cbv zeta. split; [|split; [|exact Ht]].
  - destruct k. run start_paging. cbn [frames memory cpu tss] in Hrun. rewrite Hrun. cbn [mbind outcome_bind].
    rewrite paging_line_eq by done. reflexivity.
  - apply says_diag.
Qed.

(** Room for two task stacks after the heap test. *)
Definition TASK_ROOM : Z := Task.STACK_SIZE + 16 + (Task.STACK_SIZE + 16 + 8).

Lemma heap_up (k : K) pl : FrameFacts.represents (frames k) (memory k) pl ->
  FrameFacts.same_layout (Frame.new ki map) (frames k) -> FrameFacts.spent 1032 pool0 pl ->
  exists fa h m ts pl' s es, start_heap k = Done {| k with frames := fa; heap := h; memory := m; log := log k ++ es |} /\
    (says es (heap_line (s * 4096)) /\ says es "Heap: self-test ok - Vec pushed 64 bytes and read them back") /\
    HeapFacts.heap_rep h m ts /\ HeapFrame.room TASK_ROOM ts /\ Heap.allocations h + 2 <= U32_MAX /\
    Heap.heap_start h = s * 4096 /\ Heap.heap_end h = s * 4096 + Heap.HEAP_SIZE /\
    (forall i, s <= i < s + 256 -> i ∈ FrameFacts.avail pl) /\
    FrameFacts.represents fa m pl' /\ Pool.p_all pl' = FrameFacts.managed (Frame.new ki map) /\
    (forall i, i ∈ FrameFacts.avail pl' -> i ∈ FrameFacts.avail pl /\ ~ (s <= i < s + 256)) /\
    (forall a, HeapFrame.outside h a -> m.[a] = (memory k).[a]).
Proof.
  intros Hrep Hlay Hsp. destruct (memory_bounds _ _ _ Hmem) as (Hk2 & _ & _). destruct Hmem as [Hmap Hk1 _ _ Hbelow (x & Hx & Hrun)].
  destruct (heap_started ki map Hmap Hk1 Hk2 (frames k) (memory k) pl x (heap k) Hrep Hlay Hsp Hbelow Hx Hrun)
    as (fa & h & m & s & Hi & Hh & Hs & He & Ha & Hin & (pl' & Hpl & Hall & Hav) & Hout).
  destruct (HeapTestFacts.heap_test_ok h m (HeapSpec.one_hole (s * 4096) Heap.HEAP_SIZE) TASK_ROOM 2 Hh)
    as (h' & m' & ts' & Ht & Hh' & _ & _ & Hr' & Ha' & Hs' & He' & Hf').
  { vm_compute. congruence. }
  { lia. }
  { eexists. split; [apply list_elem_of_here|]. split; [done|]. vm_compute. congruence. }
  { rewrite Ha. vm_compute. congruence. }
  assert (forall a, HeapFrame.outside h' a -> m'.[a] = m.[a]) as Hf.
  { intros a Ho. apply Hf'. right. unfold HeapFrame.outside in *. by rewrite <-Hs', <-He'. }
  pose proof (HeapFacts.hr_end _ _ _ Hh) as Hend. pose proof (HeapFacts.hr_start _ _ _ Hh) as Hstart. rewrite Hs in Hstart. rewrite He in Hend.
  exists fa, h', m', ts', pl', s. eexists. split_and!; [| | |done|done|done|congruence|congruence|done| | |done|].
  - destruct k. cbn [frames heap memory] in Hi. run start_heap. rewrite Hi. cbn [mbind outcome_bind].
    rewrite Ht. cbn [mbind outcome_bind]. rewrite heap_line_eq by lia. rewrite <-!app_assoc. reflexivity.
  - apply says_l, says_diag.
  - apply says_r, says_diag.
  - apply (FrameFacts.represents_agree fa m); [done|]. intros i Hi'. apply Hf. unfold HeapFrame.outside.
    rewrite Hs', He', Hs, He. change Heap.HEAP_SIZE with (256 * 4096).
    rewrite FrameFacts.link_of_eq by (eapply FrameFacts.chain_bounds; [apply (FrameFacts.rp_chain _ _ _ Hpl)|done]).
    destruct (Hav i ltac:(apply elem_of_app; by left)) as [_ Hn]. lia.
  - by rewrite Hall, (same_layout_all ki map (frames k) (memory k)).
  - intros a Ho. rewrite Hf by done. apply Hout. unfold HeapFrame.outside in Ho. by rewrite Hs', He', Hs, He in Ho.
Qed.

End memory.

(** ** Interrupts, timer, keyboard *)

Definition running : Channel := mkChannel 3 3 None (Some Pit.DIVISOR).

Lemma interrupts_on (k : K) c f : Idle (dev k) f -> (forall s, chips (dev k) s = lines 0xff c s) ->
  Interrupts.unhandled_total (ints k) = 0 ->
  exists d es, enable_interrupts k = {| k with cpu := Interrupts.enable (cpu k); dev := d; log := log k ++ es |} /\
    Idle d f /\ (forall s, chips d s = lines 0xff c s) /\
    says es "Interrupts: enabled (IF=1), IMR 0xff/0xff, 0 unhandled" /\
    says es "GOATos booted successfully! (32-bit, from a hand-written bootloader)".
Proof.
  destruct k. cbn [dev ints idt]. intros Hf Hc Hu. pose proof (idle_pic_state _ f Hf) as Hi.
  destruct (PicFacts.state_reads dev0) as (d & He & _ & Hd). rewrite He in Hi. cbn [snd] in Hi.
  exists d. eexists. split_and!; [|exact Hi|intros s; by rewrite Hd| |].
  - run enable_interrupts. rewrite He, !Hc. unfold Interrupts.unhandled_count. rewrite Hu.
    cbv iota. reflexivity.
  - apply says_l. apply (says_diag "Interrupts: enabled (IF=1), IMR 0xff/0xff, 0 unhandled").
  - apply says_r, says_serial.
Qed.

Lemma timer_up (k : K) c f : Idle (dev k) f -> (forall s, chips (dev k) s = lines 0xff c s) ->
  length (idt k) = 256%nat -> is_u32 (timer_interrupt p) ->
  exists d es, start_timer p k =
      {| k with dev := d; idt := <[32%nat := Idt.interrupt (timer_interrupt p) Tss.KERNEL_CODE_SELECTOR]> (idt k);
                TICKS := 0; log := log k ++ es |} /\
    settled (lines 0xfe c) running d /\
    says es "PIT: channel 0 at 100 Hz (IRQ0 -> vector 32, divisor 11931), IMR 0xfe/0xff".
Proof.
  destruct k. cbn [dev ints idt]. intros Hf Hc Hl Ht. pose proof (idle_pit_init dev0 f idt0 (timer_interrupt p) Hf) as Hi.
  destruct (PitFacts.init_spec dev0 idt0 (timer_interrupt p) (lines_operating 0xff c _ ltac:(lia) Hc) Hl Ht)
    as (d1 & Hrun & Hch & Hm & Hs). rewrite Hrun in Hi. cbn [fst] in Hi.
  pose proof (idle_pic_state _ f Hi) as Hi'.
  destruct (PicFacts.state_reads d1) as (d & He & Hd0 & Hd). rewrite He in Hi'. cbn [snd] in Hi'.
  rewrite Hc in Hm, Hs. exists d. eexists. split_and!; [|split|].
  - run start_timer. rewrite Hrun. cbv iota. rewrite He. rewrite Hm, Hs. cbv iota. reflexivity.
  - by exists f.
  - intros [|]; by rewrite Hd, ?Hm, ?Hs.
  - rewrite Hd0, !pit_in by done. exact Hch.
  - apply (says_diag "PIT: channel 0 at 100 Hz (IRQ0 -> vector 32, divisor 11931), IMR 0xfe/0xff").
Qed.

Lemma keyboard_up (k : K) c : settled (lines 0xfe c) running (dev k) ->
  length (idt k) = 256%nat -> is_u32 (keyboard_interrupt p) ->
  exists d es, start_keyboard p k =
      {| k with dev := d; idt := <[33%nat := Idt.interrupt (keyboard_interrupt p) Tss.KERNEL_CODE_SELECTOR]> (idt k);
                kbd := Keyboard.mkState false false 0; log := log k ++ es |} /\
    settled (lines 0xfc c) running d /\ says es "Keyboard: PS/2 on IRQ1 -> vector 33, IMR 0xfc/0xff".
Proof.
  destruct k. cbn [dev ints idt]. intros Hst Hl Hk. destruct (settled_drain _ _ _ Hst) as [[f Hf] Hc Ht].
  set (d1 := Keyboard.drain_output_buffer dev0) in *.
  destruct (PicFacts.unmask_master d1 Keyboard.IRQ (lines_operating 0xfe c _ ltac:(lia) Hc) ltac:(unfold Keyboard.IRQ; lia)) as [Hm Hs].
  rewrite Hc in Hm, Hs. pose proof (idle_unmask d1 f Keyboard.IRQ ltac:(done) Hf) as Hi.
  pose proof (PitFacts.unmask_keeps_timer d1 Keyboard.IRQ ltac:(done)) as Htm.
  set (d2 := Pic.unmask d1 Keyboard.IRQ) in *. pose proof (idle_pic_state _ f Hi) as Hi'.
  destruct (PicFacts.state_reads d2) as (d & He & Hd0 & Hd). rewrite He in Hi'. cbn [snd] in Hi'.
  exists d. eexists. split_and!; [|split|].
  - run start_keyboard. unfold Keyboard.init. fold d1. fold d2. cbv zeta iota.
    rewrite He, Hm, Hs. unfold Idt.set_gate. rewrite as_u32_id by done. cbv iota. reflexivity.
  - by exists f.
  - intros [|]; by rewrite Hd, ?Hm, ?Hs.
  - rewrite Hd0, !pit_in by done. by rewrite Htm.
  - apply says_l. apply (says_diag "Keyboard: PS/2 on IRQ1 -> vector 33, IMR 0xfc/0xff").
Qed.

(** ** The disk *)

Definition hello : list Z := Fmt.bytes GoatFs.HELLO_TXT_CONTENTS.

Lemma ready_settled c t (Hok : disk_ok disk) d :
  bl_ready (BlockLaws := settled_laws c t Hok) (d, mkAta true) <-> settled c t d.
Proof.
  split; [intros (Hf & _ & Hc & Ht); by split|intros [Hf Hc Ht]; by split].
Qed.

Lemma ready_dev c t (Hok : disk_ok disk) b : bl_ready (BlockLaws := settled_laws c t Hok) b -> settled c t b.1.
Proof. intros (Hf & _ & Hc & Ht). by split. Qed.

Lemma disk_up (k : K) c t img : settled c t (dev k) -> disk_ok disk -> GoatFs.Packer.pack GoatFs.Packer.FILES = Some img ->
  GoatFsFacts.installed disk img -> fs k = GoatFs.boot ->
  exists d st es, start_disk k = Done {| k with dev := d; ata := mkAta true; fs := st; log := log k ++ es |} /\
    settled c t d /\ GoatFsSpec.shipped_fs st /\
    says es "ATA: PIO primary master ready" /\ says es "FS: GOATFS at LBA 2048 (1 file), mounted" /\
    says es "FS: self-test ok (hello.txt ok)" /\ SerialPrint hello ∈ es.
Proof.
  destruct k. cbn [dev fs]. intros Hst Hok Hp Hin ->.
  destruct (settled_init c t dev0 Hst) as (d1 & Hi & H1).
  destruct (GoatFsSpec.shipped_mounts (H0 := settled_laws c t Hok) img (d1, mkAta true) Hp Hin)
    as (b2 & st & Hm & H2%ready_dev & Hs); [by apply ready_settled|].
  assert (forall d, settled c t d -> exists b, GoatFsSpec.reads_hello st (d, mkAta true) b /\ settled c t b.1) as Hr'.
  { intros d Hd. destruct (GoatFsSpec.shipped_reads (H0 := settled_laws c t Hok) img st (d, mkAta true) Hp Hin Hs)
      as [(b & Hb & Hbr%ready_dev) _]; [by apply ready_settled|]. by exists b. }
  destruct (Hr' b2.1 H2) as (b3 & Hr3 & H3). destruct (Hr' b3.1 H3) as (b4 & Hr4 & H4).
  exists b4.1, st. eexists. split_and!; [|exact H4|exact Hs|..].
  - run start_disk. rewrite Hi. cbv iota. rewrite Hm. cbn [mbind outcome_bind].
    rewrite (GoatFsSpec.hello_passes st _ b3 Hr3). cbn [mbind outcome_bind GoatFs.ok].
    rewrite Hr4. cbn [mbind outcome_bind]. rewrite slice_get_Done by (rewrite length_app; lia). cbn [mbind outcome_bind].
    rewrite drop_0, take_app_length. change (valid_utf8 (Fmt.bytes GoatFs.HELLO_TXT_CONTENTS)) with true. cbv iota.
    rewrite <-!app_assoc. reflexivity.
  - apply says_l. apply (says_diag "ATA: PIO primary master ready").
  - apply says_r, says_l. apply (says_diag "FS: GOATFS at LBA 2048 (1 file), mounted").
  - do 2 apply says_r. apply says_l. apply (says_diag "FS: self-test ok (hello.txt ok)").
  - do 4 (apply elem_of_app; right). apply list_elem_of_further, list_elem_of_here.
Qed.

(** ** The tasks *)

(** Blocks of a heap whose row is [ts]. *)
Definition block (ts : list Tiles.tile) (ptr : Z) : Prop :=
  forall a, ptr <= a < ptr + Task.STACK_SIZE -> HeapFacts.payload ts a.

(** The shell runs; the demo tasks wait at their entries, with stacks [pa] and
    [pb]. *)
Record tasks_ok (st : Task.State) (m : mem) (ts : list Tiles.tile) (pa pb : Z) : Prop := {
  to_ready : TaskFacts.st_ok st 0 [1%nat; 2%nat];
  to_turns : Task.TURNS st = replicate Task.MAX_TASKS 0;
  to_table : Task.tasks (Task.sched st) =
    [Some (Task.mkTask None); Some (Task.mkTask (Some pa)); Some (Task.mkTask (Some pb)); None];
  to_demo_a : waits_fresh (context_of p) (task_trampoline p) m 1 pa (demo_a_task p);
  to_demo_b : waits_fresh (context_of p) (task_trampoline p) m 2 pb (demo_b_task p);
  to_blocks : block ts pa /\ block ts pb;
  to_apart : pa + Task.STACK_SIZE <= pb \/ pb + Task.STACK_SIZE <= pa
}.

(** The least free number after [0 .. n - 1]. *)
Lemma least_free n id : id ∉ seq 0 n -> (forall i, (i < id)%nat -> i ∈ seq 0 n) -> id = n.
Proof.
  intros Hn Hl. rewrite elem_of_seq in Hn. destruct (decide (n < id)%nat) as [Hlt|]; [|lia].
  specialize (Hl n Hlt). rewrite elem_of_seq in Hl. lia.
Qed.

Lemma tasks_up (k : K) ts : HeapFacts.heap_rep (heap k) (memory k) ts -> HeapFrame.room TASK_ROOM ts ->
  Heap.allocations (heap k) + 2 <= U32_MAX -> sched k = Task.boot ->
  is_u32 (task_trampoline p) -> is_u32 (demo_a_task p) -> is_u32 (demo_b_task p) ->
  (forall i, (i < Task.MAX_TASKS)%nat -> HeapFrame.outside (heap k) (context_of p i)) ->
  context_of p 1%nat <> context_of p 2%nat ->
  exists st h m ts' pa pb es, start_tasks p k = Done {| k with sched := st; heap := h; memory := m; log := log k ++ es |} /\
    tasks_ok st m ts' pa pb /\ HeapFacts.heap_rep h m ts' /\
    Heap.heap_start h = Heap.heap_start (heap k) /\ Heap.heap_end h = Heap.heap_end (heap k) /\
    (forall a, HeapFrame.outside (heap k) a -> (forall i, (i < Task.MAX_TASKS)%nat -> a <> context_of p i) ->
       m.[a] = (memory k).[a]) /\
    says es "Tasks: round-robin ready-queue (3 tasks, shell + demo-a 1 + demo-b 2)".
Proof.
  destruct k. cbn [heap memory sched log]. intros Hrep Hroom Hal -> Ht Ha Hb Hout Hne.
  set (slot := context_of p) in *.
  destruct (TaskFacts.init_ok slot memory0) as (st0 & Hi & Hok0 & Hu0 & Htk0).
  assert (HeapFacts.heap_rep heap0 (memory0.[slot 0%nat <- 0]) ts) as Hrep0.
  { apply (HeapFrame.heap_rep_foreign heap0 memory0 _ ts Hrep). intros x Hx. apply load_store_ne. intros <-. apply Hx. right.
    apply Hout. unfold Task.MAX_TASKS. lia. }
  destruct (spawn_client slot (task_trampoline p) st0 heap0 _ ts (demo_a_task p) 0 [] (Task.STACK_SIZE + 16 + 8)
    Hrep0 ltac:(vm_compute; congruence) Hroom ltac:(lia) Hok0 ltac:(unfold Task.MAX_TASKS; simpl; lia) Ht Ha Hout)
    as (st1 & h1 & m1 & ts1 & id1 & pa & [Hs1 (Hrep1 & Hroom1 & Hal1) [Hst1 Hen1] _ Hblk1 [Hni1 Hl1] [Hok1 Hu1] Htk1 Hfr1 Hf1]).
  apply (least_free 1) in Hl1 as ->; [|done]. cbn [app] in Hok1.
  assert (forall i, (i < Task.MAX_TASKS)%nat -> HeapFrame.outside h1 (slot i)) as Hout1.
  { intros i Hi'. specialize (Hout i Hi'). unfold HeapFrame.outside in *. by rewrite Hst1, Hen1. }
  destruct (spawn_client slot (task_trampoline p) st1 h1 m1 ts1 (demo_b_task p) 0 [1%nat] 8
    Hrep1 ltac:(lia) Hroom1 ltac:(lia) Hok1 ltac:(unfold Task.MAX_TASKS; simpl; lia) Ht Hb Hout1)
    as (st2 & h2 & m2 & ts2 & id2 & pb & [Hs2 (Hrep2 & _) [Hst2 Hen2] Hpay2 Hblk2 [Hni2 Hl2] [Hok2 Hu2] Htk2 Hfr2 Hf2]).
  apply (least_free 2) in Hl2 as ->; [|done]. cbn [app] in Hok2.
  assert (forall a, HeapFacts.payload ts1 a -> m2.[a] = m1.[a]) as Hkeep.
  { intros a Hp. apply Hf2; [by left|]. intros ->. pose proof (HeapFrame.payload_inside _ _ _ _ Hrep1 Hp).
    specialize (Hout1 2%nat ltac:(unfold Task.MAX_TASKS; lia)). unfold HeapFrame.outside in Hout1. lia. }
  exists st2, h2, m2, ts2, pa, pb. eexists. split_and!; [| |exact Hrep2|congruence|congruence| |].
  - run start_tasks. fold slot. rewrite Hi. cbn [mbind outcome_bind]. run spawn_task. fold slot. rewrite Hs1.
    cbn [mbind outcome_bind outcome_of_option]. rewrite Hs2. cbn [mbind outcome_bind outcome_of_option].
    rewrite <-!app_assoc. unfold Task.count. rewrite (TaskFacts.so_count _ _ _ Hok2). reflexivity.
  - split; [exact Hok2|congruence|by rewrite Htk2, Htk1, Htk0| |exact Hfr2| |].
    + apply (waits_fresh_agree slot (task_trampoline p) m1); [exact Hfr1|
        apply Hf2; [right; apply Hout1; unfold Task.MAX_TASKS; lia|done]|]. intros a Ha'. by apply Hkeep, Hblk1.
    + split; intros a Ha'; [by apply Hpay2, Hblk1|by apply Hblk2].
    + destruct (decide (pa + Task.STACK_SIZE <= pb)); [by left|]. destruct (decide (pb + Task.STACK_SIZE <= pa)); [by right|].
      change Task.STACK_SIZE with 8192 in *. exfalso. apply (Hblk2 (Z.max pa pb)); [lia|]. apply Hblk1. lia.
  - intros a Ho Hna. rewrite Hf2; [rewrite Hf1; [apply load_store_ne|by right|]|right; unfold HeapFrame.outside in *; by rewrite Hst1, Hen1|];
      try apply Hna; unfold Task.MAX_TASKS; try lia. apply not_eq_sym, Hna. unfold Task.MAX_TASKS. lia.
  - apply says_r. apply (says_diag "Tasks: round-robin ready-queue (3 tasks, shell + demo-a 1 + demo-b 2)").
Qed.

(** ** The whole sequence *)

(** What the linker promises. *)
Record program_ok : Prop := {
  po_entries : InterruptFacts.entries_u32 (entries p);
  po_timer : is_u32 (timer_interrupt p);
  po_keyboard : is_u32 (keyboard_interrupt p);
  po_trampoline : is_u32 (task_trampoline p);
  po_demo_a : is_u32 (demo_a_task p);
  po_demo_b : is_u32 (demo_b_task p);
  po_contexts : forall i, (i < Task.MAX_TASKS)%nat -> (kernel_image p).1 <= context_of p i < (kernel_image p).2;
  po_distinct : forall i j, (i < Task.MAX_TASKS)%nat -> (j < Task.MAX_TASKS)%nat -> context_of p i = context_of p j -> i = j
}.

Definition in_image (a : Z) : Prop := (kernel_image p).1 <= a < (kernel_image p).2.

(** The statics as the program declares them; the drive waits for a command. All
    those with an initial value here are zero bytes, so the compiler puts them
    in [.bss], which the boot sector neither loads nor clears (the reason [idt],
    [interrupts] and [frame] give for resetting theirs in [init]): they hold
    these values on a machine whose RAM comes up zeroed. *)
Record loaded (k : K) : Prop := {
  ld_gdt : length (gdt k) = 5%nat;
  ld_idt : length (idt k) = 256%nat;
  ld_sched : sched k = Task.boot;
  ld_fs : fs k = GoatFs.boot;
  ld_queue : queue k = Sync.Sync.new Input.Input.new;
  ld_locks : WRITER k = Sync.Sync.new tt /\ SERIAL1 k = Sync.Sync.new tt;
  ld_ints : length (Interrupts.reported (ints k)) = 8%nat;
  ld_drive : exists f, Idle (dev k) f
}.

(** *** What is on the serial port at the prompt *)

Definition memory_line (map : Map.MemoryMap) : string :=
  "Memory: " +:+ Fmt.dec (Z.of_nat (length (Map.regions map))) +:+ " E820 regions, "
    +:+ Fmt.dec (Map.total_usable map / (1024 * 1024)) +:+ " MiB usable, top " +:+ Fmt.hex 12 (Map.highest_address map)
    +:+ (if Map.truncated map
         then " (TRUNCATED at 32 of " +:+ Fmt.dec (Map.reported map) +:+ ")" else "").

Definition reserved_line (lo hi : Z) (why : string) : string :=
  "Frames: reserved " +:+ Frame.Reservation_fmt (Frame.mkReservation (Frame.covering lo hi) why).

Definition frames_line (map : Map.MemoryMap) : string :=
  let a := Frame.new (kernel_image p) map in
  let n := Z.of_nat (length (FrameFacts.managed a)) in
  "Frames: " +:+ Fmt.dec n +:+ " x 4 KiB allocatable (" +:+ Fmt.dec (n * 4096 / (1024 * 1024)) +:+ " MiB) over "
    +:+ Fmt.dec (Z.of_nat (Frame.region_count a)) +:+ " regions, 0 in use".

(** Up to the interrupt controllers ... *)
Definition table_lines : list string :=
  ["GDT: kernel-owned at " +:+ Fmt.hex 10 (Image.gdt_addr (image p)) +:+ " (limit 0x27), cs=0x08 ds=0x10 tr=0x18";
   "IDT: 256 entries at " +:+ Fmt.hex 10 (Image.idt_addr (image p)) +:+ " (limit 0x7ff), 4 handlers";
   "Exceptions: #0 divide error, #6 invalid opcode, #8 double fault, #13 GP fault";
   "Double fault: task gate -> TSS 0x20, stack " +:+ Fmt.hex 10 (Image.double_fault_stack_bottom (image p)) +:+ ".."
     +:+ Fmt.hex 10 (Image.double_fault_stack_top (image p));
   "PIC: IRQ0-15 -> vectors 32-47, IMR 0xff/0xff (all masked)";
   "Interrupts: catch-all on 252 spare vectors, 4 owned"].

(** ... memory and frames ... *)
Definition frame_lines (map : Map.MemoryMap) : list string :=
  (region_line <$> Map.regions map) ++ [memory_line map] ++
  [reserved_line 0 Frame.BIOS_LOW_MEMORY_END "IVT, BIOS data area, E820 handoff block";
   reserved_line Frame.BOOT_SECTOR_PAGE (Frame.BOOT_SECTOR_PAGE + 4096) "boot sector image and real-mode stack";
   reserved_line (kernel_image p).1 (kernel_image p).2 "kernel image, .bss and stack";
   reserved_line Frame.LEGACY_ROM_START Frame.LEGACY_ROM_END "legacy video memory and BIOS ROM"] ++ [frames_line map] ++
  imap (fun i f => "Frame:  #" +:+ Fmt.dec (Z.of_nat i + 1) +:+ " at " +:+ Frame.Frame_fmt f)
    (Frame.from_index <$> take 8 (FrameFacts.managed (Frame.new (kernel_image p) map))) ++
  ["Frames: self-test ok - 8 distinct, LIFO reuse, double free refused"].

(** ... paging and heap, with the page directory at [cr3] and the heap at
    [start] ... *)
Definition core_lines (map : Map.MemoryMap) (cr3 start : Z) : list string :=
  ["Framebuffer: VGA mode 0x13 320x200x256 at 0xa0000, solid fill 0x01"] ++ table_lines ++ frame_lines map ++
  [paging_line map cr3; heap_line start; "Heap: self-test ok - Vec pushed 64 bytes and read them back"].

(** ... and with interrupts on, to the prompt. *)
Definition enable_lines : list string :=
  ["Interrupts: enabled (IF=1), IMR 0xff/0xff, 0 unhandled";
   "GOATos booted successfully! (32-bit, from a hand-written bootloader)"].
Definition service_lines : list string :=
  ["PIT: channel 0 at 100 Hz (IRQ0 -> vector 32, divisor 11931), IMR 0xfe/0xff";
   "Keyboard: PS/2 on IRQ1 -> vector 33, IMR 0xfc/0xff";
   "ATA: PIO primary master ready";
   "FS: GOATFS at LBA 2048 (1 file), mounted";
   "FS: self-test ok (hello.txt ok)";
   "Tasks: round-robin ready-queue (3 tasks, shell + demo-a 1 + demo-b 2)"].

(** A line for each pattern [scripts/ci-test.sh] requires in a boot log, and the
    lines after them to the prompt. The figures in them are the machine's; the
    script's bounds on them are those of its emulator. *)
Definition boot_lines (map : Map.MemoryMap) (cr3 start : Z) : list string :=
  core_lines map cr3 start ++ enable_lines ++ service_lines.

(** A map with memory in it is one the boot sector has left. *)
Lemma map_available m : memory_ok (kernel_image p) (guard_page p) (Map.load m) -> Map.available (Map.load m) = true.
Proof.
  intros Hmem. destruct (decide (m.[Map.HANDOFF_ADDR] = Map.SIGNATURE)) as [Hs|Hs]; [by apply MapFacts.load_regions|].
  destruct (mk_run _ _ _ Hmem) as (x & _ & r & Hr & _). rewrite MapFacts.load_unsigned in Hr by done. by apply elem_of_nil in Hr.
Qed.

(** [report_serial] prints them on a machine with memory. *)
Lemma table_frame_lines map pic test es : memory_ok (kernel_image p) (guard_page p) map -> Map.available map = true ->
  FrameTest.SelfTest_fmt test = "Frames: self-test ok - 8 distinct, LIFO reuse, double free refused" ->
  FrameTest.frames test = Frame.from_index <$> take 8 (FrameFacts.managed (Frame.new (kernel_image p) map)) ->
  pic = Pic.mkState 32 47 0xff 0xff ->
  Forall (says es) (serial_lines map (Gdt.mkLoaded (Image.gdt_addr (image p)) 39 0x08 0x10 0x18)
    (Idt.mkLoaded (Image.idt_addr (image p)) 2047 4) pic 252 (Frame.report (Frame.new (kernel_image p) map)) test) ->
  Forall (says es) (table_lines ++ frame_lines map).
Proof.
  intros Hmem Hav Htest Hfr -> Hs. destruct (memory_bounds _ _ _ Hmem) as (_ & _ & Hn).
  destruct (NewFacts.new_layout (kernel_image p) map (NewFacts.mo_len _ (mk_map _ _ _ Hmem))) as (_ & _ & _ & _ & _ & _ & _ & Hu & Ht).
  assert (Map.MemoryMap_fmt map = memory_line map) as Hm.
  { unfold Map.MemoryMap_fmt. by rewrite Hav. }
  assert (Frame.Report_fmt (Frame.report (Frame.new (kernel_image p) map)) = frames_line map) as Hr.
  { unfold Frame.Report_fmt, Frame.report, Frame.total_bytes. cbn [Frame.r_total Frame.r_regions Frame.r_in_use].
    rewrite Ht, Hu. destruct (Nat.eqb_spec (length (FrameFacts.managed (Frame.new (kernel_image p) map))) 0); [|done].
    unfold BOOT_FRAMES in Hn. lia. }
  unfold serial_lines in Hs. rewrite Htest, Hfr, Hm, Hr in Hs.
  change (Frame.r_reservations (Frame.report ?a)) with (Frame.live_reservations a) in Hs. rewrite NewFacts.new_reserved in Hs.
  rewrite !Forall_app in Hs. destruct Hs as (H1 & H2 & H3 & H4 & H5 & H6 & _ & _ & H7).
  unfold frame_lines. rewrite !Forall_app. exact (conj H1 (conj H2 (conj H3 (conj H4 (conj H5 (conj H6 H7)))))).
Qed.

(** Memory [m] under a kernel whose heap holds the blocks [ts]: the mapping, the
    heap and the frame pool are in order, and keep clear of each other. *)
Record memory_up (map : Map.MemoryMap) (k : K) (ts : list Tiles.tile) (m : mem) : Prop := {
  mu_translate : forall v, 0 <= v < 2 ^ 32 -> Mmu.translate m (cr3 (cpu k)) v =
    if (v <? Paging.identity_map_end map) && negb (v / 4096 * 4096 =? guard_page p) then Some (v, true) else None;
  mu_heap : HeapFacts.heap_rep (heap k) m ts;
  mu_heap_mapped : Heap.heap_end (heap k) = Heap.heap_start (heap k) + Heap.HEAP_SIZE /\
    forall a, Heap.heap_start (heap k) <= a < Heap.heap_end (heap k) -> Mmu.translate m (cr3 (cpu k)) a = Some (a, true);
  mu_frames : exists pl, FrameFacts.represents (frames k) m pl /\
    Pool.p_all pl = FrameFacts.managed (Frame.new (kernel_image p) map) /\
    cr3 (cpu k) / 4096 ∉ FrameFacts.avail pl /\
    forall i, i ∈ FrameFacts.avail pl -> (i + 1) * 4096 <= Heap.heap_start (heap k) \/ Heap.heap_end (heap k) <= i * 4096;
  mu_image : forall a, in_image a -> HeapFrame.outside (heap k) a
}.

(** [m'] is [m] after any writes to the kernel's image and to allocated blocks. *)
Definition spared (ts : list Tiles.tile) (m m' : mem) : Prop :=
  forall a, ~ in_image a -> ~ HeapFacts.payload ts a -> m'.[a] = m.[a].

(** A running kernel. [c] is what the BIOS left in the interrupt controllers,
    [n] the number of interrupts nobody handled. *)
Record up (map : Map.MemoryMap) (c : side -> Chip) (n : Z) (k : K) : Prop := {
  up_interrupts : if_flag (cpu k) = true;
  up_segments : Gdt.loaded (cpu k) = Gdt.mkLoaded (Image.gdt_addr (image p)) 39 0x08 0x10 Gdt.MAIN_TSS_SELECTOR;
  up_gdt : gdt k = table_gdt;
  up_idt : idtr (cpu k) = Idt.for_table (image p);
  up_locks : WRITER k = Sync.Sync.new tt /\ SERIAL1 k = Sync.Sync.new tt;
  up_vectors : forall v, 0 <= v < 256 -> Hw.gate_target (idt k !!! Z.to_nat v) =
    if v =? 32 then Hw.ToOffset Tss.KERNEL_CODE_SELECTOR (timer_interrupt p)
    else if v =? 33 then Hw.ToOffset Tss.KERNEL_CODE_SELECTOR (keyboard_interrupt p)
    else InterruptFacts.expected (entries p) v;
  up_machine : settled (lines 0xfc c) running (dev k);
  up_paging : Paging.paging_is_enabled (cpu k) = true;
  up_tss : Tss.t_cr3 (Tss.main (tss k)) = cr3 (cpu k) /\ Tss.t_cr3 (Tss.double_fault (tss k)) = cr3 (cpu k);
  up_memory : exists ts pa pb, tasks_ok (sched k) (memory k) ts pa pb /\
    forall m, spared ts (memory k) m -> memory_up map k ts m;
  up_files : GoatFsSpec.shipped_fs (fs k) /\ ata k = mkAta true;
  up_input : queue k = Sync.Sync.new Input.Input.new /\ kbd k = Keyboard.mkState false false 0;
  up_counts : TICKS k = 0 /\ Interrupts.unhandled_count (ints k) = n;
  up_said : Forall (says (log k)) (boot_lines map (cr3 (cpu k)) (Heap.heap_start (heap k))) /\ SerialPrint hello ∈ log k;
  up_prompt : exists es, log k = es ++ Shell.init
}.

(** Resolves the unchanged fields in the result of a stage. *)
Ltac tidy E :=
  match type of E with ?stage = ?k =>
    let k' := eval cbn [dev cpu memory screen gdt idt tss ints frames heap TICKS kbd queue ata fs sched WRITER SERIAL1 log] in k in
    change (stage = k') in E
  end.

(** Finds the stage that printed a line. *)
Ltac find_line := first [eassumption | apply says_r; eassumption | apply says_l; find_line].

(** *** From the timer to the prompt *)

Record served (c : side -> Chip) (k k' : K) : Prop := {
  sv_cpu : cpu k' = cpu k;
  sv_same : tss k' = tss k /\ frames k' = frames k /\ gdt k' = gdt k;
  sv_locks : WRITER k' = WRITER k /\ SERIAL1 k' = SERIAL1 k;
  sv_idt : idt k' = <[33%nat := Idt.interrupt (keyboard_interrupt p) Tss.KERNEL_CODE_SELECTOR]>
    (<[32%nat := Idt.interrupt (timer_interrupt p) Tss.KERNEL_CODE_SELECTOR]> (idt k));
  sv_machine : settled (lines 0xfc c) running (dev k');
  sv_files : GoatFsSpec.shipped_fs (fs k') /\ ata k' = mkAta true;
  sv_statics : (queue k' = queue k /\ kbd k' = Keyboard.mkState false false 0) /\ TICKS k' = 0 /\ ints k' = ints k;
  sv_tasks : exists ts pa pb, tasks_ok (sched k') (memory k') ts pa pb /\ HeapFacts.heap_rep (heap k') (memory k') ts;
  sv_bounds : Heap.heap_start (heap k') = Heap.heap_start (heap k) /\ Heap.heap_end (heap k') = Heap.heap_end (heap k);
  sv_kept : forall a, HeapFrame.outside (heap k) a -> (forall i, (i < Task.MAX_TASKS)%nat -> a <> context_of p i) ->
    (memory k').[a] = (memory k).[a];
  sv_log : exists es, log k' = (log k ++ es) ++ Shell.init /\ Forall (says es) service_lines /\ SerialPrint hello ∈ es
}.

Lemma services_up (k : K) c f ts img : program_ok ->
  Idle (dev k) f -> (forall s, chips (dev k) s = lines 0xff c s) ->
  length (idt k) = 256%nat -> fs k = GoatFs.boot -> sched k = Task.boot ->
  HeapFacts.heap_rep (heap k) (memory k) ts -> HeapFrame.room TASK_ROOM ts -> Heap.allocations (heap k) + 2 <= U32_MAX ->
  (forall i, (i < Task.MAX_TASKS)%nat -> HeapFrame.outside (heap k) (context_of p i)) ->
  disk_ok disk -> GoatFs.Packer.pack GoatFs.Packer.FILES = Some img -> GoatFsFacts.installed disk img ->
  exists k', start_services p k = Done k' /\ served c k k'.
Proof.
  unfold start_services. cbv zeta.
  destruct k. cbn [dev ints idt fs sched heap memory]. intros Hp Hf2 Hc2 Hl Hfs Hsc Hh Hroom Hal Hctx Hok Himg Hinst.
  match goal with |- context [start_timer p ?k] =>
    destruct (timer_up k c f Hf2 Hc2 Hl (po_timer Hp)) as (d3 & es9 & E & Hst3 & S9) end.
  tidy E. rewrite E. clear E.
  match goal with |- context [start_keyboard p ?k] =>
    destruct (keyboard_up k c Hst3 ltac:(cbn [idt]; rewrite length_insert; exact Hl) (po_keyboard Hp))
      as (d4 & es10 & E & Hst4 & S10) end.
  tidy E. rewrite E. clear E.
  match goal with |- context [start_disk ?k] =>
    destruct (disk_up k _ _ img Hst4 Hok Himg Hinst Hfs) as (d5 & st & es11 & E & Hst5 & Hserve & S11a & S11b & S11c & S11d) end.
  tidy E. rewrite E. clear E. cbn [mbind outcome_bind].
  match goal with |- context [start_tasks p ?k] =>
    destruct (tasks_up k ts Hh Hroom Hal Hsc (po_trampoline Hp) (po_demo_a Hp) (po_demo_b Hp) Hctx)
      as (st5 & h5 & m5 & ts5 & pa & pb & es12 & E & Hto & Hh5 & Hs5 & He5 & Hout5 & S12) end.
  { intros Heq. by apply (po_distinct Hp) in Heq; [|unfold Task.MAX_TASKS; lia..]. }
  tidy E. rewrite E. clear E. cbn [mbind outcome_bind]. eexists. split; [reflexivity|].
  unfold print. split; cbn [dev cpu memory screen gdt idt tss ints frames heap TICKS kbd queue ata fs sched WRITER SERIAL1 log]; try done.
  - by exists ts5, pa, pb.
  - exists (((es9 ++ es10) ++ es11) ++ es12). rewrite !app_assoc. split; [done|]. split.
    + unfold service_lines. rewrite !Forall_cons, Forall_nil. split_and!; [find_line..|done].
    + apply elem_of_app. left. apply elem_of_app. by right.
Qed.

(** *** What the later stages leave alone *)

Section kept.
Context (map : Map.MemoryMap) (Hmem : memory_ok (kernel_image p) (guard_page p) map).
Context (h : Heap.Heap) (s : Z) (m m' : mem).
Context (Hs : Heap.heap_start h = s * 4096) (He : Heap.heap_end h = s * 4096 + Heap.HEAP_SIZE).
Context (Hkept : forall a, HeapFrame.outside h a -> ~ in_image a -> m'.[a] = m.[a]).

Let pool_frames := FrameFacts.managed (Frame.new (kernel_image p) map).

Lemma outside_heap a : ~ (s <= a / 4096 < s + 256) -> HeapFrame.outside h a.
Proof.
  unfold HeapFrame.outside. rewrite Hs, He. change Heap.HEAP_SIZE with (256 * 4096). clear. intros Hn.
  Z.div_mod_to_equations. lia.
Qed.

(** Words of pool frames that are not the heap's. *)
Lemma pool_words_kept a : a / 4096 ∈ pool_frames -> ~ (s <= a / 4096 < s + 256) -> m'.[a] = m.[a].
Proof.
  intros Ha Hn. apply Hkept; [by apply outside_heap|]. intros Hi. by apply (image_unmanaged _ _ _ _ Hmem Hi).
Qed.

Lemma pool_kept fa pl : FrameFacts.represents fa m pl -> Pool.p_all pl = pool_frames ->
  (forall i, i ∈ FrameFacts.avail pl -> ~ (s <= i < s + 256)) -> FrameFacts.represents fa m' pl.
Proof.
  intros Hrep Hall Hav. apply (FrameFacts.represents_agree fa m m' pl Hrep). intros i Hi.
  assert (i ∈ FrameFacts.avail pl) as Hia by (apply elem_of_app; by left).
  rewrite FrameFacts.link_of_eq by (eapply FrameFacts.chain_bounds; [apply (FrameFacts.rp_chain _ _ _ Hrep)|done]).
  apply pool_words_kept; rewrite Z.div_mul by done; [|by apply Hav]. rewrite <-Hall. by apply (FrameFacts.avail_managed fa m).
Qed.

Lemma mapping_kept dir held tabs v : PagingFacts.tree m dir (guard_page p) held tabs ->
  Z.of_nat (length tabs) = Paging.identity_map_end map / 2 ^ 22 ->
  (forall i, i ∈ held -> i ∈ pool_frames /\ ~ (s <= i < s + 256)) -> 0 <= v < 2 ^ 32 ->
  Mmu.translate m' (Frame.start_address dir) v =
    if (v <? Paging.identity_map_end map) && negb (v / 4096 * 4096 =? guard_page p) then Some (v, true) else None.
Proof.
  intros Htree Hlen Hheld Hv. destruct (PagingFacts.identity_map_end_spec map) as (_ & Hm & _).
  rewrite (PagingFacts.tree_translate m' dir (guard_page p) held tabs v); [|  |apply (mk_guard _ _ _ Hmem)|done].
  - replace (Z.of_nat (length tabs) * 2 ^ 22) with (Paging.identity_map_end map); [done|].
    pose proof (Z.div_mod (Paging.identity_map_end map) (2 ^ 22) ltac:(lia)) as Hdm. rewrite Hm in Hdm. rewrite Hlen. lia.
  - apply (PagingFacts.tree_agree m); [done|]. intros a Ha. destruct (Hheld _ Ha). by apply pool_words_kept.
Qed.

End kept.

Lemma vectors_set (t : list Idt.Gate) v : length t = 256%nat -> is_u32 (timer_interrupt p) -> is_u32 (keyboard_interrupt p) ->
  0 <= v < 256 ->
  Hw.gate_target (<[33%nat := Idt.interrupt (keyboard_interrupt p) Tss.KERNEL_CODE_SELECTOR]>
    (<[32%nat := Idt.interrupt (timer_interrupt p) Tss.KERNEL_CODE_SELECTOR]> t) !!! Z.to_nat v) =
  if v =? 32 then Hw.ToOffset Tss.KERNEL_CODE_SELECTOR (timer_interrupt p)
  else if v =? 33 then Hw.ToOffset Tss.KERNEL_CODE_SELECTOR (keyboard_interrupt p)
  else Hw.gate_target (t !!! Z.to_nat v).
Proof.
  intros Hl Ht Hk Hv. change 33%nat with (Z.to_nat 33). change 32%nat with (Z.to_nat 32).
  rewrite !InterruptFacts.lookup_gate_insert by (rewrite ?length_insert; done || lia).
  destruct (Z.eqb_spec v 32) as [->|]; [by rewrite decide_False, decide_True, DescriptorFacts.gate_target_interrupt|].
  destruct (Z.eqb_spec v 33) as [->|]; [by rewrite decide_True, DescriptorFacts.gate_target_interrupt|].
  by rewrite !decide_False.
Qed.

(** *** From the first line to the heap *)

Record cored (map : Map.MemoryMap) (k k' : K) (f : TaskFile) (dir : Frame.Frame) (held : gset Z)
    (ts : list Tiles.tile) (pl : Pool.pool) (s : Z) : Prop := {
  co_cpu : cpu k' = Paging.enable (table_cpu k) (Frame.start_address dir);
  co_tss : tss k' = Tss.set_page_directory
    (Tss.init (image p) (tss k) (Exceptions.double_fault_entry (entries p))) (Frame.start_address dir);
  co_idle : Idle (dev k') f;
  co_chips : forall s, chips (dev k') s = lines 0xff (cleared (chips (dev k))) s;
  co_ints : ints k' = Interrupts.mkIState 0 (replicate 8 0);
  co_gdt : gdt k' = table_gdt;
  co_idt : length (idt k') = 256%nat;
  co_vectors : forall v, 0 <= v < 256 -> Hw.gate_target (idt k' !!! Z.to_nat v) = InterruptFacts.expected (entries p) v;
  co_statics : fs k' = fs k /\ sched k' = sched k /\ queue k' = queue k;
  co_locks : WRITER k' = WRITER k /\ SERIAL1 k' = SERIAL1 k;
  co_tree : exists tabs, PagingFacts.tree (memory k') dir (guard_page p) held tabs /\
    Z.of_nat (length tabs) = Paging.identity_map_end map / 2 ^ 22;
  co_held : forall i, i ∈ held -> i ∈ FrameFacts.managed (Frame.new (kernel_image p) map) /\ ~ (s <= i < s + 256) /\
    i ∉ FrameFacts.avail pl;
  co_heap : HeapFacts.heap_rep (heap k') (memory k') ts;
  co_room : HeapFrame.room TASK_ROOM ts /\ Heap.allocations (heap k') + 2 <= U32_MAX;
  co_bounds : Heap.heap_start (heap k') = s * 4096 /\ Heap.heap_end (heap k') = s * 4096 + Heap.HEAP_SIZE;
  co_run : forall i, s <= i < s + 256 -> i ∈ FrameFacts.managed (Frame.new (kernel_image p) map);
  co_pool : FrameFacts.represents (frames k') (memory k') pl /\
    Pool.p_all pl = FrameFacts.managed (Frame.new (kernel_image p) map) /\
    forall i, i ∈ FrameFacts.avail pl -> ~ (s <= i < s + 256);
  co_log : exists es, log k' = log k ++ es /\ Forall (says es) (core_lines map (Frame.start_address dir) (s * 4096))
}.

(** [start_core], one stage after the other. *)
Lemma core_stages (k k1 k2 k3 k4 k5 k6 k7 k8 : K) pic spare map report test :
  start_segments p (start_display k) = k1 -> start_exceptions p k1 = k2 -> start_pic k2 = (k3, pic) ->
  start_catch_all p k3 = (k4, spare) -> start_frames p k4 = Done (k5, map, report, test) ->
  report_serial p k5 (Gdt.loaded (cpu k1)) (Idt.loaded (cpu k2) (idt k2)) pic spare map report test = k6 ->
  start_paging p k6 map = Done k7 -> start_heap k7 = Done k8 ->
  start_core p k = Done (enable_interrupts k8).
Proof.
  intros E1 E2 E3 E4 E5 E6 E7 E8. unfold start_core. cbv zeta. rewrite E1, E2, E3, E4, E5. cbn [mbind outcome_bind].
  rewrite E6, E7. cbn [mbind outcome_bind]. rewrite E8. reflexivity.
Qed.

Lemma reset_marks s : length (Interrupts.reported s) = 8%nat ->
  Interrupts.mkIState 0 ((fun _ => 0) <$> Interrupts.reported s) = Interrupts.mkIState 0 (replicate 8 0).
Proof. intros <-. f_equal. by induction (Interrupts.reported s) as [|x l IH]; cbn; [|rewrite <-IH]. Qed.

Lemma core_up (k : K) (map : Map.MemoryMap) : program_ok -> loaded k ->
  Map.load (memory k) = map -> memory_ok (kernel_image p) (guard_page p) map ->
  exists k' f dir held ts pl s, start_core p k = Done (enable_interrupts k') /\ cored map k k' f dir held ts pl s.
Proof.
  intros Hp [Hg Hi _ _ _ _ Hin [f Hf]] Hmap Hmem. pose proof (segments_loaded k Hg) as Hgl.
  destruct (tables_up k Hg Hi) as (es1 & E2 & S1). destruct k. tidy E2. cbn [gdt idt dev memory ints] in *.
  match type of E2 with _ = ?k => destruct (pic_up k f Hf) as (d1 & es2 & E3 & Hf1 & Hc1) end. tidy E3. cbn [dev] in Hc1.
  match type of E3 with _ = (?k, _) => destruct (catch_all_up k eq_refl (po_entries Hp)) as (t & es3 & E4 & Hl & Ht) end. tidy E4.
  match type of E4 with _ = (?k, _) =>
    destruct (frames_up map Hmem k Hmap) as (fa & m & tst & pl & es4 & E5 & Htst & Htfr & Hrep & Hlay & Hsp & Hlen) end. tidy E5.
  match type of E2 with start_exceptions p ?k1 = ?k2 => match type of E5 with _ = Done (?k, _, ?r, ?te) =>
    destruct (reported map k (Gdt.loaded (cpu k1)) (Idt.loaded (cpu k2) (idt k2)) (Pic.mkState 32 47 0xff 0xff) 252 r te)
      as (es5 & E6 & S5) end end. tidy E6.
  rewrite Hgl, exceptions_loaded in S5 by done. apply table_frame_lines in S5; [|done|subst map; by apply map_available|done..].
  match type of E6 with _ = ?k => destruct (paging_up map Hmem k pl Hrep Hlay Hsp Hlen)
    as (fa2 & m2 & dir & tabs & held & pl2 & es6 & E7 & S6 & Htree & Htabs & Hheld & Hrep2 & Hlay2 & Hsp2) end. tidy E7.
  match type of E7 with _ = Done ?k => destruct (heap_up map Hmem k pl2 Hrep2 Hlay2 Hsp2)
    as (fa3 & h & m3 & ts & pl3 & s & es7 & E8 & [S7 S8] & Hh & Hroom & Hal & Hhs & Hhe & Hfr & Hrep3 & Hall3 & Hav3 & Hout3) end.
  tidy E8. cbn [memory] in Hout3.
  assert (forall i, i ∈ held -> ~ (s <= i < s + 256)) as Hno by (intros i Hih Hr; apply (Hheld i Hih), Hfr, Hr).
  eexists _, f, dir, held, ts, pl3, s. split; [exact (core_stages _ _ _ _ _ _ _ _ _ _ _ _ _ _ eq_refl E2 E3 E4 E5 E6 E7 E8)|].
  split; cbn [dev cpu memory screen gdt idt tss ints frames heap TICKS kbd queue ata fs sched WRITER SERIAL1 log];
    [reflexivity|reflexivity|exact Hf1|exact Hc1|by rewrite reset_marks|reflexivity|exact Hl|exact Ht|split_and!; reflexivity
    |split; reflexivity| | |exact Hh
    |exact (conj Hroom Hal)|exact (conj Hhs Hhe)| | |].
  - exists tabs. split; [|done]. apply (PagingFacts.tree_agree m2); [done|]. intros a Ha. apply Hout3, (outside_heap h s); auto.
  - intros i Hih. destruct (Hheld i Hih) as [Hman Hnav]. split_and!; auto. intros Hia. by apply Hnav, Hav3.
  - intros i Hi'. rewrite <-(same_layout_all (kernel_image p) map fa2 m2 pl2) by done.
    apply (FrameFacts.avail_managed fa2 m2 pl2); [done|]. by apply Hfr.
  - split_and!; [done|done|]. intros i Hia. by apply Hav3.
  - exists ((((((es1 ++ es2) ++ es3) ++ es4) ++ es5) ++ es6) ++ es7). rewrite !app_assoc. split; [done|].
    apply Forall_app in S5 as [S5 S5']. unfold core_lines. rewrite !Forall_app, !Forall_cons, Forall_nil.
    split_and!; [do 6 apply says_l; exact S1|done|apply all_says_l, all_says_l, all_says_r; exact S5
      |apply all_says_l, all_says_l, all_says_r; exact S5'|apply says_l, says_r; exact S6|apply says_r; exact S7|apply says_r; exact S8|done].
Qed.

(** Interrupts enabled; in between, only ports were accessed, interrupts counted
    and lines printed. *)
Definition enabled (k : K) (d : D) (i : Interrupts.IState) (es : list effect) : K :=
  {| k with cpu := Interrupts.enable (cpu k); dev := d; ints := i; log := log k ++ es |}.

(** What the services leave of the core. *)
Record built_on (k k' : K) : Prop := {
  bu_cpu : cpu k' = Interrupts.enable (cpu k);
  bu_frames : frames k' = frames k;
  bu_bounds : Heap.heap_start (heap k') = Heap.heap_start (heap k) /\ Heap.heap_end (heap k') = Heap.heap_end (heap k);
  bu_kept : forall a, HeapFrame.outside (heap k) a -> (forall i, (i < Task.MAX_TASKS)%nat -> a <> context_of p i) ->
    (memory k').[a] = (memory k).[a]
}.

(** Once the services are up, writes to the image and to allocated blocks reach
    neither the page tables nor the free frames nor the heap's bookkeeping. *)
Lemma memory_steady (map : Map.MemoryMap) (k k1 k' : K) f dir held ts1 pl s ts m :
  memory_ok (kernel_image p) (guard_page p) map -> program_ok -> cored map k k1 f dir held ts1 pl s -> built_on k1 k' ->
  HeapFacts.heap_rep (heap k') (memory k') ts -> spared ts (memory k') m -> memory_up map k' ts m.
Proof.
  intros Hmem Hp [Ccpu _ _ _ _ _ _ _ _ _ (tabs & Ctree & Ctabs) Cheld Cheap _ [Cs Ce] Crun (Cpool & Call & Cav) _]
    [Hcpu Hfrm [Hb1 Hb2] Hkept] Hh Hsp.
  assert (cr3 (cpu k') = Frame.start_address dir) as Hcr by (by rewrite Hcpu, Ccpu).
  assert (forall a, in_image a -> HeapFrame.outside (heap k') a) as Him.
  { intros a Ha. unfold HeapFrame.outside. rewrite Hb1, Hb2. apply (outside_heap (heap k1) s Cs Ce). intros Hr.
    by apply (image_unmanaged _ _ _ _ Hmem Ha), Crun. }
  assert (forall a, HeapFrame.outside (heap k1) a -> ~ in_image a -> m.[a] = (memory k1).[a]) as Hall.
  { intros a Ho Hni. rewrite Hsp, Hkept; [done|done| |done|].
    - intros i Hi ->. by apply Hni, (po_contexts Hp).
    - intros Hpa%(HeapFrame.payload_inside _ _ _ _ Hh). unfold HeapFrame.outside in Ho. rewrite <-Hb1, <-Hb2 in Ho. lia. }
  assert (forall v, 0 <= v < 2 ^ 32 -> Mmu.translate m (Frame.start_address dir) v =
    if (v <? Paging.identity_map_end map) && negb (v / 4096 * 4096 =? guard_page p) then Some (v, true) else None) as Htr.
  { intros v Hv. apply (mapping_kept map Hmem (heap k1) s (memory k1) m Cs Ce Hall dir held tabs); try done.
    intros i Hi. destruct (Cheld i Hi) as (? & ? & _). done. }
  split; rewrite ?Hcr, ?Hfrm, ?Hb1, ?Hb2, ?Cs, ?Ce.
  - exact Htr.
  - apply (HeapFrame.heap_rep_foreign _ _ _ _ Hh). intros x Hx. apply Hsp; [intros Hi|intros Hpa]; apply Hx; [right|left]; auto.
  - split; [done|]. intros a Ha.
    assert (a / 4096 ∈ FrameFacts.managed (Frame.new (kernel_image p) map)) as Ham.
    { apply Crun. change Heap.HEAP_SIZE with (256 * 4096) in Ha. clear - Ha. Z.div_mod_to_equations. lia. }
    rewrite Htr, (managed_mapped _ _ _ _ Hmem Ham); [done|].
    pose proof (HeapFacts.hr_start _ _ _ Cheap). pose proof (HeapFacts.hr_end _ _ _ Cheap) as Hend.
    rewrite Ce in Hend. unfold U32_MAX in Hend. lia.
  - exists pl. split_and!; [|done| |].
    + by apply (pool_kept map Hmem (heap k1) s (memory k1) m Cs Ce Hall).
    + destruct Ctree as [Hdok Hdh _ _ _]. rewrite (PagingFacts.start_address_eq dir Hdok), Z.div_mul by done. by apply Cheld.
    + intros i Hi. specialize (Cav i Hi). change Heap.HEAP_SIZE with (256 * 4096). lia.
  - exact Him.
Qed.

(** Without a heap there is no boot: [heap::init] reports failure and leaves the
    heap empty, and the first [spawn] then panics on its stack. *)
Theorem no_heap_no_boot (k : K) : Heap.is_ready (heap k) = false -> sched k = Task.boot -> start_tasks p k = Panicked.
Proof.
  destruct k. cbn [heap sched]. intros Hr ->. run start_tasks.
  destruct (TaskFacts.init_ok (context_of p) memory0) as (st & -> & _). cbn [mbind outcome_bind]. run spawn_task.
  unfold Task.spawn, Task.alloc_stack, Heap.allocate. rewrite Hr. reflexivity.
Qed.

(** Nor is there one when the scheduler's table does not come up zeroed:
    [task::init] fills the first slot only, so that with something in the others
    no slot is free and the first [spawn]'s [expect] panics. *)
Theorem dirty_scheduler_no_boot (k k' : K) : length (Task.tasks (Task.sched (sched k))) = Task.MAX_TASKS ->
  Forall is_Some (Task.tasks (Task.sched (sched k))) -> start_tasks p k <> Done k'.
Proof.
  destruct k. cbn [sched]. intros Hl Hall. run start_tasks. unfold Task.init, index_set. rewrite Hl. cbn [Nat.ltb Nat.leb Task.MAX_TASKS mbind outcome_bind].
  run spawn_task. unfold Task.spawn. destruct (Task.alloc_stack heap0 _) as [[[h m] ptr]| |]; [|done..]. cbn [mbind outcome_bind].
  destruct (Task.prime_stack _ _ _ _) as [[m' esp]| |]; [|done..]. cbn [mbind outcome_bind]. unfold Task.claim_slot. cbn [Task.sched Task.tasks].
  match goal with |- context [position ?f ?l] => assert (position f l = None) as -> end.
  { apply position_None. intros x Hx. apply negb_false_iff, bool_decide_eq_true.
    exact (proj1 (Forall_forall _ _) (Forall_insert is_Some _ 0%nat _ Hall ltac:(by eexists)) x Hx). }
  cbn [mbind outcome_bind]. destruct (Heap.deallocate _ _ _) as [[h' m'']| |]; done.
Qed.

Lemma finish_up (k k1 : K) map img f dir held ts pl s d i es c : program_ok -> loaded k ->
  memory_ok (kernel_image p) (guard_page p) map ->
  disk_ok disk -> GoatFs.Packer.pack GoatFs.Packer.FILES = Some img -> GoatFsFacts.installed disk img ->
  cored map k k1 f dir held ts pl s -> Idle d f -> (forall s, chips d s = lines 0xff c s) -> Forall (says es) enable_lines ->
  exists k', start_services p (enabled k1 d i es) = Done k' /\ up map c (Interrupts.unhandled_count i) k'.
Proof.
  intros Hp Hk Hmem Hok Himg Hinst Hcore Hidle Hch Hsay.
  pose proof Hcore as [Ccpu Ctss _ _ _ Cgdt Cidt Cvec (Cfs & Csc & Cq) [Cw Cse] _ _ Cheap [Croom Cal] [Cs Ce] Crun _ (es0 & Clog & Cles)].
  destruct (services_up (enabled k1 d i es) c f ts img Hp) as (k' & E & Hsv); try done;
    [cbn [enabled fs]; by rewrite Cfs, (ld_fs _ Hk)|cbn [enabled sched]; by rewrite Csc, (ld_sched _ Hk)| |].
  { intros j Hj. apply (outside_heap (heap k1) s Cs Ce). intros Hr.
    by apply (image_unmanaged _ _ _ _ Hmem (po_contexts Hp j Hj)), Crun. }
  exists k'. split; [exact E|].
  pose proof Hsv as [Hcpu (Htss & _ & Hgdt) [Hw Hse] Hidt Hma Hfi ([Hq Hkb] & Hti & Hin) (ts' & pa & pb & Hto & Hh) [Hb0 _] _ (es' & Hlog & Hes & Hhel)].
  destruct (ld_locks _ Hk) as [Lw Ls].
  cbn [enabled cpu tss gdt idt queue ints heap WRITER SERIAL1 log] in Hcpu, Htss, Hgdt, Hw, Hse, Hidt, Hq, Hin, Hlog, Hb0.
  split.
  - by rewrite Hcpu.
  - by rewrite Hcpu, Ccpu.
  - by rewrite Hgdt.
  - by rewrite Hcpu, Ccpu.
  - by rewrite Hw, Hse, Cw, Cse.
  - intros v Hv. rewrite Hidt, vectors_set by (done || apply Hp). by rewrite Cvec.
  - exact Hma.
  - rewrite Hcpu, Ccpu. exact (PagingFacts.paging_on (table_cpu k) (Frame.start_address dir)).
  - by rewrite Hcpu, Htss, Ctss, Ccpu.
  - exists ts', pa, pb. split; [exact Hto|]. intros m Hm.
    eapply memory_steady; [exact Hmem|exact Hp|exact Hcore| |exact Hh|exact Hm]. destruct Hsv as [_ (_ & Hf & _) _ _ _ _ _ _ Hb Hkept _]. by split.
  - exact Hfi.
  - by rewrite Hq, Cq, (ld_queue _ Hk), Hkb.
  - by rewrite Hti, Hin.
  - rewrite Hlog, Clog. split.
    + rewrite Hcpu, Ccpu, Hb0, Cs. cbn [Interrupts.enable Paging.enable cr3]. unfold boot_lines. rewrite !Forall_app. split_and!.
      * by apply all_says_l, all_says_l, all_says_l, all_says_r.
      * by apply all_says_l, all_says_l, all_says_r.
      * by apply all_says_l, all_says_r.
    + apply elem_of_app. left. apply elem_of_app. by right.
  - eexists. exact Hlog.
Qed.

(** [start_core] from the first line to the [sti]. *)
Lemma core_enabled (k : K) (map : Map.MemoryMap) : program_ok -> loaded k ->
  Map.load (memory k) = map -> memory_ok (kernel_image p) (guard_page p) map ->
  exists k1 f dir held ts pl s d es, start_core p k = Done (enabled k1 d (ints k1) es) /\ cored map k k1 f dir held ts pl s /\
    Idle d f /\ (forall s, chips d s = lines 0xff (cleared (chips (dev k))) s) /\ Forall (says es) enable_lines.
Proof.
  intros Hp Hk Hmap Hmem. destruct (core_up k map Hp Hk Hmap Hmem) as (k1 & f & dir & held & ts & pl & s & E0 & Hcore).
  destruct (interrupts_on k1 _ f (co_idle _ _ _ _ _ _ _ _ _ Hcore) (co_chips _ _ _ _ _ _ _ _ _ Hcore)
    ltac:(by rewrite (co_ints _ _ _ _ _ _ _ _ _ Hcore))) as (d & es & E & Hi & Hc & S1 & S2).
  exists k1, f, dir, held, ts, pl, s, d, es. rewrite E0, E. split; [by destruct k1|]. split; [exact Hcore|]. split_and!; [done..|].
  unfold enable_lines. rewrite !Forall_cons, Forall_nil. done.
Qed.

Lemma kernel_main_up (k : K) (map : Map.MemoryMap) (img : list Z) : program_ok -> loaded k ->
  Map.load (memory k) = map -> memory_ok (kernel_image p) (guard_page p) map ->
  disk_ok disk -> GoatFs.Packer.pack GoatFs.Packer.FILES = Some img -> GoatFsFacts.installed disk img ->
  exists k', kernel_main p k = Done k' /\ up map (cleared (chips (dev k))) 0 k'.
Proof.
  intros Hp Hk Hmap Hmem Hok Himg Hinst.
  destruct (core_enabled k map Hp Hk Hmap Hmem) as (k1 & f & dir & held & ts & pl & s & d & es & E0 & Hcore & Hi & Hc & Hs).
  destruct (finish_up k k1 map img f dir held ts pl s d (ints k1) es _ Hp Hk Hmem Hok Himg Hinst Hcore Hi Hc Hs) as (k' & E & Hup).
  rewrite (co_ints _ _ _ _ _ _ _ _ _ Hcore) in Hup at 1. exists k'. split; [unfold kernel_main; rewrite E0; exact E|exact Hup].
Qed.

(** C3: The kernel boots. The machine: [.bss] comes up zeroed ([loaded]: the
    initial values of the statics, which nothing writes before [kernel_main],
    are zero bytes) and the drive is idle and holds the shipped image. The
    memory map: at most 32 entries with 64-bit bounds, the usable ones pairwise
    disjoint and none reaching beyond 4 GiB - 4 MiB, one run of 1288 frames
    inside a usable entry and outside the reserved ranges, and the kernel's
    image (the guard page in it) below the end of the identity map. The link
    ([program_ok]): 32-bit entry addresses, the saved stack pointers of the
    tasks at distinct addresses in the image. Then [kernel_main] reaches the
    shell's prompt without panicking or spinning. By then interrupts are on with
    exactly IRQ0 and IRQ1 open, the timer runs, every vector leads to its
    handler; paging is on, both task state segments have the page directory, and
    every mapped address translates to itself except for the guard page; the
    heap is intact and mapped; no frame of it, nor the page directory, can be
    handed out again - all this whatever is written to the image and to
    allocated blocks from then on; the ready queue holds the two demo tasks,
    parked at their entries on stacks of their own; the shipped image is mounted;
    the writers' locks are free. The serial log has every line of [boot_lines],
    with the values the map and the link give: the framebuffer, GDT, IDT,
    exceptions, double-fault, PIC and catch-all lines, one E820 line for each
    entry of the map and the memory summary, the four reserved ranges, the frame
    summary, the eight test frames and the frame self-test's verdict, the paging
    and heap lines, the heap self-test's verdict, interrupts enabled, the boot
    banner, timer, keyboard, drive, filesystem and tasks; and the contents of
    hello.txt. *)
Theorem kernel_boots (k : K) (map : Map.MemoryMap) (img : list Z) : program_ok -> loaded k ->
  Map.load (memory k) = map -> memory_ok (kernel_image p) (guard_page p) map ->
  disk_ok disk -> GoatFs.Packer.pack GoatFs.Packer.FILES = Some img -> GoatFsFacts.installed disk img ->
  exists k', kernel_main p k = Done k' /\ up map (cleared (chips (dev k))) 0 k'.
Proof. intros Hp Hk Hmap Hmem Hok Himg Hinst. by eapply kernel_main_up. Qed.

End boot.

(** ** A concrete machine *)

Definition demo_program : Program := {|
  image := InterruptFacts.demo_image;
  kernel_image := (0x10000, 0x48000);
  guard_page := 0x40000;
  entries := InterruptFacts.demo_entries;
  timer_interrupt := 0x11000;
  keyboard_interrupt := 0x11100;
  task_trampoline := 0x11200;
  context_of := fun i => 0x17000 + 8 * Z.of_nat i;
  demo_a_task := 0x11300;
  demo_b_task := 0x11400
|}.

(** A BIOS with 639 KiB of low memory and 15 MiB above 1 MiB. *)
Definition demo_bios (ebx : Z) : option (MemMap.Boot.E820Entry * Z) :=
  if ebx =? 0 then Some (MemMap.Boot.mkE820 0 0x9fc00 1 (Some 1), 1)
  else Some (MemMap.Boot.mkE820 0x100000 0xf00000 1 None, 0).

Definition demo_memory : mem :=
  match MemMap.Boot.detect_memory demo_bios ∅ with Done m => m | _ => ∅ end.

Definition demo_pc : PC GoatFsSpec.shipped_disk :=
  mkPC PitFacts.demo_board [0x1c] (mkDrive (mkFile 0 0 0 0 0) PIdle).

Definition demo_kernel : Kernel (PC GoatFsSpec.shipped_disk) := {|
  dev := demo_pc; cpu := boot_cpu; memory := demo_memory; screen := ∅;
  gdt := replicate 5 0; idt := replicate 256 Idt.MISSING; tss := PagingFacts.boot_tss;
  ints := Interrupts.mkIState 0 (replicate 8 0); frames := Frame.empty; heap := Heap.empty; TICKS := 0;
  kbd := Keyboard.mkState false false 0; queue := Sync.Sync.mkMutex false Input.Input.new; ata := mkAta false;
  fs := GoatFs.boot; sched := Task.boot; WRITER := Sync.Sync.new tt; SERIAL1 := Sync.Sync.new tt; log := []
|}.

Lemma demo_program_ok : program_ok demo_program.
Proof.
  split; try (split; reflexivity || discriminate).
  - apply InterruptFacts.demo_entries_u32.
  - intros i Hi. unfold Task.MAX_TASKS in Hi. cbn [kernel_image demo_program fst snd context_of]. lia.
  - intros i j _ _ He. cbn [demo_program context_of] in He. lia.
Qed.

Definition demo_map : Map.MemoryMap := Map.load demo_memory.

Lemma demo_usable : NewFacts.usable demo_map =
  [Map.mkRegion 0 0x9fc00 Map.Usable; Map.mkRegion 0x100000 0xf00000 Map.Usable].
Proof. vm_compute. reflexivity. Qed.

Lemma demo_memory_ok : memory_ok (kernel_image demo_program) (guard_page demo_program) demo_map.
Proof.
  split; [|vm_compute; done|vm_compute; congruence|vm_compute; done| |].
  - split.
    + apply Nat.leb_le. vm_compute. reflexivity.
    + rewrite demo_usable. repeat constructor; cbn; lia.
    + rewrite demo_usable. intros j k r s b Hr Hs Hbr Hbs. unfold Map.end_, saturating_add_u64 in Hbr, Hbs.
      destruct j as [|[|j]], k as [|[|k]]; cbn [lookup list_lookup] in Hr, Hs; simplify_eq; try done;
        cbn [Map.base Map.length_] in *; lia.
  - intros r Hr. rewrite demo_usable in Hr.
    apply elem_of_cons in Hr as [->|[->|[]%elem_of_nil]%elem_of_cons]; vm_compute; congruence.
  - exists 0x100. split; [lia|]. exists (Map.mkRegion 0x100000 0xf00000 Map.Usable). split.
    + rewrite demo_usable. apply list_elem_of_further, list_elem_of_here.
    + intros i Hi. unfold BOOT_FRAMES in Hi. split.
      * unfold NewFacts.frame_inside, Map.end_, saturating_add_u64. cbn [Map.base Map.length_]. unfold U64_MAX. lia.
      * unfold NewFacts.reserved_ranges. rewrite !Forall_cons, Forall_nil. split_and!; [..|done]; intros (b & Hb & Hib);
          vm_compute fst in Hb; vm_compute snd in Hb; lia.
Qed.

Lemma demo_loaded : loaded (disk := GoatFsSpec.shipped_disk) demo_kernel.
Proof. split; try done. by exists (mkFile 0 0 0 0 0). Qed.

Lemma demo_packed : GoatFs.Packer.pack GoatFs.Packer.FILES = Some GoatFsSpec.shipped.
Proof. vm_compute. reflexivity. Qed.

Lemma kernel_boots_witness :
  exists k', kernel_main demo_program demo_kernel = Done k' /\ if_flag (cpu k') = true /\
    imr (chips (dev k') Master) = 0xfc /\ Mmu.translate (memory k') (cr3 (cpu k')) 0xb8000 = Some (0xb8000, true) /\
    Mmu.translate (memory k') (cr3 (cpu k')) 0x40123 = None.
Proof.
  destruct (kernel_boots demo_program demo_kernel demo_map GoatFsSpec.shipped demo_program_ok demo_loaded eq_refl demo_memory_ok
    GoatFsSpec.shipped_disk_ok demo_packed GoatFsSpec.shipped_installed)
    as (k' & Hrun & [Hif _ _ _ _ _ [_ Hc _] _ _ (ts & pa & pb & _ & Hm) _ _ _ _ _]).
  exists k'. split; [exact Hrun|]. split; [exact Hif|]. rewrite (Hc Master). split; [reflexivity|].
    destruct (Hm (memory k') ltac:(by intros a)) as [Htr _ _ _ _]. rewrite !Htr by lia. split; vm_compute; reflexivity.
Defined.

End BootFacts.
