(* ===== verification/Deliver.v ===== *)
(** * Delivery of interrupts and exceptions

    From a vector to the handler and back: the processor looks the vector up in
    the IDT, pushes a frame or switches tasks, and runs the code found there on
    the whole kernel state. The handlers are those of [exceptions.rs],
    [interrupts.rs], [pit.rs] and [keyboard.rs]; the addresses at which the
    linker put them decide which one runs. *)

From S2P Require Import Prelude.
From S2P Require Import Fmt.
From S2P Require Import Machine.
From S2P Require Import Descriptors.
From S2P Require Import DescriptorFacts.
From S2P Require Import Pic.
From S2P Require Import Interrupts.
From S2P Require Import Paging.
From S2P Require Import Sync.
From S2P Require Import Input.
From S2P Require Import Keyboard.
From S2P Require Import Shell.
From S2P Require Import Pit.
From S2P Require Import Boot.
#[local] Open Scope Z_scope.

Module Deliver.
Import Machine Sync Shell Boot Exceptions.
#[local] Existing Instance Idt.Gate_inhabited.

(** What was interrupted: the frame the processor pushes, the stack registers,
    and how far below the top of its own stack [double_fault_entry] reads its
    stack pointer. *)
Record Ctx := mkCtx { frame : Idt.StackFrame; c_esp : Z; c_ebp : Z; depth : Z }.

Definition diag_lines (ls : list string) : list effect := mjoin (diag_println <$> ls).

(** Exceptions whose delivery, when it faults itself, is a double fault. *)
Definition escalates (v : Z) : bool := bool_decide (v ∈ [0; 10; 11; 12; 13; 14]).

Section device.
Context {D : Type} `{PortIO D}.
Context (p : Program).

Abbreviation K := (Kernel D).

(** A handler of the wrong shape takes the error code for the frame. *)
Definition without_code {A} (code : option Z) (r : outcome A) : outcome A :=
  match code with None => r | Some _ => Panicked end.
Definition with_code {A} (code : option Z) (f : Z -> outcome A) : outcome A :=
  match code with Some c => f c | None => Panicked end.

Definition reported (k : K) (r : list string * Control) : outcome (K * Control) :=
  k ← prints k (diag_lines r.1); Done (k, r.2).

(** [dispatch] on the kernel's statics. *)
Definition caught (k : K) (v : Z) (code : option Z) (c : Ctx) : outcome (K * Control) :=
  let '(s, d, lines, r) := Interrupts.dispatch (ints k) (dev k) v code (frame c) in
  k ← prints {| k with ints := s; dev := d |} (diag_lines lines); Done (k, r).

(** The code at address [a], entered for vector [v]. *)
Definition call_handler (k : K) (v a : Z) (code : option Z) (c : Ctx) : outcome (K * Control) :=
  let e := entries p in
  if a =? timer_interrupt p then without_code code
    (let '(d, t) := Pit.timer_interrupt (dev k) (TICKS k) in Done ({| k with dev := d; TICKS := t |}, Resume))
  else if a =? keyboard_interrupt p then without_code code
    ('(d, s, mx, cpu) ← Keyboard.keyboard_interrupt (dev k) (kbd k) (queue k) (cpu k);
     Done ({| k with dev := d; kbd := s; queue := mx; cpu := cpu |}, Resume))
  else if a =? divide_error e then without_code code
    (reported k (report DIVIDE_ERROR "divide error" None (frame c)))
  else if a =? invalid_opcode e then without_code code
    (reported k (report INVALID_OPCODE "invalid opcode" None (frame c)))
  else if a =? general_protection_fault e then with_code code
    (fun code => reported k (report GENERAL_PROTECTION_FAULT "general protection fault" (Some code) (frame c)))
  else if a =? unhandled e v then without_code code (caught k v None c)
  else if a =? unhandled_with_error_code e v then with_code code (fun code => caught k v (Some code) c)
  else Panicked.

(** The TSSes in memory, by their addresses. *)
Inductive TssAt := MainTss | DoubleFaultTss.

Definition get_tss (w : TssAt) (t : Tss.TssState) : Tss.TaskStateSegment :=
  match w with MainTss => Tss.main t | DoubleFaultTss => Tss.double_fault t end.
Definition set_tss (w : TssAt) (x : Tss.TaskStateSegment) (t : Tss.TssState) : Tss.TssState :=
  match w with
  | MainTss => Tss.mkTssState x (Tss.double_fault t)
  | DoubleFaultTss => Tss.mkTssState (Tss.main t) x
  end.

(** The processor reads the descriptor that [sel] names: it must be a TSS in
    state [access], with room for one, and where it points there must be one. *)
Definition named_tss (k : K) (sel access : Z) : option TssAt :=
  let d := Hw.descriptor_of (gdt k) sel in
  if negb ((Hw.d_access d =? access) && (Tss.tss_size - 1 <=? Hw.segment_last d)) then None
  else if Hw.d_base d =? Image.main_tss_addr (image p) then Some MainTss
  else if Hw.d_base d =? Image.double_fault_tss_addr (image p) then Some DoubleFaultTss
  else None.

Definition ACCESS_TSS_BUSY : Z := 0x8b.
Definition CR0_TS : Z := 8.

(** A hardware task switch through a task gate: the registers of the interrupted
    code go to the TSS that the task register names - the general ones that a
    context does not show are left out -, the new TSS is linked to it and marked
    busy, and the processor takes its page directory, flags and segments from
    there. The result is the new task's TSS. *)
Definition task_switch (k : K) (sel : Z) (c : Ctx) : outcome (K * Tss.TaskStateSegment) :=
  old ← outcome_of_option (named_tss k (tr (cpu k)) ACCESS_TSS_BUSY);
  new ← outcome_of_option (named_tss k sel Gdt.ACCESS_TSS_AVAILABLE);
  let saved := {| (get_tss old (tss k)) with
    Tss.t_eip := Idt.eip (frame c); Tss.t_eflags := Idt.eflags (frame c); Tss.t_cs := Idt.f_cs (frame c);
    Tss.t_esp := c_esp c; Tss.t_ebp := c_ebp c; Tss.t_ss := ss (cpu k); Tss.t_ds := ds (cpu k);
    Tss.t_es := es (cpu k); Tss.t_fs := Machine.fs (cpu k); Tss.t_gs := gs (cpu k) |} in
  let t := set_tss old saved (tss k) in
  let task := {| (get_tss new t) with Tss.previous_task_link := tr (cpu k) |} in
  let i := Z.to_nat (Z.shiftr sel 3) in
  let cpu := {| (cpu k) with
    cr0 := Z.lor (cr0 (cpu k)) CR0_TS;
    cr3 := if Paging.Paging.paging_is_enabled (cpu k) then Tss.t_cr3 task else cr3 (cpu k);
    cs := Tss.t_cs task; ss := Tss.t_ss task; ds := Tss.t_ds task; es := Tss.t_es task;
    Machine.fs := Tss.t_fs task; gs := Tss.t_gs task; tr := sel; if_flag := Z.testbit (Tss.t_eflags task) 9 |} in
  Done ({| k with tss := set_tss new task t; gdt := <[i := Z.lor (gdt k !!! i) (Z.shiftl 1 41)]> (gdt k); cpu := cpu |}, task).

(** A present code segment that starts at address 0. *)
Definition flat_code (d : Z) : bool := (Z.land (Hw.d_access d) 0x98 =? 0x98) && (Hw.d_base d =? 0).

(** The task starts at its instruction pointer, in its code segment. *)
Definition call_task (k : K) (sel : Z) (c : Ctx) : outcome (K * Control) :=
  '(k, task) ← task_switch k sel c;
  if flat_code (Hw.descriptor_of (gdt k) (Tss.t_cs task)) && (Tss.t_eip task =? double_fault_entry (entries p))
  then reported k (double_fault_report (image p) (tss k) (Tss.t_esp task - depth c))
  else Panicked.

(** Through an interrupt gate the handler runs with interrupts masked; [iret]
    puts the flag back. *)
Definition follow (k : K) (v : Z) (code : option Z) (c : Ctx) (t : Hw.target) : outcome (K * Control) :=
  match t with
  | Hw.ToOffset _ a =>
      let saved := if_flag (cpu k) in
      '(k, r) ← call_handler {| k with cpu := cli (cpu k) |} v a code c;
      Done (match r with Resume => {| k with cpu := {| (cpu k) with if_flag := saved |} |} | Halt => k end, r)
  | Hw.ToTask sel => call_task k sel c
  | Hw.NotPresent => Panicked
  end.

(** Vector [v] is taken. With its gate missing the processor raises a general
    protection fault, which on top of a contributory exception or a page fault
    is a double fault. *)
Definition take_vector (k : K) (v : Z) (code : option Z) (c : Ctx) : outcome (K * Control) :=
  let target v := Hw.gate_target (idt k !!! Z.to_nat v) in
  match target v with
  | Hw.NotPresent =>
      if escalates v then follow k DOUBLE_FAULT (Some 0) c (target DOUBLE_FAULT)
      else follow k GENERAL_PROTECTION_FAULT (Some (v * 8 + 2)) c (target GENERAL_PROTECTION_FAULT)
  | t => follow k v code c t
  end.

End device.
End Deliver.

(** ** Which handler runs *)
Module DeliverFacts.
Import Machine Sync Shell Boot Exceptions Deliver.
#[local] Existing Instance Idt.Gate_inhabited.

(** Functions have 32-bit addresses of their own. *)
Definition named (p : Program) : list Z :=
  let e := entries p in
  [timer_interrupt p; keyboard_interrupt p; divide_error e; invalid_opcode e; general_protection_fault e].

Record handlers_ok (p : Program) : Prop := {
  ho_distinct : NoDup (named p);
  ho_stubs : forall v, unhandled (entries p) v ∉ named p;
  ho_task : is_u32 (double_fault_entry (entries p))
}.

Section device.
Context {D : Type} `{PortIO D} (p : Program) (Hok : handlers_ok p).

Abbreviation K := (Kernel D).

Ltac other_handlers :=
  repeat match goal with |- context [?a =? ?b] => destruct (Z.eqb_spec a b) as [?|_]; [exfalso; congruence|] end; rewrite ?Z.eqb_refl.

Lemma call_timer (k : K) v c : call_handler p k v (timer_interrupt p) None c =
  (let '(d, t) := Pit.timer_interrupt (dev k) (TICKS k) in Done ({| k with dev := d; TICKS := t |}, Resume)).
Proof. unfold call_handler. by rewrite Z.eqb_refl. Qed.

Lemma handlers_apart : let e := entries p in
  timer_interrupt p <> keyboard_interrupt p /\ timer_interrupt p <> divide_error e /\ timer_interrupt p <> invalid_opcode e /\
  timer_interrupt p <> general_protection_fault e /\ keyboard_interrupt p <> divide_error e /\ keyboard_interrupt p <> invalid_opcode e /\
  keyboard_interrupt p <> general_protection_fault e /\ divide_error e <> invalid_opcode e /\
  divide_error e <> general_protection_fault e /\ invalid_opcode e <> general_protection_fault e.
Proof. pose proof (ho_distinct _ Hok) as Hd. unfold named in Hd. rewrite !NoDup_cons, !not_elem_of_cons in Hd. cbv zeta. destruct_and! Hd. by split_and!. Qed.

Lemma call_keyboard (k : K) v c : call_handler p k v (keyboard_interrupt p) None c =
  ('(d, s, mx, cpu) ← Keyboard.keyboard_interrupt (dev k) (kbd k) (queue k) (cpu k);
   Done ({| k with dev := d; kbd := s; queue := mx; cpu := cpu |}, Resume)).
Proof.
  destruct handlers_apart as (? & _). unfold call_handler. destruct (Z.eqb_spec (keyboard_interrupt p) (timer_interrupt p)); [congruence|].
  by rewrite Z.eqb_refl.
Qed.

Lemma call_divide_error (k : K) v c : call_handler p k v (divide_error (entries p)) None c =
  reported k (report DIVIDE_ERROR "divide error" None (frame c)).
Proof. destruct handlers_apart as (? & ? & ? & ? & ? & ? & ? & ? & ? & ?). unfold call_handler. other_handlers. done. Qed.

Lemma call_invalid_opcode (k : K) v c : call_handler p k v (invalid_opcode (entries p)) None c =
  reported k (report INVALID_OPCODE "invalid opcode" None (frame c)).
Proof. destruct handlers_apart as (? & ? & ? & ? & ? & ? & ? & ? & ? & ?). unfold call_handler. other_handlers. done. Qed.

Lemma call_protection_fault (k : K) v code c : call_handler p k v (general_protection_fault (entries p)) (Some code) c =
  reported k (report GENERAL_PROTECTION_FAULT "general protection fault" (Some code) (frame c)).
Proof. destruct handlers_apart as (? & ? & ? & ? & ? & ? & ? & ? & ? & ?). unfold call_handler. other_handlers. done. Qed.

Lemma call_stub (k : K) v c : call_handler p k v (unhandled (entries p) v) None c = caught k v None c.
Proof.
  pose proof (ho_stubs _ Hok v) as Hn. unfold named in Hn. rewrite !not_elem_of_cons in Hn. destruct Hn as (? & ? & ? & ? & ? & _).
  unfold call_handler. other_handlers. done.
Qed.

End device.
End DeliverFacts.
