(* ===== verification/System.v ===== *)
(** * The running kernel ([main.rs], after the prompt)

    The three tasks' loops statement by statement, the context switches between
    them and the interrupts that arrive in between, as a step relation on the
    kernel state and on where each task is. What compiled code does with its
    registers and its own stack is left open: a step may find any register
    values, and may write any word of the running task's stack. *)

From S2P Require Import Prelude.
From S2P Require Import Fmt.
From S2P Require Import Machine.
From S2P Require Import Descriptors.
From S2P Require Import Pic.
From S2P Require Import Interrupts.
From S2P Require Import Sync.
From S2P Require Import Input.
From S2P Require Import Task.
From S2P Require Import Ata.
From S2P Require Import AtaFacts.
From S2P Require Import Shell.
From S2P Require Import Pit.
From S2P Require Import Boot.
From S2P Require Import Deliver.
#[local] Open Scope Z_scope.

Module System.
Import Machine Sync Input Ata Shell Boot Deliver.

(** ** Where a task is *)

(** The statements of [shell_task]'s loop. *)
Inductive ShellAt :=
| Pop                          (** the head of [drain_input]'s loop *)
| Handle (ev : KeyEvent)       (** its body *)
| Clock                        (** [let second = ..], and the test *)
| SayTick
| SayTurns
| Yield
| Switched (flags : Z)         (** in [yield_now], off the CPU or just back *)
| Hlt
| Halted.

(** The statements of [demo_counter_task]'s loop. *)
Inductive DemoAt :=
| DClock
| DSay
| DYield
| DSwitched (flags : Z).

(** A task: its place and its local variables. *)
Inductive Thread :=
| Fresh                                                       (** spawned, not yet entered *)
| ShellTask (at_ : ShellAt) (editor : LineEditor) (last_second : Z)
| DemoTask (at_ : DemoAt) (label last_second count : Z).

Record System {D : Type} := mkSystem { kernel : Kernel D; threads : list Thread }.
Arguments System D : clear implicits.
Arguments mkSystem {D}.

(** Addresses the compiler and the linker choose: the boot stack, the return
    address of the call in [yield_now], the park loop in the trampoline. *)
Record Code := mkCode { boot_stack : Z * Z; ret : Z; park : Z }.

Section device.
Context {D : Type} `{PortIO D} `{WordIO D}.
Context (p : Program) (code : Code).

Abbreviation K := (Kernel D).
Abbreviation S := (System D).

Definition current (s : S) : nat := Task.current (Task.sched (sched (kernel s))).

(** [kernel_main] has returned to its last line, the call of [shell_task]. *)
Definition start (k : K) : S := mkSystem k [ShellTask Pop Shell.new 0; Fresh; Fresh; Fresh].

(** The running task moves on. *)
Definition goes (s : S) (k : K) (t : Thread) : S := mkSystem k (<[current s := t]> (threads s)).

(** The stack of task [i]: its block, or the boot stack. *)
Definition stack_range (st : Task.State) (i : nat) : Z * Z :=
  match Task.tasks (Task.sched st) !! i with
  | Some (Some (Task.mkTask (Some ptr))) => (ptr, ptr + Task.STACK_SIZE)
  | _ => boot_stack code
  end.

(** The registers that [context_switch] left are those of task [i]: back in
    [yield_now], or in the trampoline of a new task, which enters one of the
    two functions that are ever spawned. *)
Definition resume (s : S) (r : Task.Regs) (i : nat) : outcome S :=
  let k := kernel s in
  if Task.eip r =? ret code then Done s
  else if Task.eip r =? task_trampoline p then
    let '(r, m) := Task.task_trampoline (park code) r (memory k) in
    let k := {| k with memory := m |} in
    if Task.eip r =? demo_a_task p then Done (mkSystem k (<[i := DemoTask DClock 1 0 0]> (threads s)))
    else if Task.eip r =? demo_b_task p then Done (mkSystem k (<[i := DemoTask DClock 2 0 0]> (threads s)))
    else Panicked
  else Panicked.

(** [yield_now] of the running task, with registers [r]; [parked] says where it
    goes on when it is switched to again, [alone] when it was not switched
    away. *)
Definition yield (s : S) (r : Task.Regs) (parked : Z -> Thread) (alone : Thread) : outcome S :=
  let k := kernel s in
  '(st, cpu, r, m, flags) ← Task.yield_now (context_of p) (ret code) (sched k) (cpu k) r (memory k);
  let k := {| k with sched := st; cpu := cpu; memory := m |} in
  match flags with
  | None => Done (goes s k alone)
  | Some flags => let s := goes s k (parked flags) in resume s r (current s)
  end.

(** One statement of [shell_task]. *)
Definition shell_step (s : S) (r : Task.Regs) (at_ : ShellAt) (editor : LineEditor) (last_second : Z) : outcome S :=
  let k := kernel s in
  match at_ with
  | Pop =>
      '(mx, c, event) ← Input.pop (queue k) (cpu k);
      Done (goes s {| k with queue := mx; cpu := c |}
              (match event with
               | Some ev => ShellTask (Handle ev) editor last_second
               | None => ShellTask Clock editor last_second
               end))
  | Handle ev =>
      '(b, editor, out, _) ← handle_event (dev k, ata k) (fs k) editor ev;
      Done (goes s (print {| k with dev := b.1 |} out) (ShellTask Pop editor last_second))
  | Clock =>
      let second := Pit.seconds (TICKS k) in
      Done (goes s k (if last_second <? second then ShellTask SayTick editor second else ShellTask Yield editor last_second))
  | SayTick =>
      Done (goes s (print k (serial_println ("PIT: tick " +:+ Fmt.dec (Pit.ticks (TICKS k)) +:+ " (" +:+ Fmt.dec last_second +:+ " s)")))
              (ShellTask SayTurns editor last_second))
  | SayTurns =>
      let st := sched k in
      Done (goes s (print k (serial_println ("Scheduler: turns [0]=" +:+ Fmt.dec (Task.turns st 0) +:+ " [1]="
                                             +:+ Fmt.dec (Task.turns st 1) +:+ " [2]=" +:+ Fmt.dec (Task.turns st 2))))
              (ShellTask Yield editor last_second))
  | Yield => yield s r (fun flags => ShellTask (Switched flags) editor last_second) (ShellTask Hlt editor last_second)
  | Switched flags =>
      Done (goes s {| k with cpu := Task.yield_return flags (cpu k) |} (ShellTask Hlt editor last_second))
  | Hlt => Done (goes s k (ShellTask Halted editor last_second))
  | Halted => Done s
  end.

(** One statement of [demo_counter_task]. *)
Definition demo_step (s : S) (r : Task.Regs) (at_ : DemoAt) (label last_second count : Z) : outcome S :=
  let k := kernel s in
  match at_ with
  | DClock =>
      let second := Pit.seconds (TICKS k) in
      Done (goes s k (if last_second <? second then DemoTask DSay label second (saturating_add_u32 count 1)
                      else DemoTask DYield label last_second count))
  | DSay =>
      let id := Task.current (Task.sched (sched k)) in
      Done (goes s (print k (diag_println ("Task: demo-" +:+ Fmt.dec label +:+ " counter " +:+ Fmt.dec count +:+ " (turns "
                                           +:+ Fmt.dec (Task.turns (sched k) id) +:+ ")")))
              (DemoTask DYield label last_second count))
  | DYield => yield s r (fun flags => DemoTask (DSwitched flags) label last_second count) (DemoTask DClock label last_second count)
  | DSwitched flags =>
      Done (goes s {| k with cpu := Task.yield_return flags (cpu k) |} (DemoTask DClock label last_second count))
  end.

(** One statement of whoever runs; [r] is what the registers hold there. *)
Definition run (s : S) (r : Task.Regs) : outcome S :=
  match threads s !! current s with
  | Some (ShellTask at_ editor last_second) => shell_step s r at_ editor last_second
  | Some (DemoTask at_ label last_second count) => demo_step s r at_ label last_second count
  | _ => Panicked
  end.

(** A halted processor goes on after the [hlt], the end of the loop's body. *)
Definition wake (t : Thread) : Thread :=
  match t with ShellTask Halted editor last_second => ShellTask Pop editor last_second | _ => t end.

(** Vector [v] interrupts the running task. A handler that halts ends it all. *)
Definition interrupt (s : S) (v : Z) (c : Ctx) : outcome S :=
  '(k, r) ← take_vector p (kernel s) v None c;
  match r with
  | Resume => Done (mkSystem k (alter wake (current s) (threads s)))
  | Halt => Panicked
  end.

(** ** The world outside *)

Section world.
Context {disk : Z -> list Z} `{!PicHw.PicDevice D} `{!Pit8254.PitDevice D} `{!AtaDrive.AtaDevice D disk}.
Import PicHw Pit8254 AtaDrive.

(** Device states that differ in what arrives from outside - requests at the
    controllers, keys, time - but not in what drivers have set up. *)
Record outside (d d' : D) : Prop := {
  ou_idle : forall f, Idle d f -> Idle d' f;
  ou_timer : channel0 d' = channel0 d;
  ou_chips : forall s, PicFacts.same_setup (chips d s) {| (chips d' s) with irr := irr (chips d s) |} /\
    read_isr (chips d' s) = read_isr (chips d s)
}.

(** Line [i] of a controller may interrupt: it is not masked and nothing of its
    priority or higher is in service. *)
Definition may_interrupt (c : Chip) (i : Z) : Prop :=
  0 <= i < 8 /\ Z.testbit (imr c) i = false /\ forall j, 0 <= j <= i -> Z.testbit (isr c) j = false.

Definition in_service (d d' : D) (m s : Z) : Prop :=
  outside d d' /\ isr (chips d' Master) = m /\ isr (chips d' Slave) = s.

(** The processor acknowledges an interrupt and gets its vector. A request that
    has gone away by then counts as line 7, which is not put in service. *)
Inductive raises (d : D) : Z -> D -> Prop :=
| raises_line i d' : i <> 2 -> may_interrupt (chips d Master) i ->
    in_service d d' (Z.setbit (isr (chips d Master)) i) (isr (chips d Slave)) -> raises d (base (chips d Master) + i) d'
| raises_cascade i d' : may_interrupt (chips d Master) 2 -> may_interrupt (chips d Slave) i ->
    in_service d d' (Z.setbit (isr (chips d Master)) 2) (Z.setbit (isr (chips d Slave)) i) ->
    raises d (base (chips d Slave) + i) d'
| raises_spurious d' :
    in_service d d' (isr (chips d Master)) (isr (chips d Slave)) -> raises d (base (chips d Master) + 7) d'
| raises_spurious_cascade d' : may_interrupt (chips d Master) 2 ->
    in_service d d' (Z.setbit (isr (chips d Master)) 2) (isr (chips d Slave)) -> raises d (base (chips d Slave) + 7) d'.

(** ** Steps *)

(** Room for the call of [context_switch] on the running task's stack. *)
Definition stack_ok (s : S) (r : Task.Regs) : Prop :=
  let '(lo, hi) := stack_range (sched (kernel s)) (current s) in lo + 28 <= Task.esp r <= hi.

Inductive label := Ran | Interrupted (v : Z) | WroteStack | WorldMoved.

Inductive step (s : S) : label -> outcome S -> Prop :=
| step_run r : stack_ok s r -> step s Ran (run s r)
| step_interrupt v d' c : if_flag (cpu (kernel s)) = true -> raises (dev (kernel s)) v d' ->
    step s (Interrupted v) (interrupt (mkSystem {| (kernel s) with dev := d' |} (threads s)) v c)
| step_stack a w : (let '(lo, hi) := stack_range (sched (kernel s)) (current s) in lo <= a < hi) ->
    step s WroteStack (Done (mkSystem {| (kernel s) with memory := (memory (kernel s)).[a <- w] |} (threads s)))
| step_world d' : in_service (dev (kernel s)) d' (isr (chips (dev (kernel s)) Master)) (isr (chips (dev (kernel s)) Slave)) ->
    step s WorldMoved (Done (mkSystem {| (kernel s) with dev := d' |} (threads s))).

Inductive reaches (s : S) : list label -> S -> Prop :=
| reaches_refl : reaches s [] s
| reaches_step tr s1 l s2 : reaches s tr s1 -> step s1 l (Done s2) -> reaches s (tr ++ [l]) s2.

End world.
End device.
End System.
