(* ===== verification/SystemProgress.v ===== *)
(** * Progress of the running kernel

    How far the tasks are from the next halt when nobody interrupts them, and
    what the shell will do with the keys that wait: the facts about single
    statements on which [SystemFacts] builds. *)

From S2P Require Import Prelude.
From S2P Require Import Sync.
From S2P Require Import Input.
From S2P Require Import Task.
From S2P Require Import Shell.
From S2P Require Import ShellFacts.
From S2P Require Import Boot.
From S2P Require Import System.
#[local] Open Scope Z_scope.

Module SystemProgress.
Import Sync Input Shell Boot System.

Section progress.
Context {D : Type}.

Abbreviation S := (System D).

(** The running thread is now [tc]; the next one goes on from its switch, or
    starts; the third waits as before. *)
Record switched (s s' : S) (tc : Thread) : Prop := {
  sw_current : current s' = (Datatypes.S (current s) mod 3)%nat;
  sw_queue : queue (kernel s') = queue (kernel s);
  sw_threads : exists t t', threads s !! current s' = Some t /\ threads s' = <[current s' := t']> (<[current s := tc]> (threads s)) /\
    match t with
    | Fresh => exists lb, t' = DemoTask DClock lb 0 0
    | ShellTask (Switched _) _ _ | DemoTask (DSwitched _) _ _ _ => t' = t
    | _ => False
    end
}.

(** ** Progress *)

(** Statements until the shell halts, with [w] keys waiting and nobody
    interrupting. *)
Definition shell_to_go (at_ : ShellAt) (w : nat) : nat :=
  match at_ with
  | Pop => 2 * w + 15 | Handle _ => 2 * w + 16 | Clock => 14 | SayTick => 13 | SayTurns => 12 | Yield => 11
  | Switched _ => 2 | Hlt => 1 | Halted => 0
  end.
Definition demo_to_go (at_ : DemoAt) : nat :=
  match at_ with DSwitched _ => 4 | DClock => 3 | DSay => 2 | DYield => 1 end.

Definition to_go (s : S) : nat :=
  match threads s !! current s with
  | Some (ShellTask at_ _ _) => shell_to_go at_ (Input.len (value (queue (kernel s))))
  | Some (DemoTask at_ _ _ _) => demo_to_go at_ + (if (current s =? 1)%nat then 4 else 0) + 2
  | _ => 0
  end.

(** What the shell has in its line and in its queue. *)
Record shell_view (s : S) (at_ : ShellAt) (line : list Z) (keys : list KeyEvent) : Prop := {
  sv_line : exists e last, threads s !! 0%nat = Some (ShellTask at_ e last) /\ ShellFacts.holds_line e line;
  sv_keys : exists f, InputFacts.holds (value (queue (kernel s))) f /\ InputFacts.waiting f = keys
}.

(** The keys it will handle before it yields, and those that will wait. *)
Definition due (at_ : ShellAt) (keys : list KeyEvent) : list KeyEvent :=
  match at_ with Pop => keys | Handle ev => ev :: keys | _ => [] end.
Definition later (at_ : ShellAt) (keys : list KeyEvent) : list KeyEvent :=
  match at_ with Pop | Handle _ => [] | _ => keys end.

(** One statement on: less to go, and the same keys are handled in the end. *)
Record advance (s s' : S) : Prop := {
  ad_less : (to_go s' < to_go s \/ to_go s = 0 /\ s' = s)%nat;
  ad_view : forall at_ line keys, shell_view s at_ line keys -> exists at' line' keys', shell_view s' at' line' keys' /\
    fold_left ShellFacts.edit (due at' keys') line' = fold_left ShellFacts.edit (due at_ keys) line /\ later at' keys' = later at_ keys
}.

Lemma advance_shell (s : S) k at_ e last at' e' last' : current s = 0%nat -> threads s !! 0%nat = Some (ShellTask at_ e last) ->
  sched k = sched (kernel s) ->
  (shell_to_go at' (Input.len (value (queue k))) < shell_to_go at_ (Input.len (value (queue (kernel s)))))%nat ->
  (forall line f, ShellFacts.holds_line e line -> InputFacts.holds (value (queue (kernel s))) f ->
     exists line' f', ShellFacts.holds_line e' line' /\ InputFacts.holds (value (queue k)) f' /\
       fold_left ShellFacts.edit (due at' (InputFacts.waiting f')) line' = fold_left ShellFacts.edit (due at_ (InputFacts.waiting f)) line /\
       later at' (InputFacts.waiting f') = later at_ (InputFacts.waiting f)) ->
  advance s (goes s k (ShellTask at' e' last')).
Proof.
  intros Hc Ht Hs Hlt Hv. assert (current (goes s k (ShellTask at' e' last')) = 0%nat) as Hc'
    by (rewrite <-Hc; unfold current, goes; cbn [kernel]; by rewrite Hs).
  assert (threads (goes s k (ShellTask at' e' last')) !! 0%nat = Some (ShellTask at' e' last')) as Ht'.
  { unfold goes. cbn [threads]. rewrite Hc. apply list_lookup_insert_eq. by eapply lookup_lt_Some. }
  split.
  - left. unfold to_go. rewrite Hc', Ht', Hc, Ht. exact Hlt.
  - intros at2 line keys [(e2 & l2 & Ht2 & Hl) (f & Hf & <-)]. rewrite Ht in Ht2. injection Ht2 as <- <- <-.
    destruct (Hv line f Hl Hf) as (line' & f' & Hl' & Hf' & Hdue & Hlater). exists at', line', (InputFacts.waiting f').
    split; [|done]. split; [by exists e', last'|by exists f'].
Qed.

(** Statements that leave line and queue alone. *)
Lemma advance_still (s : S) k at_ e last at' last' : current s = 0%nat -> threads s !! 0%nat = Some (ShellTask at_ e last) ->
  sched k = sched (kernel s) -> queue k = queue (kernel s) ->
  (forall w, shell_to_go at' w < shell_to_go at_ w)%nat -> (forall keys, due at' keys = due at_ keys /\ later at' keys = later at_ keys) ->
  advance s (goes s k (ShellTask at' e last')).
Proof.
  intros Hc Ht Hs Hq Hlt Hd. apply (advance_shell s k at_ e last); try done; [by rewrite Hq|].
  intros line f Hl Hf. exists line, f. rewrite Hq. destruct (Hd (InputFacts.waiting f)) as [-> ->]. done.
Qed.

(** The head of the drain loop. *)
Lemma advance_pop (s : S) e last f q : current s = 0%nat -> threads s !! 0%nat = Some (ShellTask Pop e last) ->
  InputFacts.holds (value (queue (kernel s))) f -> InputFacts.holds q (InputFacts.fifo_pop f).1 ->
  advance s (goes s {| (kernel s) with queue := mkMutex false q |}
    (match (InputFacts.fifo_pop f).2 with Some ev => ShellTask (Handle ev) e last | None => ShellTask Clock e last end)).
Proof.
  intros Hc Ht Hq Hq'. pose proof (InputFacts.holds_length _ _ Hq) as Hl. pose proof (InputFacts.holds_length _ _ Hq') as Hl'.
  unfold InputFacts.fifo_pop in *.
  assert (forall f2, InputFacts.holds (value (queue (kernel s))) f2 -> InputFacts.waiting f2 = InputFacts.waiting f) as Huq.
  { intros f2 Hf2. by rewrite (InputFacts.holds_one _ _ _ Hf2 Hq). }
  destruct (InputFacts.waiting f) as [|ev es] eqn:Hw; cbn [fst snd InputFacts.waiting] in *.
  - apply (advance_shell s _ Pop e last); try done; [cbn; lia|]. intros line f2 Hln Hf2. exists line, f. rewrite Hw, (Huq f2 Hf2). done.
  - apply (advance_shell s _ Pop e last); try done; [cbn in *; lia|]. intros line f2 Hln Hf2.
    eexists line, _. split; [done|]. split; [exact Hq'|]. rewrite (Huq f2 Hf2). done.
Qed.

Lemma view_kept (s s' : S) at_ line keys : threads s' !! 0%nat = threads s !! 0%nat -> queue (kernel s') = queue (kernel s) ->
  shell_view s at_ line keys -> shell_view s' at_ line keys.
Proof. intros Ht Hq [Hl Hk]. split; [by rewrite Ht|by rewrite Hq]. Qed.

Lemma advance_demo (s : S) k at_ at' lb last cnt last' cnt' : (current s <> 0)%nat ->
  threads s !! current s = Some (DemoTask at_ lb last cnt) -> sched k = sched (kernel s) -> queue k = queue (kernel s) ->
  (demo_to_go at' < demo_to_go at_)%nat -> advance s (goes s k (DemoTask at' lb last' cnt')).
Proof.
  intros Hc Ht Hs Hq Hlt. assert (current (goes s k (DemoTask at' lb last' cnt')) = current s) as Hc'
    by (unfold current, goes; cbn [kernel]; by rewrite Hs).
  split.
  - left. unfold to_go. rewrite Hc', Ht. unfold goes at 1. cbn [threads]. rewrite list_lookup_insert_eq by (by eapply lookup_lt_Some). lia.
  - intros at2 line keys Hv. exists at2, line, keys. split; [|done]. eapply view_kept; [|exact Hq|exact Hv].
    unfold goes. cbn [threads]. by apply list_lookup_insert_ne.
Qed.

(** Task 0 is the shell, tasks 1 and 2 are not. *)
Definition roles (s : S) : Prop :=
  forall i t, (i < 3)%nat -> threads s !! i = Some t -> match t with ShellTask _ _ _ => i = 0%nat | _ => i <> 0%nat end.

(** A switch away from the shell. *)
Lemma advance_yield (s s' : S) e last fl : current s = 0%nat -> threads s !! 0%nat = Some (ShellTask Yield e last) -> roles s ->
  switched s s' (ShellTask (Switched fl) e last) -> advance s s'.
Proof.
  intros Hc Ht Hro [Hc' Hq (t & t' & Hl & Hth & Hcase)]. rewrite Hc in *. change (Datatypes.S 0 mod 3)%nat with 1%nat in Hc'. rewrite Hc' in *.
  pose proof (Hro 1%nat t ltac:(lia) Hl) as Hr1. pose proof (lookup_lt_Some _ _ _ Hl). pose proof (lookup_lt_Some _ _ _ Ht).
  assert (threads s' !! 1%nat = Some t') as Ht1 by (rewrite Hth; apply list_lookup_insert_eq; rewrite length_insert; lia).
  assert (threads s' !! 0%nat = Some (ShellTask (Switched fl) e last)) as Ht0.
  { rewrite Hth, list_lookup_insert_ne by done. apply list_lookup_insert_eq. lia. }
  split.
  - left. unfold to_go. rewrite Hc', Hc, Ht, Ht1. cbn [Nat.eqb shell_to_go].
    destruct t as [|[] ? ?|[] ? ? ?]; try done; [destruct Hcase as [lb ->]|subst t']; cbn [demo_to_go]; lia.
  - intros at_ line keys [(e2 & l2 & He2 & Hl2) Hk]. rewrite Ht in He2. injection He2 as <- <- <-.
    exists (Switched fl), line, keys. split; [|done]. split; [by exists e, last|by rewrite Hq].
Qed.

(** A switch away from a demo task. *)
Lemma advance_demo_yield (s s' : S) tc lb last cnt : current s <> 0%nat -> (current s < 3)%nat ->
  threads s !! current s = Some (DemoTask DYield lb last cnt) -> roles s -> switched s s' tc -> advance s s'.
Proof.
  intros Hc Hc3 Ht Hro [Hc' Hq (t & t' & Hl & Hth & Hcase)].
  pose proof (Hro (current s') t ltac:(rewrite Hc'; by apply Nat.mod_upper_bound) Hl) as Hr1.
  pose proof (lookup_lt_Some _ _ _ Hl). pose proof (lookup_lt_Some _ _ _ Ht).
  assert (threads s' !! current s' = Some t') as Ht1 by (rewrite Hth; apply list_lookup_insert_eq; rewrite length_insert; lia).
  assert (threads s' !! 0%nat = threads s !! 0%nat) as Ht0.
  { rewrite Hth. destruct (decide (current s' = 0%nat)) as [He|He].
    - rewrite He in *. rewrite list_lookup_insert_eq by (rewrite length_insert; lia). rewrite Hl. destruct t as [|[] ? ?|[] ? ? ?]; try done. by subst.
    - rewrite !list_lookup_insert_ne by done. done. }
  split.
  - left. unfold to_go. rewrite Ht, Ht1. assert (current s = 1 \/ current s = 2)%nat as [He|He] by lia; rewrite He in *.
    + change (Datatypes.S 1 mod 3)%nat with 2%nat in Hc'. rewrite Hc' in *. cbn [Nat.eqb].
      destruct t as [|[] ? ?|[] ? ? ?]; try done; [destruct Hcase as [lb' ->]|subst t']; cbn [demo_to_go]; lia.
    + change (Datatypes.S 2 mod 3)%nat with 0%nat in Hc'. rewrite Hc' in *. cbn [Nat.eqb].
      destruct t as [|[] ? ?|[] ? ? ?]; try done; subst t'; cbn; lia.
  - intros at_ line keys Hv. exists at_, line, keys. split; [|done]. by eapply view_kept.
Qed.

End progress.
End SystemProgress.
