(* ===== verification/Session.v ===== *)
(** * A session at the terminal

    What the running kernel shows its user, told without queue, interrupts,
    tasks or drive: every key that was typed, in order, gets the reply of
    [ShellFacts.respond], and between the replies come lines about the state of
    the system. [SessionFacts] proves that [System] does no more and no less. *)

From S2P Require Import Prelude.
From S2P Require Import Fmt.
From S2P Require Import Machine.
From S2P Require Import Descriptors.
From S2P Require Import Pic.
From S2P Require Import Interrupts.
From S2P Require Import Sync.
From S2P Require Import Input.
From S2P Require Import Keyboard.
From S2P Require Import KeyboardFacts.
From S2P Require Import Ata.
From S2P Require Import AtaFacts.
From S2P Require Import Shell.
From S2P Require Import ShellFacts.
From S2P Require Import Pit.
From S2P Require Import Boot.
From S2P Require Import Deliver.
From S2P Require Import System.
#[local] Open Scope Z_scope.

Module Session.
Import Machine Input Shell Boot Deliver System.

(** ** The terminal *)

(** What the kernel prints of its own accord. *)
Inductive status : list effect -> Prop :=
| status_tick t s : status (serial_println ("PIT: tick " +:+ Fmt.dec t +:+ " (" +:+ Fmt.dec s +:+ " s)"))
| status_turns a b c : status (serial_println ("Scheduler: turns [0]=" +:+ Fmt.dec a +:+ " [1]=" +:+ Fmt.dec b +:+ " [2]=" +:+ Fmt.dec c))
| status_demo l c t : status (diag_println ("Task: demo-" +:+ Fmt.dec l +:+ " counter " +:+ Fmt.dec c +:+ " (turns " +:+ Fmt.dec t +:+ ")"))
| status_spurious frame : status (diag_lines (Interrupts.dispatch_lines 39 None frame (Some 7) (Some true))).

Inductive item := Key (ev : KeyEvent) | Note (es : list effect).

Definition noted (i : item) : Prop := match i with Key _ => True | Note es => status es end.

Definition key_of (i : item) : option KeyEvent := match i with Key ev => Some ev | Note _ => None end.
Definition keys (items : list item) : list KeyEvent := omap key_of items.

(** What appears, from the input line [line] on. *)
Fixpoint render (line : list Z) (items : list item) : list effect :=
  match items with
  | [] => []
  | Key ev :: items => ShellFacts.respond line ev ++ render (ShellFacts.edit line ev) items
  | Note es :: items => es ++ render line items
  end.

Lemma keys_app is1 is2 : keys (is1 ++ is2) = keys is1 ++ keys is2.
Proof. apply omap_app. Qed.

Lemma render_app line is1 is2 :
  render line (is1 ++ is2) = render line is1 ++ render (fold_left ShellFacts.edit (keys is1) line) is2.
Proof.
  revert line. induction is1 as [|[ev|es] is1 IH]; intros line; [done|..]; cbn [app render]; rewrite IH, app_assoc; done.
Qed.

(** Every reply is there to be read. *)
Lemma render_reply line items pre ev : keys items = pre ++ [ev] ->
  exists l1 l2, render line items = l1 ++ ShellFacts.respond (fold_left ShellFacts.edit pre line) ev ++ l2.
Proof.
  revert line pre. induction items as [|[ev'|es] items IH]; intros line pre Hk; [by destruct pre| |].
  - cbn [keys key_of omap list_omap] in Hk. destruct pre as [|p pre]; injection Hk as -> Hk.
    + exists [], (render (ShellFacts.edit line ev) items). done.
    + destruct (IH (ShellFacts.edit line p) pre Hk) as (l1 & l2 & Hr). cbn [render fold_left]. rewrite Hr.
      exists (ShellFacts.respond line p ++ l1), l2. by rewrite <-!app_assoc.
  - destruct (IH line pre Hk) as (l1 & l2 & Hr). cbn [render]. rewrite Hr. exists (es ++ l1), l2. by rewrite <-!app_assoc.
Qed.

(** The key the shell has taken from the queue and not yet handled. *)
Definition in_hand (at_ : ShellAt) : list KeyEvent := match at_ with Handle ev => [ev] | _ => [] end.
Definition taken {D} (s : System D) : list KeyEvent :=
  match threads s !! 0%nat with Some (ShellTask at_ _ _) => in_hand at_ | _ => [] end.

(** [s] has shown [items] since the log was [start], and has heard the bytes
    [bs]: the keys replied to, the one in hand and those waiting are the keys
    typed, except for those that came when the queue was full, which are
    counted. *)
Record tells {D} (start : list effect) (bs : list Z) (s : System D) (items : list item) (f : InputFacts.fifo) : Prop := {
  te_shown : log (kernel s) = start ++ render [] items;
  te_noted : Forall noted items;
  te_editor : exists at_ e last, threads s !! 0%nat = Some (ShellTask at_ e last) /\
    ShellFacts.holds_line e (fold_left ShellFacts.edit (keys items) []);
  te_queue : InputFacts.holds (Sync.Sync.value (queue (kernel s))) f;
  te_mode : KeyboardFacts.mode_of (kbd (kernel s)) = (KeyboardFacts.decode KeyboardFacts.released bs).1;
  te_kept : (keys items ++ taken s ++ InputFacts.waiting f) `sublist_of` KeyboardFacts.decoded bs;
  te_lost : InputFacts.lost f =
    Z.min (Z.of_nat (length (KeyboardFacts.decoded bs)) - Z.of_nat (length (keys items ++ taken s ++ InputFacts.waiting f))) U32_MAX
}.

(** ** The keyboard's side *)
Section device.
Context {D : Type} `{PortIO D}.

(** The byte a keyboard interrupt finds, if it finds one. *)
Definition byte_at (d : D) : list Z :=
  let '(status, d) := inb d Keyboard.STATUS_PORT in
  if has_bits status Keyboard.STATUS_OUTPUT_FULL then [(inb d Keyboard.DATA_PORT).1] else [].

(** What vector [v] hears. *)
Definition bytes_at (v : Z) (d : D) : list Z := if v =? 33 then byte_at d else [].

Section world.
Context `{WordIO D} {disk : Z -> list Z} `{!PicHw.PicDevice D} `{!Pit8254.PitDevice D} `{!AtaDrive.AtaDevice D disk}.
Context (p : Program) (code : Code).

(** [heard s0 bs s]: the system went from [s0] to [s], and [bs] are the bytes
    the keyboard handler has read on the way. *)
Inductive heard (s0 : System D) : list Z -> System D -> Prop :=
| heard_start : heard s0 [] s0
| heard_step bs s l s' : heard s0 bs s -> step p code s l (Done s') -> (forall v, l <> Interrupted v) -> heard s0 bs s'
| heard_interrupt bs s v d' c s' : heard s0 bs s -> if_flag (cpu (kernel s)) = true -> raises (dev (kernel s)) v d' ->
    interrupt p (mkSystem {| (kernel s) with dev := d' |} (threads s)) v c = Done s' -> heard s0 (bs ++ bytes_at v d') s'.

Lemma heard_reaches s0 bs s : heard s0 bs s -> exists tr, reaches p code s0 tr s.
Proof.
  induction 1 as [|bs s l s' _ [tr IH] Hs _|bs s v d' c s' _ [tr IH] Hf Hr Hi]; [by eexists; constructor|..];
    eexists; (eapply reaches_step; [exact IH|]); [exact Hs|]. rewrite <-Hi. by constructor.
Qed.

(** Every run hears something. *)
Lemma reaches_heard s0 tr s : reaches p code s0 tr s -> exists bs, heard s0 bs s.
Proof.
  induction 1 as [|tr s1 l s2 _ [bs IH] Hs]; [by eexists; constructor|].
  inversion Hs as [r Hr|v d' c Hf Hr|a w Ha|d' Hd]; subst; eexists;
    [eapply heard_step|eapply heard_interrupt|eapply heard_step|eapply heard_step]; eauto; done.
Qed.

End world.
End device.
End Session.
