(* ===== verification/HandlerFacts.v ===== *)
(** * What the controllers can raise is handled

    With the lines masked as the kernel masks them while it boots and once it
    runs, and a handler behind the vector of each open line, every interrupt is
    taken through its gate, handled and acknowledged, and leaves the rest of the
    kernel as it was. *)

From S2P Require Import Prelude.
From S2P Require Import Fmt.
From S2P Require Import MemMap.
From S2P Require Import Heap.
From S2P Require Import HeapTiles.
From S2P Require Import HeapFacts.
From S2P Require Import HeapFrame.
From S2P Require Import Machine.
From S2P Require Import Descriptors.
From S2P Require Import DescriptorFacts.
From S2P Require Import Pic.
From S2P Require Import Interrupts.
From S2P Require Import InterruptFacts.
From S2P Require Import Sync.
From S2P Require Import Input.
From S2P Require Import Keyboard.
From S2P Require Import KeyboardFacts.
From S2P Require Import Task.
From S2P Require Import TaskFacts.
From S2P Require Import SwitchFacts.
From S2P Require Import Ata.
From S2P Require Import AtaFacts.
From S2P Require Import GoatFs.
From S2P Require Import GoatFsFacts.
From S2P Require Import GoatFsSpec.
From S2P Require Import Shell.
From S2P Require Import ShellFacts.
From S2P Require Import Pit.
From S2P Require Import Boot.
From S2P Require Import BootMachine.
From S2P Require Import BootMemory.
From S2P Require Import BootFacts.
From S2P Require Import Deliver.
From S2P Require Import System.
From S2P Require Import Session.
#[local] Open Scope Z_scope.

Module HandlerFacts.
Import Machine Sync Input Ata AtaDrive AtaFacts PicHw Pit8254 BootMachine BootMemory BootFacts Shell Boot Deliver System.
#[local] Existing Instance Idt.Gate_inhabited.
#[local] Strategy expand [dev cpu memory screen gdt idt tss ints frames heap TICKS kbd queue ata fs sched WRITER SERIAL1 log].

(** ** Counting *)

#[export] Instance label_eq_dec : EqDecision label.
Proof. solve_decision. Defined.

(** How often vector [v] was taken. *)
Definition hits (v : Z) (tr : list label) : nat := length (filter (.= Interrupted v) tr).

Lemma hits_snoc v tr l : hits v (tr ++ [l]) = (hits v tr + if decide (l = Interrupted v) then 1 else 0)%nat.
Proof. unfold hits. rewrite filter_app, length_app, filter_cons. by destruct (decide (l = Interrupted v)). Qed.

Lemma same_hits v tr l : (forall w, l <> Interrupted w) -> hits v (tr ++ [l]) = hits v tr.
Proof. intros Hl. rewrite hits_snoc, decide_False by apply Hl. apply Nat.add_0_r. Qed.

Lemma bump_hits v w tr : as_u32 (Z.of_nat (hits w (tr ++ [Interrupted v]))) =
  if v =? w then wrapping_add_u32 (as_u32 (Z.of_nat (hits w tr))) 1 else as_u32 (Z.of_nat (hits w tr)).
Proof.
  rewrite hits_snoc. destruct (Z.eqb_spec v w) as [->|Hne].
  - rewrite decide_True, KeyboardFacts.bump_bool_mod by done. f_equal. lia.
  - rewrite decide_False by congruence. f_equal. lia.
Qed.

Section handlers.
Context {D : Type} `{PortIO D} `{WordIO D} {disk : Z -> list Z}.
Context `{!PicDevice D} `{!PitDevice D} `{!AtaDevice D disk} `{!BootMachine D disk}.
Context (p : Program).

Abbreviation K := (Kernel D).

(** ** The devices *)

(** Set up by the drivers, with [im] as the master's mask and channel 0 at [t];
    [m] is in service at the master. *)
Record listening (t : Channel) (im m : Z) (d : D) : Prop := {
  sg_idle : exists f, Idle d f;
  sg_timer : channel0 d = t;
  sg_master : icw (chips d Master) = 0%nat /\ base (chips d Master) = 32 /\ imr (chips d Master) = im /\ isr (chips d Master) = m;
  sg_slave : icw (chips d Slave) = 0%nat /\ base (chips d Slave) = 40 /\ imr (chips d Slave) = 0xff /\ isr (chips d Slave) = 0;
  sg_modes : forall s, mode (chips d s) = 1 /\ cascade (chips d s) = match s with Master => 4 | Slave => 2 end
}.

(** The masks [kernel_main] sets one after the other. *)
Definition boot_mask (im : Z) : Prop := im = 0xff \/ im = 0xfe \/ im = 0xfc.

Lemma listening_lines t im m d : listening t im m d -> forall s, chips d s = lines im (chips d) s.
Proof.
  intros [_ _ (A1 & A2 & A3 & _) (B1 & B2 & B3 & _) HM] s. destruct (HM s) as [C1 C2].
  destruct s; unfold lines; [destruct (chips d Master)|destruct (chips d Slave)]; cbn in *; congruence.
Qed.

Lemma lines_listening t im c d : settled (lines im c) t d -> (forall s, isr (c s) = 0) -> listening t im 0 d.
Proof. intros [Hf Hc Ht] Hs. split; [done|done|rewrite Hc; cbn; by rewrite Hs..|]. intros s. rewrite Hc. by destruct s. Qed.

Lemma listening_settled t im d : listening t im 0 d -> settled (lines im (chips d)) t d.
Proof. intros Hd. split; [apply Hd|by eapply listening_lines|apply Hd]. Qed.

(** The drive's registers apart. *)
Lemma listening_drive t im m d d' : listening t im m d -> settled (chips d) t d' -> listening t im m d'.
Proof. intros [_ _ H1 H2 H3] [Hf Hc Ht]. split; rewrite ?Hc; try done. intros s. rewrite Hc. apply H3. Qed.

Lemma listening_outside t im m m' d d' : listening t im m d -> in_service d d' m' 0 -> listening t im m' d'.
Proof.
  intros [[f Hf] Ht (A1 & A2 & A3 & _) (B1 & B2 & B3 & _) Hmo] ([Hi Hc Hs] & HM & HS). pose proof (Hs Master) as [(C1 & C2 & _ & _ & C3 & _) _].
  pose proof (Hs Slave) as [(D1 & D2 & _ & _ & D3 & _) _]. cbn in *. split; [exists f; auto|congruence|split_and!; congruence..|].
  intros s. destruct (Hs s) as [(_ & _ & E1 & E2 & _) _], (Hmo s) as [F1 F2]. cbn in *. split; congruence.
Qed.

(** The only vectors the controllers can raise. *)
Lemma raised t im d v d' : boot_mask im -> listening t im 0 d -> raises d v d' ->
  v = 32 /\ im <> 0xff /\ listening t im 1 d' \/ v = 33 /\ im = 0xfc /\ listening t im 2 d' \/ v = 39 /\ listening t im 0 d'.
Proof.
  intros Him Hd Hr. pose proof Hd as [_ _ (_ & A2 & A3 & A4) (_ & B2 & B3 & B4) _].
  destruct Hr as [i d' _ (Hi & Hm & _) Hs|i d' (_ & Hm & _) _ Hs|d' Hs|d' (_ & Hm & _) Hs]; rewrite ?A2, ?A3, ?A4, ?B2, ?B3, ?B4 in *.
  - assert (i = 0 /\ im <> 0xff \/ i = 1 /\ im = 0xfc) as [[-> Hi0]|[-> ->]].
    { assert (i = 0 \/ i = 1 \/ i = 2 \/ i = 3 \/ i = 4 \/ i = 5 \/ i = 6 \/ i = 7) as Hc by lia.
      destruct Him as [->|[->| ->]], Hc as [->|[->|[->|[->|[->|[->|[->| ->]]]]]]]; auto; vm_compute in Hm; discriminate. }
    + left. split; [done|]. split; [done|]. by eapply listening_outside.
    + right. left. split; [done|]. split; [done|]. by eapply listening_outside.
  - destruct Him as [->|[->| ->]]; vm_compute in Hm; discriminate.
  - right. right. split; [done|]. by eapply listening_outside.
  - destruct Him as [->|[->| ->]]; vm_compute in Hm; discriminate.
Qed.

Lemma listening_in t im m d port : port <> Pit.CHANNEL0_DATA -> ~ ata_port port -> listening t im m d -> listening t im m (snd (inb d port)).
Proof.
  intros Hp Ha [[f Hf] Ht HM HS Hmo]. split; [exists f; by apply bm_idle_in|by rewrite pit_in|by rewrite pic_in..|].
  intros s. by rewrite pic_in.
Qed.

(** The end of interrupt of a master line takes out what is in service. *)
Lemma listening_eoi t im m d irq : listening t im m d -> (irq = 0 /\ m = 1 \/ irq = 1 /\ m = 2 \/ irq = 7 /\ m = 0) ->
  listening t im 0 (fst (Pic.end_of_interrupt d irq)).
Proof.
  intros [[f Hf] Ht (A1 & A2 & A3 & A4) (B1 & B2 & B3 & B4) Hmo] Hc.
  destruct (PicFacts.eoi_cases d irq ltac:(lia)) as (_ & Hs & HM & HS). cbv zeta in *.
  pose proof (Hs Master) as (C1 & C2 & _ & _ & C3 & _). pose proof (Hs Slave) as (D1 & D2 & _ & _ & D3 & _).
  assert ((8 <=? irq) = false) as H8 by lia. rewrite H8, A4 in *. cbn [negb andb] in *.
  split; [| |split_and!; [congruence..|]|split_and!; congruence|].
  - exists f. apply idle_eoi; [lia|done].
  - clear HM HS. unfold Pic.end_of_interrupt. rewrite H8. cbv iota zeta.
    assert (forall d v, channel0 (outb d Pic.MASTER_COMMAND v) = channel0 d) as Ho by (intros d0 v; by rewrite pit_out).
    destruct (_ =? _); [|cbn [fst]; by rewrite Ho].
    pose proof (pit_in (outb d Pic.MASTER_COMMAND Pic.OCW3_READ_IN_SERVICE) Pic.MASTER_COMMAND ltac:(done)) as Hi.
    destruct (inb _ Pic.MASTER_COMMAND) as [w d1]. cbn [snd] in Hi. destruct (negb _); cbn [fst]; rewrite ?Ho; congruence.
  - destruct Hc as [[-> ->]|[[-> ->]|[-> ->]]]; exact HM.
  - intros s. destruct (Hs s) as (_ & _ & E1 & E2 & _), (Hmo s) as [F1 F2]. split; congruence.
Qed.

(** ** The handlers *)

(** The gates of the vectors that can be raised. *)
Record routed (im : Z) (k : Kernel D) : Prop := {
  ro_spurious : Hw.gate_target (idt k !!! Z.to_nat 39) = InterruptFacts.expected (entries p) 39;
  ro_timer : im <> 0xff ->
    Hw.gate_target (idt k !!! Z.to_nat 32) = Hw.ToOffset Tss.KERNEL_CODE_SELECTOR (timer_interrupt p);
  ro_keyboard : im = 0xfc ->
    Hw.gate_target (idt k !!! Z.to_nat 33) = Hw.ToOffset Tss.KERNEL_CODE_SELECTOR (keyboard_interrupt p)
}.

Section handled.
Context (Hho : DeliverFacts.handlers_ok p) (t : Channel) (im : Z) (Him : boot_mask im).
Context (k0 : K) (Hro : routed im k0).

(** What no step changes. *)
Record static (k : K) : Prop := {
  sc_cpu : {| (cpu k) with if_flag := true |} = cpu k0;
  sc_tables : idt k = idt k0 /\ gdt k = gdt k0 /\ tss k = tss k0;
  sc_memory : heap k = heap k0 /\ frames k = frames k0;
  sc_files : fs k = fs k0 /\ ata k = ata k0
}.

Definition queue_ok (k : K) : Prop := locked (queue k) = false /\ exists f, InputFacts.holds (value (queue k)) f.

(** The controllers' three vectors on the whole kernel. *)
Record handled (v : Z) (k k' : K) : Prop := {
  hd_static : static k';
  hd_place : cpu k' = cpu k /\ memory k' = memory k /\ sched k' = sched k;
  hd_machine : listening t im 0 (dev k');
  hd_queue : queue_ok k';
  hd_ticks : TICKS k' = if v =? 32 then wrapping_add_u32 (TICKS k) 1 else TICKS k;
  hd_unhandled : Interrupts.unhandled_count (ints k') =
    if v =? 39 then wrapping_add_u32 (Interrupts.unhandled_count (ints k)) 1 else Interrupts.unhandled_count (ints k);
  hd_shown : exists es, log k' = log k ++ es /\ (es = [] \/ Session.status es);
  hd_input : let '(m, evs) := KeyboardFacts.decode (KeyboardFacts.mode_of (kbd k)) (Session.bytes_at v (dev k)) in
    KeyboardFacts.mode_of (kbd k') = m /\
    forall f, InputFacts.holds (value (queue k)) f -> InputFacts.holds (value (queue k')) (KeyboardFacts.fifo_all f evs)
}.

Lemma cpu_eta (c : Cpu) b : {| {| c with if_flag := b |} with if_flag := if_flag c |} = c.
Proof. by destruct c. Qed.

Lemma shows_nothing (k : K) : exists es, log k = log k ++ es /\ (es = [] \/ Session.status es).
Proof. exists []. rewrite app_nil_r. by split; [|left]. Qed.

Lemma timer_handled (k : K) c : im <> 0xff -> static k -> listening t im 1 (dev k) -> queue_ok k ->
  exists k', take_vector p k 32 None c = Done (k', Resume) /\ handled 32 k k'.
Proof.
  intros Hop Hst Hd Hq. pose proof (sc_tables _ Hst) as (Hidt & _). unfold take_vector. rewrite Hidt, (ro_timer _ _ Hro Hop). cbv iota. unfold follow. rewrite DeliverFacts.call_timer.
  pose proof (listening_eoi t im 1 (dev k) Pit.IRQ Hd ltac:(by left)) as Hd'. unfold Pit.timer_interrupt. cbn [dev TICKS].
  destruct (Pic.end_of_interrupt (dev k) Pit.IRQ) as [d' ack]. cbn [fst] in Hd'. cbn [mbind outcome_bind].
  eexists. split; [reflexivity|]. pose proof (shows_nothing k).
  destruct k as [? [] ? ? ? ? ? ? ? ? ? ? ? ? ? ? ? ? ?], Hst. split; done.
Qed.

Lemma keyboard_handled (k : K) c : im = 0xfc -> static k -> listening t im 2 (dev k) -> queue_ok k ->
  exists k', take_vector p k 33 None c = Done (k', Resume) /\ handled 33 k k'.
Proof.
  intros Hop Hst Hd [Hl [f Hq]]. pose proof (sc_tables _ Hst) as (Hidt & _). unfold take_vector. rewrite Hidt, (ro_keyboard _ _ Hro Hop). cbv iota. unfold follow. rewrite DeliverFacts.call_keyboard by exact Hho. unfold Keyboard.keyboard_interrupt. cbn [dev kbd queue cpu].
  assert (forall d port, port = Keyboard.STATUS_PORT \/ port = Keyboard.DATA_PORT -> listening t im 2 d -> listening t im 2 (snd (inb d port))) as Hin.
  { intros d port Hp. apply listening_in; unfold ata_port; destruct Hp as [->| ->]; vm_compute; intuition congruence. }
  pose proof (Hin (dev k) _ ltac:(by left) Hd) as H1. pose proof (shows_nothing k) as Hsh.
  assert (Session.bytes_at 33 (dev k) = Session.byte_at (dev k)) as Hb by done. unfold Session.byte_at in Hb.
  destruct (inb (dev k) Keyboard.STATUS_PORT) as [status d1]. cbn [snd] in H1.
  destruct (has_bits status _).
  - pose proof (Hin d1 _ ltac:(by right) H1) as H2. destruct (inb d1 Keyboard.DATA_PORT) as [b d2]. cbn [fst snd] in *.
    pose proof (listening_eoi t im 2 d2 Keyboard.IRQ H2 ltac:(by right; left)) as H3.
    destruct (Pic.end_of_interrupt d2 Keyboard.IRQ) as [d3 ack]. cbn [fst] in H3.
    destruct (KeyboardFacts.scancode_decodes (kbd k) (queue k) (cli (cpu k)) f b Hq) as (s' & q & -> & Hm & Hq').
    cbn [mbind outcome_bind]. eexists. split; [reflexivity|].
    destruct k as [? [] ? ? ? ? ? ? ? ? ? ? ? ? ? ? ? ? ?], Hst. split; try done; [split; [done|by eexists]|].
    rewrite Hb. cbn [KeyboardFacts.decode kbd queue] in *. destruct (KeyboardFacts.decode_byte _ b) as [m es]. cbn [fst snd] in *.
    split; [exact Hm|]. intros f' Hf'. rewrite app_nil_r. by rewrite (InputFacts.holds_one _ _ _ Hf' Hq).
  - pose proof (listening_eoi t im 2 d1 Keyboard.IRQ H1 ltac:(by right; left)) as H3.
    destruct (Pic.end_of_interrupt d1 Keyboard.IRQ) as [d3 ack]. cbn [fst] in H3.
    cbn [mbind outcome_bind]. eexists. split; [reflexivity|].
    destruct k as [? [] ? ? ? ? ? ? ? ? ? ? ? ? ? ? ? ? ?], Hst. split; try done; [split; [done|by exists f]|].
    rewrite Hb. done.
Qed.

Lemma spurious_handled (k : K) c : static k -> listening t im 0 (dev k) -> queue_ok k ->
  exists k', take_vector p k 39 None c = Done (k', Resume) /\ handled 39 k k'.
Proof.
  intros Hst Hd Hq. pose proof (sc_tables _ Hst) as (Hidt & _). unfold take_vector. rewrite Hidt, (ro_spurious _ _ Hro). cbv iota.
  change (InterruptFacts.expected (entries p) 39)
    with (Hw.ToOffset Tss.KERNEL_CODE_SELECTOR (Exceptions.unhandled (entries p) 39)). unfold follow. rewrite DeliverFacts.call_stub by exact Hho.
  unfold caught, Interrupts.dispatch. cbn [ints dev].
  destruct (Interrupts.mark_reported _ 39) as [s' again] eqn:Hmark.
  destruct (PicFacts.eoi_cases (dev k) 7 ltac:(lia)) as (Hack & _). change (8 <=? 7) with false in Hack. cbv beta iota zeta in Hack.
  pose proof (sg_master _ _ _ _ Hd) as (_ & _ & _ & Hz). rewrite Hz in Hack.
  change (Pic.irq_of_vector 39) with (Some 7). cbv beta iota zeta.
  pose proof (listening_eoi t im 0 (dev k) 7 Hd ltac:(by right; right)) as H3.
  destruct (Pic.end_of_interrupt (dev k) 7) as [d3 ack]. cbn [fst snd] in H3, Hack. subst ack.
  change (39 <? Interrupts.EXCEPTION_VECTOR_COUNT) with false. cbv beta iota zeta. rewrite prints_done. cbv beta iota zeta delta [mbind outcome_bind]. eexists. split; [reflexivity|].
  assert (Interrupts.unhandled_total s' = wrapping_add_u32 (Interrupts.unhandled_count (ints k)) 1) as Hun.
  { unfold Interrupts.mark_reported in Hmark. injection Hmark as <- _. done. }
  destruct k as [? [] ? ? ? ? ? ? ? ? ? ? ? ? ? ? ? ? ?], Hst. split; try done.
  eexists. split; [reflexivity|]. destruct again; [by left|]. right. constructor.
Qed.

(** Whatever interrupts is handled, and the controllers are ready for
    the next interrupt. *)
Lemma interrupt_handled (k : K) v d' c : static k -> listening t im 0 (dev k) -> queue_ok k -> raises (dev k) v d' ->
  exists k', take_vector p {| k with dev := d' |} v None c = Done (k', Resume) /\ handled v {| k with dev := d' |} k'.
Proof.
  intros Hst Hd Hq Hr.
  assert (static {| k with dev := d' |}) as Hst' by (destruct Hst; by split).
  destruct (raised _ _ _ _ _ Him Hd Hr) as [(-> & Ho & H1)|[(-> & Ho & H1)|[-> H1]]].
  - by apply timer_handled.
  - by apply keyboard_handled.
  - by apply spurious_handled.
Qed.

End handled.
End handlers.

(** As [kernel_main] leaves them. *)
Abbreviation serving := (listening running 0xfc).

End HandlerFacts.
