(* ===== verification/Booting.v ===== *)
(** * Booting with interrupts on

    From its [sti] on [kernel_main] can be interrupted. Here interrupts come
    between any two of its later stages, as many as there may be; what they
    leave behind - ticks, keys in the queue - is what the shell starts with. *)

From S2P Require Import Prelude.
From S2P Require Import Fmt.
From S2P Require Import MemMap.
From S2P Require Import Heap.
From S2P Require Import HeapTiles.
From S2P Require Import HeapFacts.
From S2P Require Import HeapFrame.
From S2P Require Import Machine.
From S2P Require Import Descriptors.
From S2P Require Import DescriptorFacts.
From S2P Require Import Pic.
From S2P Require Import Interrupts.
From S2P Require Import InterruptFacts.
From S2P Require Import Sync.
From S2P Require Import Input.
From S2P Require Import Keyboard.
From S2P Require Import KeyboardFacts.
From S2P Require Import Task.
From S2P Require Import TaskFacts.
From S2P Require Import SwitchFacts.
From S2P Require Import Ata.
From S2P Require Import AtaFacts.
From S2P Require Import GoatFs.
From S2P Require Import GoatFsFacts.
From S2P Require Import GoatFsSpec.
From S2P Require Import Shell.
From S2P Require Import ShellFacts.
From S2P Require Import Pit.
From S2P Require Import Boot.
From S2P Require Import BootMachine.
From S2P Require Import BootMemory.
From S2P Require Import BootFacts.
From S2P Require Import Deliver.
From S2P Require Import System.
From S2P Require Import Session.
From S2P Require Import HandlerFacts.
#[local] Open Scope Z_scope.

Module Booting.
Import Machine Sync Input PicHw Pit8254 AtaDrive Boot Deliver System Session.

(** The stages that [kernel_main] goes through with interrupts enabled. *)
Inductive Stage := Enabled | TimerUp | KeyboardUp | DiskUp | TasksUp | Prompted.

#[export] Instance Stage_eq_dec : EqDecision Stage.
Proof. solve_decision. Defined.

Definition after (st : Stage) : Stage :=
  match st with
  | Enabled => TimerUp
  | TimerUp => KeyboardUp
  | KeyboardUp => DiskUp
  | DiskUp => TasksUp
  | TasksUp | Prompted => Prompted
  end.

Section device.
Context {D : Type} `{PortIO D} `{WordIO D}.
Context (p : Program).

Abbreviation K := (Kernel D).

(** What [kernel_main] does next. *)
Definition next_stage (st : Stage) (k : K) : outcome K :=
  match st with
  | Enabled => Done (start_timer p k)
  | TimerUp => Done (start_keyboard p k)
  | KeyboardUp => start_disk k
  | DiskUp => start_tasks p k
  | TasksUp => Done (print k Shell.init)
  | Prompted => Done k
  end.

Fixpoint stages (n : nat) (st : Stage) (k : K) : outcome K :=
  match n with
  | O => Done k
  | Datatypes.S n => k ← next_stage st k; stages n (after st) k
  end.

(** They make up [start_services]. *)
Lemma stages_services k : stages 5 Enabled k = start_services p k.
Proof.
  unfold start_services. cbn [stages next_stage after mbind outcome_bind].
  destruct (start_disk _) as [k1| |]; [|done..]. cbn [mbind outcome_bind].
  by destruct (start_tasks p k1).
Qed.

Section world.
Context {disk : Z -> list Z} `{!PicDevice D} `{!PitDevice D} `{!AtaDevice D disk}.

(** [boots k tr bs st k']: started on [k], [kernel_main] has got as far as [st];
    [tr] is what has happened besides and [bs] what the keyboard handler has
    read. *)
Inductive boots (k : K) : list label -> list Z -> Stage -> K -> Prop :=
| boots_core k1 : start_core p k = Done k1 -> boots k [] [] Enabled k1
| boots_stage tr bs st k1 k2 : boots k tr bs st k1 -> next_stage st k1 = Done k2 -> boots k tr bs (after st) k2
| boots_interrupt tr bs st k1 v d' c k2 : boots k tr bs st k1 -> st <> Prompted -> if_flag (cpu k1) = true ->
    raises (dev k1) v d' -> take_vector p {| k1 with dev := d' |} v None c = Done (k2, Resume) ->
    boots k (tr ++ [Interrupted v]) (bs ++ bytes_at v d') st k2
| boots_world tr bs st k1 d' : boots k tr bs st k1 -> st <> Prompted ->
    in_service (dev k1) d' (isr (chips (dev k1) Master)) (isr (chips (dev k1) Slave)) ->
    boots k (tr ++ [WorldMoved]) bs st {| k1 with dev := d' |}.

Lemma boots_stages n (k : K) tr bs st k1 k2 : boots k tr bs st k1 -> stages n st k1 = Done k2 ->
  boots k tr bs (Nat.iter n after st) k2.
Proof.
  revert st k1. induction n as [|n IH]; intros st k1 Hb; cbn [stages]; [by intros [= <-]|].
  destruct (next_stage st k1) as [k3| |] eqn:He; [|done..]. cbn [mbind outcome_bind]. rewrite Nat.iter_succ_r.
  apply IH. by eapply boots_stage.
Qed.

(** [kernel_main], when nothing interrupts it. *)
Lemma boots_main (k k' : K) : kernel_main p k = Done k' -> boots k [] [] Prompted k'.
Proof.
  unfold kernel_main. destruct (start_core p k) as [k1| |] eqn:He; [|done..]. cbn [mbind outcome_bind]. intros Hs.
  apply (boots_stages 5 k [] [] Enabled k1); [by apply boots_core|]. by rewrite stages_services.
Qed.

End world.
End device.
End Booting.
