(* ===== verification/BootingFacts.v ===== *)
(** * Interrupts do not disturb the boot

    Every stage finds what it needs whatever interrupts came before it, and
    every interrupt finds its handler. *)

From S2P Require Import Prelude.
From S2P Require Import Fmt.
From S2P Require Import MemMap.
From S2P Require Import Heap.
From S2P Require Import HeapTiles.
From S2P Require Import HeapFacts.
From S2P Require Import HeapFrame.
From S2P Require Import Machine.
From S2P Require Import Descriptors.
From S2P Require Import DescriptorFacts.
From S2P Require Import Pic.
From S2P Require Import Interrupts.
From S2P Require Import InterruptFacts.
From S2P Require Import Sync.
From S2P Require Import Input.
From S2P Require Import Keyboard.
From S2P Require Import KeyboardFacts.
From S2P Require Import Task.
From S2P Require Import TaskFacts.
From S2P Require Import SwitchFacts.
From S2P Require Import Ata.
From S2P Require Import AtaFacts.
From S2P Require Import GoatFs.
From S2P Require Import GoatFsFacts.
From S2P Require Import GoatFsSpec.
From S2P Require Import Shell.
From S2P Require Import ShellFacts.
From S2P Require Import Pit.
From S2P Require Import Boot.
From S2P Require Import BootMachine.
From S2P Require Import BootMemory.
From S2P Require Import BootFacts.
From S2P Require Import Deliver.
From S2P Require Import System.
From S2P Require Import Session.
From S2P Require Import HandlerFacts.
From S2P Require Import Booting.
#[local] Open Scope Z_scope.

Module BootingFacts.
Import Machine Sync Input InputFacts Ata AtaDrive AtaFacts PicHw Pit8254 BootMachine BootMemory BootFacts Shell Boot Deliver System
  Session HandlerFacts Booting.
#[local] Existing Instance Idt.Gate_inhabited.
#[local] Strategy expand [dev cpu memory screen gdt idt tss ints frames heap TICKS kbd queue ata fs sched WRITER SERIAL1 log].

Section booting.
Context {D : Type} `{PortIO D} `{WordIO D} {disk : Z -> list Z}.
Context `{!PicDevice D} `{!PitDevice D} `{!AtaDevice D disk} `{!BootMachine D disk}.
Context (p : Program).

Abbreviation K := (Kernel D).

(** ** What holds at each stage *)

Definition mask_at (st : Stage) : Z := match st with Enabled => 0xff | TimerUp => 0xfe | _ => 0xfc end.

Definition gates_at (st : Stage) (t : list Idt.Gate) : list Idt.Gate :=
  let timer t := <[32%nat := Idt.interrupt (timer_interrupt p) Tss.KERNEL_CODE_SELECTOR]> t in
  match st with
  | Enabled => t
  | TimerUp => timer t
  | _ => <[33%nat := Idt.interrupt (keyboard_interrupt p) Tss.KERNEL_CODE_SELECTOR]> (timer t)
  end.

(** [kc] is the kernel with the core started; what follows it is what interrupts
    and stages have made of it. *)
Record booting (kc : K) (tr : list label) (bs : list Z) (st : Stage) (k : K) : Prop := {
  bo_same : cpu k = cpu kc /\ tss k = tss kc /\ gdt k = gdt kc /\ frames k = frames kc;
  bo_idt : idt k = gates_at st (idt kc);
  bo_machine : exists t, listening t (mask_at st) 0 (dev k) /\ (st <> Enabled -> t = running);
  bo_queue : locked (queue k) = false /\
    holds (value (queue k)) (KeyboardFacts.fifo_all (mkFifo [] 0) (KeyboardFacts.decoded bs));
  bo_mode : match st with
            | Enabled | TimerUp => bs = []
            | _ => KeyboardFacts.mode_of (kbd k) = (KeyboardFacts.decode KeyboardFacts.released bs).1
            end;
  bo_ticks : match st with Enabled => hits 32 tr = 0%nat | _ => TICKS k = as_u32 (Z.of_nat (hits 32 tr)) end;
  bo_unhandled : Interrupts.unhandled_count (ints k) = as_u32 (Z.of_nat (hits 39 tr));
  bo_files : match st with
             | Enabled | TimerUp | KeyboardUp => fs k = fs kc
             | _ => GoatFsSpec.shipped_fs (fs k) /\ ata k = mkAta true
             end;
  bo_tasks : match st with
             | TasksUp | Prompted => exists ts pa pb, tasks_ok p (sched k) (memory k) ts pa pb /\
                 HeapFacts.heap_rep (heap k) (memory k) ts /\
                 (Heap.heap_start (heap k) = Heap.heap_start (heap kc) /\ Heap.heap_end (heap k) = Heap.heap_end (heap kc)) /\
                 forall a, HeapFrame.outside (heap kc) a -> (forall i, (i < Task.MAX_TASKS)%nat -> a <> context_of p i) ->
                   (memory k).[a] = (memory kc).[a]
             | _ => sched k = sched kc /\ heap k = heap kc /\ memory k = memory kc
             end;
  bo_prompt : st = Prompted -> exists es, log k = es ++ Shell.init
}.

(** The core as [kernel_main] leaves it. *)
Record core_ok (kc : K) (ts : list HeapTiles.Tiles.tile) : Prop := {
  cr_flag : if_flag (cpu kc) = true;
  cr_idt : length (idt kc) = 256%nat;
  cr_spurious : Hw.gate_target (idt kc !!! Z.to_nat 39) = InterruptFacts.expected (entries p) 39;
  cr_machine : exists t, listening t 0xff 0 (dev kc);
  cr_input : queue kc = Sync.new Input.new;
  cr_unhandled : Interrupts.unhandled_count (ints kc) = 0;
  cr_statics : fs kc = GoatFs.boot /\ sched kc = Task.boot;
  cr_heap : HeapFacts.heap_rep (heap kc) (memory kc) ts;
  cr_room : HeapFrame.room TASK_ROOM ts /\ Heap.allocations (heap kc) + 2 <= U32_MAX;
  cr_contexts : forall i, (i < Task.MAX_TASKS)%nat -> HeapFrame.outside (heap kc) (context_of p i)
}.

Section core.
Context (Hp : program_ok p) (Hho : DeliverFacts.handlers_ok p).
Context (Hok : disk_ok disk) (img : list Z).
Context (Himg : GoatFs.Packer.pack GoatFs.Packer.FILES = Some img) (Hinst : GoatFsFacts.installed disk img).
Context (kc : K) (ts : list HeapTiles.Tiles.tile) (Hcore : core_ok kc ts).

Abbreviation booting := (booting kc).

Lemma booting_core : booting [] [] Enabled kc.
Proof.
  destruct Hcore as [_ _ _ [t Hm] Hi Hu _ _ _ _]. split; cbn; try done.
  - by exists t.
  - rewrite Hi. split; [done|]. apply holds_new.
Qed.

(** *** Interrupts *)

Lemma boot_routed st (k : K) : idt k = gates_at st (idt kc) -> routed p (mask_at st) k.
Proof.
  intros Hidt. pose proof (cr_idt _ _ Hcore) as Hl. pose proof (cr_spurious _ _ Hcore) as Hs.
  split; rewrite Hidt; destruct st; cbn [gates_at mask_at]; intros; try done;
    change 33%nat with (Z.to_nat 33); change 32%nat with (Z.to_nat 32);
    rewrite !InterruptFacts.lookup_gate_insert by (rewrite ?length_insert; done || lia); repeat case_decide; try done;
    rewrite ?DescriptorFacts.gate_target_interrupt by apply Hp; done.
Qed.

Lemma mask_boot st : boot_mask (mask_at st).
Proof. unfold boot_mask. destruct st; cbn; auto. Qed.

Lemma boot_interrupted tr bs st k v d' c : booting tr bs st k -> raises (dev k) v d' ->
  exists k2, take_vector p {| k with dev := d' |} v None c = Done (k2, Resume) /\
    (st <> Prompted -> booting (tr ++ [Interrupted v]) (bs ++ bytes_at v d') st k2).
Proof.
  intros [(S1 & S2 & S3 & S4) Hidt (t & Hm & Ht) [Hlk Hq] Hmo Hti Hun Hfi Hta _] Hr.
  assert (static k k) as Hst by (split; try done; apply cpu_if_eta; rewrite S1; apply Hcore).
  assert (queue_ok k) as Hqo by (split; [done|by eexists]).
  destruct (interrupt_handled p Hho t _ (mask_boot st) k (boot_routed _ _ Hidt) k v d' c Hst Hm Hqo Hr)
    as (k2 & Hk & [Hst2 (P1 & P2 & P3) Hm2 [Hlk2 _] Kti Kun _ Kin]). cbn [cpu memory sched dev kbd queue TICKS ints] in *.
  exists k2. split; [exact Hk|]. intros Hnp. pose proof (raised _ _ _ _ _ (mask_boot st) Hm Hr) as Hrd.
  destruct (Hst2) as [_ (T1 & T2 & T3) [M1 M2] [F1 F2]].
  destruct (KeyboardFacts.decode (KeyboardFacts.mode_of (kbd k)) (bytes_at v d')) as [m evs] eqn:Hdec. destruct Kin as [Km Kq].
  assert (forall b, b = bytes_at v d' -> match st with Enabled | TimerUp => b = [] | _ => True end) as Hnone.
  { intros b ->. destruct st; try done; destruct Hrd as [(-> & _)|[(_ & Hc & _)|(-> & _)]]; done || (cbn in Hc; lia). }
  split; rewrite ?T1, ?T2, ?T3, ?M1, ?M2, ?F1, ?F2, ?P1, ?P2, ?P3; try done.
  - by exists t.
  - split; [done|]. unfold KeyboardFacts.decoded in *. rewrite KeyboardFacts.decode_app. cbn [snd]. rewrite KeyboardFacts.fifo_all_app.
    assert (evs = (KeyboardFacts.decode (KeyboardFacts.decode KeyboardFacts.released bs).1 (bytes_at v d')).2) as <-; [|by apply Kq].
    specialize (Hnone _ eq_refl). destruct st; try (rewrite Hnone in *; by injection Hdec as _ <-); by rewrite <-Hmo, Hdec.
  - rewrite KeyboardFacts.decode_app. cbn [fst]. specialize (Hnone _ eq_refl).
    destruct st; try (by rewrite Hnone, Hmo); by rewrite Km, <-Hmo, Hdec.
  - rewrite Kti, bump_hits. destruct st; try (by rewrite Hti). rewrite hits_snoc, Hti, decide_False; [done|].
    intros [= ->]. destruct Hrd as [(_ & Hc & _)|[(? & _)|(? & _)]]; done.
  - by rewrite Kun, bump_hits, Hun.
Qed.

Lemma boot_moved tr bs st k d' : booting tr bs st k -> st <> Prompted ->
  in_service (dev k) d' (isr (chips (dev k) Master)) (isr (chips (dev k) Slave)) -> booting (tr ++ [WorldMoved]) bs st {| k with dev := d' |}.
Proof.
  intros [Hs Hidt (t & Hm & Ht) Hq Hmo Hti Hun Hfi Hta _] Hnp Hd. split; cbn [dev cpu memory idt gdt tss ints frames heap TICKS kbd queue ata fs sched WRITER SERIAL1 log];
    rewrite ?same_hits by done; try done.
  exists t. split; [|done]. apply (listening_outside _ _ 0 0 (dev k)); [done|].
  destruct Hm as [_ _ (_ & _ & _ & HM) (_ & _ & _ & HS) _]. by rewrite HM, HS in Hd.
Qed.

(** *** Stages *)

Lemma in_order im t (d : D) : listening t im 0 d -> forall s, isr (chips d s) = 0.
Proof. intros [_ _ (_ & _ & _ & HM) (_ & _ & _ & HS) _]. by intros []. Qed.

Lemma gates_length st t : length t = 256%nat -> length (gates_at st t) = 256%nat.
Proof. intros Hl. by destruct st; cbn [gates_at]; rewrite ?length_insert. Qed.

Ltac stage := cbn [dev cpu memory idt gdt tss ints frames heap TICKS kbd queue ata fs sched WRITER SERIAL1 log] in *; try done.

Lemma timer_stage tr bs k : booting tr bs Enabled k -> booting tr bs TimerUp (start_timer p k).
Proof.
  intros [Hs Hidt (t & Hm & _) Hq Hmo Hti Hun Hfi Hta _]. cbn [mask_at gates_at] in *. pose proof (sg_idle _ _ _ _ Hm) as [f Hf].
  destruct (timer_up p k (chips (dev k)) f Hf (listening_lines _ _ _ _ Hm)) as (d & es & -> & Hst & _);
    [rewrite Hidt; apply Hcore|apply Hp|]. split; stage.
  - by rewrite Hidt.
  - exists running. split; [|done]. eapply lines_listening; [done|]. by eapply in_order.
  - by rewrite Hti.
Qed.

Lemma keyboard_stage tr bs k : booting tr bs TimerUp k -> booting tr bs KeyboardUp (start_keyboard p k).
Proof.
  intros [Hs Hidt (t & Hm & Ht) Hq Hmo Hti Hun Hfi Hta _]. rewrite (Ht ltac:(done)) in Hm. cbn [mask_at] in *.
  destruct (keyboard_up p k (chips (dev k)) (listening_settled _ _ _ Hm)) as (d & es & -> & Hst & _);
    [rewrite Hidt; by apply gates_length, Hcore|apply Hp|]. split; stage.
  - by rewrite Hidt.
  - exists running. split; [|done]. eapply lines_listening; [done|]. by eapply in_order.
  - by rewrite Hmo.
Qed.

Lemma disk_stage tr bs k : booting tr bs KeyboardUp k -> exists k2, start_disk k = Done k2 /\ booting tr bs DiskUp k2.
Proof.
  intros [Hs Hidt (t & Hm & Ht) Hq Hmo Hti Hun Hfi Hta _]. pose proof (cr_statics _ _ Hcore) as [Hf0 _].
  destruct (disk_up k (chips (dev k)) t img) as (d & st & es & -> & Hst & Hsh & _);
    [split; [apply Hm|done|apply Hm]|done..|by rewrite Hfi|].
  eexists. split; [reflexivity|]. split; stage. exists t. split; [by eapply listening_drive|by intros _; apply Ht].
Qed.

Lemma tasks_stage tr bs k : booting tr bs DiskUp k -> exists k2, start_tasks p k = Done k2 /\ booting tr bs TasksUp k2.
Proof.
  intros [Hs Hidt (t & Hm & Ht) Hq Hmo Hti Hun Hfi (T1 & T2 & T3) _]. pose proof (cr_statics _ _ Hcore) as [_ Hs0].
  destruct (cr_room _ _ Hcore) as [Hro Hal].
  destruct (tasks_up p k ts) as (st & h & m & ts' & pa & pb & es & -> & Hto & Hh & Hb1 & Hb2 & Hk & _);
    rewrite ?T1, ?T2, ?T3; try apply Hp; try apply Hcore; try done.
  { intros He. by apply (po_distinct p Hp) in He; [|unfold Task.MAX_TASKS; lia..]. }
  eexists. split; [reflexivity|]. split; stage; [exists t; split; [done|by intros _; apply Ht]|].
  exists ts', pa, pb. rewrite <-T2, <-T3. by split_and!.
Qed.

Lemma prompt_stage tr bs k : booting tr bs TasksUp k -> booting tr bs Prompted (print k Shell.init).
Proof.
  intros [Hs Hidt (t & Hm & Ht) Hq Hmo Hti Hun Hfi Hta _]. unfold print. split; stage.
  - exists t. split; [done|by intros _; apply Ht].
  - intros _. by eexists.
Qed.

Lemma boot_goes_on tr bs st k : booting tr bs st k -> exists k2, next_stage p st k = Done k2 /\ booting tr bs (after st) k2.
Proof.
  intros Hb. destruct st; cbn [next_stage after]; [| |by apply disk_stage|by apply tasks_stage| |by exists k];
    eexists; (split; [done|]); [by apply timer_stage|by apply keyboard_stage|by apply prompt_stage].
Qed.

Lemma boot_stages n tr bs st k : booting tr bs st k -> exists k2, stages p n st k = Done k2.
Proof.
  revert st k. induction n as [|n IH]; intros st k Hb; [by exists k|]. destruct (boot_goes_on _ _ _ _ Hb) as (k2 & Hn & Hb2).
  cbn [stages]. rewrite Hn. by apply IH in Hb2.
Qed.

Lemma boots_booting k tr bs st k1 : start_core p k = Done kc -> boots p k tr bs st k1 -> booting tr bs st k1.
Proof.
  intros He. induction 1 as [k1 Hc|tr bs st k1 k2 _ IH Hs|tr bs st k1 v d' c k2 _ IH Hn Hf Hr Ht|tr bs st k1 d' _ IH Hn Hd].
  - rewrite He in Hc. injection Hc as <-. exact booting_core.
  - destruct (boot_goes_on _ _ _ _ IH) as (k3 & Hs2 & Hb). rewrite Hs in Hs2. by injection Hs2 as <-.
  - destruct (boot_interrupted _ _ _ _ _ _ c IH Hr) as (k3 & Ht2 & Hb). rewrite Ht in Ht2. injection Ht2 as <-. by apply Hb.
  - by apply boot_moved.
Qed.

End core.
(** ** From power on to the prompt *)

(** At the prompt; [tr] has happened while the kernel booted and [bs] was heard
    from the keyboard. *)
Record ready (map : MemMap.Map.MemoryMap) (tr : list label) (bs : list Z) (k : K) (ts : list HeapTiles.Tiles.tile) (pa pb : Z) : Prop := {
  rd_tasks : tasks_ok p (sched k) (memory k) ts pa pb;
  rd_memory : forall m, spared p ts (memory k) m -> memory_up p map k ts m;
  rd_vectors : forall v, 0 <= v < 256 -> Hw.gate_target (idt k !!! Z.to_nat v) =
    if v =? 32 then Hw.ToOffset Tss.KERNEL_CODE_SELECTOR (timer_interrupt p)
    else if v =? 33 then Hw.ToOffset Tss.KERNEL_CODE_SELECTOR (keyboard_interrupt p)
    else InterruptFacts.expected (entries p) v;
  rd_files : GoatFsSpec.shipped_fs (fs k) /\ ata k = mkAta true;
  rd_flag : if_flag (cpu k) = true;
  rd_machine : serving 0 (dev k);
  rd_queue : locked (queue k) = false /\
    holds (value (queue k)) (KeyboardFacts.fifo_all (mkFifo [] 0) (KeyboardFacts.decoded bs));
  rd_mode : KeyboardFacts.mode_of (kbd k) = (KeyboardFacts.decode KeyboardFacts.released bs).1;
  rd_counts : TICKS k = as_u32 (Z.of_nat (hits 32 tr)) /\ Interrupts.unhandled_count (ints k) = as_u32 (Z.of_nat (hits 39 tr));
  rd_prompt : exists es, log k = es ++ Shell.init
}.

Section boot.
Context (Hp : program_ok p) (Hho : DeliverFacts.handlers_ok p).
Context (Hok : disk_ok disk) (img : list Z).
Context (Himg : GoatFs.Packer.pack GoatFs.Packer.FILES = Some img) (Hinst : GoatFsFacts.installed disk img).
Context (k : K) (map : MemMap.Map.MemoryMap) (Hk : loaded k) (Hmap : MemMap.Map.load (memory k) = map).
Context (Hmem : memory_ok (kernel_image p) (guard_page p) map) (Hisr : forall x, isr (chips (dev k) x) = 0).

Lemma core_started : exists kc ts, start_core p k = Done kc /\ core_ok kc ts /\
  forall tr bs k', booting kc tr bs Prompted k' -> exists ts pa pb, ready map tr bs k' ts pa pb.
Proof.
  destruct (core_enabled p k map Hp Hk Hmap Hmem) as (k1 & f & dir & held & ts & pl & s & d & es & E & Hcore & Hi & Hc & _).
  pose proof Hcore as [Ccpu _ _ _ Cint _ Cidt Cvec (Cfs & Csc & Cq) _ _ _ Cheap [Croom Cal] [Cs Ce] Crun _ _].
  exists (enabled k1 d (ints k1) es), ts. split; [exact E|]. split.
  - split; cbn [enabled dev cpu memory idt gdt tss ints frames heap TICKS kbd queue ata fs sched WRITER SERIAL1 log]; try done.
    + by apply Cvec.
    + exists (channel0 d). eapply lines_listening; [by split; [exists f|exact Hc|]|done].
    + by rewrite Cq, (ld_queue _ Hk).
    + by rewrite Cint.
    + by rewrite Cfs, Csc, (ld_fs _ Hk), (ld_sched _ Hk).
    + intros j Hj. apply (outside_heap (heap k1) s Cs Ce). intros Hr.
      by apply (image_unmanaged _ _ _ _ Hmem (po_contexts p Hp j Hj)), Crun.
  - intros tr bs k' [(S1 & S2 & S3 & S4) Hidt (t & Hm & Ht) Hq Hmo Hti Hun Hfi (ts' & pa & pb & Hto & Hh & Hbd & Hkept) Hpr].
    cbn [enabled dev cpu memory idt gdt tss ints frames heap] in *. rewrite (Ht ltac:(done)) in Hm. exists ts', pa, pb. split; try done.
    + intros m. by apply (memory_steady p map k k1 k' f dir held ts pl s ts' m Hmem Hp Hcore).
    + intros v Hv. rewrite Hidt. cbn [gates_at]. rewrite vectors_set by (done || apply Hp). by rewrite Cvec.
    + by rewrite S1.
    + by apply Hpr.
Qed.

(** No interrupt stops the boot; left alone from any stage on, it gets to the
    prompt; and there all is ready. *)
Lemma boots_ready tr bs st k' : boots p k tr bs st k' ->
  (exists k2, stages p 5 st k' = Done k2 /\ boots p k tr bs Prompted k2) /\
  (forall v d' c, raises (dev k') v d' -> exists k2, take_vector p {| k' with dev := d' |} v None c = Done (k2, Resume)) /\
  (st = Prompted -> exists ts pa pb, ready map tr bs k' ts pa pb).
Proof.
  intros Hb. destruct core_started as (kc & ts & E & Hcore & Hready).
  pose proof (boots_booting Hp Hho Hok img Himg Hinst kc ts Hcore k tr bs st k' E Hb) as Hbt. split_and!.
  - destruct (boot_stages Hp Hok img Himg Hinst kc ts Hcore 5 tr bs st k' Hbt) as (k2 & Hn). exists k2. split; [done|].
    pose proof (boots_stages p 5 k tr bs st k' k2 Hb Hn) as Hbs. by destruct st.
  - intros v d' c Hr. destruct (boot_interrupted Hp Hho kc ts Hcore tr bs st k' v d' c Hbt Hr) as (k2 & Ht & _). by exists k2.
  - intros ->. by apply (Hready tr bs).
Qed.

(** Every stage is reached, and can be interrupted. *)
Lemma boots_stage_reached n : exists k', boots p k [] [] (Nat.iter n after Enabled) k'.
Proof.
  destruct core_started as (kc & ts & E & Hcore & _).
  destruct (boot_stages Hp Hok img Himg Hinst kc ts Hcore n [] [] Enabled kc (booting_core kc ts Hcore)) as (k' & Hs).
  exists k'. apply (boots_stages p n k [] [] Enabled kc k'); [by apply boots_core|done].
Qed.

Lemma boots_listening tr bs st k' : boots p k tr bs st k' ->
  if_flag (cpu k') = true /\ exists t, listening t (mask_at st) 0 (dev k') /\ (st <> Enabled -> t = running).
Proof.
  intros Hb. destruct core_started as (kc & ts & E & Hcore & _).
  destruct (boots_booting Hp Hho Hok img Himg Hinst kc ts Hcore k tr bs st k' E Hb) as [(S1 & _) _ Hm _ _ _ _ _ _ _].
  split; [rewrite S1; apply Hcore|done].
Qed.


End boot.

End booting.
End BootingFacts.
