(* ===== verification/SystemFacts.v ===== *)
(** * The kernel keeps running

    What holds in every state the booted kernel can get into: an invariant of
    the step relation of [System], by induction on the steps, from what
    [kernel_main] leaves ([BootFacts]). *)

From S2P Require Import Prelude.
From S2P Require Import Fmt.
From S2P Require Import MemMap.
From S2P Require Import Heap.
From S2P Require Import HeapTiles.
From S2P Require Import HeapFacts.
From S2P Require Import HeapFrame.
From S2P Require Import Machine.
From S2P Require Import Descriptors.
From S2P Require Import DescriptorFacts.
From S2P Require Import Pic.
From S2P Require Import Interrupts.
From S2P Require Import InterruptFacts.
From S2P Require Import Sync.
From S2P Require Import Input.
From S2P Require Import Keyboard.
From S2P Require Import KeyboardFacts.
From S2P Require Import Task.
From S2P Require Import TaskFacts.
From S2P Require Import SwitchFacts.
From S2P Require Import Ata.
From S2P Require Import AtaFacts.
From S2P Require Import GoatFs.
From S2P Require Import GoatFsFacts.
From S2P Require Import GoatFsSpec.
From S2P Require Import Shell.
From S2P Require Import ShellFacts.
From S2P Require Import Pit.
From S2P Require Import Boot.
From S2P Require Import BootMachine.
From S2P Require Import BootMemory.
From S2P Require Import BootFacts.
From S2P Require Import Deliver.
From S2P Require Import System.
From S2P Require Import SystemProgress.
From S2P Require Import Session.
From S2P Require Import HandlerFacts.
From S2P Require Import Booting.
From S2P Require Import BootingFacts.
#[local] Open Scope Z_scope.

Module SystemFacts.
Import Machine Sync Input Ata AtaDrive AtaFacts PicHw Pit8254 BootMachine BootMemory BootFacts Shell Boot Deliver System SystemProgress HandlerFacts Booting BootingFacts.
#[local] Existing Instance Idt.Gate_inhabited.
#[local] Strategy expand [dev cpu memory screen gdt idt tss ints frames heap TICKS kbd queue ata fs sched WRITER SERIAL1 log].

(** The running task, the next one and the one after. *)
Lemma next_turns n : let c := (n mod 3)%nat in let c' := (S n mod 3)%nat in
  (c < 3)%nat /\ (c' < 3)%nat /\ c <> c' /\ exists c'', (c'' < 3)%nat /\ c'' <> c /\ c'' <> c' /\ c'' = ((n + 2) mod 3)%nat /\
    forall i, (i < 3)%nat -> i = c \/ i = c' \/ i = c''.
Proof.
  cbv zeta. pose proof (Nat.div_mod n 3 ltac:(lia)) as Hd. pose proof (Nat.mod_upper_bound n 3 ltac:(lia)) as Hb.
  assert (forall r, (r < 3)%nat -> forall q x, x = (3 * q + r)%nat -> (x mod 3 = r)%nat) as Hm.
  { intros r Hr q x ->. rewrite Nat.add_comm, Nat.mul_comm, Nat.Div0.mod_add. by apply Nat.mod_small. }
  destruct (n mod 3)%nat as [|[|[|r]]]; [..|lia].
  - rewrite (Hm 1%nat ltac:(lia) (n / 3)%nat (S n)), (Hm 2%nat ltac:(lia) (n / 3)%nat (n + 2)%nat) by lia.
    split_and!; [lia..|]. exists 2%nat. split_and!; lia.
  - rewrite (Hm 2%nat ltac:(lia) (n / 3)%nat (S n)), (Hm 0%nat ltac:(lia) (n / 3 + 1)%nat (n + 2)%nat) by lia.
    split_and!; [lia..|]. exists 0%nat. split_and!; lia.
  - rewrite (Hm 0%nat ltac:(lia) (n / 3 + 1)%nat (S n)), (Hm 1%nat ltac:(lia) (n / 3 + 1)%nat (n + 2)%nat) by lia.
    split_and!; [lia..|]. exists 1%nat. split_and!; lia.
Qed.

Section system.
Context {D : Type} `{PortIO D} `{WordIO D} {disk : Z -> list Z}.
Context `{!PicDevice D} `{!PitDevice D} `{!AtaDevice D disk} `{!BootMachine D disk}.
Context (p : Program) (code : Code).

Abbreviation K := (Kernel D).
Abbreviation S := (System D).

(** [n] statements in a row. *)
Inductive runs : nat -> S -> S -> Prop :=
| runs_O s : runs 0 s s
| runs_S n s r s1 s' : stack_ok code s r -> run p code s r = Done s1 -> runs n s1 s' -> runs (Datatypes.S n) s s'.

(** ** The code *)

(** What compiler and linker promise besides [program_ok]. *)
Record code_ok : Prop := {
  ck_handlers : DeliverFacts.handlers_ok p;
  ck_ret : ret code <> task_trampoline p;
  ck_demos : demo_a_task p <> demo_b_task p;
  ck_stack : (kernel_image p).1 <= (boot_stack code).1 /\ (boot_stack code).1 + 28 <= (boot_stack code).2 /\
    (boot_stack code).2 <= (kernel_image p).2;
  ck_image : 0 <= (kernel_image p).1 /\ (kernel_image p).2 < 2 ^ 32;
  ck_contexts : forall i, (i < Task.MAX_TASKS)%nat -> ~ ((boot_stack code).1 <= context_of p i < (boot_stack code).2)
}.

Section running.
Context (Hck : code_ok) (Hpo : program_ok p).
Context (Hok : disk_ok disk) (img : list Z).
Context (Himg : Packer.pack Packer.FILES = Some img) (Hinst : GoatFsFacts.installed disk img).

(** The booted kernel. *)
Context (map : Map.MemoryMap) (k0 : K) (ts : list Tiles.tile) (pa pb : Z).
Context (Hto : tasks_ok p (sched k0) (memory k0) ts pa pb).
Context (Hsteady : forall m, spared p ts (memory k0) m -> memory_up p map k0 ts m).
Context (Hvec : forall v, 0 <= v < 256 -> Hw.gate_target (idt k0 !!! Z.to_nat v) =
    if v =? 32 then Hw.ToOffset Tss.KERNEL_CODE_SELECTOR (timer_interrupt p)
    else if v =? 33 then Hw.ToOffset Tss.KERNEL_CODE_SELECTOR (keyboard_interrupt p)
    else InterruptFacts.expected (entries p) v).
Context (Hfs : GoatFsSpec.shipped_fs (fs k0) /\ ata k0 = mkAta true).
Context (Hif : if_flag (cpu k0) = true).

Abbreviation static := (static k0).

Lemma gates_routed : routed p 0xfc k0.
Proof. split; intros; by rewrite Hvec by lia. Qed.

(** ** Stacks *)

Definition lo (i : nat) : Z := (stack_range code (sched k0) i).1.
Definition hi (i : nat) : Z := (stack_range code (sched k0) i).2.
Definition on_stack (i : nat) (a : Z) : Prop := lo i <= a < hi i.

Lemma ranges : stack_range code (sched k0) 0 = boot_stack code /\
  stack_range code (sched k0) 1 = (pa, pa + Task.STACK_SIZE) /\ stack_range code (sched k0) 2 = (pb, pb + Task.STACK_SIZE).
Proof. unfold stack_range. rewrite (to_table _ _ _ _ _ _ Hto). done. Qed.

Lemma booted_memory : memory_up p map k0 ts (memory k0).
Proof. apply Hsteady. by intros a. Qed.

(** Stacks are in the image or in allocated blocks of the heap. *)
Lemma stack_place i a : (i < 3)%nat -> on_stack i a ->
  i = 0%nat /\ in_image p a /\ (boot_stack code).1 <= a < (boot_stack code).2 \/
  HeapFacts.payload ts a /\ ~ HeapFrame.outside (heap k0) a /\
  (i = 1%nat /\ pa <= a < pa + Task.STACK_SIZE \/ i = 2%nat /\ pb <= a < pb + Task.STACK_SIZE).
Proof.
  unfold on_stack, lo, hi. destruct ranges as (R0 & R1 & R2). destruct (to_blocks _ _ _ _ _ _ Hto) as [Ba Bb].
  pose proof (ck_stack Hck) as Hs. intros Hi Ha. destruct i as [|[|[|i]]]; [| | |lia]; rewrite ?R0, ?R1, ?R2 in Ha; cbn [fst snd] in Ha.
  - left. unfold in_image. split; [done|lia].
  - right. pose proof (Ba a Ha) as Hp. pose proof (HeapFrame.payload_inside _ _ _ _ (mu_heap _ _ _ _ _ booted_memory) Hp).
    split; [done|]. split; [unfold HeapFrame.outside; lia|by left].
  - right. pose proof (Bb a Ha) as Hp. pose proof (HeapFrame.payload_inside _ _ _ _ (mu_heap _ _ _ _ _ booted_memory) Hp).
    split; [done|]. split; [unfold HeapFrame.outside; lia|by right].
Qed.

Lemma stacks_apart i j a : (i < 3)%nat -> (j < 3)%nat -> on_stack i a -> on_stack j a -> i = j.
Proof.
  intros Hi Hj Ha Hb. destruct (stack_place i a Hi Ha) as [(-> & Him & _)|(_ & Ho & Hc)], (stack_place j a Hj Hb) as [(-> & Him' & _)|(_ & Ho' & Hc')].
  - done.
  - by apply (mu_image _ _ _ _ _ booted_memory) in Him.
  - by apply (mu_image _ _ _ _ _ booted_memory) in Him'.
  - pose proof (to_apart _ _ _ _ _ _ Hto). destruct Hc as [[-> ?]|[-> ?]], Hc' as [[-> ?]|[-> ?]]; done || lia.
Qed.

Lemma context_off_stack i j : (i < 3)%nat -> (j < Task.MAX_TASKS)%nat -> ~ on_stack i (context_of p j).
Proof.
  intros Hi Hj Ha. destruct (stack_place i _ Hi Ha) as [(_ & _ & Hb)|(_ & Ho & _)].
  - by apply (ck_contexts Hck j Hj).
  - apply Ho, (mu_image _ _ _ _ _ booted_memory), (po_contexts p Hpo j Hj).
Qed.

Lemma stack_bounds i : (i < 3)%nat -> 0 <= lo i /\ lo i + 28 <= hi i /\ hi i < 2 ^ 32.
Proof.
  unfold lo, hi. destruct ranges as (R0 & R1 & R2). intros Hi.
  pose proof (ck_stack Hck). pose proof (ck_image Hck). pose proof (mu_heap _ _ _ _ _ booted_memory) as Hh.
  pose proof (HeapFacts.hr_start _ _ _ Hh). pose proof (HeapFacts.hr_end _ _ _ Hh) as He. change U32_MAX with (2 ^ 32 - 1) in He.
  assert (forall ptr, block ts ptr -> 0 <= ptr /\ ptr + Task.STACK_SIZE <= Heap.heap_end (heap k0)) as Hb.
  { intros ptr Hb. change Task.STACK_SIZE with 8192 in *.
    pose proof (HeapFrame.payload_inside _ _ _ _ Hh (Hb ptr ltac:(change Task.STACK_SIZE with 8192; lia))).
    pose proof (HeapFrame.payload_inside _ _ _ _ Hh (Hb (ptr + 8191) ltac:(change Task.STACK_SIZE with 8192; lia))). lia. }
  destruct (to_blocks _ _ _ _ _ _ Hto) as [Ba%Hb Bb%Hb]. change Task.STACK_SIZE with 8192 in *.
  destruct i as [|[|[|i]]]; [| | |lia]; rewrite ?R0, ?R1, ?R2; cbn [fst snd]; lia.
Qed.

(** Writes to stacks and contexts spare the rest. *)
Lemma spared_write m m' : spared p ts (memory k0) m ->
  (forall a, (forall i, (i < 3)%nat -> ~ on_stack i a) -> (forall j, (j < Task.MAX_TASKS)%nat -> a <> context_of p j) -> m'.[a] = m.[a]) ->
  spared p ts (memory k0) m'.
Proof.
  intros Hs Hw a Him Hpa. rewrite Hw; [by apply Hs| |].
  - intros i Hi Ha. destruct (stack_place i a Hi Ha) as [(_ & ? & _)|(? & _)]; done.
  - intros j Hj ->. by apply Him, (po_contexts p Hpo).
Qed.

(** ** Threads *)

Definition entry_of (i : nat) : Z := if (i =? 1)%nat then demo_a_task p else demo_b_task p.

(** Who a thread can be, its editor, and the flags it keeps in [yield_now]: the
    shell's have IF set, a demo task's never do. *)
Definition thread_ok (i : nat) (t : Thread) : Prop :=
  match t with
  | Fresh => i <> 0%nat
  | ShellTask at_ e _ => i = 0%nat /\ (exists line, ShellFacts.holds_line e line) /\
      match at_ with Switched fl => has_bits fl EFLAGS_IF = true | _ => True end
  | DemoTask at_ label _ _ => i <> 0%nat /\ label = Z.of_nat i /\
      match at_ with DSwitched fl => has_bits fl EFLAGS_IF = false | _ => True end
  end.

(** The interrupt flag while it runs; a thread that is [Fresh] does not. *)
Definition if_of (t : Thread) : option bool :=
  match t with
  | Fresh => None
  | ShellTask (Switched _) _ _ => Some false
  | ShellTask _ _ _ => Some true
  | DemoTask _ _ _ _ => Some false
  end.

(** A thread that waits for the CPU. *)
Definition waits (m : mem) (i : nat) (t : Thread) : Prop :=
  match t with
  | Fresh => waits_fresh (context_of p) (task_trampoline p) m i (lo i) (entry_of i) /\ lo i + Task.STACK_SIZE = hi i
  | ShellTask (Switched _) _ _ | DemoTask (DSwitched _) _ _ _ =>
      exists P, SwitchFacts.parked m (context_of p i) P /\ SwitchFacts.s_eip P = ret code /\
        lo i <= SwitchFacts.s_esp P - 20 /\ SwitchFacts.s_esp P <= hi i
  | _ => False
  end.

Lemma waits_agree m m' i t : waits m i t -> m'.[context_of p i] = m.[context_of p i] ->
  (forall a, on_stack i a -> m'.[a] = m.[a]) -> waits m' i t.
Proof.
  intros Hw Hc Hs. assert (forall P, SwitchFacts.parked m (context_of p i) P -> lo i <= SwitchFacts.s_esp P - 20 ->
    SwitchFacts.s_esp P <= hi i -> SwitchFacts.parked m' (context_of p i) P) as Hp.
  { intros P HP Hl Hh. apply (SwitchFacts.parked_agree m); [done|]. intros a [->|Ha]; [done|]. apply Hs. unfold on_stack. lia. }
  destruct t as [|[] ? ?|[] ? ? ?]; cbn [waits] in *; try done;
    try (destruct Hw as (P & HP & He & Hl & Hh); by exists P; eauto).
  destruct Hw as [Hw Hr]. split; [|done]. apply (waits_fresh_agree _ _ m); [done|done|]. intros a Ha. apply Hs. unfold on_stack. lia.
Qed.

(** Where it will go on. *)
Definition comes_back (m : mem) (i : nat) (t : Thread) (P : SwitchFacts.Saved) : Prop :=
  match t with
  | Fresh => exists top, P = SwitchFacts.fresh (task_trampoline p) top /\ m.[top - 4] = entry_of i /\ lo i + 24 <= top <= hi i
  | _ => SwitchFacts.s_eip P = ret code
  end.

Lemma waits_parked m i t : waits m i t ->
  exists P, SwitchFacts.parked m (context_of p i) P /\ lo i <= SwitchFacts.s_esp P - 20 /\ SwitchFacts.s_esp P <= hi i /\ comes_back m i t P.
Proof.
  intros Hw. destruct t as [|[] ? ?|[] ? ? ?]; cbn [waits comes_back] in *; try done;
    try (destruct Hw as (P & HP & He & Hl & Hh); by exists P).
  destruct Hw as [[Hp He] Hr]. change Task.STACK_SIZE with 8192 in *.
  assert (lo i + 24 <= (lo i + 8192) / 16 * 16 <= lo i + 8192) as Ht by (clear; Z.div_mod_to_equations; lia).
  eexists. split; [exact Hp|]. cbn. split; [lia|]. split; [lia|]. eexists. split; [done|]. split; [done|lia].
Qed.

(** ** The invariant *)

Record inv (tr : list label) (s : S) : Prop := {
  iv_static : static (kernel s);
  iv_machine : serving 0 (dev (kernel s));
  iv_queue : queue_ok (kernel s);
  iv_ticks : TICKS (kernel s) = as_u32 (Z.of_nat (hits 32 tr));
  iv_unhandled : Interrupts.unhandled_count (ints (kernel s)) = as_u32 (Z.of_nat (hits 39 tr));
  iv_turns : exists n, TaskFacts.turn_state 3 n (sched (kernel s));
  iv_table : Task.tasks (Task.sched (sched (kernel s))) = Task.tasks (Task.sched (sched k0));
  iv_memory : spared p ts (memory k0) (memory (kernel s));
  iv_threads : length (threads s) = 4%nat /\ forall i, (i < 3)%nat -> exists t, threads s !! i = Some t /\ thread_ok i t /\
    (i <> current s -> waits (memory (kernel s)) i t);
  iv_if : exists t, threads s !! current s = Some t /\ if_of t = Some (if_flag (cpu (kernel s)))
}.

Lemma inv_current tr s : inv tr s -> (current s < 3)%nat.
Proof.
  intros [_ _ _ _ _ [n Ht] _ _ _ _]. unfold current. rewrite (TaskFacts.so_current _ _ _ (TaskFacts.ts_ok _ _ _ Ht)).
  by apply Nat.mod_upper_bound.
Qed.

Lemma same_ranges tr s i : inv tr s -> stack_range code (sched (kernel s)) i = (lo i, hi i).
Proof. intros Hi. unfold lo, hi, stack_range. rewrite (iv_table _ _ Hi). apply surjective_pairing. Qed.

(** A step that leaves memory and scheduler alone and moves the running thread
    to [t]. *)
Lemma inv_moves tr s l k t : inv tr s -> static k -> serving 0 (dev k) -> queue_ok k ->
  TICKS k = as_u32 (Z.of_nat (hits 32 (tr ++ [l]))) ->
  Interrupts.unhandled_count (ints k) = as_u32 (Z.of_nat (hits 39 (tr ++ [l]))) ->
  memory k = memory (kernel s) -> sched k = sched (kernel s) -> thread_ok (current s) t -> if_of t = Some (if_flag (cpu k)) ->
  inv (tr ++ [l]) (goes s k t).
Proof.
  intros Hi Hst Hd Hq Ht Hu Hm Hs Htk Hf. pose proof (inv_current _ _ Hi) as Hc. destruct Hi as [_ _ _ _ _ Htu Htb Hsp [Hl Hth] _].
  assert (current (goes s k t) = current s) as Hcur by (unfold current, goes; cbn [kernel]; by rewrite Hs).
  split; rewrite ?Hcur; unfold goes; cbn [kernel threads]; try done.
  - by rewrite Hs.
  - by rewrite Hs.
  - by rewrite Hm.
  - split; [by rewrite length_insert|]. intros i Hi. rewrite Hm.
    destruct (decide (i = current s)) as [->|Hne].
    + exists t. rewrite list_lookup_insert_eq by lia. done.
    + rewrite list_lookup_insert_ne by done. destruct (Hth i Hi) as (t' & -> & Ho & Hw). exists t'. auto.
  - exists t. rewrite list_lookup_insert_eq by lia. done.
Qed.

(** *** Switching tasks *)

Lemma inv_switched tr s n st' m tc tn : let c := (n mod 3)%nat in let c' := (Datatypes.S n mod 3)%nat in
  inv tr s -> current s = c -> TaskFacts.turn_state 3 (Datatypes.S n) st' ->
  Task.tasks (Task.sched st') = Task.tasks (Task.sched (sched (kernel s))) -> spared p ts (memory k0) m ->
  thread_ok c tc -> waits m c tc -> thread_ok c' tn -> if_of tn = Some false ->
  (forall i, (i < 3)%nat -> i <> c -> i <> c' -> m.[context_of p i] = (memory (kernel s)).[context_of p i] /\
     forall a, on_stack i a -> m.[a] = (memory (kernel s)).[a]) ->
  inv (tr ++ [Ran]) (mkSystem {| (kernel s) with sched := st'; cpu := cli (cpu (kernel s)); memory := m |}
    (<[c' := tn]> (<[c := tc]> (threads s)))).
Proof.
  cbv zeta. intros Hi Hcur Hts Htk Hsp Hoc Hwc Hon Hfn Hag. destruct (next_turns n) as (Hc & Hc' & Hne & _).
  set (c := (n mod 3)%nat) in *. set (c' := (Datatypes.S n mod 3)%nat) in *.
  assert (Task.current (Task.sched st') = c') as Hcur' by apply (TaskFacts.so_current _ _ _ (TaskFacts.ts_ok _ _ _ Hts)).
  destruct Hi as [[Hs1 Hs2 Hs3 Hs4] Hma Hq Hti Hun _ Htb _ [Hl Hth] _].
  split; cbn [kernel threads]; try done.
  - by rewrite hits_snoc, decide_False, Nat.add_0_r.
  - by rewrite hits_snoc, decide_False, Nat.add_0_r.
  - by exists (Datatypes.S n).
  - cbn. congruence.
  - split; [by rewrite !length_insert|]. intros i Hi3. unfold current. cbn. rewrite Hcur'.
    destruct (decide (i = c')) as [->|H1]; [exists tn; rewrite list_lookup_insert_eq by (rewrite length_insert; lia); done|].
    rewrite list_lookup_insert_ne by done.
    destruct (decide (i = c)) as [->|H2]; [exists tc; rewrite list_lookup_insert_eq by lia; done|].
    rewrite list_lookup_insert_ne by done. destruct (Hth i Hi3) as (t & Ht & Ho & Hw). exists t. split_and!; [done..|]. intros _.
    destruct (Hag i Hi3 H2 H1). eapply waits_agree; [apply Hw; congruence|done|done].
  - exists tn. unfold current. cbn. rewrite Hcur', list_lookup_insert_eq by (rewrite length_insert; lia). done.
Qed.

(** What [yield_now] of task [c] leaves: [c] parked, everybody else as before. *)
Lemma switch_ok tr s r n : let c := (n mod 3)%nat in let c' := (Datatypes.S n mod 3)%nat in
  inv tr s -> TaskFacts.turn_state 3 n (sched (kernel s)) -> stack_ok code s r ->
  exists t' P st' r' m', threads s !! c' = Some t' /\ thread_ok c' t' /\ waits (memory (kernel s)) c' t' /\ comes_back (memory (kernel s)) c' t' P /\
    Task.yield_now (context_of p) (ret code) (sched (kernel s)) (cpu (kernel s)) r (memory (kernel s)) =
      Done (st', cli (cpu (kernel s)), r', m', Some (read_eflags (cpu (kernel s)))) /\
    TaskFacts.turn_state 3 (Datatypes.S n) st' /\ Task.tasks (Task.sched st') = Task.tasks (Task.sched (sched (kernel s))) /\
    SwitchFacts.resumed r' = P /\
    SwitchFacts.parked m' (context_of p c) (SwitchFacts.saved_by r (ret code) (Task.esp r - 8)) /\
    lo c + 28 <= Task.esp r <= hi c /\
    forall a, ~ on_stack c a -> a <> context_of p c -> m'.[a] = (memory (kernel s)).[a].
Proof.
  cbv zeta. intros Hi Ht Hr. destruct (next_turns n) as (Hc & Hc' & Hne & c'' & Hc2 & Hn1 & Hn2 & Heq & _).
  assert (current s = n mod 3)%nat as Hcur by apply (TaskFacts.so_current _ _ _ (TaskFacts.ts_ok _ _ _ Ht)).
  destruct (TaskFacts.turn_step 3 n _ ltac:(lia) Ht) as (st' & Hpick & Ht' & Htk).
  unfold stack_ok in Hr. rewrite (same_ranges _ _ _ Hi), Hcur in Hr. set (c := (n mod 3)%nat) in *. set (c' := (Datatypes.S n mod 3)%nat) in *.
  destruct (iv_threads _ _ Hi) as [_ Hth]. destruct (Hth c' Hc') as (t' & Hl' & Ho' & Hw'). destruct (Hth c'' Hc2) as (t2 & _ & _ & Hw2).
  specialize (Hw' ltac:(congruence)). specialize (Hw2 ltac:(congruence)).
  destruct (waits_parked _ _ _ Hw') as (P & Hp & Hlo & Hhi & Hcb). destruct (waits_parked _ _ _ Hw2) as (P2 & Hp2 & Hlo2 & Hhi2 & _).
  destruct (stack_bounds c Hc) as (B1 & B2 & B3). set (Pf := fun i : nat => if (i =? c')%nat then P else P2).
  assert (Pf c' = P) as HP1 by (unfold Pf; by rewrite Nat.eqb_refl).
  assert (Pf c'' = P2) as HP2 by (unfold Pf; destruct (Nat.eqb_spec c'' c'); done).
  assert (forall i, i ∈ [c'; c''] -> (i < 3)%nat /\ i <> c /\ SwitchFacts.parked (memory (kernel s)) (context_of p i) (Pf i) /\
    forall a, SwitchFacts.area (context_of p i) (Pf i) a -> a = context_of p i \/ on_stack i a) as Hq.
  { intros i [->|[->|[]%elem_of_nil]%elem_of_cons]%elem_of_cons; rewrite ?HP1, ?HP2; (split_and!; [done|congruence|done|]);
      unfold SwitchFacts.area, on_stack; intros a [->|Ha]; [by left|right; lia|by left|right; lia]. }
  destruct (SwitchFacts.yield_spec (context_of p) (ret code) _ st' (cpu (kernel s)) r (memory (kernel s)) c c' [c''] Pf Hpick)
    as (r' & m' & Hy & Hres & Hpk & _ & Hfr); [lia| | | |].
  - intros i Hi'. by apply Hq.
  - intros i a Hi' Ha. destruct (Hq i Hi') as (Hi3 & Hic & _ & Harea). split.
    + intros Hin. assert (on_stack c a) as Hon by (unfold on_stack; lia). destruct (Harea a Ha) as [->|Hoi].
      * eapply (context_off_stack c i); [done|unfold Task.MAX_TASKS; lia|done].
      * by apply Hic, (stacks_apart i c a).
    + intros ->. destruct (Harea _ Ha) as [He|Hoi].
      * apply Hic. symmetry. apply (po_distinct p Hpo); [unfold Task.MAX_TASKS; lia..|done].
      * eapply (context_off_stack i c); [done|unfold Task.MAX_TASKS; lia|done].
  - intros Hin. eapply (context_off_stack c c); [done|unfold Task.MAX_TASKS; lia|]. unfold on_stack. lia.
  - exists t', P, st', r', m'. rewrite HP1 in Hres. split_and!; try done; [lia..|]. intros a Ha Hne'. apply Hfr; [|done].
    intros Hin. apply Ha. unfold on_stack. lia.
Qed.

(** Writes to one task's stack and context spare the others'. *)
Lemma frame_keeps m m' c : (c < 3)%nat -> (forall a, ~ on_stack c a -> a <> context_of p c -> m'.[a] = m.[a]) ->
  spared p ts (memory k0) m -> spared p ts (memory k0) m' /\
    forall i a, (i < 3)%nat -> i <> c -> a = context_of p i \/ on_stack i a -> m'.[a] = m.[a].
Proof.
  intros Hc Hfr Hs. split.
  - apply (spared_write m); [done|]. intros a H1 H2. apply Hfr; [by apply H1|apply H2; unfold Task.MAX_TASKS; lia].
  - intros i a Hi3 Hic [->|Ha]; apply Hfr.
    + apply context_off_stack; [done|unfold Task.MAX_TASKS; lia].
    + intros He'. by apply (po_distinct p Hpo) in He'; [|unfold Task.MAX_TASKS; lia..].
    + intros Hon. by apply Hic, (stacks_apart i c a).
    + intros ->. by apply (context_off_stack i c); [|unfold Task.MAX_TASKS; lia|].
Qed.

(** The trampoline writes one word of the new task's stack. *)
Lemma off_trampoline i j top v m a : (i < 3)%nat -> (j < 3)%nat -> j <> i -> lo i + 24 <= top <= hi i ->
  a = context_of p j \/ on_stack j a -> (m.[top - 16 <- v]).[a] = m.[a].
Proof.
  intros Hi Hj Hne Htop Ha. apply load_store_ne. intros <-. assert (on_stack i (top - 16)) as Hon by (unfold on_stack; lia).
  destruct Ha as [He|Ha]; [|by apply Hne, (stacks_apart j i (top - 16))].
  rewrite He in Hon. revert Hon. apply context_off_stack; [done|unfold Task.MAX_TASKS; lia].
Qed.

Lemma spared_trampoline i top v m : (i < 3)%nat -> lo i + 24 <= top <= hi i -> spared p ts (memory k0) m ->
  spared p ts (memory k0) (m.[top - 16 <- v]).
Proof.
  intros Hi Htop Hs. apply (spared_write m); [done|]. intros a H1 _. apply load_store_ne. intros <-. apply (H1 i Hi). unfold on_stack. lia.
Qed.

(** A new task is entered through the trampoline. *)
Lemma enter_fresh (s : S) r i top : SwitchFacts.resumed r = SwitchFacts.fresh (task_trampoline p) top -> 16 <= top < 2 ^ 32 ->
  (memory (kernel s)).[top - 4] = entry_of i -> (0 < i < 3)%nat ->
  resume p code s r i = Done (mkSystem {| (kernel s) with memory := (memory (kernel s)).[top - 16 <- park code] |}
    (<[i := DemoTask DClock (Z.of_nat i) 0 0]> (threads s))).
Proof.
  intros Hres Htop Hent Hi. destruct (SwitchFacts.trampoline_enters (park code) r (memory (kernel s)) top _ Hres Htop) as (r2 & Htr & Heip & _).
  assert (Task.eip r = task_trampoline p) as He by (by injection Hres). unfold resume. rewrite He.
  destruct (Z.eqb_spec (task_trampoline p) (ret code)) as [He'|_]; [by destruct (ck_ret Hck)|].
  rewrite Z.eqb_refl, Htr, Heip, Hent. unfold entry_of. pose proof (ck_demos Hck) as Hdm. destruct (Nat.eqb_spec i 1) as [->|].
  - by rewrite Z.eqb_refl.
  - destruct (Z.eqb_spec (demo_b_task p) (demo_a_task p)); [congruence|]. rewrite Z.eqb_refl. by replace i with 2%nat by lia.
Qed.

Lemma yield_ok tr s r parked alone : inv tr s -> stack_ok code s r ->
  (forall fl, has_bits fl EFLAGS_IF = if_flag (cpu (kernel s)) -> thread_ok (current s) (parked fl)) ->
  (forall m P fl, SwitchFacts.parked m (context_of p (current s)) P -> SwitchFacts.s_eip P = ret code ->
     lo (current s) <= SwitchFacts.s_esp P - 20 -> SwitchFacts.s_esp P <= hi (current s) -> waits m (current s) (parked fl)) ->
  exists s', yield p code s r parked alone = Done s' /\ inv (tr ++ [Ran]) s' /\ switched s s' (parked (read_eflags (cpu (kernel s)))).
Proof.
  intros Hi Hr Hpok Hpw. destruct (iv_turns _ _ Hi) as [n Ht].
  assert (current s = n mod 3)%nat as Hcur by apply (TaskFacts.so_current _ _ _ (TaskFacts.ts_ok _ _ _ Ht)).
  destruct (switch_ok tr s r n Hi Ht Hr) as (t' & P & st' & r' & m' & Hl' & Ho' & Hw' & Hcb & Hy & Ht' & Htk & Hres & Hpk & He & Hfr).
  assert (Task.current (Task.sched st') = Datatypes.S n mod 3)%nat as Hcur' by apply (TaskFacts.so_current _ _ _ (TaskFacts.ts_ok _ _ _ Ht')).
  destruct (next_turns n) as (Hc & Hc' & Hne & _). destruct (iv_threads _ _ Hi) as [Hlen _].
  assert (Datatypes.S (current s) mod 3 = Datatypes.S n mod 3)%nat as Hnext by (rewrite Hcur; apply (Nat.Div0.add_mod_idemp_r 1 n 3)).
  unfold yield. rewrite Hy. cbn [mbind outcome_bind]. set (fl := read_eflags (cpu (kernel s))) in *.
  assert (forall k th t2, Task.current (Task.sched (sched k)) = Datatypes.S n mod 3 -> queue k = queue (kernel s) ->
    th = <[(Datatypes.S n mod 3) := t2]> (<[(n mod 3) := parked fl]> (threads s)) ->
    match t' with Fresh => exists lb, t2 = DemoTask DClock lb 0 0 | _ => t2 = t' end -> switched s (mkSystem k th) (parked fl))%nat as Hsw.
  { intros k th t2 Hk1 Hk2 -> Hk4. assert (current (mkSystem k (<[(Datatypes.S n mod 3)%nat := t2]> (<[(n mod 3)%nat := parked fl]> (threads s))))
      = Datatypes.S n mod 3)%nat as Hk by exact Hk1. split; rewrite ?Hk; [done|done|]. exists t', t2. rewrite Hcur. split; [done|].
    split; [done|]. by destruct t' as [|[] ? ?|[] ? ? ?]. }
  unfold goes, current at 2. cbn [kernel sched]. rewrite Hcur'. rewrite Hcur in *.
  set (c := (n mod 3)%nat) in *. set (c' := (Datatypes.S n mod 3)%nat) in *.
  destruct (frame_keeps _ m' c Hc Hfr (iv_memory _ _ Hi)) as [Hsp Hkeep].
  assert (waits m' c (parked fl)) as Hwc by (eapply Hpw; [exact Hpk|done|cbn [SwitchFacts.s_esp SwitchFacts.saved_by]; lia..]).
  assert (thread_ok c (parked fl)) as Hoc by (apply Hpok; unfold fl; by rewrite read_eflags_if).
  assert (t' = Fresh \/ t' <> Fresh) as [->|Hnf] by (destruct t'; [by left|by right..]).
  - destruct Hcb as (top & -> & Hent & Htop). destruct (stack_bounds c' Hc') as (B1 & B2 & B3). cbn [thread_ok] in Ho'.
    rewrite (enter_fresh _ r' c' top Hres) by (lia || (cbn [kernel memory]; rewrite (Hkeep c'); [done|done|done|right; unfold on_stack; lia])).
    eexists. split; [reflexivity|]. split; [|eapply Hsw; [done..|by eexists]].
    apply (inv_switched tr s n); try done; [by apply (spared_trampoline c')|..].
    + eapply waits_agree; [exact Hwc|..]; intros; apply (off_trampoline c' c top); auto.
    + intros i Hi3 H1 H2. split; intros; (rewrite (off_trampoline c' i top) by auto); apply (Hkeep i); auto.
  - assert (SwitchFacts.s_eip P = ret code /\ if_of t' = Some false) as [Hret Hf'] by (by destruct t' as [|[] ? ?|[] ? ? ?]).
    assert (Task.eip r' = SwitchFacts.s_eip P) as Heip by (by rewrite <-Hres).
    unfold resume. rewrite Heip, Hret, Z.eqb_refl. eexists. split; [reflexivity|].
    rewrite <-(list_insert_id (<[c := parked fl]> (threads s)) c' t') by (by rewrite list_lookup_insert_ne).
    split; [|eapply Hsw; [done..|by destruct t']].
    apply (inv_switched tr s n); try done. intros i Hi3 H1 H2. split; intros; apply (Hkeep i); auto.
Qed.

(** *** One statement *)

(** A statement that changes at most the console log. *)
Lemma inv_says tr s t es : inv tr s -> thread_ok (current s) t -> if_of t = Some (if_flag (cpu (kernel s))) ->
  inv (tr ++ [Ran]) (goes s (print (kernel s) es) t).
Proof.
  intros Hi Ht Hf. destruct (Hi) as [[S1 S2 S3 S4] Hma Hq Hti Hun _ _ _ _ _].
  apply inv_moves; cbn [print]; rewrite ?same_hits by done; try done.
Qed.

Lemma goes_same tr s t : inv tr s -> thread_ok (current s) t -> if_of t = Some (if_flag (cpu (kernel s))) ->
  inv (tr ++ [Ran]) (goes s (kernel s) t).
Proof.
  intros Hi Ht Hf. pose proof (inv_says tr s t [] Hi Ht Hf) as Hs. unfold print in Hs.
  rewrite app_nil_r in Hs. destruct s as [[] ?]. exact Hs.
Qed.

(** A statement of the shell that drives the disk. *)
Lemma handle_ok tr s e line last ev : inv tr s -> ShellFacts.holds_line e line -> current s = 0%nat -> if_flag (cpu (kernel s)) = true ->
  exists b e' fl, handle_event (dev (kernel s), ata (kernel s)) (fs (kernel s)) e ev = Done (b, e', ShellFacts.respond line ev, fl) /\
    ShellFacts.holds_line e' (ShellFacts.edit line ev) /\
    inv (tr ++ [Ran]) (goes s (print {| (kernel s) with dev := b.1 |} (ShellFacts.respond line ev)) (ShellTask Pop e' last)).
Proof.
  intros Hi Hl Hc Hf. destruct (Hi) as [[S1 S2 S3 [S4 S5]] Hma Hq Hti Hun _ _ _ _ _]. destruct Hfs as [Hf1 Hf2].
  pose proof Hma as [Hidle Htm HM HS Hmo].
  destruct (ShellFacts.event_answered (H0 := settled_laws (chips (dev (kernel s))) running Hok) img Himg Hinst
    (dev (kernel s), ata (kernel s)) (fs (kernel s)) e line ev) as (b & e' & fl & He & Hb & Hl'); [congruence| |done|].
  { rewrite S5, Hf2. apply ready_settled. by split. }
  apply ready_dev in Hb as [Hi' Hc' Ht']. exists b, e', fl. split; [done|]. split; [done|].
  apply inv_moves; cbn [print dev TICKS ints memory sched cpu]; rewrite ?same_hits by done; try done.
  - split; [done|done|by rewrite Hc'..|]. intros s0. by rewrite Hc'.
  - rewrite Hc. cbn [thread_ok]. split; [done|]. split; [by eexists|done].
  - cbn [if_of]. by rewrite Hf.
Qed.

Lemma pop_ok tr s e last : inv tr s -> thread_ok 0 (ShellTask Pop e last) -> current s = 0%nat -> if_flag (cpu (kernel s)) = true ->
  exists f q, InputFacts.holds (value (queue (kernel s))) f /\ InputFacts.holds q (InputFacts.fifo_pop f).1 /\
    let k' := {| (kernel s) with queue := mkMutex false q |} in
    let t := match (InputFacts.fifo_pop f).2 with Some ev => ShellTask (Handle ev) e last | None => ShellTask Clock e last end in
    Input.pop (queue (kernel s)) (cpu (kernel s)) = Done (mkMutex false q, cpu (kernel s), (InputFacts.fifo_pop f).2) /\
    inv (tr ++ [Ran]) (goes s k' t).
Proof.
  intros Hi Ht Hc Hf. destruct (Hi) as [[S1 S2 S3 S4] Hma [Hlk [f Hq]] Hti Hun _ _ _ _ _].
  destruct (InputFacts.pop_sim _ _ Hq) as (q & Hp & Hq'). exists f, q. split; [done|]. split; [done|]. cbv zeta. split.
  - unfold Input.pop. rewrite (with_value _ _ _ _ _ Hp). by rewrite Hlk.
  - apply inv_moves; cbn; rewrite ?same_hits by done; try done.
    + split; [done|by exists (InputFacts.fifo_pop f).1].
    + rewrite Hc. by destruct (InputFacts.fifo_pop f).2.
    + rewrite Hf. by destruct (InputFacts.fifo_pop f).2.
Qed.

Lemma return_ok tr s fl t : inv tr s -> (if has_bits fl EFLAGS_IF then true else if_flag (cpu (kernel s))) = default true (if_of t) ->
  thread_ok (current s) t -> t <> Fresh ->
  inv (tr ++ [Ran]) (goes s {| (kernel s) with cpu := Task.yield_return fl (cpu (kernel s)) |} t).
Proof.
  intros Hi Hf Ht Hn. destruct (Hi) as [[S1 S2 S3 S4] Hma Hq Hti Hun _ _ _ _ _]. unfold Task.yield_return.
  apply inv_moves; cbn [dev queue TICKS ints memory sched cpu]; rewrite ?same_hits by done; try done.
  - split; try done. cbn. by destruct (has_bits fl _).
  - destruct (has_bits fl _); cbn; [|rewrite Hf]; by destruct t as [|[] ? ?|]; cbn in *; rewrite <-?Hf.
Qed.

Lemma inv_roles tr s : inv tr s -> roles s.
Proof.
  intros Hi i t Hi3 Ht. destruct (iv_threads _ _ Hi) as [_ Hth]. destruct (Hth i Hi3) as (t' & Ht' & Ho & _).
  rewrite Ht in Ht'. injection Ht' as <-. by destruct t as [|[] ? ?|[] ? ? ?]; try apply Ho.
Qed.

(** Its next statement is executed without panic, whatever the shell is at. *)
Lemma shell_ok tr s r at_ e last : inv tr s -> stack_ok code s r -> threads s !! current s = Some (ShellTask at_ e last) ->
  thread_ok (current s) (ShellTask at_ e last) -> if_of (ShellTask at_ e last) = Some (if_flag (cpu (kernel s))) ->
  exists s', shell_step p code s r at_ e last = Done s' /\ inv (tr ++ [Ran]) s' /\ advance s s'.
Proof.
  intros Hi Hr Hl (Hc & [line Hline] & Hfl) Hf. pose proof Hl as Hl0. rewrite Hc in Hl0.
  destruct at_ as [|ev| | | | |fl| |]; cbn [shell_step if_of] in *.
  - injection Hf as Hf. destruct (pop_ok tr s e last Hi) as (f & q & Hq & Hq' & -> & Hinv);
      [split; [done|]; split; [by exists line|done]|done..|]. cbn [mbind outcome_bind].
    eexists. split; [reflexivity|]. split; [by destruct (InputFacts.fifo_pop f).2|]. by apply (advance_pop s e last f q).
  - injection Hf as Hf. destruct (handle_ok tr s e line last ev Hi Hline Hc ltac:(done)) as (b & e' & fl & -> & Hl' & Hinv).
    eexists. split; [reflexivity|]. split; [done|]. apply (advance_shell s _ (Handle ev) e last); try done; [cbn; lia|].
    intros line2 f Hl2 Hq. exists (ShellFacts.edit line ev), f. rewrite (ShellFacts.holds_unique _ _ _ Hl2 Hline). done.
  - eexists. split; [reflexivity|]. split; [apply goes_same; [done| |]; destruct (last <? _); cbn [thread_ok if_of]; eauto 6|].
    destruct (last <? _); apply (advance_still s _ Clock e last); try done; intros; cbn; lia.
  - eexists. split; [reflexivity|]. split; [apply inv_says; cbn [thread_ok if_of]; eauto 6|].
    apply (advance_still s _ SayTick e last); try done; intros; cbn; lia.
  - eexists. split; [reflexivity|]. split; [apply inv_says; cbn [thread_ok if_of]; eauto 6|].
    apply (advance_still s _ SayTurns e last); try done; intros; cbn; lia.
  - injection Hf as Hf. destruct (yield_ok tr s r (fun fl => ShellTask (Switched fl) e last) (ShellTask Hlt e last)) as (s' & Hy & Hinv & Hsw);
      [done|done| | |].
    + intros fl Hfl'. cbn [thread_ok]. split; [done|]. split; [by exists line|]. by rewrite Hfl'.
    + intros m P fl H1 H2 H3 H4. by exists P.
    + exists s'. split; [done|]. split; [done|]. eapply advance_yield; [done|done|by eapply inv_roles|exact Hsw].
  - eexists. split; [reflexivity|]. split; [apply return_ok; cbn [thread_ok]; [done| |by eauto 6|done]; by rewrite Hfl|].
    apply (advance_still s _ (Switched fl) e last); try done; intros; cbn; lia.
  - eexists. split; [reflexivity|]. split; [apply goes_same; cbn [thread_ok if_of]; eauto 6|].
    apply (advance_still s _ Hlt e last); try done; intros; cbn; lia.
  - eexists. split; [reflexivity|]. split.
    + pose proof (goes_same tr s (ShellTask Halted e last) Hi) as Hg. unfold goes in Hg.
      rewrite list_insert_id in Hg by done. destruct s. apply Hg; cbn [thread_ok if_of]; eauto 6.
    + split; [right; unfold to_go; by rewrite Hl|]. intros at_ ln keys Hv. by exists at_, ln, keys.
Qed.

Lemma demo_task_ok tr s r at_ lb last cnt : inv tr s -> stack_ok code s r -> threads s !! current s = Some (DemoTask at_ lb last cnt) ->
  thread_ok (current s) (DemoTask at_ lb last cnt) -> if_flag (cpu (kernel s)) = false ->
  exists s', demo_step p code s r at_ lb last cnt = Done s' /\ inv (tr ++ [Ran]) s' /\ advance s s'.
Proof.
  intros Hi Hr Hl (Hc & Hlb & Hfl) Hf. pose proof (inv_current _ _ Hi) as Hc3. destruct at_ as [| | |fl]; cbn [demo_step] in *.
  - eexists. split; [reflexivity|]. split; [apply goes_same; [done| |]; destruct (last <? _); cbn [thread_ok if_of]; rewrite ?Hf; eauto|].
    destruct (last <? _); apply (advance_demo s _ DClock _ _ last cnt); try done; cbn; lia.
  - eexists. split; [reflexivity|]. split; [apply inv_says; cbn [thread_ok if_of]; rewrite ?Hf; eauto|].
    apply (advance_demo s _ DSay _ _ last cnt); try done; cbn; lia.
  - destruct (yield_ok tr s r (fun fl => DemoTask (DSwitched fl) lb last cnt) (DemoTask DClock lb last cnt)) as (s' & Hy & Hinv & Hsw);
      [done|done| | |].
    + intros fl Hfl'. cbn [thread_ok]. split; [done|]. split; [done|]. by rewrite Hfl'.
    + intros m P fl H1 H2 H3 H4. by exists P.
    + exists s'. split; [done|]. split; [done|]. eapply advance_demo_yield; [done|done|done|by eapply inv_roles|exact Hsw].
  - eexists. split; [reflexivity|]. split; [apply return_ok; cbn [thread_ok]; [done| |by eauto|done]; by rewrite Hfl|].
    apply (advance_demo s _ (DSwitched fl) _ _ last cnt); try done; cbn; lia.
Qed.

Lemma run_ok tr s r : inv tr s -> stack_ok code s r -> exists s', run p code s r = Done s' /\ inv (tr ++ [Ran]) s' /\ advance s s'.
Proof.
  intros Hi Hr. destruct (iv_if _ _ Hi) as (t & Hl & Hf). destruct (iv_threads _ _ Hi) as [_ Hth].
  destruct (Hth _ (inv_current _ _ Hi)) as (t' & Hl' & Ht & _). rewrite Hl in Hl'. injection Hl' as <-. clear Hth.
  unfold run. rewrite Hl. destruct t as [|at_ e last|at_ lb last cnt]; [done|by apply shell_ok|]. apply demo_task_ok; try done.
  by injection Hf.
Qed.

(** *** Interrupts, stack writes, the world *)

Lemma interrupt_ok tr s v d' c : inv tr s -> if_flag (cpu (kernel s)) = true -> raises (dev (kernel s)) v d' ->
  exists s', interrupt p (mkSystem {| (kernel s) with dev := d' |} (threads s)) v c = Done s' /\ inv (tr ++ [Interrupted v]) s'.
Proof.
  intros Hi Hf Hr. destruct (Hi) as [Hst Hma Hq Hti Hun _ _ _ [_ Hth] (t & Ht & Hft)].
  destruct (Hth _ (inv_current _ _ Hi)) as (t' & Ht' & Hto' & _). rewrite Ht in Ht'. injection Ht' as <-.
  destruct (interrupt_handled p (ck_handlers Hck) running 0xfc ltac:(by right; right) k0 gates_routed (kernel s) v d' c Hst Hma Hq Hr) as (k' & Hk & [Kst (Kcpu & Kmem & Ksch) Kma Kq Kti Kun _ _]).
  unfold interrupt. cbn [kernel threads]. rewrite Hk. cbn [mbind outcome_bind]. eexists. split; [reflexivity|].
  unfold current. cbn [kernel sched]. fold (current s).
  replace (alter wake (current s) (threads s)) with (<[current s := wake t]> (threads s)).
  2: { apply list_eq. intros i. rewrite list_lookup_alter. destruct (decide (current s = i)) as [<-|Hne].
       - rewrite Ht. apply list_lookup_insert_eq. by eapply lookup_lt_Some.
       - by apply list_lookup_insert_ne. }
  apply inv_moves; try done; cbn [cpu memory sched TICKS ints] in *.
  - by rewrite bump_hits, Kti, Hti.
  - by rewrite bump_hits, Kun, Hun.
  - destruct t as [|[] ? ?|]; exact Hto'.
  - rewrite Kcpu, <-Hft. by destruct t as [|[] ? ?|].
Qed.

Lemma step_ok tr s l o : inv tr s -> step p code s l o -> exists s', o = Done s' /\ inv (tr ++ [l]) s'.
Proof.
  intros Hi Hs. destruct Hs as [r Hr|v d' c Hf Hr|a w Ha|d' Hd].
  - destruct (run_ok tr s r Hi Hr) as (s' & Hs' & Hi' & _). by exists s'.
  - destruct (interrupt_ok tr s v d' c Hi Hf Hr) as (s' & He & Hi'). by exists s'.
  - eexists. split; [reflexivity|]. rewrite (same_ranges _ _ _ Hi) in Ha. pose proof (inv_current _ _ Hi) as Hc.
    destruct Hi as [[S1 S2 S3 S4] Hma Hq Hti Hun Htu Htb Hsp [Hl Hth] Hif']. split; cbn [kernel threads]; rewrite ?same_hits by done; try done.
    + apply (spared_write (memory (kernel s))); [done|]. intros x Hx _. apply load_store_ne. intros <-. by apply (Hx (current s)).
    + split; [done|]. intros i Hi. destruct (Hth i Hi) as (t & Ht & Ho & Hw). exists t. split; [done|]. split; [done|]. intros Hne.
      eapply waits_agree; [by apply Hw|..]; intros; apply load_store_ne; intros He.
      * apply (context_off_stack (current s) i); [done|unfold Task.MAX_TASKS; lia|]. rewrite <-He. exact Ha.
      * subst. apply Hne. by apply (stacks_apart i (current s) a0).
  - eexists. split; [reflexivity|]. destruct Hi as [[S1 S2 S3 S4] Hma Hq Hti Hun Htu Htb Hsp Hth Hif'].
    split; cbn [kernel threads]; rewrite ?same_hits by done; try done. cbn [dev].
    apply (listening_outside _ _ 0 0 (dev (kernel s))); [done|].
    destruct Hma as [_ _ (_ & _ & _ & HM) (_ & _ & _ & HS) _]. by rewrite HM, HS in Hd.
Qed.

Lemma reaches_inv tr0 s tr s' : inv tr0 s -> reaches p code s tr s' -> inv (tr0 ++ tr) s'.
Proof.
  intros Hi. induction 1 as [|tr s1 l s2 _ IH Hs]; [by rewrite app_nil_r|].
  destruct (step_ok _ s1 l _ IH Hs) as (s' & [= <-] & Hi'). by rewrite app_assoc.
Qed.

Lemma start_inv tr : serving 0 (dev k0) -> queue_ok k0 -> TICKS k0 = as_u32 (Z.of_nat (hits 32 tr)) ->
  Interrupts.unhandled_count (ints k0) = as_u32 (Z.of_nat (hits 39 tr)) -> inv tr (start k0).
Proof.
  intros Hd Hq Ht Hu. unfold start. split; cbn [kernel threads]; try done.
  - split; try done. by apply cpu_if_eta.
  - exists 0%nat. apply TaskFacts.turn_start; [unfold Task.MAX_TASKS; lia|apply Hto..].
  - assert (current (mkSystem k0 [ShellTask Pop Shell.new 0; Fresh; Fresh; Fresh]) = 0%nat) as ->
      by apply (TaskFacts.so_current _ _ _ (to_ready _ _ _ _ _ _ Hto)).
    split; [done|]. destruct ranges as (_ & R1 & R2). intros i Hi. destruct i as [|[|[|i]]]; [| | |lia]; eexists; (split; [reflexivity|]); cbn [thread_ok].
    + split; [|done]. split; [done|]. split; [|done]. exists []. apply ShellFacts.new_holds.
    + split; [done|]. intros _. cbn [waits]. unfold lo, hi. rewrite R1. split; [apply Hto|done].
    + split; [done|]. intros _. cbn [waits]. unfold lo, hi. rewrite R2. split; [apply Hto|done].
  - eexists. assert (current (mkSystem k0 [ShellTask Pop Shell.new 0; Fresh; Fresh; Fresh]) = 0%nat) as ->
      by apply (TaskFacts.so_current _ _ _ (to_ready _ _ _ _ _ _ Hto)). split; [reflexivity|]. cbn. by rewrite Hif.
Qed.

Lemma some_regs tr s : inv tr s -> exists r, stack_ok code s r.
Proof.
  intros Hi. exists (Task.mkRegs 0 0 0 0 0 0 0 (hi (current s)) 0). unfold stack_ok. rewrite (same_ranges _ _ _ Hi).
  pose proof (stack_bounds _ (inv_current _ _ Hi)). cbn. lia.
Qed.

(** *** Running undisturbed *)

Lemma runs_ok n tr s s' : inv tr s -> runs n s s' ->
  (exists tr', inv tr' s') /\ (to_go s' <= to_go s - n)%nat /\
  forall at_ line keys, shell_view s at_ line keys -> exists at' line' keys', shell_view s' at' line' keys' /\
    fold_left ShellFacts.edit (due at' keys') line' = fold_left ShellFacts.edit (due at_ keys) line /\ later at' keys' = later at_ keys.
Proof.
  intros Hi Hr. revert tr Hi. induction Hr as [s|n s r s1 s' Hst Hrun _ IH]; intros tr Hi.
  - split_and!; [by exists tr|lia|]. intros at_ line keys Hv. by exists at_, line, keys.
  - destruct (run_ok tr s r Hi Hst) as (s2 & Hrun' & Hi2 & Had). rewrite Hrun in Hrun'. injection Hrun' as <-.
    destruct (IH _ Hi2) as (He & Hle & Hview). split_and!; [done| |].
    + destruct (ad_less _ _ Had) as [Hlt|[Hz ->]]; lia.
    + intros at_ line keys Hv. destruct (ad_view _ _ Had _ _ _ Hv) as (at1 & l1 & k1 & Hv1 & Hd1 & Hl1).
      destruct (Hview _ _ _ Hv1) as (at2 & l2 & k2 & Hv2 & Hd2 & Hl2). exists at2, l2, k2. split; [done|]. split; congruence.
Qed.

Lemma runs_exist n tr s : inv tr s -> exists s', runs n s s'.
Proof.
  revert tr s. induction n as [|n IH]; intros tr s Hi; [exists s; constructor|].
  destruct (some_regs tr s Hi) as [r Hr]. destruct (run_ok tr s r Hi Hr) as (s1 & Hrun & Hi1 & _).
  destruct (IH _ _ Hi1) as (s' & Hs'). exists s'. by econstructor.
Qed.

(** Far enough on, the shell has halted. *)
Lemma idle_halted tr s at_ line keys : inv tr s -> to_go s = 0%nat -> shell_view s at_ line keys -> current s = 0%nat /\ at_ = Halted.
Proof.
  intros Hi Hz [(e & last & Ht & _) _]. pose proof (inv_roles _ _ Hi) as Hro. pose proof (inv_current _ _ Hi) as Hc.
  destruct (iv_if _ _ Hi) as (t & Hl & Hf). specialize (Hro _ _ Hc Hl). unfold to_go in Hz. rewrite Hl in Hz.
  destruct t as [|at2 e2 l2|at2 ? ? ?]; [done| |destruct at2; cbn in Hz; lia]. split; [done|].
  rewrite Hro, Ht in Hl. injection Hl as <- <- <-. destruct at_; cbn in Hz; done || lia.
Qed.

Lemma to_go_bound tr s : inv tr s -> (to_go s <= 144)%nat.
Proof.
  intros Hi. destruct (iv_queue _ _ Hi) as [_ [f Hf]]. pose proof (InputFacts.h_len _ _ Hf) as Hb. change CAPACITY with 64%nat in Hb.
  unfold to_go. destruct (threads s !! current s) as [[|[] ? ?|[] ? ? ?]|]; cbn [shell_to_go demo_to_go];
    try lia; destruct (current s =? 1)%nat; lia.
Qed.

Lemma inv_view tr s : inv tr s -> exists at_ line keys, shell_view s at_ line keys.
Proof.
  intros Hi. destruct (iv_threads _ _ Hi) as [_ Hth]. destruct (Hth 0%nat ltac:(lia)) as (t & Ht & Ho & _).
  destruct (iv_queue _ _ Hi) as [_ [f Hf]]. destruct t as [|at_ e last|]; [done| |by destruct Ho]. destruct Ho as (_ & [line Hl] & _).
  exists at_, line, (InputFacts.waiting f). split; [by exists e, last|by exists f].
Qed.

Lemma goes_idle tr s s' at_ line keys : inv tr s -> runs 144 s s' -> shell_view s at_ line keys ->
  current s' = 0%nat /\ (exists tr', inv tr' s') /\
  shell_view s' Halted (fold_left ShellFacts.edit (due at_ keys) line) (later at_ keys).
Proof.
  intros Hi Hrs Hv. destruct (runs_ok 144 tr s s' Hi Hrs) as ((tr' & Hi') & Hle & Hview).
  destruct (Hview _ _ _ Hv) as (at' & line' & keys' & Hv' & <- & <-). pose proof (to_go_bound _ _ Hi).
  destruct (idle_halted _ _ _ _ _ Hi' ltac:(lia) Hv') as [Hc ->]. split; [done|]. split; [by exists tr'|exact Hv'].
Qed.

End running.

(** ** Every reachable state *)

(** A kernel that goes on after the steps [tr]. *)
Record alive (map : Map.MemoryMap) (tr : list label) (s : S) : Prop := {
  al_flag : exists t, threads s !! current s = Some t /\ if_of t = Some (if_flag (cpu (kernel s)));
  al_memory : exists ts, memory_up p map (kernel s) ts (memory (kernel s));
  al_machine : serving 0 (dev (kernel s));
  al_queue : locked (queue (kernel s)) = false /\
    exists f, InputFacts.holds (value (queue (kernel s))) f /\ (length (InputFacts.waiting f) <= CAPACITY)%nat;
  al_ticks : Pit.ticks (TICKS (kernel s)) = as_u32 (Z.of_nat (hits 32 tr));
  al_unhandled : Interrupts.unhandled_count (ints (kernel s)) = as_u32 (Z.of_nat (hits 39 tr));
  al_turns : exists n, current s = (n mod 3)%nat /\
    forall i, (i < 3)%nat -> Task.turns (sched (kernel s)) i = as_u32 (Z.of_nat (TaskFacts.turns_after 3 n i));
  al_parked : forall i, (i < 3)%nat -> i <> current s -> exists P, SwitchFacts.parked (memory (kernel s)) (context_of p i) P /\
    (SwitchFacts.s_eip P = ret code \/ SwitchFacts.s_eip P = task_trampoline p);
  al_files : GoatFsSpec.shipped_fs (fs (kernel s)) /\ present (ata (kernel s)) = true
}.

Lemma static_memory map (k0 k : K) ts m : HandlerFacts.static k0 k -> memory_up p map k0 ts m -> memory_up p map k ts m.
Proof.
  intros [S1 S2 [S3 S4] S5] [M1 M2 M3 M4 M5]. assert (cr3 (cpu k) = cr3 (cpu k0)) as Hc by (by rewrite <-S1).
  split; by rewrite ?Hc, ?S3, ?S4.
Qed.

Lemma inv_alive k0 map ts pa pb tr s : program_ok p -> tasks_ok p (sched k0) (memory k0) ts pa pb ->
  (forall m, spared p ts (memory k0) m -> memory_up p map k0 ts m) -> GoatFsSpec.shipped_fs (fs k0) /\ ata k0 = mkAta true ->
  inv k0 ts tr s -> alive map tr s.
Proof.
  intros Hp Hto Hst [Hf1 Hf2] Hi. pose proof Hi as [Hsc Hma [Hlk [f Hq]] Hti Hun [n Ht] _ Hsp [_ Hth] Hif].
  pose proof (sc_files _ _ Hsc) as [F1 F2]. split; try done.
  - exists ts. by eapply static_memory; [|apply Hst].
  - split; [done|]. exists f. split; [done|]. rewrite (InputFacts.holds_length _ _ Hq). apply Hq.
  - exists n. split; [apply (TaskFacts.so_current _ _ _ (TaskFacts.ts_ok _ _ _ Ht))|]. intros i Hi3. unfold Task.turns.
    destruct (Nat.leb_spec Task.MAX_TASKS i); [unfold Task.MAX_TASKS in *; lia|]. by rewrite (TaskFacts.ts_turns _ _ _ Ht i Hi3).
  - intros i Hi3 Hne. destruct (Hth i Hi3) as (t & _ & _ & Hw).
    destruct (waits_parked k0 _ i t (Hw Hne)) as (P & HP & _ & _ & Hcb).
    exists P. split; [done|]. destruct t; [right; by destruct Hcb as (? & -> & _)|by left..].
  - split; [congruence|]. by rewrite F2, Hf2.
Qed.

(** What [kernel_main] leaves, as the induction needs it. *)
Record base_state (map : Map.MemoryMap) (tr : list label) (bs : list Z) (k : K) (ts : list Tiles.tile) (pa pb : Z) : Prop := {
  bs_tasks : tasks_ok p (sched k) (memory k) ts pa pb;
  bs_memory : forall m, spared p ts (memory k) m -> memory_up p map k ts m;
  bs_vectors : forall v, 0 <= v < 256 -> Hw.gate_target (idt k !!! Z.to_nat v) =
    if v =? 32 then Hw.ToOffset Tss.KERNEL_CODE_SELECTOR (timer_interrupt p)
    else if v =? 33 then Hw.ToOffset Tss.KERNEL_CODE_SELECTOR (keyboard_interrupt p)
    else InterruptFacts.expected (entries p) v;
  bs_files : GoatFsSpec.shipped_fs (fs k) /\ ata k = mkAta true;
  bs_flag : if_flag (cpu k) = true;
  bs_start : inv k ts tr (start k);
  bs_ready : ready p map tr bs k ts pa pb
}.

Lemma main_boots (k : K) map img : program_ok p -> loaded k -> Map.load (memory k) = map -> memory_ok (kernel_image p) (guard_page p) map ->
  disk_ok disk -> Packer.pack Packer.FILES = Some img -> GoatFsFacts.installed disk img ->
  exists k', kernel_main p k = Done k' /\ boots p k [] [] Prompted k'.
Proof.
  intros Hp Hk Hmap Hmem Hok Himg Hinst. destruct (kernel_main_up p k map img Hp Hk Hmap Hmem Hok Himg Hinst) as (k' & Hrun & _).
  exists k'. split; [done|by apply boots_main].
Qed.

Lemma booted (k : K) map img tr bs k' : program_ok p -> code_ok -> loaded k ->
  Map.load (memory k) = map -> memory_ok (kernel_image p) (guard_page p) map ->
  disk_ok disk -> Packer.pack Packer.FILES = Some img -> GoatFsFacts.installed disk img -> (forall x, isr (chips (dev k) x) = 0) ->
  boots p k tr bs Prompted k' -> exists ts pa pb, base_state map tr bs k' ts pa pb.
Proof.
  intros Hp Hck Hk Hmap Hmem Hok Himg Hinst Hisr Hbt.
  destruct (boots_ready p Hp (ck_handlers Hck) Hok img Himg Hinst k map Hk Hmap Hmem Hisr _ _ _ _ Hbt) as (_ & _ & Hrd).
  destruct (Hrd eq_refl) as (ts & pa & pb & Hr). pose proof Hr as [Hto Hsteady Hvec Hfs Hif Hma [Hlk Hq] _ [Hti Hun] _].
  exists ts, pa, pb. split; try done. eapply start_inv; try done. split; [done|by eexists].
Qed.

Lemma booted_inv map tr0 bs k ts pa pb img tr s : code_ok -> program_ok p -> disk_ok disk -> Packer.pack Packer.FILES = Some img ->
  GoatFsFacts.installed disk img -> base_state map tr0 bs k ts pa pb -> reaches p code (start k) tr s -> inv k ts (tr0 ++ tr) s.
Proof. intros Hck Hp Hok Himg Hinst [Hto Hsteady Hvec Hfs Hif Hi _] Hr. by eapply reaches_inv. Qed.

(** C5: The kernel keeps running. With nothing left in service by the BIOS, boot
    it as above. Interrupts may come between any of the stages after the [sti]:
    each is handled, and the rest of [kernel_main] gets to the prompt. From
    there take any finite interleaving of statements of the three tasks, context
    switches with any register contents, timer, keyboard and spurious interrupts
    with any bytes at the keyboard, and writes of the running task to its own
    stack. No step of it panics, halts or jumps anywhere but to where a task left
    off. In every state on the way interrupts are on exactly while the shell
    runs, nothing stays in service at the controllers and only IRQ0 and IRQ1 are
    open, mapping, heap and frame pool are intact, at most 64 keys wait, ticks
    and unhandled interrupts are counted, turn counts are those of a round robin,
    and the waiting tasks are parked where they left off; and the running task
    always has a next statement. *)
Theorem kernel_runs (k : K) (map : Map.MemoryMap) (img : list Z) : program_ok p -> code_ok -> loaded k ->
  Map.load (memory k) = map -> memory_ok (kernel_image p) (guard_page p) map ->
  disk_ok disk -> Packer.pack Packer.FILES = Some img -> GoatFsFacts.installed disk img ->
  (forall x, isr (chips (dev k) x) = 0) ->
  (exists k', kernel_main p k = Done k' /\ boots p k [] [] Prompted k') /\
  forall tr0 bs st k', boots p k tr0 bs st k' ->
    (exists k2, stages p 5 st k' = Done k2 /\ boots p k tr0 bs Prompted k2) /\
    (forall v d' c, raises (dev k') v d' -> exists k2, take_vector p {| k' with dev := d' |} v None c = Done (k2, Resume)) /\
    (st = Prompted -> forall tr s, reaches p code (start k') tr s -> alive map (tr0 ++ tr) s /\
      (forall l o, step p code s l o -> exists s', o = Done s') /\ (exists s', step p code s Ran (Done s'))).
Proof.
  intros Hp Hck Hk Hmap Hmem Hok Himg Hinst Hisr. split; [by eapply main_boots|].
  intros tr0 bs st k' Hbt.
  destruct (boots_ready p Hp (ck_handlers Hck) Hok img Himg Hinst k map Hk Hmap Hmem Hisr _ _ _ _ Hbt) as (Hgo & Hint & _).
  split; [exact Hgo|]. split; [exact Hint|]. intros -> tr s Hr.
  destruct (booted k map img _ _ k' Hp Hck Hk Hmap Hmem Hok Himg Hinst Hisr Hbt) as (ts & pa & pb & Hb).
  assert (inv k' ts (tr0 ++ tr) s) as Hi by (by eapply booted_inv).
  destruct Hb as [Hto Hsteady Hvec Hfs Hif _ _].
  assert (forall l o, step p code s l o -> exists s', o = Done s') as Hstep.
  { intros l o Hs. assert (exists s', o = Done s' /\ inv k' ts ((tr0 ++ tr) ++ [l]) s') as (s' & Ho & _) by (by eapply step_ok). by exists s'. }
  split_and!; [by eapply inv_alive|exact Hstep|].
  assert (exists r, stack_ok code s r) as [r Hrr] by (by eapply some_regs).
  destruct (Hstep Ran _ (step_run p code s r Hrr)) as (s' & Hs'). exists s'. rewrite <-Hs'. by constructor.
Qed.

(** C6: Left alone, the kernel goes idle, and nothing typed is lost. However it
    booted, from any reachable state at least 144 statements can be executed;
    however they are, without an interrupt in between, after them the shell has
    halted. The keys that were waiting while it was draining the queue have all
    gone through the line editor, in order; those that came later are still in
    the queue. *)
Theorem kernel_goes_idle (k : K) (map : Map.MemoryMap) (img : list Z) : program_ok p -> code_ok -> loaded k ->
  Map.load (memory k) = map -> memory_ok (kernel_image p) (guard_page p) map ->
  disk_ok disk -> Packer.pack Packer.FILES = Some img -> GoatFsFacts.installed disk img ->
  (forall x, isr (chips (dev k) x) = 0) ->
  (exists k', kernel_main p k = Done k' /\ boots p k [] [] Prompted k') /\
  forall tr0 bs k', boots p k tr0 bs Prompted k' -> forall tr s, reaches p code (start k') tr s ->
    (exists at_ line keys, shell_view s at_ line keys) /\ (exists s', runs 144 s s') /\
    forall s' at_ line keys, runs 144 s s' -> shell_view s at_ line keys ->
      current s' = 0%nat /\ shell_view s' Halted (fold_left ShellFacts.edit (due at_ keys) line) (later at_ keys).
Proof.
  intros Hp Hck Hk Hmap Hmem Hok Himg Hinst Hisr. split; [by eapply main_boots|].
  intros tr0 bs k' Hbt tr s Hr.
  destruct (booted k map img _ _ k' Hp Hck Hk Hmap Hmem Hok Himg Hinst Hisr Hbt) as (ts & pa & pb & Hb).
  assert (inv k' ts (tr0 ++ tr) s) as Hi by (by eapply booted_inv).
  destruct Hb as [Hto Hsteady Hvec Hfs Hif _ _]. split_and!.
  - by eapply inv_view.
  - by eapply runs_exist.
  - intros s' at_ line keys Hrs Hv.
    assert (current s' = 0%nat /\ (exists tr', inv k' ts tr' s') /\
      shell_view s' Halted (fold_left ShellFacts.edit (due at_ keys) line) (later at_ keys)) as (Hc & _ & Hv') by (by eapply goes_idle).
    done.
Qed.

End system.

(** ** On the concrete machine *)

Definition demo_code : Code := {| boot_stack := (0x41000, 0x45000); ret := 0x12000; park := 0x12100 |}.

Lemma demo_handlers_ok : DeliverFacts.handlers_ok demo_program.
Proof.
  split.
  - by apply (bool_decide_unpack _).
  - intros v. pose proof (Z.mod_pos_bound v 256 ltac:(lia)). unfold DeliverFacts.named. rewrite !not_elem_of_cons. cbn.
    split_and!; [lia..|apply not_elem_of_nil].
  - done.
Qed.

Lemma demo_code_ok : code_ok demo_program demo_code.
Proof.
  split; try (cbn; lia).
  - exact demo_handlers_ok.
  - intros i Hi. unfold Task.MAX_TASKS in Hi. cbn. lia.
Qed.

(** Line [i] of the master is acknowledged, with [w] in the keyboard's buffer. *)
Definition pc_irq {disk} (i : Z) (w : Kbd8042.Wire) (d : PC disk) : PC disk :=
  let b := p_board d in
  mkPC (mkBoard (timer b) (mkPair {| (m_chip (pair b)) with isr := Z.setbit (isr (m_chip (pair b))) i |} (s_chip (pair b)))) w (p_drive d).

Lemma pc_irq_raises disk i w (d : PC disk) : serving 0 d -> i = 0 \/ i = 1 -> raises d (32 + i) (pc_irq i w d).
Proof.
  intros [_ _ (_ & Hb & Him & His) (_ & _ & _ & Hss)] Hi. replace 32 with (base (chips d Master)) by (rewrite Hb; done).
  apply raises_line; [by destruct Hi as [->| ->]| |].
  - split; [lia|]. rewrite Him, His. split; [by destruct Hi as [->| ->]|]. intros j _. apply Z.bits_0.
  - split; [|by split]. split; [done|done|]. by intros [].
Qed.

Lemma start_flag {D} (k : Kernel D) t : threads (start k) !! current (start k) = Some t ->
  if_of t = Some (if_flag (cpu (kernel (start k)))) -> if_flag (cpu k) = true.
Proof.
  unfold start. cbn [threads kernel]. destruct (current _) as [|[|[|[|i]]]]; cbn; intros Ht Hf; try discriminate;
    injection Ht as <-; cbn in Hf; congruence.
Qed.

Lemma kernel_runs_witness :
  exists k' s, kernel_main demo_program demo_kernel = Done k' /\
    reaches demo_program demo_code (start k') [Interrupted 32] s /\ Pit.ticks (TICKS (kernel s)) = 1.
Proof.
  destruct (kernel_runs demo_program demo_code demo_kernel demo_map GoatFsSpec.shipped demo_program_ok demo_code_ok demo_loaded
    eq_refl demo_memory_ok GoatFsSpec.shipped_disk_ok demo_packed GoatFsSpec.shipped_installed ltac:(by intros [])) as [(k' & Hrun & Hbt) Hboot].
  destruct (Hboot _ _ _ _ Hbt) as (_ & _ & Hall). specialize (Hall eq_refl). cbn [app] in Hall.
  destruct (Hall [] (start k') (reaches_refl _ _ _)) as ([(t & Ht & Hf) _ Hma _ _ _ _ _ _] & Hstep & _).
  pose proof (start_flag k' t Ht Hf) as Hif.
  pose proof (step_interrupt demo_program demo_code (start k') 32 (pc_irq 0 [] (dev k'))
    (mkCtx (Idt.mkFrame 0 8 0) 0 0 0) Hif (pc_irq_raises _ 0 [] _ Hma ltac:(by left))) as Hs.
  destruct (Hstep _ _ Hs) as (s & Hd). rewrite Hd in Hs.
  pose proof (reaches_step _ _ (start k') [] _ _ _ (reaches_refl _ _ _) Hs) as Hr. cbn [app] in Hr.
  exists k', s. split; [exact Hrun|]. split; [exact Hr|].
  destruct (Hall _ _ Hr) as ([_ _ _ _ Hti _ _ _ _] & _). exact Hti.
Defined.

Lemma kernel_goes_idle_witness :
  exists k' s, kernel_main demo_program demo_kernel = Done k' /\ runs demo_program demo_code 144 (start k') s /\
    current s = 0%nat /\ exists line keys, shell_view s Halted line keys.
Proof.
  destruct (kernel_goes_idle demo_program demo_code demo_kernel demo_map GoatFsSpec.shipped demo_program_ok demo_code_ok demo_loaded
    eq_refl demo_memory_ok GoatFsSpec.shipped_disk_ok demo_packed GoatFsSpec.shipped_installed ltac:(by intros [])) as [(k' & Hrun & Hbt) Hboot].
  destruct (Hboot _ _ _ Hbt [] (start k') (reaches_refl _ _ _)) as ((at_ & line & keys & Hv) & (s & Hs) & Hidle).
  exists k', s. split; [exact Hrun|]. split; [exact Hs|]. destruct (Hidle s at_ line keys Hs Hv) as [Hc Hv'].
  split; [exact Hc|]. eexists _, _. exact Hv'.
Defined.

End SystemFacts.
