(* ===== verification/SessionFacts.v ===== *)
(** * The running kernel is a terminal

    Every run of [System] tells the story of [Session]: nothing typed is lost
    but for a full queue, nothing is replied to twice or out of order, and
    nothing else is printed. *)

From S2P Require Import Prelude.
From S2P Require Import Fmt.
From S2P Require Import MemMap.
From S2P Require Import Heap.
From S2P Require Import HeapTiles.
From S2P Require Import HeapFacts.
From S2P Require Import HeapFrame.
From S2P Require Import Machine.
From S2P Require Import Descriptors.
From S2P Require Import DescriptorFacts.
From S2P Require Import Pic.
From S2P Require Import Interrupts.
From S2P Require Import InterruptFacts.
From S2P Require Import Sync.
From S2P Require Import Input.
From S2P Require Import Keyboard.
From S2P Require Import KeyboardFacts.
From S2P Require Import Task.
From S2P Require Import TaskFacts.
From S2P Require Import SwitchFacts.
From S2P Require Import Ata.
From S2P Require Import AtaFacts.
From S2P Require Import GoatFs.
From S2P Require Import GoatFsFacts.
From S2P Require Import GoatFsSpec.
From S2P Require Import Shell.
From S2P Require Import ShellFacts.
From S2P Require Import Pit.
From S2P Require Import Boot.
From S2P Require Import BootMachine.
From S2P Require Import BootMemory.
From S2P Require Import BootFacts.
From S2P Require Import Deliver.
From S2P Require Import System.
From S2P Require Import SystemProgress.
From S2P Require Import Session.
From S2P Require Import HandlerFacts.
From S2P Require Import Booting.
From S2P Require Import BootingFacts.
From S2P Require Import SystemFacts.
#[local] Open Scope Z_scope.

Module SessionFacts.
Import Machine Sync Input InputFacts Ata AtaDrive AtaFacts PicHw Pit8254 BootMachine BootMemory BootFacts Shell Boot Deliver System
  SystemProgress Session HandlerFacts Booting BootingFacts SystemFacts.
#[local] Existing Instance Idt.Gate_inhabited.

Section session.
Context {D : Type} `{PortIO D} `{WordIO D} {disk : Z -> list Z}.
Context `{!PicDevice D} `{!PitDevice D} `{!AtaDevice D disk} `{!BootMachine D disk}.
Context (p : Program) (code : Code).

Abbreviation K := (Kernel D).
Abbreviation S := (System D).

(** ** Steps that neither take nor handle a key *)

Record quiet (s s' : S) : Prop := {
  qu_log : exists es, log (kernel s') = log (kernel s) ++ es /\ (es = [] \/ status es);
  qu_input : queue (kernel s') = queue (kernel s) /\ kbd (kernel s') = kbd (kernel s);
  qu_shell : forall at_ e last, threads s !! 0%nat = Some (ShellTask at_ e last) ->
    exists at' last', threads s' !! 0%nat = Some (ShellTask at' e last') /\ in_hand at' = in_hand at_
}.

Lemma status_item start bs (s : S) items f (lg : list effect) es : tells start bs s items f -> lg = log (kernel s) ++ es ->
  es = [] \/ status es -> exists items', keys items' = keys items /\ lg = start ++ render [] items' /\ Forall noted items'.
Proof.
  intros [-> Hn _ _ _ _ _] -> [->|Hes]; [exists items; by rewrite app_nil_r|]. exists (items ++ [Note es]).
  rewrite keys_app, render_app, app_assoc. cbn. rewrite !app_nil_r. split_and!; [done..|]. apply Forall_app. by split; [|constructor].
Qed.

(** All keys that were not turned away. *)
Definition accepted (s : S) (items : list item) (f : fifo) : list KeyEvent := keys items ++ taken s ++ waiting f.

Lemma quiet_tells start bs s s' items f : tells start bs s items f -> quiet s s' ->
  exists items', tells start bs s' items' f /\ accepted s' items' f = accepted s items f.
Proof.
  intros Ht [(es & Hlog & Hes) [Hq Hk] Hsh]. destruct (status_item _ _ _ _ _ _ _ Ht Hlog Hes) as (items' & Hks & Hl & Hn).
  destruct Ht as [_ _ (at_ & e & last & Hth & Hline) Hqu Hm Hkept Hlost]. destruct (Hsh _ _ _ Hth) as (at' & last' & Hth' & Hhand).
  assert (taken s' = taken s) as Htk by (unfold taken; by rewrite Hth, Hth'). exists items'.
  split; [|unfold accepted; by rewrite Hks, Htk]. split; rewrite ?Hq, ?Hk, ?Hks, ?Htk; try done. exists at', e, last'. done.
Qed.

Section running.
Context (Hck : code_ok p code) (Hpo : program_ok p).
Context (Hok : disk_ok disk) (img : list Z).
Context (Himg : GoatFs.Packer.pack GoatFs.Packer.FILES = Some img) (Hinst : GoatFsFacts.installed disk img).
Context (map : MemMap.Map.MemoryMap) (tr0 : list label) (bs0 : list Z) (k0 : K) (ts : list HeapTiles.Tiles.tile) (pa pb : Z).
Context (Hb : base_state p code map tr0 bs0 k0 ts pa pb).

Abbreviation inv := (inv p code k0 ts).

Lemma steps_inv tr s l s' : inv tr s -> step p code s l (Done s') -> inv (tr ++ [l]) s'.
Proof.
  intros Hi Hs. destruct Hb as [Hto Hsteady Hvec Hfs Hif _ _].
  assert (exists s2, Done s' = Done s2 /\ inv (tr ++ [l]) s2) as (s2 & [= <-] & Hi') by (by eapply step_ok). done.
Qed.

Lemma shell_thread tr s t : inv tr s -> threads s !! 0%nat = Some t -> exists at_ e last, t = ShellTask at_ e last.
Proof.
  intros Hi Ht. destruct (iv_threads _ _ _ _ _ _ Hi) as [_ Hth]. destruct (Hth 0%nat ltac:(lia)) as (t' & Ht' & Ho & _).
  rewrite Ht in Ht'. injection Ht' as <-. destruct t as [|at_ e last|]; [done|by eexists _, _, _|by destruct Ho].
Qed.

(** The statement of the running thread replaces that thread. *)
Lemma quiet_goes (s : S) k t es : log k = log (kernel s) ++ es -> es = [] \/ status es -> queue k = queue (kernel s) ->
  kbd k = kbd (kernel s) ->
  (forall at_ e last, threads s !! 0%nat = Some (ShellTask at_ e last) -> current s = 0%nat ->
     exists at' last', t = ShellTask at' e last' /\ in_hand at' = in_hand at_) -> quiet s (goes s k t).
Proof.
  intros Hl Hes Hq Hk Ht. split; [by exists es|done|]. intros at_ e last Hth. unfold goes. cbn [threads].
  destruct (decide (current s = 0%nat)) as [Hc|Hc].
  - destruct (Ht _ _ _ Hth Hc) as (at' & last' & -> & Hh). exists at', last'. split; [|done]. rewrite Hc.
    apply list_lookup_insert_eq. by eapply lookup_lt_Some.
  - exists at_, last. split; [|done]. by rewrite list_lookup_insert_ne.
Qed.

(** Switching tasks is silent; the shell is where it was, or parked. *)
Lemma quiet_yield tr' s r parked alone s' : inv tr' s' -> yield p code s r parked alone = Done s' ->
  (forall at_ e last, threads s !! 0%nat = Some (ShellTask at_ e last) -> current s = 0%nat -> in_hand at_ = [] /\
     (exists at' last', alone = ShellTask at' e last' /\ in_hand at' = []) /\
     forall fl, exists at' last', parked fl = ShellTask at' e last' /\ in_hand at' = []) -> quiet s s'.
Proof.
  intros Hi Hy Hpa. unfold yield in Hy.
  destruct (Task.yield_now _ _ _ _ _ _) as [[[[[st c] r'] m] [fl|]]| |]; try discriminate; cbn [mbind outcome_bind] in Hy.
  2: { injection Hy as <-. apply (quiet_goes s _ alone []); try done; [cbn; by rewrite app_nil_r|by left|].
       intros at_ e last Hth Hc. destruct (Hpa _ _ _ Hth Hc) as (-> & Ha & _). exact Ha. }
  set (k := {| (kernel s) with sched := st; cpu := c; memory := m |}) in *. set (s1 := goes s k (parked fl)) in *.
  assert (quiet s s1) as [Hlog Hin Hsh].
  { apply (quiet_goes s _ _ []); try done; [cbn; by rewrite app_nil_r|by left|].
    intros at_ e last Hth Hc. destruct (Hpa _ _ _ Hth Hc) as (-> & _ & Hp). apply Hp. }
  assert (log (kernel s') = log (kernel s1) /\ queue (kernel s') = queue (kernel s1) /\ kbd (kernel s') = kbd (kernel s1) /\
    (threads s' = threads s1 \/ exists i lb, threads s' = <[i := DemoTask DClock lb 0 0]> (threads s1))) as (El & Eq & Ek & Eth).
  { unfold resume in Hy. repeat case_match; try discriminate; injection Hy as <-; cbn [kernel threads log queue kbd]; eauto 10. }
  split; rewrite ?El, ?Eq, ?Ek; [done|done|]. intros at_ e last Hth. destruct (Hsh _ _ _ Hth) as (at' & last' & Hth1 & Hh).
  destruct Eth as [->|(i & lb & Eth)]; [by exists at', last'|]. destruct (decide (i = 0%nat)) as [->|Hne].
  - exfalso. assert (threads s' !! 0%nat = Some (DemoTask DClock lb 0 0)) as Hd
      by (rewrite Eth; apply list_lookup_insert_eq; by eapply lookup_lt_Some).
    by destruct (shell_thread _ _ _ Hi Hd) as (? & ? & ? & ?).
  - exists at', last'. split; [|done]. by rewrite Eth, list_lookup_insert_ne.
Qed.

(** ** One statement *)

(** What a statement does to the keys: none is forgotten. *)
Definition keeps start bs (s : S) items f (s' : S) : Prop :=
  exists items' f', tells start bs s' items' f' /\ lost f' = lost f /\ accepted s' items' f' = accepted s items f.

Lemma goes_here (s : S) k t t0 : current s = 0%nat -> threads s !! 0%nat = Some t0 -> threads (goes s k t) !! 0%nat = Some t.
Proof. intros Hc Ht. unfold goes. cbn [threads]. rewrite Hc. apply list_lookup_insert_eq. by eapply lookup_lt_Some. Qed.

Lemma quiet_keeps start bs (s s' : S) items f : tells start bs s items f -> quiet s s' -> keeps start bs s items f s'.
Proof. intros Ht Hq. destruct (quiet_tells _ _ _ _ _ _ Ht Hq) as (items' & H2 & H3). by exists items', f. Qed.

(** The shell takes the next key. *)
Lemma pop_tells start bs (s : S) items f e last q : tells start bs s items f -> current s = 0%nat ->
  threads s !! 0%nat = Some (ShellTask Pop e last) -> holds q (fifo_pop f).1 ->
  keeps start bs s items f (goes s {| (kernel s) with queue := mkMutex false q |}
    (match (fifo_pop f).2 with Some ev => ShellTask (Handle ev) e last | None => ShellTask Clock e last end)).
Proof.
  intros [Hl Hn (a2 & e2 & l2 & Hth2 & Hln) Hq Hm Hk Hlo] Hc Hth Hq'. rewrite Hth in Hth2. injection Hth2 as <- <- <-.
  exists items, (fifo_pop f).1. unfold accepted, taken in *. rewrite Hth in *. cbn [in_hand app] in *.
  unfold fifo_pop in *. destruct (waiting f) as [|ev es] eqn:Hw; cbn [fst snd waiting lost] in *; rewrite (goes_here s _ _ _ Hc Hth);
    cbn [in_hand app]; rewrite ?Hw; (split; [|done]); (split; try done; [by eexists _, _, _; rewrite (goes_here s _ _ _ Hc Hth)|..]);
    unfold taken; rewrite (goes_here s _ _ _ Hc Hth); cbn [in_hand app]; by rewrite ?Hw.
Qed.

(** The shell replies to the key in hand. *)
Lemma handle_tells start bs (s : S) items f e e' line last ev d : tells start bs s items f -> current s = 0%nat ->
  threads s !! 0%nat = Some (ShellTask (Handle ev) e last) -> ShellFacts.holds_line e line ->
  ShellFacts.holds_line e' (ShellFacts.edit line ev) ->
  keeps start bs s items f (goes s (print {| (kernel s) with dev := d |} (ShellFacts.respond line ev)) (ShellTask Pop e' last)).
Proof.
  intros [Hl Hn (a2 & e2 & l2 & Hth2 & Hln) Hq Hm Hk Hlo] Hc Hth Hline Hline'. rewrite Hth in Hth2. injection Hth2 as <- <- <-.
  unfold taken in Hk, Hlo. rewrite Hth in Hk, Hlo. cbn [in_hand] in Hk, Hlo.
  rewrite (ShellFacts.holds_unique _ _ _ Hline Hln) in *. exists (items ++ [Key ev]), f.
  assert (keys (items ++ [Key ev]) = keys items ++ [ev]) as Hks by (by rewrite keys_app).
  match goal with |- tells _ _ ?s' _ _ /\ _ => assert (threads s' !! 0%nat = Some (ShellTask Pop e' last)) as Ht' by (by eapply goes_here) end.
  unfold accepted. assert (taken s = [ev]) as Htk by (unfold taken; by rewrite Hth).
  assert (forall s' : S, threads s' !! 0%nat = Some (ShellTask Pop e' last) -> taken s' = []) as Htk' by (intros s' Hs'; unfold taken; by rewrite Hs').
  rewrite Htk, (Htk' _ Ht'), Hks, <-app_assoc. split; [|done]. split; rewrite ?Hks, ?(Htk' _ Ht'), <-?app_assoc; try done.
  - unfold goes, print. cbn [kernel log]. rewrite Hl, render_app. cbn [render]. by rewrite app_nil_r, <-app_assoc.
  - apply Forall_app. split; [done|]. by constructor.
  - eexists _, _, _. split; [exact Ht'|]. by rewrite fold_left_app.
Qed.

Lemma shell_tells start bs tr s r items f at_ e last s' : inv tr s -> stack_ok code s r -> tells start bs s items f ->
  threads s !! current s = Some (ShellTask at_ e last) -> shell_step p code s r at_ e last = Done s' -> inv (tr ++ [Ran]) s' ->
  keeps start bs s items f s'.
Proof.
  intros Hi Hr Ht Hl Hs Hi'. destruct Hb as [Hto Hsteady Hvec Hfs Hif _ _].
  destruct (iv_threads _ _ _ _ _ _ Hi) as [_ Hth]. destruct (Hth _ (inv_current _ _ _ _ _ _ Hi)) as (t & Hl2 & Hok' & _).
  rewrite Hl in Hl2. injection Hl2 as <-. destruct (iv_if _ _ _ _ _ _ Hi) as (t & Hl2 & Hf). rewrite Hl in Hl2. injection Hl2 as <-.
  pose proof Hok' as (Hc & [line Hline] & Hfl). pose proof Hl as Hl0. rewrite Hc in Hl0.
  assert (quiet s s' -> keeps start bs s items f s') as Hqt by (intros Hq; by apply quiet_keeps).
  destruct at_ as [|ev| | | | |fl| |]; cbn [shell_step if_of] in *.
  - injection Hf as Hf. rewrite Hc in Hok'.
    destruct (pop_ok p code k0 ts tr s e last Hi Hok' Hc ltac:(done)) as (f2 & q & Hq & Hq' & Hp & _).
    rewrite Hp in Hs. cbn [mbind outcome_bind] in Hs. injection Hs as <-.
    rewrite (holds_one _ _ _ Hq (te_queue _ _ _ _ _ Ht)) in *.
    pose proof (pop_tells _ _ _ _ _ _ _ _ Ht Hc Hl0 Hq') as Hpt. by destruct (fifo_pop f).2.
  - injection Hf as Hf.
    destruct (handle_ok p code Hok img Himg Hinst k0 ts Hfs tr s e line last ev Hi Hline Hc ltac:(done)) as (b & e' & fl & He & Hl' & _).
    rewrite He in Hs. cbn [mbind outcome_bind] in Hs. injection Hs as <-.
    exact (handle_tells _ _ _ _ _ _ e' line _ _ b.1 Ht Hc Hl0 Hline Hl').
  - injection Hs as <-. apply Hqt. apply (quiet_goes s _ _ []); try done; [by rewrite app_nil_r|by left|].
    intros a2 e2 l2 Hth2 _. rewrite Hl0 in Hth2. injection Hth2 as <- <- <-. destruct (last <? _); by eexists _, _.
  - injection Hs as <-. apply Hqt. eapply quiet_goes; try done; [right; constructor|].
    intros a2 e2 l2 Hth2 _. rewrite Hl0 in Hth2. injection Hth2 as <- <- <-. by eexists _, _.
  - injection Hs as <-. apply Hqt. eapply quiet_goes; try done; [right; constructor|].
    intros a2 e2 l2 Hth2 _. rewrite Hl0 in Hth2. injection Hth2 as <- <- <-. by eexists _, _.
  - apply Hqt. eapply quiet_yield; [exact Hi'|exact Hs|]. intros a2 e2 l2 Hth2 _.
    rewrite Hl0 in Hth2. injection Hth2 as <- <- <-. split_and!; [done|by eexists _, _|]. intros fl. by eexists _, _.
  - injection Hs as <-. apply Hqt. apply (quiet_goes s _ _ []); try done; [by rewrite app_nil_r|by left|].
    intros a2 e2 l2 Hth2 _. rewrite Hl0 in Hth2. injection Hth2 as <- <- <-. by eexists _, _.
  - injection Hs as <-. apply Hqt. apply (quiet_goes s _ _ []); try done; [by rewrite app_nil_r|by left|].
    intros a2 e2 l2 Hth2 _. rewrite Hl0 in Hth2. injection Hth2 as <- <- <-. by eexists _, _.
  - injection Hs as <-. by exists items, f.
Qed.

Lemma run_tells start bs tr s r items f s' : inv tr s -> stack_ok code s r -> tells start bs s items f ->
  run p code s r = Done s' -> keeps start bs s items f s'.
Proof.
  intros Hi Hr Ht Hs. assert (step p code s Ran (Done s')) as Hst by (rewrite <-Hs; by constructor).
  pose proof (steps_inv _ _ _ _ Hi Hst) as Hi'. unfold run in Hs.
  destruct (threads s !! current s) as [[|at_ e last|at_ lb last cnt]|] eqn:Hl; try discriminate; [eapply (shell_tells start bs tr s r); eassumption|].
  apply quiet_keeps; [done|].
  assert (forall a2 e2 l2, threads s !! 0%nat = Some (ShellTask a2 e2 l2) -> current s <> 0%nat) as Hne.
  { intros a2 e2 l2 H2 Hc. rewrite Hc, H2 in Hl. discriminate. }
  destruct at_ as [| | |fl]; cbn [demo_step] in Hs.
  - injection Hs as <-. apply (quiet_goes s _ _ []); try done; [by rewrite app_nil_r|by left|]. intros a2 e2 l2 H2 Hc. by destruct (Hne _ _ _ H2).
  - injection Hs as <-. eapply quiet_goes; try done; [right; constructor|]. intros a2 e2 l2 H2 Hc. by destruct (Hne _ _ _ H2).
  - eapply quiet_yield; [exact Hi'|exact Hs|]. intros a2 e2 l2 H2 Hc. by destruct (Hne _ _ _ H2).
  - injection Hs as <-. apply (quiet_goes s _ _ []); try done; [by rewrite app_nil_r|by left|]. intros a2 e2 l2 H2 Hc. by destruct (Hne _ _ _ H2).
Qed.

(** ** Interrupts *)

(** Keys that arrive are queued, or counted as lost. *)
Lemma fifo_all_keeps pre f evs typed : (pre ++ waiting f) `sublist_of` typed ->
  lost f = Z.min (Z.of_nat (length typed) - Z.of_nat (length (pre ++ waiting f))) U32_MAX ->
  let f' := KeyboardFacts.fifo_all f evs in (pre ++ waiting f') `sublist_of` (typed ++ evs) /\
  lost f' = Z.min (Z.of_nat (length (typed ++ evs)) - Z.of_nat (length (pre ++ waiting f'))) U32_MAX.
Proof.
  revert f typed. induction evs as [|ev evs IH]; intros f typed Hs Hl; cbn [KeyboardFacts.fifo_all fold_left]; [by rewrite app_nil_r|].
  replace (typed ++ ev :: evs) with ((typed ++ [ev]) ++ evs) by (by rewrite <-app_assoc). apply IH; unfold fifo_push.
  - destruct (_ <? _)%nat; cbn [fst waiting]; [rewrite app_assoc; by apply sublist_app|by apply sublist_inserts_r].
  - rewrite !length_app in *. unfold U32_MAX in *. destruct (_ <? _)%nat; cbn [fst waiting lost]; rewrite ?length_app, Hl; cbn [length]; lia.
Qed.

Lemma wake_shell (s : S) t : threads s !! 0%nat = Some t ->
  alter wake (current s) (threads s) !! 0%nat = Some (if (current s =? 0)%nat then wake t else t).
Proof.
  intros Ht. rewrite list_lookup_alter. case_decide as Hc.
  - by rewrite Hc, Ht.
  - by destruct (Nat.eqb_spec (current s) 0).
Qed.

Lemma interrupt_tells start bs tr s v d' c s' items f : inv tr s -> tells start bs s items f -> raises (dev (kernel s)) v d' ->
  interrupt p (mkSystem {| (kernel s) with dev := d' |} (threads s)) v c = Done s' ->
  threads s' = alter wake (current s) (threads s) /\
  exists items', tells start (bs ++ bytes_at v d') s' items'
    (KeyboardFacts.fifo_all f (KeyboardFacts.decode (KeyboardFacts.mode_of (kbd (kernel s))) (bytes_at v d')).2).
Proof.
  intros Hi Ht Hr Hint. destruct Hb as [Hto Hsteady Hvec Hfs Hif _ _].
  destruct (interrupt_handled p (ck_handlers _ _ Hck) running 0xfc ltac:(by right; right) k0 (gates_routed p k0 Hvec) (kernel s) v d' c (iv_static _ _ _ _ _ _ Hi) (iv_machine _ _ _ _ _ _ Hi)
    (iv_queue _ _ _ _ _ _ Hi) Hr) as (k' & Hk & [_ (_ & _ & Ksch) _ _ _ _ (es & Hlog & Hes) Kin]).
  unfold interrupt in Hint. cbn [kernel threads] in Hint. rewrite Hk in Hint. cbn [mbind outcome_bind] in Hint. injection Hint as <-.
  cbn [log dev kbd queue] in Hlog, Kin. unfold current. cbn [kernel sched threads]. fold (current s). split; [done|].
  destruct (status_item _ _ _ _ _ (log k') es Ht Hlog Hes) as (items' & Hks & Hl & Hn).
  destruct Ht as [_ _ (at_ & e & last & Hth & Hline) Hq Hm Hkept Hlost].
  destruct (KeyboardFacts.decode (KeyboardFacts.mode_of (kbd (kernel s))) (bytes_at v d')) as [m evs] eqn:Hdec.
  destruct Kin as [Km Kq]. pose proof (wake_shell s _ Hth) as Hw. exists items'.
  assert (exists at', alter wake (current s) (threads s) !! 0%nat = Some (ShellTask at' e last) /\ in_hand at' = in_hand at_) as (at' & Hth' & Hh).
  { rewrite Hw. destruct (current s =? 0)%nat; [destruct at_|]; by eexists. }
  assert (taken (mkSystem k' (alter wake (current s) (threads s))) = taken s) as Htk by (unfold taken; cbn [threads]; by rewrite Hth, Hth').
  destruct (fifo_all_keeps (keys items ++ taken s) f evs (KeyboardFacts.decoded bs)) as [Hs' Hl']; [by rewrite <-app_assoc..|].
  assert (KeyboardFacts.decoded (bs ++ bytes_at v d') = KeyboardFacts.decoded bs ++ evs) as Hd.
  { unfold KeyboardFacts.decoded. by rewrite KeyboardFacts.decode_app, <-Hm, Hdec. }
  split; cbn [kernel threads fst snd]; rewrite ?Htk, ?Hks, ?Hd, ?app_assoc; try done; [by eexists _, _, _|by apply Kq|].
  by rewrite KeyboardFacts.decode_app, <-Hm, Hdec.
Qed.

Lemma heard_tells start bs s items0 f0 : tells start bs0 (System.start k0) items0 f0 -> heard p code (System.start k0) bs s ->
  exists tr items f, inv tr s /\ tells start (bs0 ++ bs) s items f.
Proof.
  intros Ht0. induction 1 as [|bs s l s' _ (tr & items & f & Hi & Ht) Hs Hl|bs s v d' c s' _ (tr & items & f & Hi & Ht) Hf Hr Hint].
  - exists tr0, items0, f0. rewrite app_nil_r. split; [apply Hb|done].
  - exists (tr ++ [l]). pose proof (steps_inv _ _ _ _ Hi Hs) as Hi'. inversion Hs as [r Hr Hlab Hrun|v d' c Hf Hr Hlab|a w Ha|d' Hd]; subst.
    + destruct (run_tells _ _ _ _ _ _ _ _ Hi Hr Ht Hrun) as (items' & f' & Ht' & _). by exists items', f'.
    + by destruct (Hl v).
    + exists items, f. split; [done|]. by destruct Ht.
    + exists items, f. split; [done|]. by destruct Ht.
  - destruct (interrupt_tells _ _ _ _ _ _ _ _ _ _ Hi Ht Hr Hint) as (Hthr & items' & Ht'). rewrite <-app_assoc in Ht'.
    eexists _, items', _. split; [|exact Ht']. apply (steps_inv tr s (Interrupted v)); [done|]. rewrite <-Hint. by constructor.
Qed.

(** ** Left alone *)

Lemma runs_keeps start bs n tr s s' items f : inv tr s -> tells start bs s items f -> runs p code n s s' -> keeps start bs s items f s'.
Proof.
  intros Hi Ht Hr. revert tr items f Hi Ht. induction Hr as [s|n s r s1 s' Hst Hrun _ IH]; intros tr items f Hi Ht; [by exists items, f|].
  destruct (run_tells _ _ _ _ _ _ _ _ Hi Hst Ht Hrun) as (i1 & f1 & Ht1 & Hl1 & Ha1).
  assert (step p code s Ran (Done s1)) as Hs by (rewrite <-Hrun; by constructor).
  destruct (IH _ _ _ (steps_inv _ _ _ _ Hi Hs) Ht1) as (i2 & f2 & Ht2 & Hl2 & Ha2). exists i2, f2. split_and!; congruence.
Qed.

(** The shell has halted by then, with nothing in hand; if it was emptying the
    queue, it has. *)
Lemma idle_keeps start bs tr s s' items f at_ e last : inv tr s -> tells start bs s items f -> runs p code 144 s s' ->
  threads s !! 0%nat = Some (ShellTask at_ e last) ->
  exists tr' items' f' e' last', tells start bs s' items' f' /\ lost f' = lost f /\ keys items' ++ waiting f' = accepted s items f /\
    (at_ = Pop \/ (exists ev, at_ = Handle ev) -> waiting f' = []) /\
    inv tr' s' /\ current s' = 0%nat /\ threads s' !! 0%nat = Some (ShellTask Halted e' last').
Proof.
  intros Hi Ht Hr Hth. destruct (runs_keeps _ _ _ _ _ _ _ _ Hi Ht Hr) as (items' & f' & Ht' & Hl & Ha).
  pose proof Ht as [_ _ (a2 & e2 & l2 & Hth2 & Hline) Hq _ _ _]. rewrite Hth in Hth2. injection Hth2 as <- <- <-.
  destruct Hb as [Hto Hsteady Hvec Hfs Hif _ _].
  assert (current s' = 0%nat /\ (exists tr', inv tr' s') /\ shell_view s' Halted
    (fold_left ShellFacts.edit (due at_ (waiting f)) (fold_left ShellFacts.edit (keys items) [])) (later at_ (waiting f))) as (Hc & (tr' & Hi') & [Hl0 Hk0]).
  { eapply goes_idle; try done. split; [by eexists _, _|by exists f]. }
  destruct Hl0 as (e0 & l0 & Hth0 & _). destruct Hk0 as (f0 & Hq0 & Hw0). exists tr', items', f', e0, l0.
  rewrite (holds_one _ _ _ Hq0 (te_queue _ _ _ _ _ Ht')) in *.
  assert (taken s' = []) as Htk by (unfold taken; by rewrite Hth0). rewrite <-Ha. unfold accepted. rewrite Htk. split_and!; try done.
  rewrite Hw0. by intros [->|[ev ->]].
Qed.

Lemma runs_heard n s0 bs (s s' : S) : heard p code s0 bs s -> runs p code n s s' -> heard p code s0 bs s'.
Proof.
  intros Hh Hr. induction Hr as [s|n s r s1 s' Hst Hrun _ IH]; [done|]. apply IH. apply (heard_step _ _ _ _ s Ran); [done| |done].
  rewrite <-Hrun. by constructor.
Qed.

(** *** Anything can be typed *)

(** At rest: the shell has halted, and has replied to everything. *)
Record resting start (bs : list Z) (s : S) : Prop := {
  re_heard : heard p code (System.start k0) bs s;
  re_inv : exists tr, inv tr s;
  re_tells : exists items, tells start bs s items (mkFifo [] 0);
  re_shell : current s = 0%nat /\ exists e last, threads s !! 0%nat = Some (ShellTask Halted e last)
}.

Lemma comes_to_rest start bs tr s items f e last : heard p code (System.start k0) bs s -> inv tr s -> tells start bs s items f ->
  lost f = 0 -> threads s !! 0%nat = Some (ShellTask Pop e last) -> exists s', resting start bs s'.
Proof.
  intros Hh Hi Ht Hl Hth. assert (exists s', runs p code 144 s s') as [s' Hr] by (destruct Hb; by eapply runs_exist).
  destruct (idle_keeps _ _ _ _ _ _ _ _ _ _ Hi Ht Hr Hth) as (tr' & i' & f' & e' & l' & Ht' & Hl' & _ & Hw & Hi' & Hc & Hth').
  pose proof (Hw (or_introl eq_refl)) as Hw'. destruct f' as [w n]. cbn in Hw', Hl'. rewrite Hw', Hl', Hl in Ht'. exists s'.
  split; [by eapply runs_heard|by exists tr'|by exists i'|split; [done|by eexists _, _]].
Qed.

Lemma strike start bs b s : (forall d : D, serving 0 d -> exists d', raises d 33 d' /\ byte_at d' = [b]) ->
  resting start bs s -> exists s', resting start (bs ++ [b]) s'.
Proof.
  intros Hkb [Hh [tr Hi] [items Ht] [Hc (e & last & Hth)]]. destruct (Hkb _ (iv_machine _ _ _ _ _ _ Hi)) as (d' & Hr & Hby).
  assert (if_flag (cpu (kernel s)) = true) as Hf.
  { destruct (iv_if _ _ _ _ _ _ Hi) as (t & Hl & Hf). rewrite Hc, Hth in Hl. injection Hl as <-. by injection Hf. }
  assert (exists s', interrupt p (mkSystem {| (kernel s) with dev := d' |} (threads s)) 33 (mkCtx (Idt.mkFrame 0 8 0) 0 0 0) = Done s' /\
    inv (tr ++ [Interrupted 33]) s') as (s' & Hint & Hi') by (destruct Hb; by eapply interrupt_ok).
  destruct (interrupt_tells _ _ _ _ _ _ _ _ _ _ Hi Ht Hr Hint) as (Hthr & items' & Ht').
  pose proof (heard_interrupt _ _ _ _ _ _ _ _ _ Hh Hf Hr Hint) as Hh'. unfold bytes_at in Ht', Hh'.
  change (33 =? 33) with true in Ht', Hh'. cbv iota in Ht', Hh'. rewrite Hby in Ht', Hh'.
  destruct (te_editor _ _ _ _ _ Ht') as (a2 & e2 & l2 & Hth2 & _).
  assert (a2 = Pop) as -> by (rewrite Hthr, (wake_shell _ _ Hth), Hc in Hth2; by injection Hth2).
  eapply comes_to_rest; [exact Hh'|exact Hi'|exact Ht'| |exact Hth2].
  pose proof (KeyboardFacts.decode_byte_one (KeyboardFacts.mode_of (kbd (kernel s))) b) as Hone. cbn [KeyboardFacts.decode].
  destruct (KeyboardFacts.decode_byte _ b) as [m [|ev [|ev2 evs]]]; cbn in *; [done|done|lia].
Qed.

End running.

(** ** From the first prompt on *)

(** What came while the kernel booted is in the queue. *)
Lemma tells_start map tr bs (k : K) ts pa pb : ready p map tr bs k ts pa pb ->
  tells (log k) bs (System.start k) [] (KeyboardFacts.fifo_all (mkFifo [] 0) (KeyboardFacts.decoded bs)).
Proof.
  intros [_ _ _ _ _ _ [_ Hq] Hmo _ _]. destruct (fifo_all_keeps [] (mkFifo [] 0) (KeyboardFacts.decoded bs) []) as [Hs Hl]; [done..|].
  split; unfold System.start; cbn [kernel threads]; rewrite ?app_nil_r; try done.
  eexists _, _, _. split; [reflexivity|]. apply ShellFacts.new_holds.
Qed.

(** When nothing was turned away. *)
Lemma tells_all start bs (s : S) items f : tells start bs s items f -> Input.dropped (value (queue (kernel s))) = 0 ->
  accepted s items f = KeyboardFacts.decoded bs.
Proof.
  intros [_ _ _ Hq _ Hk Hl] Hd. rewrite <-(h_lost _ _ Hq) in Hl. rewrite Hd in Hl. unfold accepted, U32_MAX in *.
  apply sublist_length in Hk as Hle. apply sublist_full; [done|lia].
Qed.

(** C4: The kernel is a terminal. Boot it as above and let it run, with any
    interleaving of stages, statements and interrupts; [bs0] are the bytes the
    keyboard handler has read until the first prompt, [bs] those since, however
    many. What has been printed since that prompt is, in order and complete, the
    reply to each key - echo, erasure, and for Enter the output of the command
    line edited so far, the file's contents for [cat hello.txt], and a new prompt
    - and between them only the status lines of the clock, the tasks and spurious
    interrupts. The keys replied to, then the one in hand, then those in the
    queue are the keys the bytes decode to, less those that found the queue full,
    which the queue counts. 144 undisturbed statements later none is in hand, and
    if the shell was reading the queue all have their reply. The bytes of a US
    keyboard decode to what was struck. *)
Theorem kernel_is_a_terminal (k : K) (map : MemMap.Map.MemoryMap) (img : list Z) : program_ok p -> code_ok p code -> loaded k ->
  MemMap.Map.load (memory k) = map -> memory_ok (kernel_image p) (guard_page p) map ->
  disk_ok disk -> GoatFs.Packer.pack GoatFs.Packer.FILES = Some img -> GoatFsFacts.installed disk img ->
  (forall x, isr (chips (dev k) x) = 0) ->
  (exists k', kernel_main p k = Done k' /\ boots p k [] [] Prompted k') /\
  forall tr0 bs0 k', boots p k tr0 bs0 Prompted k' -> (exists es, log k' = es ++ Shell.init) /\
  forall bs s, heard p code (System.start k') bs s ->
    exists items f, tells (log k') (bs0 ++ bs) s items f /\
      (Input.dropped (value (queue (kernel s))) = 0 -> accepted s items f = KeyboardFacts.decoded (bs0 ++ bs)) /\
      (forall ss, Forall KeyboardFacts.stroke_ok ss -> bs0 ++ bs = ss ≫= KeyboardFacts.sends ->
         KeyboardFacts.decoded (bs0 ++ bs) = ss ≫= KeyboardFacts.means) /\
      (forall s', runs p code 144 s s' -> exists items' f', tells (log k') (bs0 ++ bs) s' items' f' /\
         keys items' ++ waiting f' = accepted s items f /\
         forall at_ e last, threads s !! 0%nat = Some (ShellTask at_ e last) -> at_ = Pop \/ (exists ev, at_ = Handle ev) -> waiting f' = []).
Proof.
  intros Hp Hck Hk Hmap Hmem Hok Himg Hinst Hisr. split; [by eapply main_boots|]. intros tr0 bs0 k' Hbt.
  destruct (booted p code k map img _ _ k' Hp Hck Hk Hmap Hmem Hok Himg Hinst Hisr Hbt) as (ts & pa & pb & Hb).
  pose proof (bs_ready _ _ _ _ _ _ _ _ _ Hb) as Hrd. split; [apply Hrd|]. intros bs s Hh.
  destruct (heard_tells Hck Hp Hok img Himg Hinst map tr0 bs0 k' ts pa pb Hb (log k') bs s _ _ (tells_start _ _ _ _ _ _ _ Hrd) Hh)
    as (tr & items & f & Hi & Ht).
  exists items, f. split; [exact Ht|]. split_and!.
  - intros Hd. by apply (tells_all _ _ _ _ _ Ht).
  - intros ss Hss ->. unfold KeyboardFacts.decoded. by rewrite KeyboardFacts.decode_strokes.
  - intros s' Hr. destruct (te_editor _ _ _ _ _ Ht) as (at_ & e & last & Hth & _).
    destruct (idle_keeps Hck Hp Hok img Himg Hinst map tr0 bs0 k' ts pa pb Hb _ _ _ _ _ _ _ _ _ _ Hi Ht Hr Hth) as (tr2 & i2 & f2 & e2 & l2 & Ht2 & _ & Hks & Hw & _).
    exists i2, f2. split; [exact Ht2|]. split; [exact Hks|]. intros a3 e3 l3 Hth3. rewrite Hth in Hth3. injection Hth3 as <- <- <-. exact Hw.
Qed.

(** A keyboard that can send any byte can type anything. *)
Lemma can_type (k : K) map img : program_ok p -> code_ok p code -> loaded k ->
  MemMap.Map.load (memory k) = map -> memory_ok (kernel_image p) (guard_page p) map ->
  disk_ok disk -> GoatFs.Packer.pack GoatFs.Packer.FILES = Some img -> GoatFsFacts.installed disk img ->
  (forall x, isr (chips (dev k) x) = 0) -> (forall (d : D) b, serving 0 d -> exists d', raises d 33 d' /\ byte_at d' = [b]) ->
  forall tr0 k', boots p k tr0 [] Prompted k' -> forall bs, exists s, heard p code (System.start k') bs s /\
    taken s = [] /\ InputFacts.holds (value (queue (kernel s))) (mkFifo [] 0).
Proof.
  intros Hp Hck Hk Hmap Hmem Hok Himg Hinst Hisr Hkb tr0 k' Hbt bs.
  destruct (booted p code k map img _ _ k' Hp Hck Hk Hmap Hmem Hok Himg Hinst Hisr Hbt) as (ts & pa & pb & Hb).
  pose proof (tells_start _ _ _ _ _ _ _ (bs_ready _ _ _ _ _ _ _ _ _ Hb)) as Ht.
  assert (exists s, resting k' ts (log k') bs s) as (s & [Hh _ (items & Ht') (_ & e & last & Hth)]).
  { induction bs as [|b bs [s IH]] using rev_ind.
    - assert (threads (System.start k') !! 0%nat = Some (ShellTask Pop Shell.new 0)) as Hth by done.
      eapply (comes_to_rest Hck Hp Hok img Himg Hinst map tr0 [] k' ts pa pb Hb); [constructor|apply Hb|exact Ht|done|exact Hth].
    - eapply (strike Hck Hp Hok img Himg Hinst map tr0 [] k' ts pa pb Hb); [intros d; by apply Hkb|exact IH]. }
  exists s. split; [exact Hh|]. split; [unfold taken; by rewrite Hth|apply Ht'].
Qed.

End session.

(** ** On the concrete machine *)

(** [cat hello.txt] and Enter. *)
Definition demo_strokes : list KeyboardFacts.stroke :=
  (fun k : Z * Z => KeyboardFacts.Key k.1 false (Char k.2)) <$>
    [(0x2e, 99); (0x1e, 97); (0x14, 116); (0x39, 32); (0x23, 104); (0x12, 101); (0x26, 108); (0x26, 108); (0x18, 111);
     (0x34, 46); (0x14, 116); (0x2d, 120); (0x14, 116)].
Definition demo_enter : KeyboardFacts.stroke := KeyboardFacts.Key 0x1c false Enter.

Lemma pc_keyboard disk (d : PC disk) b : serving 0 d -> exists d', raises d 33 d' /\ byte_at d' = [b].
Proof. intros Hd. exists (pc_irq 1 [b] d). split; [|done]. apply (pc_irq_raises disk 1); [done|by right]. Qed.

Lemma kernel_is_a_terminal_witness :
  exists k' s l1 l2, kernel_main demo_program demo_kernel = Done k' /\
    heard demo_program demo_code (System.start k') ((demo_strokes ++ [demo_enter]) ≫= KeyboardFacts.sends) s /\
    log (kernel s) = l1 ++ ([VgaPrint nl; SerialPrint nl] ++ print_both (Fmt.bytes GoatFs.HELLO_TXT_CONTENTS) ++ Shell.init) ++ l2.
Proof.
  destruct (kernel_is_a_terminal demo_program demo_code demo_kernel demo_map GoatFsSpec.shipped demo_program_ok demo_code_ok demo_loaded
    eq_refl demo_memory_ok GoatFsSpec.shipped_disk_ok demo_packed GoatFsSpec.shipped_installed ltac:(by intros [])) as [(k' & Hrun & Hbt) Hboot].
  destruct (Hboot _ _ _ Hbt) as [_ Hall].
  pose proof (can_type demo_program demo_code demo_kernel demo_map GoatFsSpec.shipped demo_program_ok demo_code_ok demo_loaded
    eq_refl demo_memory_ok GoatFsSpec.shipped_disk_ok demo_packed GoatFsSpec.shipped_installed ltac:(by intros [])
    ltac:(intros; by apply pc_keyboard) _ k' Hbt) as Hty. set (ss := demo_strokes ++ [demo_enter]).
  assert (Forall KeyboardFacts.stroke_ok ss) as Hss by (repeat constructor; apply (bool_decide_unpack _); vm_compute; exact I).
  destruct (Hty (ss ≫= KeyboardFacts.sends)) as (s & Hh & Htk & Hq).
  destruct (Hall _ s Hh) as (items & f & Ht & Hd & Hdec & _). specialize (Hdec ss Hss eq_refl).
  specialize (Hd (h_lost _ _ Hq)). rewrite Hdec in Hd. unfold accepted in Hd.
  rewrite Htk, (holds_one _ _ _ (te_queue _ _ _ _ _ Ht) Hq) in Hd. cbn [waiting app] in Hd. rewrite app_nil_r in Hd.
  destruct (render_reply [] items (demo_strokes ≫= KeyboardFacts.means) Enter) as (l1 & l2 & Hr); [by rewrite Hd|].
  exists k', s, (log k' ++ l1), l2. split; [exact Hrun|]. split; [exact Hh|].
  rewrite (te_shown _ _ _ _ _ Ht), Hr, <-!app_assoc. f_equal.
Defined.

(** A key struck while the disk is being mounted waits for the shell. *)
Lemma typed_ahead : exists k', boots demo_program demo_kernel [Interrupted 33] [0x1e] Prompted k' /\
  holds (value (queue k')) (mkFifo [Char 97] 0).
Proof.
  pose proof (boots_stage_reached demo_program demo_program_ok GoatFsSpec.shipped_disk_ok GoatFsSpec.shipped demo_packed
    GoatFsSpec.shipped_installed demo_kernel demo_map demo_loaded eq_refl demo_memory_ok ltac:(by intros []) 2) as (k1 & H1).
  cbn [Nat.iter nat_rect after] in H1.
  destruct (boots_listening demo_program demo_program_ok demo_handlers_ok GoatFsSpec.shipped_disk_ok GoatFsSpec.shipped demo_packed
    GoatFsSpec.shipped_installed demo_kernel demo_map demo_loaded eq_refl demo_memory_ok ltac:(by intros []) _ _ _ _ H1) as (Hif & t & Hm & Ht).
  rewrite (Ht ltac:(done)) in Hm. pose proof (pc_irq_raises _ 1 [0x1e] _ Hm ltac:(by right)) as Hr. change (32 + 1) with 33 in Hr.
  pose proof (boots_ready demo_program demo_program_ok demo_handlers_ok GoatFsSpec.shipped_disk_ok GoatFsSpec.shipped demo_packed
    GoatFsSpec.shipped_installed demo_kernel demo_map demo_loaded eq_refl demo_memory_ok ltac:(by intros [])) as Hall.
  destruct (Hall _ _ _ _ H1) as (_ & Hint & _). destruct (Hint _ _ (mkCtx (Idt.mkFrame 0 8 0) 0 0 0) Hr) as (k2 & Hk2).
  pose proof (boots_interrupt _ _ _ _ _ _ _ _ _ _ H1 ltac:(done) Hif Hr Hk2) as H2. cbn [app] in H2.
  destruct (Hall _ _ _ _ H2) as ((k3 & _ & H3) & _). destruct (Hall _ _ _ _ H3) as (_ & _ & Hready).
  destruct (Hready eq_refl) as (ts & pa & pb & [_ _ _ _ _ _ [_ Hq] _ _ _]). exists k3. split; [exact H3|exact Hq].
Qed.


End SessionFacts.
