(* ===== verification/Trigger.v ===== *)
(** * The debug triggers ([exceptions.rs], [interrupts.rs])

    The routines that raise an exception or an interrupt on purpose. Each block
    is compiled in by a cargo feature; [kernel_main] calls all three routines
    right after it has enabled interrupts. The instructions they consist of are
    modelled as far as they fault. *)

From S2P Require Import Prelude.
From S2P Require Import Fmt.
From S2P Require Import Machine.
From S2P Require Import Descriptors.
From S2P Require Import DescriptorFacts.
From S2P Require Import Interrupts.
From S2P Require Import Sync.
From S2P Require Import Paging.
From S2P Require Import Shell.
From S2P Require Import Boot.
From S2P Require Import Deliver.
#[local] Open Scope Z_scope.

Module Trigger.
Import Machine Sync Shell Boot Deliver Exceptions.
#[local] Existing Instance Idt.Gate_inhabited.

(** The features of [Cargo.toml]. *)
Inductive Feature :=
| DivideError | InvalidOpcode | GeneralProtectionFault | DoubleFault | DoubleFaultGate | StackOverflow
| UnhandledInterrupt | UnhandledException | SpuriousIrq | PrintReentrancy.

#[export] Instance Feature_eq_dec : EqDecision Feature.
Proof. solve_decision. Defined.

Definition PAGE_FAULT : Z := 14.

(** How the compiler laid out [blow_stack]: the size of its frame below the
    return address, where in it [pad] lies, the return address of the recursive
    call, and the stack pointer at the first call. *)
Record Overflow := mkOverflow { o_size : Z; o_pad : Z; o_ret : Z; o_esp : Z }.

Section device.
Context {D : Type} `{PortIO D} `{WordIO D}.
Context (p : Program).

Abbreviation K := (Kernel D).

(** What runs after a trap that was resumed; nothing after a halt. *)
Definition on_resume (r : outcome (K * Control)) (f : K -> outcome (K * Control)) : outcome (K * Control) :=
  '(k, c) ← r; match c with Resume => f k | Halt => Done (k, Halt) end.

Definition say (k : K) (s : string) : outcome K := prints k (diag_println s).

(** ** Instructions *)

(** [divl]: a zero divisor or a quotient that does not fit. *)
Definition divl (k : K) (eax edx ecx : Z) (c : Ctx) : outcome (K * Control) :=
  if (ecx =? 0) || (2 ^ 32 <=? (edx * 2 ^ 32 + eax) / ecx) then take_vector p k DIVIDE_ERROR None c else Done (k, Resume).

Definition ud2 (k : K) (c : Ctx) : outcome (K * Control) := take_vector p k INVALID_OPCODE None c.

Definition int (k : K) (v : Z) (c : Ctx) : outcome (K * Control) := take_vector p k v None c.

(** Loading DS with a selector beyond the end of the GDT. *)
Definition mov_ds (k : K) (sel : Z) (c : Ctx) : outcome (K * Control) :=
  if p_limit (gdtr (cpu k)) <? Z.lor sel 7 then take_vector p k GENERAL_PROTECTION_FAULT (Some (Z.land sel 0xfffc)) c
  else Done ({| k with cpu := {| (cpu k) with ds := sel |} |}, Resume).

Definition writable (k : K) (a : Z) : bool :=
  match Mmu.translate (memory k) (cr3 (cpu k)) a with Some (_, w) => w | None => false end.

(** A write to an unmapped address, with stack pointer [esp]. The processor
    pushes four words; when it cannot, that is a double fault. *)
Definition page_fault (k : K) (esp : Z) (c : Ctx) : outcome (K * Control) :=
  let c := {| c with c_esp := esp |} in
  if forallb (fun i => writable k (esp - 4 * i)) [1; 2; 3; 4] then take_vector p k PAGE_FAULT (Some 2) c
  else follow p k DOUBLE_FAULT (Some 0) c (Hw.gate_target (idt k !!! Z.to_nat DOUBLE_FAULT)).

(** A store of a word; [None] is a page fault. *)
Definition poke (k : K) (w : Z * Z) : option K :=
  if writable k w.1 then Some {| k with memory := (memory k).[w.1 <- w.2] |} else None.

(** Stores in a row, up to the first fault. *)
Fixpoint pokes (k : K) (ws : list (Z * Z)) : K * bool :=
  match ws with
  | [] => (k, true)
  | w :: ws => match poke k w with Some k => pokes k ws | None => (k, false) end
  end.

(** [let mut pad = [0u8; 256]] and the volatile write of its first byte. *)
Definition pad_writes (a : Z) : list (Z * Z) := ((fun i => (a + 4 * i, 0)) <$> zrange 0 64) ++ [(a, 0xaa)].

(** [blow_stack], called with stack pointer [esp]. *)
Fixpoint blow_stack (o : Overflow) (fuel : nat) (k : K) (esp : Z) (c : Ctx) : outcome (K * Control) :=
  match fuel with
  | O => Spinning
  | S fuel =>
      match poke k (esp - 4, o_ret o) with
      | None => page_fault k esp c
      | Some k =>
          let esp := esp - 4 - o_size o in
          match pokes k (pad_writes (esp + o_pad o)) with
          | (k, false) => page_fault k esp c
          | (k, true) => blow_stack o fuel k esp c
          end
      end
  end.

(** ** The routines *)

(** [on] says which features are enabled; [c] and [c'] are what the traps
    interrupt. *)
Context (on : Feature -> bool) (o : Overflow) (c c' : Ctx).

Definition cfg (f : Feature) (block : K -> outcome (K * Control)) (k : K) : outcome (K * Control) :=
  if on f then block k else Done (k, Resume).

Definition trigger_debug_exception (k : K) : outcome (K * Control) :=
  let r := cfg DivideError (fun k =>
    k ← say k "DEBUG: dividing by zero on purpose...";
    divl k 1 0 0 c) k in
  let r := on_resume r (cfg InvalidOpcode (fun k =>
    k ← say k "DEBUG: executing a reserved instruction on purpose...";
    ud2 k c)) in
  let r := on_resume r (cfg DoubleFault (fun k =>
    k ← say k "DEBUG: unregistering the divide-error handler, then dividing by zero,";
    k ← say k "DEBUG: so the CPU faults while trying to deliver the fault...";
    let k := {| k with idt := Idt.clear_handler (idt k) DIVIDE_ERROR |} in
    divl k 1 0 0 c)) in
  let r := on_resume r (cfg DoubleFaultGate (fun k =>
    k ← say k "DEBUG: taking vector 8 directly, to exercise the task gate...";
    int k 8 c)) in
  let r := on_resume r (cfg GeneralProtectionFault (fun k =>
    k ← say k "DEBUG: loading an out-of-range segment selector on purpose...";
    mov_ds k 0x38 c)) in
  on_resume r (cfg StackOverflow (fun k =>
    k ← say k "DEBUG: overflowing the kernel stack on purpose...";
    k ← say k "DEBUG: (esp should grow into the unmapped guard page and double-fault)";
    blow_stack o (S (Z.to_nat (o_esp o))) k (o_esp o) c)).

Definition trigger_debug_interrupt (k : K) : outcome (K * Control) :=
  let r := cfg UnhandledInterrupt (fun k =>
    k ← say k "DEBUG: taking vector 0x60, which nothing has registered...";
    on_resume (int k 0x60 c) (fun k =>
    on_resume (int k 0x60 c') (fun k =>
    k ← say k ("DEBUG: resumed twice, reported once (" +:+ Fmt.dec (Interrupts.unhandled_count (ints k)) +:+ " unhandled so far)"); Done (k, Resume)))) k in
  let r := on_resume r (cfg UnhandledException (fun k =>
    k ← say k "DEBUG: raising #3, an exception with no handler of its own...";
    int k 3 c)) in
  on_resume r (cfg SpuriousIrq (fun k =>
    k ← say k "DEBUG: taking vector 39 (IRQ7), the spurious-interrupt line...";
    on_resume (int k 0x27 c) (fun k =>
    k ← say k ("DEBUG: resumed after the report (" +:+ Fmt.dec (Interrupts.unhandled_count (ints k)) +:+ " unhandled so far)"); Done (k, Resume)))).

(** [vga::with_lock_held] and [serial::with_lock_held]: [IrqMutex::with] on the
    writer's own lock. What [f] prints finds it taken. *)
Definition with_writer_held (k : K) (f : K -> outcome (K * Control)) : outcome (K * Control) :=
  let body lock cpu := '(k, r) ← f {| k with WRITER := lock; cpu := cpu |}; Done (WRITER k, Boot.cpu k, (k, r)) in
  '(lock, cpu, (k, r)) ← with_ body (WRITER k) (cpu k);
  Done (match r with Resume => {| k with WRITER := lock; cpu := cpu |} | Halt => k end, r).

Definition with_serial_held (k : K) (f : K -> outcome (K * Control)) : outcome (K * Control) :=
  let body lock cpu := '(k, r) ← f {| k with SERIAL1 := lock; cpu := cpu |}; Done (SERIAL1 k, Boot.cpu k, (k, r)) in
  '(lock, cpu, (k, r)) ← with_ body (SERIAL1 k) (cpu k);
  Done (match r with Resume => {| k with SERIAL1 := lock; cpu := cpu |} | Halt => k end, r).

Definition trigger_print_reentrancy (k : K) : outcome (K * Control) :=
  cfg PrintReentrancy (fun k =>
    k ← say k "DEBUG: holding both print locks, then taking vector 0x60...";
    on_resume (with_writer_held k (fun k => with_serial_held k (fun k => int k 0x60 c))) (fun k =>
    k ← say k ("DEBUG: print reentrancy ok (handler reported while locks held; "
                 +:+ Fmt.dec (Interrupts.unhandled_count (ints k)) +:+ " unhandled)");
    Done (k, Resume))) k.

(** The three calls in a row. *)
Definition triggers (k : K) : outcome (K * Control) :=
  on_resume (on_resume (trigger_debug_exception k) trigger_debug_interrupt) trigger_print_reentrancy.

(** [kernel_main] with features. *)
Definition kernel_main_with (k : K) : outcome (K * Control) :=
  k ← start_core p k;
  on_resume (triggers k) (fun k => k ← start_services p k; Done (k, Resume)).

End device.
End Trigger.
