(* ===== verification/TriggerFacts.v ===== *)
(** * The debug triggers behave as their tests expect

    On the state that [kernel_main] is in when it calls them, every trigger
    prints its line, and the exception or interrupt it raises ends up in the
    handler meant for it: it is reported with the state it interrupted, and
    either halts the machine or is resumed, after which the kernel boots on. *)

From S2P Require Import Prelude.
From S2P Require Import Fmt.
From S2P Require Import Machine.
From S2P Require Import MemMap.
From S2P Require Import Paging.
From S2P Require Import PagingFacts.
From S2P Require Import Descriptors.
From S2P Require Import DescriptorFacts.
From S2P Require Import Pic.
From S2P Require Import Interrupts.
From S2P Require Import InterruptFacts.
From S2P Require Import Sync.
From S2P Require Import Ata.
From S2P Require Import AtaFacts.
From S2P Require Import GoatFs.
From S2P Require Import GoatFsFacts.
From S2P Require Import GoatFsSpec.
From S2P Require Import Shell.
From S2P Require Import Pit.
From S2P Require Import Boot.
From S2P Require Import BootMachine.
From S2P Require Import BootMemory.
From S2P Require Import BootFacts.
From S2P Require Import Deliver.
From S2P Require Import SystemFacts.
From S2P Require Import Trigger.
#[local] Open Scope Z_scope.

Module TriggerFacts.
Import Machine Sync Ata AtaDrive AtaFacts PicHw Pit8254 BootMachine BootMemory BootFacts Shell Boot Exceptions Deliver Trigger.
#[local] Existing Instance Idt.Gate_inhabited.

(** One feature enabled. *)
Definition only (f g : Feature) : bool := bool_decide (f = g).

Section device.
Context {D : Type} `{PortIO D} `{WordIO D} {disk : Z -> list Z}.
Context `{!PicDevice D} `{!PitDevice D} `{!AtaDevice D disk} `{!BootMachine D disk}.
Context (p : Program) (Hok : DeliverFacts.handlers_ok p).

Abbreviation K := (Kernel D).

(** The two task state segments lie apart, at 32-bit addresses. *)
Record tss_placed : Prop := {
  tp_main : is_u32 (Image.main_tss_addr (image p));
  tp_double_fault : is_u32 (Image.double_fault_tss_addr (image p));
  tp_apart : Image.main_tss_addr (image p) <> Image.double_fault_tss_addr (image p)
}.
Context (Htss : tss_placed).

(** The state the triggers run in, with memory mapped up to [E]. *)
Record armed (E : Z) (k : K) : Prop := {
  ar_idt : length (idt k) = 256%nat;
  ar_vectors : forall v, 0 <= v < 256 -> Hw.gate_target (idt k !!! Z.to_nat v) = InterruptFacts.expected (entries p) v;
  ar_cpu : if_flag (cpu k) = true /\ p_limit (gdtr (cpu k)) = 39 /\ tr (cpu k) = Gdt.MAIN_TSS_SELECTOR /\ ss (cpu k) = 0x10;
  ar_gdt : gdt k = table_gdt p;
  ar_task : let df := Tss.double_fault (tss k) in
    Tss.t_eip df = double_fault_entry (entries p) /\ Tss.t_esp df = Image.double_fault_stack_top (image p) /\
    Tss.t_cs df = Tss.KERNEL_CODE_SELECTOR /\ Tss.t_eflags df = 2 /\ Tss.t_cr3 df = cr3 (cpu k);
  ar_ints : ints k = Interrupts.mkIState 0 (replicate 8 0);
  ar_isr : isr (chips (dev k) Master) = 0;
  ar_map : forall m v, (forall a, ~ in_image p a -> m.[a] = (memory k).[a]) -> 0 <= v < 2 ^ 32 ->
    Mmu.translate m (cr3 (cpu k)) v = if (v <? E) && negb (v / 4096 * 4096 =? guard_page p) then Some (v, true) else None
}.

Lemma armed_print E k es : armed E k -> armed E (print k es).
Proof. intros []. by split. Qed.

(** [diag_println!] comes through whoever holds the writers' locks. *)
Definition said (k : K) (s : string) : K := print k (diag_println s).

Lemma say_said (k : K) s : say k s = Done (said k s).
Proof. apply prints_done. Qed.

Lemma armed_said E k s : armed E k -> armed E (said k s).
Proof. apply armed_print. Qed.

Lemma reported_done (k : K) r : reported k r = Done (print k (diag_lines r.1), r.2).
Proof. unfold reported. by rewrite prints_done. Qed.

Lemma caught_done (k : K) v code c : caught k v code c =
  (let '(s, d, lines, r) := Interrupts.dispatch (ints k) (dev k) v code (frame c) in
   Done (print {| k with ints := s; dev := d |} (diag_lines lines), r)).
Proof. unfold caught. destruct (Interrupts.dispatch _ _ _ _ _) as [[[s d] lines] r]. by rewrite prints_done. Qed.

(** ** The instructions *)

Definition masked (k : K) : K := {| k with cpu := cli (cpu k) |}.

(** A report, after which nothing runs. *)
Definition halted (k : K) (lines : list string) : outcome (K * Control) := Done (print k (diag_lines lines), Halt).

Ltac gate Hk := unfold take_vector; rewrite !(ar_vectors _ _ Hk) by (split; done); cbv beta.

Lemma divide_error_taken E k c : armed E k ->
  divl p k 1 0 0 c = halted (masked k) (report DIVIDE_ERROR "divide error" None (frame c)).1.
Proof.
  intros Hk. unfold divl. cbn [Z.eqb orb]. gate Hk.
  change (InterruptFacts.expected (entries p) DIVIDE_ERROR) with (Hw.ToOffset Tss.KERNEL_CODE_SELECTOR (divide_error (entries p))).
  cbv iota. unfold follow. by rewrite DeliverFacts.call_divide_error, reported_done.
Qed.

Lemma invalid_opcode_taken E k c : armed E k ->
  ud2 p k c = halted (masked k) (report INVALID_OPCODE "invalid opcode" None (frame c)).1.
Proof.
  intros Hk. unfold ud2. gate Hk.
  change (InterruptFacts.expected (entries p) INVALID_OPCODE) with (Hw.ToOffset Tss.KERNEL_CODE_SELECTOR (invalid_opcode (entries p))).
  cbv iota. unfold follow. by rewrite DeliverFacts.call_invalid_opcode, reported_done.
Qed.

Lemma protection_fault_taken E k c : armed E k ->
  mov_ds p k 0x38 c = halted (masked k) (report GENERAL_PROTECTION_FAULT "general protection fault" (Some 0x38) (frame c)).1.
Proof.
  intros Hk. unfold mov_ds. destruct (ar_cpu _ _ Hk) as (_ & -> & _). change (39 <? Z.lor 56 7) with true. cbv iota. gate Hk.
  change (InterruptFacts.expected (entries p) GENERAL_PROTECTION_FAULT)
    with (Hw.ToOffset Tss.KERNEL_CODE_SELECTOR (general_protection_fault (entries p))).
  change (Z.land 56 65532) with 56. cbv iota. unfold follow. by rewrite DeliverFacts.call_protection_fault, reported_done.
Qed.

(** The report of the double-fault task about an interrupted stack pointer [esp]. *)
Definition double_fault_lines (c : Ctx) (esp : Z) : list string :=
  [""; "*** CPU EXCEPTION #8: double fault";
   "    interrupted: eip=" +:+ Fmt.hex 10 (Idt.eip (frame c)) +:+ " cs=" +:+ Fmt.hex 6 (Idt.f_cs (frame c))
     +:+ " eflags=" +:+ Fmt.hex 10 (Idt.eflags (frame c));
   "    interrupted stack: esp=" +:+ Fmt.hex 10 esp +:+ " ebp=" +:+ Fmt.hex 10 (c_ebp c) +:+ " ss=0x0010";
   "    handler stack: esp=" +:+ Fmt.hex 10 (Image.double_fault_stack_top (image p) - depth c)
     +:+ " in private " +:+ Fmt.hex 10 (Image.double_fault_stack_bottom (image p))
     +:+ ".." +:+ Fmt.hex 10 (Image.double_fault_stack_top (image p));
   "    switched from TSS 0x0018 via task gate";
   "    Halted - this exception is not recoverable."].

(** The processor runs the double-fault task, in the address space it was in, with
    interrupts off; what it was doing is in the other TSS. *)
Definition in_task (c : Ctx) (k k' : K) : Prop :=
  tr (cpu k') = Gdt.DOUBLE_FAULT_TSS_SELECTOR /\ if_flag (cpu k') = false /\ cr3 (cpu k') = cr3 (cpu k) /\
  cs (cpu k') = Tss.KERNEL_CODE_SELECTOR /\
  Tss.t_eip (Tss.main (tss k')) = Idt.eip (frame c) /\ Tss.previous_task_link (Tss.double_fault (tss k')) = Gdt.MAIN_TSS_SELECTOR.

(** What the processor finds in the GDT. *)
Lemma main_named (k : K) : gdt k = table_gdt p -> named_tss p k Gdt.MAIN_TSS_SELECTOR ACCESS_TSS_BUSY = Some MainTss.
Proof.
  intros Hg. unfold named_tss, Hw.descriptor_of. rewrite Hg. cbv zeta.
  change (table_gdt p !!! Z.to_nat (Z.shiftr Gdt.MAIN_TSS_SELECTOR 3))
    with (Z.lor (Gdt.descriptor_new (Image.main_tss_addr (image p)) 103 Gdt.ACCESS_TSS_AVAILABLE Gdt.FLAGS_TSS) (Z.shiftl 1 41)).
  destruct (DescriptorFacts.busy_tss_decodes _ (tp_main Htss)) as (-> & -> & ->).
  change (negb _) with false. cbv iota. by rewrite Z.eqb_refl.
Qed.

Lemma double_fault_named (k : K) : gdt k = table_gdt p ->
  named_tss p k Gdt.DOUBLE_FAULT_TSS_SELECTOR Gdt.ACCESS_TSS_AVAILABLE = Some DoubleFaultTss.
Proof.
  intros Hg. unfold named_tss, Hw.descriptor_of. rewrite Hg. cbv zeta.
  change (table_gdt p !!! Z.to_nat (Z.shiftr Gdt.DOUBLE_FAULT_TSS_SELECTOR 3))
    with (Gdt.descriptor_new (Image.double_fault_tss_addr (image p)) 103 Gdt.ACCESS_TSS_AVAILABLE Gdt.FLAGS_TSS).
  destruct (DescriptorFacts.tss_descriptor_decodes _ (tp_double_fault Htss)) as (-> & -> & ->).
  change (negb _) with false. cbv iota. destruct (Z.eqb_spec (Image.double_fault_tss_addr (image p)) (Image.main_tss_addr (image p))) as [He|_];
    [by destruct (tp_apart Htss)|by rewrite Z.eqb_refl].
Qed.

Lemma task_gate_taken E k0 k v code c : armed E k0 -> cpu k = cpu k0 -> tss k = tss k0 -> gdt k = gdt k0 ->
  exists k', follow p k v code c (Hw.ToTask Gdt.DOUBLE_FAULT_TSS_SELECTOR) = halted k' (double_fault_lines c (c_esp c)) /\
    log k' = log k /\ in_task c k k'.
Proof.
  intros Hk Hc Ht Hg. destruct (ar_task _ _ Hk) as (Hip & Hsp & Hcs & Hfl & Hcr). destruct (ar_cpu _ _ Hk) as (_ & _ & Htr & Hss).
  rewrite (ar_gdt _ _ Hk) in Hg. rewrite <-Hc in Htr, Hss, Hcr. rewrite <-Ht in Hip, Hsp, Hcs, Hfl, Hcr.
  unfold follow, call_task, task_switch. rewrite Htr, main_named, double_fault_named by done.
  cbn [outcome_of_option mbind outcome_bind get_tss set_tss Tss.main Tss.double_fault gdt tss
    Tss.t_eip Tss.t_esp Tss.t_cs Tss.t_eflags Tss.t_cr3]. rewrite Hip, Hsp, Hcs, Hfl, Hcr, Hg, Z.eqb_refl.
  change (flat_code (Hw.descriptor_of _ Tss.KERNEL_CODE_SELECTOR)) with true. cbn [andb]. rewrite reported_done.
  eexists. split.
  - unfold halted. cbn [fst snd]. unfold double_fault_report, double_fault_lines. cbn [tss Tss.interrupted_state Tss.main Tss.double_fault
      Tss.i_eip Tss.i_cs Tss.i_eflags Tss.i_esp Tss.i_ss Tss.i_ebp Tss.i_previous_task_link Tss.t_eip Tss.t_cs Tss.t_eflags Tss.t_esp
      Tss.t_ss Tss.t_ebp Tss.previous_task_link fst snd Tss.double_fault_stack_range].
    rewrite Hss. reflexivity.
  - split; [reflexivity|]. split_and!; [reflexivity|reflexivity| |reflexivity..].
    cbn [print cpu cr3]. by destruct (Paging.paging_is_enabled (cpu k)).
Qed.

Lemma double_fault_taken E k c : armed E k ->
  exists k', int p k 8 c = halted k' (double_fault_lines c (c_esp c)) /\ log k' = log k /\ in_task c k k'.
Proof. intros Hk. unfold int. gate Hk. by apply (task_gate_taken E k). Qed.

(** With the divide error's handler gone, its delivery faults. *)
Lemma escalated E k c : armed E k ->
  exists k', divl p {| k with idt := Idt.clear_handler (idt k) DIVIDE_ERROR |} 1 0 0 c = halted k' (double_fault_lines c (c_esp c)) /\
    log k' = log k /\ in_task c k k'.
Proof.
  intros Hk. unfold divl. cbn [Z.eqb orb]. unfold take_vector. cbn [idt]. unfold Idt.clear_handler.
  rewrite !InterruptFacts.lookup_gate_insert by (rewrite ?(ar_idt _ _ Hk); done).
  rewrite (decide_True (P := DIVIDE_ERROR = DIVIDE_ERROR)), (decide_False (P := DOUBLE_FAULT = DIVIDE_ERROR)) by done.
  change (Hw.gate_target Idt.MISSING) with Hw.NotPresent. change (escalates DIVIDE_ERROR) with true. cbv beta iota.
  rewrite (ar_vectors _ _ Hk) by (split; done).
  match goal with |- context [follow p ?k1] => exact (task_gate_taken E k k1 _ _ c Hk eq_refl eq_refl eq_refl) end.
Qed.

(** *** Interrupts nobody claims *)

Lemma stub_taken E k0 k v c : armed E k0 -> idt k = idt k0 -> 0 <= v < 256 ->
  InterruptFacts.expected (entries p) v = Hw.ToOffset Tss.KERNEL_CODE_SELECTOR (unhandled (entries p) v) ->
  int p k v c = ('(k', r) ← caught (masked k) v None c;
    Done (match r with Resume => {| k' with cpu := {| (cpu k') with if_flag := if_flag (cpu k) |} |} | Halt => k' end, r)).
Proof.
  intros Hk Hi Hb He. unfold int, take_vector. rewrite Hi, (ar_vectors _ _ Hk), He by done. cbv beta iota. unfold follow.
  by rewrite DeliverFacts.call_stub.
Qed.

(** What a resumed interrupt leaves behind. *)
Definition resumed (k : K) (d : D) (i : Interrupts.IState) (lines : list string) : K :=
  {| k with dev := d; ints := i; log := log k ++ diag_lines lines |}.

Definition marked (n : Z) (i : nat) (bit : Z) : Interrupts.IState := Interrupts.mkIState n (<[i := Z.shiftl 1 bit]> (replicate 8 0)).

Definition further : string := "    Further reports for this vector are suppressed.".

Definition spare_lines (c : Ctx) : list string :=
  [""; "*** UNHANDLED INTERRUPT #96: no handler"; frame_line None (frame c);
   "    Resuming - nothing can raise this vector but the kernel."; further].

Lemma spare_taken E k0 k c : armed E k0 -> idt k = idt k0 -> ints k = ints k0 ->
  int p k 0x60 c = Done (resumed k (dev k) (marked 1 3 0) (spare_lines c), Resume).
Proof.
  intros Hk Hi Hn. rewrite (stub_taken E k0) by done. rewrite caught_done. cbn [masked ints dev]. rewrite Hn, (ar_ints _ _ Hk).
  destruct k as [? [] ? ? ? ? ? ? ? ? ? ? ? ? ? ? ? ? ?]. reflexivity.
Qed.

(** The second time it is only counted. *)
Lemma spare_again E k0 k c : armed E k0 -> idt k = idt k0 -> ints k = marked 1 3 0 ->
  int p k 0x60 c = Done (resumed k (dev k) (marked 2 3 0) [], Resume).
Proof.
  intros Hk Hi Hn. rewrite (stub_taken E k0) by done. rewrite caught_done. cbn [masked ints dev]. rewrite Hn.
  destruct k as [? [] ? ? ? ? ? ? ? ? ? ? ? ? ? ? ? ? ?]. reflexivity.
Qed.

Lemma breakpoint_taken E k c : armed E k ->
  exists k', int p k 3 c = halted k' [""; "*** UNHANDLED INTERRUPT #3: breakpoint"; frame_line None (frame c);
    "    Halted - an unhandled CPU exception cannot be resumed."] /\ log k' = log k.
Proof.
  intros Hk. rewrite (stub_taken E k) by done. rewrite caught_done. cbn [masked ints dev]. rewrite (ar_ints _ _ Hk).
  eexists {| (masked k) with ints := marked 1 0 3 |}. split; [reflexivity|done].
Qed.

(** Nothing is in service, so that IRQ7 is taken for spurious. *)
Lemma spurious_taken E k c : armed E k ->
  int p k 0x27 c = Done (resumed k (fst (Pic.end_of_interrupt (dev k) 7)) (marked 1 1 7)
    [""; "*** UNHANDLED INTERRUPT #39: spurious IRQ7"; frame_line None (frame c);
     "    Resuming - spurious, so the PIC got no EOI."; further], Resume).
Proof.
  intros Hk. rewrite (stub_taken E k) by done. rewrite caught_done. cbn [masked ints dev]. rewrite (ar_ints _ _ Hk).
  destruct (PicFacts.eoi_cases (dev k) 7 ltac:(lia)) as (Hack & _). change (8 <=? 7) with false in Hack. cbv beta iota zeta in Hack. rewrite (ar_isr _ _ Hk) in Hack.
  unfold Interrupts.dispatch. change (Pic.irq_of_vector 39) with (Some 7). cbv iota.
  destruct (Pic.end_of_interrupt (dev k) 7) as [d ack]. cbn [fst snd] in *. subst ack.
  destruct k as [? [] ? ? ? ? ? ? ? ? ? ? ? ? ? ? ? ? ?]. reflexivity.
Qed.

(** *** Running out of stack *)

(** Only the image was written to, which no mapping depends on. *)
Definition stacked (k k' : K) : Prop :=
  exists m, k' = {| k with memory := m |} /\ forall a, ~ in_image p a -> m.[a] = (memory k).[a].

Section overflow.
Context (E : Z) (k0 : K) (Hk0 : armed E k0).
Context (Hmem : guard_page p mod 4096 = 0 /\ 0 <= (kernel_image p).1 <= guard_page p /\ (kernel_image p).2 <= E <= 2 ^ 32).

Lemma stacked_writable k a : stacked k0 k -> 0 <= a < (kernel_image p).2 ->
  writable k a = negb (a / 4096 * 4096 =? guard_page p).
Proof.
  intros (m & -> & Hm) Ha. unfold writable. cbn [memory cpu]. rewrite (ar_map _ _ Hk0 m a Hm) by lia.
  destruct (Z.ltb_spec a E); [|lia]. by destruct (_ =? _).
Qed.

Lemma above_guard a : guard_page p <= a -> (a / 4096 * 4096 =? guard_page p) = (a <? guard_page p + 4096).
Proof.
  intros Ha. pose proof (Z.div_mod (guard_page p) 4096 ltac:(lia)) as Hg. destruct Hmem as [Hal _]. rewrite Hal in Hg.
  destruct (Z.eqb_spec (a / 4096 * 4096) (guard_page p)), (Z.ltb_spec a (guard_page p + 4096)); try done; exfalso;
    Z.div_mod_to_equations; lia.
Qed.

Lemma poke_ok k a v : stacked k0 k -> guard_page p + 4096 <= a < (kernel_image p).2 ->
  exists k', poke k (a, v) = Some k' /\ stacked k0 k'.
Proof.
  intros Hs Ha. unfold poke. cbn [fst snd]. rewrite stacked_writable, above_guard by (done || lia).
  destruct (Z.ltb_spec a (guard_page p + 4096)); [lia|]. cbn [negb]. eexists. split; [reflexivity|].
  destruct Hs as (m & -> & Hm). eexists. split; [reflexivity|]. cbn [memory]. intros b Hb.
  rewrite load_store_ne; [by apply Hm|]. intros ->. apply Hb. unfold in_image. lia.
Qed.

Lemma poke_faults k a v : stacked k0 k -> guard_page p <= a < guard_page p + 4096 -> a < (kernel_image p).2 -> poke k (a, v) = None.
Proof.
  intros Hs Ha Hi. unfold poke. cbn [fst]. rewrite stacked_writable, above_guard by (done || lia).
  destruct (Z.ltb_spec a (guard_page p + 4096)); [done|lia].
Qed.

(** Stores above the bottom of the guard page either all succeed or hit it. *)
Lemma pokes_cases k ws : stacked k0 k -> Forall (fun w => guard_page p <= w.1 < (kernel_image p).2) ws ->
  exists k' b, pokes k ws = (k', b) /\ stacked k0 k' /\ (b = false -> exists w, w ∈ ws /\ w.1 < guard_page p + 4096).
Proof.
  intros Hs Hws. induction Hws as [|[a v] ws Ha Hws IH] in k, Hs |- *; [by exists k, true|]. cbn [fst] in Ha.
  destruct (decide (a < guard_page p + 4096)) as [Hlt|Hge]; cbn [pokes].
  - rewrite poke_faults by (done || lia). exists k, false. split_and!; [done..|]. intros _. exists (a, v). split; [left|done].
  - destruct (poke_ok k a v Hs ltac:(lia)) as (k1 & -> & Hs1). destruct (IH k1 Hs1) as (k' & b & E' & Hs' & Hb).
    exists k', b. split_and!; [done..|]. intros (w & Hw & Hlt)%Hb. exists w. split; [by right|done].
Qed.

(** The processor cannot push a frame into the guard page. *)
Lemma overflow_reported k esp c : stacked k0 k -> guard_page p + 4 <= esp < guard_page p + 4100 -> esp <= (kernel_image p).2 ->
  exists k', page_fault p k esp c = halted k' (double_fault_lines c esp) /\ log k' = log k0 /\ in_task c k0 k'.
Proof.
  intros Hs He Hi. unfold page_fault. cbn [forallb].
  rewrite (stacked_writable k (esp - 4 * 1)), above_guard by (done || lia).
  destruct (Z.ltb_spec (esp - 4 * 1) (guard_page p + 4096)); [|lia]. cbn [negb andb].
  destruct Hs as (m & -> & Hm). cbn [idt]. rewrite (ar_vectors _ _ Hk0) by (split; done).
  match goal with |- context [follow p ?k1 _ _ ?c1] => exact (task_gate_taken E k0 k1 _ _ c1 Hk0 eq_refl eq_refl eq_refl) end.
Qed.

Lemma blown o fuel k esp c : 0 <= o_pad o -> o_pad o + 256 <= o_size o <= 4092 ->
  stacked k0 k -> guard_page p + 4 <= esp <= (kernel_image p).2 -> esp < Z.of_nat fuel ->
  exists k' e, blow_stack p o fuel k esp c = halted k' (double_fault_lines c e) /\ log k' = log k0 /\
    in_task c k0 k' /\ guard_page p < e < guard_page p + 4100.
Proof.
  intros Hpad Hsize. induction fuel as [|fuel IH] in k, esp |- *; intros Hs Hesp Hf; [lia|]. cbn [blow_stack].
  destruct (decide (esp - 4 < guard_page p + 4096)) as [Hlt|Hge].
  { rewrite poke_faults by (done || lia). destruct (overflow_reported k esp c Hs ltac:(lia) ltac:(lia)) as (k' & E' & Hl & Hi).
    exists k', esp. split; [done|]. split; [done|]. split; [done|lia]. }
  destruct (poke_ok k (esp - 4) (o_ret o) Hs ltac:(lia)) as (k1 & -> & Hs1). set (esp1 := esp - 4 - o_size o).
  destruct (pokes_cases k1 (pad_writes (esp1 + o_pad o)) Hs1) as (k2 & b & -> & Hs2 & Hb).
  { unfold pad_writes. rewrite Forall_app, Forall_fmap. split; [|constructor; [cbn; lia|constructor]].
    apply Forall_forall. intros i Hi%elem_of_zrange. cbn. lia. }
  destruct b; [apply IH; [done|lia|lia]|]. destruct (Hb eq_refl) as (w & Hw & Hlt).
  assert (esp1 <= w.1) as Hle.
  { unfold pad_writes in Hw. rewrite elem_of_app, list_elem_of_fmap, list_elem_of_singleton in Hw.
    destruct Hw as [(i & -> & Hi%elem_of_zrange)| ->]; cbn; lia. }
  destruct (overflow_reported k2 esp1 c Hs2 ltac:(lia) ltac:(lia)) as (k' & E' & Hl & Hi).
  exists k', esp1. split; [done|]. split; [done|]. split; [done|lia].
Qed.

End overflow.

(** ** What each trigger shows *)

Section reaction.
Context (o : Overflow) (c c' : Ctx).

Definition unrecoverable (n : string) (code : option Z) : list string :=
  [""; "*** CPU EXCEPTION #" +:+ n; frame_line code (frame c); "    Halted - this exception is not recoverable."].

(** The lines a trigger and the handlers it reaches print, and how it ends. *)
Definition reaction (f : Feature) (lines : list string) (r : Control) : Prop :=
  match f with
  | DivideError => r = Halt /\ lines = "DEBUG: dividing by zero on purpose..." :: unrecoverable "0: divide error" None
  | InvalidOpcode => r = Halt /\
      lines = "DEBUG: executing a reserved instruction on purpose..." :: unrecoverable "6: invalid opcode" None
  | GeneralProtectionFault => r = Halt /\
      lines = "DEBUG: loading an out-of-range segment selector on purpose..." :: unrecoverable "13: general protection fault" (Some 0x38)
  | DoubleFault => r = Halt /\
      lines = ["DEBUG: unregistering the divide-error handler, then dividing by zero,";
               "DEBUG: so the CPU faults while trying to deliver the fault..."] ++ double_fault_lines c (c_esp c)
  | DoubleFaultGate => r = Halt /\
      lines = "DEBUG: taking vector 8 directly, to exercise the task gate..." :: double_fault_lines c (c_esp c)
  | StackOverflow => r = Halt /\ exists esp, guard_page p < esp < guard_page p + 4100 /\
      lines = ["DEBUG: overflowing the kernel stack on purpose...";
               "DEBUG: (esp should grow into the unmapped guard page and double-fault)"] ++ double_fault_lines c esp
  | UnhandledInterrupt => r = Resume /\
      lines = "DEBUG: taking vector 0x60, which nothing has registered..." :: spare_lines c ++
              ["DEBUG: resumed twice, reported once (2 unhandled so far)"]
  | UnhandledException => r = Halt /\
      lines = ["DEBUG: raising #3, an exception with no handler of its own..."; "";
               "*** UNHANDLED INTERRUPT #3: breakpoint"; frame_line None (frame c);
               "    Halted - an unhandled CPU exception cannot be resumed."]
  | SpuriousIrq => r = Resume /\
      lines = ["DEBUG: taking vector 39 (IRQ7), the spurious-interrupt line..."; "";
               "*** UNHANDLED INTERRUPT #39: spurious IRQ7"; frame_line None (frame c);
               "    Resuming - spurious, so the PIC got no EOI."; further;
               "DEBUG: resumed after the report (1 unhandled so far)"]
  | PrintReentrancy => r = Resume /\
      lines = "DEBUG: holding both print locks, then taking vector 0x60..." :: spare_lines c ++
              ["DEBUG: print reentrancy ok (handler reported while locks held; 1 unhandled)"]
  end.

(** How many interrupts nobody handled. *)
Definition counted (f : Feature) : Z :=
  match f with UnhandledInterrupt => 2 | UnhandledException | SpuriousIrq | PrintReentrancy => 1 | _ => 0 end.

(** The frame of [blow_stack] fits in the guard page, and the stack lies above it. *)
Record overflow_ok : Prop := {
  ov_pad : 0 <= o_pad o;
  ov_size : o_pad o + 256 <= o_size o <= 4092;
  ov_esp : guard_page p + 4 <= o_esp o <= (kernel_image p).2
}.

(** Which end in the double-fault task. *)
Definition double_faults (f : Feature) : bool :=
  match f with DoubleFault | DoubleFaultGate | StackOverflow => true | _ => false end.

Definition triggered (f : Feature) (k : K) : Prop :=
  exists k' lines r, triggers p (only f) o c c' k = Done (k', r) /\ reaction f lines r /\ log k' = log k ++ diag_lines lines /\
    (double_faults f = true -> in_task c k k') /\
    (r = Resume -> exists d i, k' = resumed k d i lines /\ Interrupts.unhandled_count i = counted f /\
      (d = dev k \/ d = fst (Pic.end_of_interrupt (dev k) 7))).

(** Evaluates the features that are off. *)
Ltac features :=
  unfold triggered, triggers, trigger_debug_exception, trigger_debug_interrupt, trigger_print_reentrancy, cfg;
  repeat match goal with |- context [only ?f ?g] => let b := eval vm_compute in (only f g) in change (only f g) with b end;
  cbv beta iota zeta delta [on_resume mbind outcome_bind]; repeat (rewrite say_said; cbv iota beta).

(** A trigger that halts the machine. *)
Lemma ends_halted f k k' ds lines : triggers p (only f) o c c' k = halted k' lines -> log k' = log k ++ diag_lines ds ->
  reaction f (ds ++ lines) Halt -> (double_faults f = true -> in_task c k k') -> triggered f k.
Proof.
  intros Ht Hl Hr Hd. eexists _, (ds ++ lines), Halt. split; [exact Ht|]. split_and!; [done| |done|done].
  unfold print. cbn [log]. rewrite Hl, <-app_assoc. f_equal. unfold diag_lines. by rewrite fmap_app, join_app.
Qed.

Lemma faults_triggered E k f : armed E k -> f = DivideError \/ f = InvalidOpcode \/ f = GeneralProtectionFault -> triggered f k.
Proof.
  intros Hk [->|[->| ->]].
  - eapply ends_halted with (ds := ["DEBUG: dividing by zero on purpose..."]);
      [features; rewrite (divide_error_taken E) by (by apply armed_said); reflexivity|done..].
  - eapply ends_halted with (ds := ["DEBUG: executing a reserved instruction on purpose..."]);
      [features; rewrite (invalid_opcode_taken E) by (by apply armed_said); reflexivity|done..].
  - eapply ends_halted with (ds := ["DEBUG: loading an out-of-range segment selector on purpose..."]);
      [features; rewrite (protection_fault_taken E) by (by apply armed_said); reflexivity|done..].
Qed.

Lemma double_faults_triggered E k f : armed E k -> f = DoubleFault \/ f = DoubleFaultGate -> triggered f k.
Proof.
  intros Hk [->| ->].
  - pose proof (escalated E (said (said k "DEBUG: unregistering the divide-error handler, then dividing by zero,")
      "DEBUG: so the CPU faults while trying to deliver the fault...") c ltac:(by do 2 apply armed_said)) as (k' & Ht & Hl & Hi).
    eapply (ends_halted _ _ k') with (ds := ["DEBUG: unregistering the divide-error handler, then dividing by zero,";
      "DEBUG: so the CPU faults while trying to deliver the fault..."]).
    + features. rewrite Ht. reflexivity.
    + rewrite Hl. cbn [said print log]. by rewrite <-app_assoc.
    + done.
    + intros _. exact Hi.
  - destruct (double_fault_taken E (said k "DEBUG: taking vector 8 directly, to exercise the task gate...") c
      ltac:(by apply armed_said)) as (k' & Ht & Hl & Hi).
    eapply (ends_halted _ _ k') with (ds := ["DEBUG: taking vector 8 directly, to exercise the task gate..."]).
    + features. rewrite Ht. reflexivity.
    + by rewrite Hl.
    + done.
    + intros _. exact Hi.
Qed.

Lemma overflow_triggered E k : armed E k -> overflow_ok ->
  guard_page p mod 4096 = 0 /\ 0 <= (kernel_image p).1 <= guard_page p /\ (kernel_image p).2 <= E <= 2 ^ 32 ->
  triggered StackOverflow k.
Proof.
  intros Hk [Hpad Hsize Hesp] Hmem.
  set (k1 := said (said k "DEBUG: overflowing the kernel stack on purpose...")
    "DEBUG: (esp should grow into the unmapped guard page and double-fault)").
  assert (armed E k1) as Hk1 by (by do 2 apply armed_said).
  destruct (blown E k1 Hk1 Hmem o (S (Z.to_nat (o_esp o))) k1 (o_esp o) c Hpad Hsize) as (k' & e & Ht & Hl & Hi & He); [|done|lia|].
  { exists (memory k1). split; [by destruct k|done]. }
  eapply (ends_halted _ _ k') with (ds := ["DEBUG: overflowing the kernel stack on purpose...";
    "DEBUG: (esp should grow into the unmapped guard page and double-fault)"]).
  - features. fold k1. rewrite Ht. reflexivity.
  - rewrite Hl. cbn [k1 said print log]. by rewrite <-app_assoc.
  - split; [done|]. by exists e.
  - intros _. exact Hi.
Qed.

Lemma exception_triggered E k : armed E k -> triggered UnhandledException k.
Proof.
  intros Hk. destruct (breakpoint_taken E (said k "DEBUG: raising #3, an exception with no handler of its own...") c
    ltac:(by apply armed_said)) as (k' & Ht & Hl).
  eapply (ends_halted _ _ k') with (ds := ["DEBUG: raising #3, an exception with no handler of its own..."]); [|by rewrite Hl|done|done].
  features. rewrite Ht. reflexivity.
Qed.

Lemma said_resumed k d i ls l : said (resumed k d i ls) l = resumed k d i (ls ++ [l]).
Proof.
  unfold said, print, resumed. cbn [log]. rewrite <-app_assoc. do 2 f_equal. unfold diag_lines.
  by rewrite fmap_app, join_app.
Qed.

Lemma resumed_resumed k d i ls d' i' ls' : resumed (resumed k d i ls) d' i' ls' = resumed k d' i' (ls ++ ls').
Proof. unfold resumed. cbn [log]. rewrite <-app_assoc. do 2 f_equal. unfold diag_lines. by rewrite fmap_app, join_app. Qed.

Lemma said_start k l : said k l = resumed k (dev k) (ints k) [l].
Proof. destruct k. unfold said, print, resumed, diag_lines. reflexivity. Qed.

(** A trigger that is resumed, and says so. *)
Lemma ends_resumed f k d i ls l : triggers p (only f) o c c' k = Done (said (resumed k d i ls) l, Resume) ->
  reaction f (ls ++ [l]) Resume -> double_faults f = false -> Interrupts.unhandled_count i = counted f ->
  (d = dev k \/ d = fst (Pic.end_of_interrupt (dev k) 7)) -> triggered f k.
Proof.
  intros Ht Hr Hdf Hn Hd. rewrite said_resumed in Ht. eexists _, (ls ++ [l]), Resume. split; [exact Ht|]. split; [exact Hr|].
  split; [reflexivity|]. rewrite Hdf. split; [discriminate|]. intros _. by exists d, i.
Qed.

Lemma interrupt_triggered E k : armed E k -> triggered UnhandledInterrupt k.
Proof.
  intros Hk. eapply ends_resumed; [features; rewrite (spare_taken E k), said_start by done; cbv iota;
    rewrite (spare_again E k) by done; cbv iota; rewrite say_said; cbv iota; rewrite !resumed_resumed; reflexivity|split; reflexivity|done|done|by left].
Qed.

Lemma spurious_triggered E k : armed E k -> triggered SpuriousIrq k.
Proof.
  intros Hk. eapply ends_resumed; [features; rewrite (spurious_taken E) by (by apply armed_said); cbv iota; rewrite say_said; cbv iota;
    rewrite (said_start k), resumed_resumed; reflexivity|split; reflexivity|done|done|by right].
Qed.

(** Whatever the lock's state, its holder finds it taken, and puts lock and
    interrupt flag back. *)
Lemma writer_held (k k' : K) f :
  f {| k with WRITER := mkMutex true (value (WRITER k)); cpu := cli (cpu k) |} = Done (k', Resume) ->
  WRITER k' = mkMutex true (value (WRITER k)) -> cpu k' = cli (cpu k) ->
  with_writer_held k f = Done ({| k' with WRITER := WRITER k; cpu := cpu k |}, Resume).
Proof.
  intros Hf Hw Hc. unfold with_writer_held. cbv zeta.
  rewrite (with_spec _ (WRITER k) (cpu k) (value (WRITER k)) (k', Resume)).
  - cbn [mbind outcome_bind]. by destruct (WRITER k).
  - rewrite Hf. cbn [mbind outcome_bind]. by rewrite Hw, Hc.
Qed.

Lemma serial_held (k k' : K) f :
  f {| k with SERIAL1 := mkMutex true (value (SERIAL1 k)); cpu := cli (cpu k) |} = Done (k', Resume) ->
  SERIAL1 k' = mkMutex true (value (SERIAL1 k)) -> cpu k' = cli (cpu k) ->
  with_serial_held k f = Done ({| k' with SERIAL1 := SERIAL1 k; cpu := cpu k |}, Resume).
Proof.
  intros Hf Hw Hc. unfold with_serial_held. cbv zeta.
  rewrite (with_spec _ (SERIAL1 k) (cpu k) (value (SERIAL1 k)) (k', Resume)).
  - cbn [mbind outcome_bind]. by destruct (SERIAL1 k).
  - rewrite Hf. cbn [mbind outcome_bind]. by rewrite Hw, Hc.
Qed.

(** Under both locks the handler prints all the same. *)
Lemma locks_released E k c0 : armed E k ->
  with_writer_held k (fun k => with_serial_held k (fun k => int p k 0x60 c0)) =
    Done (resumed k (dev k) (marked 1 3 0) (spare_lines c0), Resume).
Proof.
  intros Hk. erewrite writer_held; [|erewrite serial_held; [reflexivity|rewrite (spare_taken E k) by done; reflexivity|reflexivity..]|reflexivity..].
  by destruct k.
Qed.

Lemma reentrancy_triggered E k : armed E k -> triggered PrintReentrancy k.
Proof.
  intros Hk. eapply ends_resumed; [features; rewrite (locks_released E) by (by apply armed_said); cbv iota; rewrite say_said; cbv iota;
    rewrite (said_start k), resumed_resumed; reflexivity|split; reflexivity|done|done|by left].
Qed.

Lemma all_triggered E k f : armed E k -> overflow_ok ->
  guard_page p mod 4096 = 0 /\ 0 <= (kernel_image p).1 <= guard_page p /\ (kernel_image p).2 <= E <= 2 ^ 32 -> triggered f k.
Proof.
  intros Hk Ho Hm. destruct f; eauto using faults_triggered, double_faults_triggered, overflow_triggered, interrupt_triggered,
    exception_triggered, spurious_triggered, reentrancy_triggered.
Qed.

(** ** On the way through [kernel_main] *)

Lemma core_armed (k k1 : K) map t dir held ts pl s d es : memory_ok (kernel_image p) (guard_page p) map ->
  cored p map k k1 t dir held ts pl s -> (forall s, chips d s = lines 0xff (cleared (chips (dev k))) s) ->
  isr (chips (dev k) Master) = 0 -> armed (Paging.identity_map_end map) (enabled k1 d (ints k1) es).
Proof.
  intros Hmem [Ccpu Ctss _ _ Cints Cgdt Cidt Cvec _ _ (tabs & Ctree & Ctabs) Cheld _ _ [Cs Ce] _ _ _] Hch Hisr.
  split; cbn [enabled idt cpu tss gdt ints dev memory]; rewrite ?Ccpu, ?Ctss; try done.
  - split; [exact (as_u32_id _ (DeliverFacts.ho_task _ Hok))|split_and!; reflexivity].
  - by rewrite Hch.
  - intros m v Hm Hv.
    apply (mapping_kept p map Hmem (heap k1) s (memory k1) m Cs Ce (fun a _ => Hm a) dir held tabs v Ctree Ctabs); [|done].
    intros i Hi. destruct (Cheld i Hi) as (? & ? & _). done.
Qed.

(** A spurious IRQ7 changes nothing but which register the command port reads. *)
Lemma eoi_lines (d : D) ch : (forall s, chips d s = lines 0xff ch s) -> isr (ch Master) = 0 ->
  exists ch', (forall s, chips (fst (Pic.end_of_interrupt d 7)) s = lines 0xff ch' s) /\ forall s, isr (ch' s) = isr (ch s).
Proof.
  intros Hc Hi. destruct (PicFacts.eoi_cases d 7 ltac:(lia)) as (_ & Hs & HM & HS). cbv zeta in Hs, HM, HS.
  change (8 <=? 7) with false in HM, HS. cbv iota in HM, HS. rewrite (Hc Master) in HM at 1.
  exists (chips (fst (Pic.end_of_interrupt d 7))). split.
  - intros s. destruct (Hs s) as (E1 & E2 & E3 & E4 & E5 & _). rewrite Hc in E1, E2, E3, E4, E5. unfold lines in *. cbn in E1, E2, E3, E4, E5.
    destruct (chips (fst (Pic.end_of_interrupt d 7)) s). cbn in *. by subst.
  - intros []; rewrite ?HM, ?HS, Hc; cbn [lines isr]; rewrite ?Hi; [done|]. cbn [andb]. by rewrite Hc.
Qed.


Lemma no_features (k : K) : kernel_main_with p (fun _ => false) o c c' k = (k' ← kernel_main p k; Done (k', Resume)).
Proof. unfold kernel_main_with, kernel_main. by destruct (start_core p k). Qed.

(** C7: The debug triggers do what they are there to show. Build the kernel with
    any one of the ten trigger features and boot it on a machine as in
    [kernel_boots], with nothing in service at the controllers, the handlers
    linked at addresses of their own and the two TSSes apart in memory: the
    trigger prints its own lines, and what it raises
    reaches the handler meant for it. A division by zero, a reserved
    instruction, a bad selector (error code 0x38) and [int3] are reported with
    the interrupted state and halt. A lost divide-error handler, [int 8] and a
    stack overflow end in the double-fault task: the processor finds its TSS
    through the GDT, saves what it was doing in the other one, and runs the
    report with interrupts off, in the same address space, on the task's own
    stack - for the overflow with the interrupted stack pointer at the guard
    page, whatever frame size up to 4092 bytes the compiler chose. Vector 0x60
    (once reported, twice counted), a spurious IRQ7, and an interrupt taken
    while both writers' locks are held - the very locks its handler then prints
    under - are reported and resumed, and the kernel then boots to its prompt as
    if nothing had happened but for the count, with both locks free. *)
Theorem triggers_report (k : K) (map : Map.MemoryMap) (img : list Z) (f : Feature) : program_ok p -> overflow_ok -> loaded k ->
  Map.load (memory k) = map -> memory_ok (kernel_image p) (guard_page p) map ->
  disk_ok disk -> Packer.pack Packer.FILES = Some img -> GoatFsFacts.installed disk img ->
  (forall s, isr (chips (dev k) s) = 0) ->
  exists k1 k2 ls r, start_core p k = Done k1 /\ triggers p (only f) o c c' k1 = Done (k2, r) /\
    reaction f ls r /\ log k2 = log k1 ++ diag_lines ls /\ (double_faults f = true -> in_task c k1 k2) /\
    match r with
    | Halt => kernel_main_with p (only f) o c c' k = Done (k2, Halt)
    | Resume => exists k3 ch, kernel_main_with p (only f) o c c' k = Done (k3, Resume) /\
        up p map ch (counted f) k3 /\ forall s, isr (ch s) = 0
    end.
Proof.
  intros Hp Ho Hk Hmap Hmem Hd Himg Hinst Hisr.
  destruct (core_enabled p k map Hp Hk Hmap Hmem) as (k1 & t & dir & held & ts & pl & s & d & es & E0 & Hcore & Hi & Hc & Hs).
  pose proof (core_armed k k1 map t dir held ts pl s d es Hmem Hcore Hc (Hisr Master)) as Ha.
  destruct (all_triggered _ _ f Ha Ho) as (k2 & ls & r & Ht & Hr & Hl & Hdf & Hres).
  { destruct (mk_guard _ _ _ Hmem) as [Hg Hgi]. pose proof (mk_image _ _ _ Hmem). pose proof (mk_mapped _ _ _ Hmem).
    destruct (PagingFacts.identity_map_end_spec map) as (Hb & _). split_and!; lia. }
  eexists _, k2, ls, r. split; [exact E0|]. split; [exact Ht|]. split; [exact Hr|]. split; [exact Hl|]. split; [exact Hdf|].
  unfold kernel_main_with. rewrite E0. cbn [mbind outcome_bind]. rewrite Ht. destruct r; [|done].
  destruct (Hres eq_refl) as (d' & i & -> & <- & Hd').
  assert (Idle d' t /\ exists ch, (forall s, chips d' s = lines 0xff ch s) /\ forall s, isr (ch s) = 0) as (Hi' & ch & Hch & Hz).
  { destruct Hd' as [->| ->]; cbn [enabled dev].
    - split; [exact Hi|]. by eexists.
    - split; [by apply idle_eoi|]. destruct (eoi_lines d _ Hc (Hisr Master)) as (ch & H1 & H2). exists ch.
      split; [exact H1|]. intros x. rewrite H2. apply Hisr. }
  destruct (finish_up p k k1 map img t dir held ts pl s d' i (es ++ diag_lines ls) ch Hp Hk Hmem Hd Himg Hinst Hcore Hi' Hch)
    as (k3 & E3 & Hup).
  { apply (Forall_impl _ _ _ Hs). intros x. apply says_l. }
  exists k3, ch. split; [|done]. unfold on_resume. cbn [mbind outcome_bind].
  replace (resumed (enabled k1 d (ints k1) es) d' i ls) with (enabled k1 d' i (es ++ diag_lines ls))
    by (unfold enabled, resumed; cbn [log]; by rewrite app_assoc).
  by rewrite E3.
Qed.

End reaction.

End device.
(** ** On the concrete machine *)

(** A frame of 288 bytes with [pad] at its bottom, on the boot stack above the
    guard page. *)
Definition demo_overflow : Overflow := mkOverflow 288 16 0x12200 0x44ff0.

Definition demo_ctx : Ctx := mkCtx (Idt.mkFrame 0x12300 8 0x202) 0x44fc0 0x44fe0 0x40.

Lemma demo_overflow_ok : overflow_ok BootFacts.demo_program demo_overflow.
Proof. by split. Qed.

Lemma demo_tss_placed : tss_placed BootFacts.demo_program.
Proof. split; [split; reflexivity || discriminate..|]. vm_compute. discriminate. Qed.

Lemma triggers_report_witness :
  (exists k2 esp, kernel_main_with demo_program (only StackOverflow) demo_overflow demo_ctx demo_ctx demo_kernel = Done (k2, Halt) /\
    0x40000 < esp < 0x41004 /\
    exists ls, log k2 = ls ++ diag_lines (double_fault_lines demo_program demo_ctx esp)) /\
  (exists k3, kernel_main_with demo_program (only PrintReentrancy) demo_overflow demo_ctx demo_ctx demo_kernel = Done (k3, Resume) /\
    Interrupts.unhandled_count (ints k3) = 1 /\ WRITER k3 = Sync.new tt).
Proof.
  split.
  - destruct (triggers_report demo_program SystemFacts.demo_handlers_ok demo_tss_placed demo_overflow demo_ctx demo_ctx demo_kernel demo_map
      GoatFsSpec.shipped StackOverflow demo_program_ok demo_overflow_ok demo_loaded eq_refl demo_memory_ok
      GoatFsSpec.shipped_disk_ok demo_packed GoatFsSpec.shipped_installed ltac:(by intros []))
      as (k1 & k2 & ls & r & _ & _ & Hr & Hl & _ & Hm).
    destruct Hr as [Hr (esp & He & Hls)]. rewrite Hr in Hm. exists k2, esp. split; [exact Hm|]. split; [exact He|].
    rewrite Hl, Hls. unfold diag_lines. rewrite fmap_app, join_app, app_assoc. by eexists.
  - destruct (triggers_report demo_program SystemFacts.demo_handlers_ok demo_tss_placed demo_overflow demo_ctx demo_ctx demo_kernel demo_map
      GoatFsSpec.shipped PrintReentrancy demo_program_ok demo_overflow_ok demo_loaded eq_refl demo_memory_ok
      GoatFsSpec.shipped_disk_ok demo_packed GoatFsSpec.shipped_installed ltac:(by intros []))
      as (k1 & k2 & ls & r & _ & _ & Hr & _ & _ & Hm).
    destruct Hr as [Hr _]. rewrite Hr in Hm. destruct Hm as (k3 & ch & Hk & Hup & _). exists k3. split; [exact Hk|].
    exact (conj (proj2 (up_counts _ _ _ _ _ Hup)) (proj1 (up_locks _ _ _ _ _ Hup))).
Defined.

End TriggerFacts.
